(** * Reference processing of the HotSpot collector: a shallow embedding

    The definitions below follow
    [src/hotspot/share/gc/shared/referenceProcessor.cpp] function by
    function.  Java reference objects live in a heap that maps an address
    to the three fields the processor touches; the discovered lists are
    threaded through the [discovered] fields of these objects, as in the
    C++ code.  Unsigned C++ integers are integers with their wrap-around
    written out.  Logging and the measuring of time are left out. *)

From Stdlib Require Import ZArith Lia List Bool String.
From stdpp Require Import base numbers option list gmap.

Open Scope Z_scope.

(** ** Machine integers *)

(** [size_t] and [uintx] are 64 bits wide on the platforms of this file. *)
Definition size_t_range : Z := 2 ^ 64.
Definition uint_range : Z := 2 ^ 32.

(** Result of unsigned 64-bit arithmetic. *)
Definition wrap_size_t (z : Z) : Z := z mod size_t_range.
(** Result of unsigned 32-bit arithmetic. *)
Definition wrap_uint (z : Z) : Z := z mod uint_range.

(** ** Outcomes of a call *)

(** A call returns, aborts the VM ([assert], [guarantee],
    [ShouldNotReachHere]), leaves the defined behaviour of C++ (a field
    of a null or unknown object, an index outside its array, a division
    by zero), or exhausts the fuel that bounds a loop of the model. *)
Inductive Res (A : Type) : Type :=
| Ok (a : A)
| Fatal (msg : string)
| Fault
| OutOfFuel.
Arguments Ok {A} a.
Arguments Fatal {A} msg.
Arguments Fault {A}.
Arguments OutOfFuel {A}.

#[global] Instance res_ret : MRet Res := fun A a => Ok a.
#[global] Instance res_bind : MBind Res := fun A B k m =>
  match m with
  | Ok a => k a
  | Fatal msg => Fatal msg
  | Fault => Fault
  | OutOfFuel => OutOfFuel
  end.

(** An array element or an object field that may not exist. *)
Definition access {A : Type} (o : option A) : Res A :=
  match o with
  | Some a => Ok a
  | None => Fault
  end.

(** ** The heap of reference objects *)

(** An [oop] is the address of an object; [null] is the null pointer. *)
Abbreviation oop := N (only parsing).
Definition null : N := 0%N.

(** The fields of a [java.lang.ref.Reference] that the processor reads
    and writes. *)
Record Reference : Type := mkReference {
  referent : N;
  discovered : N;
  next : N
}.

Abbreviation Heap := (gmap N Reference) (only parsing).

(** Accessors of [java_lang_ref_Reference] (javaClasses.inline.hpp); the
    object must exist. *)
Module java_lang_ref_Reference.

Definition load (h : Heap) (o : oop) : option Reference :=
  if decide (o = null) then None else h !! o.

Definition get_discovered (h : Heap) (o : oop) : Res N :=
  r ← access (load h o); Ok (discovered r).

Definition unknown_referent_no_keepalive (h : Heap) (o : oop) : Res N :=
  r ← access (load h o); Ok (referent r).

Definition get_next (h : Heap) (o : oop) : Res N :=
  r ← access (load h o); Ok (next r).

Definition set_discovered_raw (h : Heap) (o : oop) (v : oop) : Res Heap :=
  r ← access (load h o);
  Ok (<[o := mkReference (referent r) v (next r)]> h).

Definition set_referent_raw (h : Heap) (o : oop) (v : oop) : Res Heap :=
  r ← access (load h o);
  Ok (<[o := mkReference v (discovered r) (next r)]> h).

Definition clear_referent_raw (h : Heap) (o : oop) : Res Heap :=
  set_referent_raw h o null.

Definition set_next_raw (h : Heap) (o : oop) (v : oop) : Res Heap :=
  r ← access (load h o);
  Ok (<[o := mkReference (referent r) (discovered r) v]> h).

End java_lang_ref_Reference.

(** ** DiscoveredList *)

(** Modelled from the spec: the class [DiscoveredList] is declared in
    referenceProcessor.hpp, which is not among the sources.  Following
    the data model of the spec it is a head reference and a length
    count; an empty list has a null head and length 0, and the element
    operations set the head and add to or subtract from the count. *)
Module DiscoveredList.

Record t : Type := mk { _oop_head : N; _len : Z }.

Definition head (d : t) : N := _oop_head d.
Definition length (d : t) : Z := _len d.
Definition set_head (o : oop) (d : t) : t := mk o (_len d).
Definition set_length (len : Z) (d : t) : t := mk (_oop_head d) len.
Definition is_empty (d : t) : bool := bool_decide (head d = null).
Definition inc_length (inc : Z) (d : t) : t :=
  mk (_oop_head d) (wrap_size_t (_len d + inc)).
Definition dec_length (dec : Z) (d : t) : t :=
  mk (_oop_head d) (wrap_size_t (_len d - dec)).
Definition add_as_head (o : oop) (d : t) : t :=
  mk o (wrap_size_t (_len d + 1)).
Definition clear (d : t) : t := mk null 0.

End DiscoveredList.

(** [ref_lists[i]] for reading and [ref_lists[i].f(..)] for updating. *)
Definition list_at (ls : list DiscoveredList.t) (i : Z) : Res DiscoveredList.t :=
  if i <? 0 then Fault else access (ls !! Z.to_nat i).

Definition list_update (ls : list DiscoveredList.t) (i : Z)
    (f : DiscoveredList.t -> DiscoveredList.t) : Res (list DiscoveredList.t) :=
  d ← list_at ls i; Ok (<[Z.to_nat i := f d]> ls).

(** ** Build configuration *)

(** [ASSERT] is defined in debug builds, [PRODUCT] in product builds. *)
Record Build : Type := mkBuild { ASSERT : bool; PRODUCT : bool }.

(** [assert(c, msg)]: checked in debug builds only. *)
Definition assert_ (b : Build) (c : bool) (msg : string) : Res unit :=
  if c then Ok tt else if ASSERT b then Fatal msg else Ok tt.

(** [guarantee(c, msg)]: checked wherever it is compiled. *)
Definition guarantee (c : bool) (msg : string) : Res unit :=
  if c then Ok tt else Fatal msg.

(** ** Queue balancing *)

Section Balance.

Variable build : Build.
(** The values of the members [_num_queues] and [_max_num_queues]. *)
Variables (num_queues max_num_queues : Z).

(** [for (uint i = 0; i < bound; ++i) total += lists[i].length();] *)
Fixpoint sum_lengths (ls : list DiscoveredList.t) (k : nat) (i : Z) (total : Z) : Res Z :=
  match k with
  | O => Ok total
  | S k' =>
      d ← list_at ls i;
      sum_lengths ls k' (i + 1) (wrap_size_t (total + DiscoveredList.length d))
  end.

(** The inner [for] of [balance_queues]: walk [j] links from the head
    to find the element on which the list is split. *)
Fixpoint find_split (h : Heap) (j : nat) (move_tail new_head : oop) : Res (N * N) :=
  match j with
  | O => Ok (move_tail, new_head)
  | S j' =>
      d ← java_lang_ref_Reference.get_discovered h new_head;
      find_split h j' new_head d
  end.

(** One splice of [refs_to_move] entries from [from_idx] to [to_idx]. *)
Definition move_refs (from_idx to_idx refs_to_move : Z)
    (ls : list DiscoveredList.t) (h : Heap) : Res (list DiscoveredList.t * Heap) :=
  from_list ← list_at ls from_idx;
  let move_head := DiscoveredList.head from_list in
  '(move_tail, new_head) ←
     find_split h (Z.to_nat refs_to_move) move_head move_head;
  (* Add the chain to the to list. *)
  to_list ← list_at ls to_idx;
  h1 ← (if decide (DiscoveredList.head to_list = null)
         then java_lang_ref_Reference.set_discovered_raw h move_tail move_tail
         else java_lang_ref_Reference.set_discovered_raw h move_tail
                (DiscoveredList.head to_list));
  ls1 ← list_update ls to_idx (DiscoveredList.set_head move_head);
  ls2 ← list_update ls1 to_idx (DiscoveredList.inc_length refs_to_move);
  (* [inc_length] asserts that the new length is positive *)
  to_list2 ← list_at ls2 to_idx;
  assert_ build (0 <? DiscoveredList.length to_list2) "Error";;
  (* Remove the chain from the from list. *)
  ls3 ← (if decide (move_tail = new_head)
          then list_update ls2 from_idx (DiscoveredList.set_head null)
          else list_update ls2 from_idx (DiscoveredList.set_head new_head));
  ls4 ← list_update ls3 from_idx (DiscoveredList.dec_length refs_to_move);
  Ok (ls4, h1).

(** [while (remaining_to_move > 0)]. *)
Fixpoint move_loop (fuel : nat) (avg_refs from_idx to_idx remaining_to_move : Z)
    (ls : list DiscoveredList.t) (h : Heap) : Res (Z * list DiscoveredList.t * Heap) :=
  match fuel with
  | O => OutOfFuel
  | S fuel' =>
      if 0 <? remaining_to_move then
        assert_ build (to_idx <? num_queues) "Sanity Check!";;
        to_list ← list_at ls to_idx;
        let to_len := DiscoveredList.length to_list in
        if avg_refs <=? to_len then
          (* this list is full enough; move on to next *)
          move_loop fuel' avg_refs from_idx (wrap_uint (to_idx + 1)) remaining_to_move ls h
        else
          let refs_to_move := Z.min remaining_to_move (wrap_size_t (avg_refs - to_len)) in
          assert_ build (0 <? refs_to_move) "otherwise the code below will fail";;
          '(ls', h') ← move_refs from_idx to_idx refs_to_move ls h;
          move_loop fuel' avg_refs from_idx to_idx
            (wrap_size_t (remaining_to_move - refs_to_move)) ls' h'
      else Ok (to_idx, ls, h)
  end.

(** [for (uint from_idx = 0; from_idx < _max_num_queues; from_idx++)],
    with [k] iterations left. *)
Fixpoint from_loop (fuel : nat) (k : nat) (avg_refs from_idx to_idx : Z)
    (ls : list DiscoveredList.t) (h : Heap) : Res (list DiscoveredList.t * Heap) :=
  match k with
  | O => Ok (ls, h)
  | S k' =>
      from_list ← list_at ls from_idx;
      let from_len := DiscoveredList.length from_list in
      let remaining_to_move :=
        if num_queues <=? from_idx then
          (* Move all *)
          from_len
        else
          (* Move those above avg_refs *)
          if avg_refs <? from_len then wrap_size_t (from_len - avg_refs) else 0 in
      '(to_idx', ls', h') ←
         move_loop fuel avg_refs from_idx to_idx remaining_to_move ls h;
      from_loop fuel k' avg_refs (from_idx + 1) to_idx' ls' h'
  end.

Definition balance_queues (fuel : nat) (ref_lists : list DiscoveredList.t) (h : Heap)
    : Res (list DiscoveredList.t * Heap) :=
  (* calculate total length *)
  total_refs ← sum_lengths ref_lists (Z.to_nat max_num_queues) 0 0;
  (if decide (num_queues = 0) then Fault else Ok tt);;
  let avg_refs := wrap_size_t (total_refs / num_queues + 1) in
  '(ls', h') ←
     from_loop fuel (Z.to_nat max_num_queues) avg_refs 0 0 ref_lists h;
  (if ASSERT build then
     balanced_total_refs ← sum_lengths ls' (Z.to_nat num_queues) 0 0;
     assert_ build (total_refs =? balanced_total_refs) "Balancing was incomplete"
   else Ok tt);;
  Ok (ls', h').

End Balance.

(** ** The chains behind the lists *)

(** [lseg h p l q]: starting at [p] and following the [discovered]
    fields one visits exactly the objects of [l] and arrives at [q]. *)
Fixpoint lseg (h : Heap) (p : oop) (l : list N) (q : oop) : Prop :=
  match l with
  | [] => p = q
  | x :: l' =>
      p = x /\
      exists r, java_lang_ref_Reference.load h x = Some r /\ lseg h (discovered r) l' q
  end.

(** The list [d] holds the objects [l], head first: the count is their
    number and the last object points to itself. *)
Definition is_list (h : Heap) (d : DiscoveredList.t) (l : list N) : Prop :=
  DiscoveredList.length d = Z.of_nat (length l) /\
  match l with
  | [] => DiscoveredList.head d = null
  | _ :: _ => lseg h (DiscoveredList.head d) l (List.last l null)
  end.

(** No object is on two lists or twice on one. *)
Definition separate (abs : list (list N)) : Prop :=
  (forall i l, abs !! i = Some l -> NoDup l) /\
  (forall i j li lj x,
      abs !! i = Some li -> abs !! j = Some lj -> x ∈ li -> x ∈ lj -> i = j).

(** The array [ls] of lists holds the objects [abs], queue by queue. *)
Definition are_lists (h : Heap) (ls : list DiscoveredList.t) (abs : list (list N)) : Prop :=
  Forall2 (is_list h) ls abs /\ separate abs.

(** The sum of the counts, as a mathematical integer. *)
Definition total_length (ls : list DiscoveredList.t) : Z :=
  foldr (fun d acc => DiscoveredList.length d + acc) 0 ls.

(** ** What the balancing loops maintain *)

Section BalanceInvariant.

Variables (num_queues avg_refs : Z).

(** Queues below [to_idx] are filled up to the average; queues below
    [from_idx] have given away their excess (all of their entries
    when they are not active). *)
Definition balanced_before (from_idx : nat) (to_idx : Z)
    (ls : list DiscoveredList.t) : Prop :=
  0 <= to_idx <= num_queues /\
  (forall (j : nat) d,
      Z.of_nat j < to_idx -> ls !! j = Some d -> avg_refs <= DiscoveredList.length d) /\
  (forall (j : nat) d,
      (j < from_idx)%nat -> ls !! j = Some d ->
      if Z.of_nat j <? num_queues
      then DiscoveredList.length d <= avg_refs
      else DiscoveredList.length d = 0).

(** The count a source queue is to keep. *)
Definition keep_count (from_idx : nat) : Z :=
  if Z.of_nat from_idx <? num_queues then avg_refs else 0.

(** The source queue still has [remaining_to_move] entries too many. *)
Definition moving_from (from_idx : nat) (remaining_to_move : Z)
    (ls : list DiscoveredList.t) : Prop :=
  exists d, ls !! from_idx = Some d /\
    0 <= remaining_to_move <= DiscoveredList.length d /\
    DiscoveredList.length d <= keep_count from_idx + remaining_to_move /\
    (0 < remaining_to_move ->
     DiscoveredList.length d = keep_count from_idx + remaining_to_move).

End BalanceInvariant.

(** ** Reference categories and phases *)

Inductive ReferenceType : Type :=
| REF_NONE | REF_SOFT | REF_WEAK | REF_FINAL | REF_PHANTOM.

#[global] Instance ReferenceType_eq_dec : EqDecision ReferenceType.
Proof. solve_decision. Defined.

Inductive RefProcPhases : Type :=
| SoftWeakFinalRefsPhase | KeepAliveFinalRefsPhase | PhantomRefsPhase.

#[global] Instance RefProcPhases_eq_dec : EqDecision RefProcPhases.
Proof. solve_decision. Defined.

(** ** Configuration and collaborators *)

(** The VM flags the file reads, and the processor count of the
    platform ([os::active_processor_count()], an [int]). *)
Record Flags : Type := mkFlags {
  ParallelRefProcEnabled : bool;
  ParallelRefProcBalancingEnabled : bool;
  RegisterReferences : bool;
  ReferencesPerThread : Z;
  UseG1GC : bool;
  active_processor_count : Z
}.

(** The closures handed to the processor by the collector.  [G] is the
    state of the tracer behind them (mark bits, marking stacks).
    [keep_alive g v] is [keep_alive->do_oop(addr)] for a field holding
    [v]: it yields the tracer state afterwards and the value it leaves
    in the field (a moving collector updates it). *)
Record Collaborators (G : Type) : Type := mkCollaborators {
  is_alive : G -> N -> bool;
  keep_alive : G -> N -> G * N;
  complete_gc : G -> G;
  is_subject_to_discovery : G -> N -> bool;
  is_alive_non_header : option (G -> N -> bool);
  should_clear_reference : N -> Z -> bool
}.
Arguments is_alive {G} _ _ _.
Arguments keep_alive {G} _ _ _.
Arguments complete_gc {G} _ _.
Arguments is_subject_to_discovery {G} _ _ _.
Arguments is_alive_non_header {G} _.
Arguments should_clear_reference {G} _ _ _.

(** ** The state the processor works on *)

(** The heap, the head of the pending list
    ([Universe::_reference_pending_list]), the state of the tracer, and
    a record of the reference objects whose referent field was handed
    to [keep_alive], latest first. *)
Record World (G : Type) : Type := mkWorld {
  heap : gmap N Reference;
  pending_list : N;
  gc : G;
  kept_alive : list N
}.
Arguments mkWorld {G} _ _ _ _.
Arguments heap {G} _.
Arguments pending_list {G} _.
Arguments gc {G} _.
Arguments kept_alive {G} _.

Definition set_heap {G : Type} (h : Heap) (w : World G) : World G :=
  mkWorld h (pending_list w) (gc w) (kept_alive w).
Definition set_pending_list {G : Type} (p : oop) (w : World G) : World G :=
  mkWorld (heap w) p (gc w) (kept_alive w).
Definition set_gc {G : Type} (g : G) (w : World G) : World G :=
  mkWorld (heap w) (pending_list w) g (kept_alive w).

(** [Universe::swap_reference_pending_list]: install a new head and
    return the previous one, atomically. *)
Definition swap_reference_pending_list {G : Type} (o : oop) (w : World G) : N * World G :=
  (pending_list w, set_pending_list o w).

(** ** DiscoveredListIterator *)

(** The address of a field holding a link: the head of the list or the
    [discovered] field of an object. *)
Inductive FieldAddr : Type :=
| AdrHead
| AdrDiscovered (o : N).

#[global] Instance FieldAddr_eq_dec : EqDecision FieldAddr.
Proof. solve_decision. Defined.

(** The members of the iterator.  [_refs_list] is a reference to the
    list in C++; here the iterator carries the list while it walks and
    hands it back at the end.  A null [_current_discovered_addr] is
    [None]. *)
Record DiscoveredListIterator : Type := mkIter {
  _refs_list : DiscoveredList.t;
  _prev_discovered_addr : FieldAddr;
  _prev_discovered : N;
  _current_discovered : N;
  _current_discovered_addr : option FieldAddr;
  _next_discovered : N;
  _referent : N;
  _first_seen : N;
  _processed : Z;
  _removed : Z
}.

Definition obj (it : DiscoveredListIterator) : N := _current_discovered it.
Definition removed (it : DiscoveredListIterator) : Z := _removed it.
Definition processed (it : DiscoveredListIterator) : Z := _processed it.

(** [oopDesc::is_oop]: the address of an object; null is not one. *)
Definition is_oop (o : oop) : bool := negb (bool_decide (o = null)).

Section Iterator.

Context {G : Type}.
Variable build : Build.
Variable env : Collaborators G.

(** Modelled from the spec: the constructor is defined in
    referenceProcessor.inline.hpp, which is not among the sources.
    The cursor starts at the head of the list, with the head as the
    link to rewrite and no previous object. *)
Definition new_iterator (refs_list : DiscoveredList.t) : DiscoveredListIterator :=
  mkIter refs_list AdrHead null (DiscoveredList.head refs_list) None null null
         (DiscoveredList.head refs_list) 0 0.

(** Modelled from the spec: [has_next] is an inline member of the
    header; it is true while unvisited entries remain. *)
Definition has_next (it : DiscoveredListIterator) : bool :=
  negb (bool_decide (_current_discovered it = null)).

(** A store through a link address. *)
Definition oop_store (a : FieldAddr) (v : oop) (it : DiscoveredListIterator)
    (w : World G) : Res (DiscoveredListIterator * World G) :=
  match a with
  | AdrHead =>
      Ok (mkIter (DiscoveredList.set_head v (_refs_list it))
            (_prev_discovered_addr it) (_prev_discovered it) (_current_discovered it)
            (_current_discovered_addr it) (_next_discovered it) (_referent it)
            (_first_seen it) (_processed it) (_removed it), w)
  | AdrDiscovered o =>
      h ← java_lang_ref_Reference.set_discovered_raw (heap w) o v;
      Ok (it, set_heap h w)
  end.

Definition load_ptrs (allow_null_referent : bool) (it : DiscoveredListIterator)
    (w : World G) : Res DiscoveredListIterator :=
  discovered ← java_lang_ref_Reference.get_discovered (heap w) (_current_discovered it);
  referent ← java_lang_ref_Reference.unknown_referent_no_keepalive (heap w)
               (_current_discovered it);
  assert_ build (if allow_null_referent then true else is_oop referent)
    "Expected an oop for referent field";;
  Ok (mkIter (_refs_list it) (_prev_discovered_addr it) (_prev_discovered it)
        (_current_discovered it) (Some (AdrDiscovered (_current_discovered it)))
        discovered referent (_first_seen it) (_processed it) (_removed it)).

Definition is_referent_alive (it : DiscoveredListIterator) (w : World G) : bool :=
  is_alive env (gc w) (_referent it).

(** Modelled from the spec: [move_to_next] is an inline member of the
    header.  An object that points to itself is the last one. *)
Definition move_to_next (it : DiscoveredListIterator) : Res DiscoveredListIterator :=
  let current :=
    if decide (_current_discovered it = _next_discovered it)
    then null (* End of the list. *)
    else _next_discovered it in
  assert_ build (negb (bool_decide (current = _first_seen it))) "cyclic ref_list found";;
  Ok (mkIter (_refs_list it) (_prev_discovered_addr it) (_prev_discovered it)
        current (_current_discovered_addr it) (_next_discovered it) (_referent it)
        (_first_seen it) (wrap_size_t (_processed it + 1)) (_removed it)).

(** Modelled from the spec: [next] is an inline member of the header;
    it keeps the current object in the list and moves on. *)
Definition iter_next (it : DiscoveredListIterator) : Res DiscoveredListIterator :=
  a ← access (_current_discovered_addr it);
  move_to_next
    (mkIter (_refs_list it) a (_current_discovered it)
       (_current_discovered it) (_current_discovered_addr it) (_next_discovered it)
       (_referent it) (_first_seen it) (_processed it) (_removed it)).

Definition remove (it : DiscoveredListIterator) (w : World G)
    : Res (DiscoveredListIterator * World G) :=
  assert_ build (is_oop (_current_discovered it)) "Dropping a bad reference";;
  a ← access (_current_discovered_addr it);
  '(it1, w1) ← oop_store a null it w;
  let new_next :=
    if decide (_next_discovered it1 = _current_discovered it1)
    then
      (* At the end of the list, we should make _prev point to itself. *)
      _prev_discovered it1
    else _next_discovered it1 in
  '(it2, w2) ← oop_store (_prev_discovered_addr it1) new_next it1 w1;
  Ok (mkIter (DiscoveredList.dec_length 1 (_refs_list it2))
        (_prev_discovered_addr it2) (_prev_discovered it2) (_current_discovered it2)
        (_current_discovered_addr it2) (_next_discovered it2) (_referent it2)
        (_first_seen it2) (_processed it2) (wrap_size_t (_removed it2 + 1)), w2).

Definition make_referent_alive (it : DiscoveredListIterator) (w : World G)
    : Res (World G) :=
  v ← java_lang_ref_Reference.unknown_referent_no_keepalive (heap w)
        (_current_discovered it);
  let '(g, v') := keep_alive env (gc w) v in
  h ← java_lang_ref_Reference.set_referent_raw (heap w) (_current_discovered it) v';
  Ok (mkWorld h (pending_list w) g (_current_discovered it :: kept_alive w)).

Definition clear_referent (it : DiscoveredListIterator) (w : World G) : Res (World G) :=
  h ← java_lang_ref_Reference.clear_referent_raw (heap w) (_current_discovered it);
  Ok (set_heap h w).

(** Both branches store the current object through the previous
    link; they differ in the barrier only. *)
Definition enqueue (it : DiscoveredListIterator) (w : World G)
    : Res (DiscoveredListIterator * World G) :=
  if decide (_prev_discovered_addr it <> AdrHead)
  then oop_store (_prev_discovered_addr it) (_current_discovered it) it w
  else oop_store (_prev_discovered_addr it) (_current_discovered it) it w.

Definition complete_enqueue (it : DiscoveredListIterator) (w : World G)
    : Res (World G) :=
  if decide (_prev_discovered it <> null) then
    (* This is the last object. *)
    let '(old, w1) :=
      swap_reference_pending_list (DiscoveredList.head (_refs_list it)) w in
    h ← java_lang_ref_Reference.set_discovered_raw (heap w1) (_prev_discovered it) old;
    Ok (set_heap h w1)
  else Ok w.

(** [while (iter.has_next())] of [process_discovered_list_work]. *)
Fixpoint process_discovered_list_loop (fuel : nat) (discovery_is_concurrent : bool)
    (do_enqueue_and_clear : bool) (it : DiscoveredListIterator) (w : World G)
    : Res (DiscoveredListIterator * World G) :=
  match fuel with
  | O => OutOfFuel
  | S fuel' =>
      if has_next it then
        it1 ← load_ptrs discovery_is_concurrent it w;
        if decide (_referent it1 = null) then
          (* Reference has been cleared since discovery *)
          '(it2, w2) ← remove it1 w;
          it3 ← move_to_next it2;
          process_discovered_list_loop fuel' discovery_is_concurrent
            do_enqueue_and_clear it3 w2
        else if is_referent_alive it1 w then
          (* The referent is reachable after all. *)
          '(it2, w2) ← remove it1 w;
          w3 ← make_referent_alive it2 w2;
          it3 ← move_to_next it2;
          process_discovered_list_loop fuel' discovery_is_concurrent
            do_enqueue_and_clear it3 w3
        else
          '(it2, w2) ←
             (if do_enqueue_and_clear then
                w1 ← clear_referent it1 w;
                '(it2, w2) ← enqueue it1 w1;
                assert_ build (is_oop (obj it2)) "Adding a bad reference";;
                Ok (it2, w2)
              else Ok (it1, w));
          (* Keep in discovered list *)
          it3 ← iter_next it2;
          process_discovered_list_loop fuel' discovery_is_concurrent
            do_enqueue_and_clear it3 w2
      else Ok (it, w)
  end.

Definition process_discovered_list_work (fuel : nat) (discovery_is_concurrent : bool)
    (refs_list : DiscoveredList.t) (do_enqueue_and_clear : bool) (w : World G)
    : Res (Z * DiscoveredList.t * World G) :=
  '(it, w1) ← process_discovered_list_loop fuel discovery_is_concurrent
                do_enqueue_and_clear (new_iterator refs_list) w;
  '(refs_list', w2) ←
     (if do_enqueue_and_clear then
        w2 ← complete_enqueue it w1;
        Ok (DiscoveredList.clear (_refs_list it), w2)
      else Ok (_refs_list it, w1));
  Ok (removed it, refs_list', w2).

(** [while (iter.has_next())] of [process_final_keep_alive_work]. *)
Fixpoint process_final_keep_alive_loop (fuel : nat) (it : DiscoveredListIterator)
    (w : World G) : Res (DiscoveredListIterator * World G) :=
  match fuel with
  | O => OutOfFuel
  | S fuel' =>
      if has_next it then
        it1 ← load_ptrs false it w;
        (* keep the referent and followers around *)
        w1 ← make_referent_alive it1 w;
        (* Self-loop next, to mark the FinalReference not active. *)
        n ← java_lang_ref_Reference.get_next (heap w1) (obj it1);
        assert_ build (bool_decide (n = null)) "enqueued FinalReference";;
        h ← java_lang_ref_Reference.set_next_raw (heap w1) (obj it1) (obj it1);
        '(it2, w2) ← enqueue it1 (set_heap h w1);
        assert_ build (is_oop (obj it2)) "Adding a bad reference";;
        it3 ← iter_next it2;
        process_final_keep_alive_loop fuel' it3 w2
      else Ok (it, w)
  end.

Definition process_final_keep_alive_work (fuel : nat) (refs_list : DiscoveredList.t)
    (w : World G) : Res (Z * DiscoveredList.t * World G) :=
  '(it, w1) ← process_final_keep_alive_loop fuel (new_iterator refs_list) w;
  w2 ← complete_enqueue it w1;
  let refs_list' := DiscoveredList.clear (_refs_list it) in
  assert_ build (removed it =? 0) "This phase does not remove anything.";;
  Ok (removed it, refs_list', w2).

End Iterator.

(** ** ReferenceProcessor *)

(** The members of the processor.  The C++ object holds one array of
    [4 * _max_num_queues] lists and a pointer to the first list of each
    category; here each category has its window of [_max_num_queues]
    lists. *)
Record ReferenceProcessor : Type := mkRP {
  _discovering_refs : bool;
  _discovery_is_concurrent : bool;
  _discovery_is_mt : bool;
  _next_id : Z;
  _num_queues : Z;
  _max_num_queues : Z;
  _discoveredSoftRefs : list DiscoveredList.t;
  _discoveredWeakRefs : list DiscoveredList.t;
  _discoveredFinalRefs : list DiscoveredList.t;
  _discoveredPhantomRefs : list DiscoveredList.t
}.

Definition set_discovering_refs (b : bool) (rp : ReferenceProcessor) : ReferenceProcessor :=
  mkRP b (_discovery_is_concurrent rp) (_discovery_is_mt rp) (_next_id rp)
       (_num_queues rp) (_max_num_queues rp) (_discoveredSoftRefs rp)
       (_discoveredWeakRefs rp) (_discoveredFinalRefs rp) (_discoveredPhantomRefs rp).

Definition set_next_id (v : Z) (rp : ReferenceProcessor) : ReferenceProcessor :=
  mkRP (_discovering_refs rp) (_discovery_is_concurrent rp) (_discovery_is_mt rp) v
       (_num_queues rp) (_max_num_queues rp) (_discoveredSoftRefs rp)
       (_discoveredWeakRefs rp) (_discoveredFinalRefs rp) (_discoveredPhantomRefs rp).

Definition set_num_queues (v : Z) (rp : ReferenceProcessor) : ReferenceProcessor :=
  mkRP (_discovering_refs rp) (_discovery_is_concurrent rp) (_discovery_is_mt rp)
       (_next_id rp) v (_max_num_queues rp) (_discoveredSoftRefs rp)
       (_discoveredWeakRefs rp) (_discoveredFinalRefs rp) (_discoveredPhantomRefs rp).

(** The window of a category; [REF_NONE] has none
    ([ShouldNotReachHere]). *)
Definition discovered_lists (rt : ReferenceType) (rp : ReferenceProcessor)
    : Res (list DiscoveredList.t) :=
  match rt with
  | REF_SOFT => Ok (_discoveredSoftRefs rp)
  | REF_WEAK => Ok (_discoveredWeakRefs rp)
  | REF_FINAL => Ok (_discoveredFinalRefs rp)
  | REF_PHANTOM => Ok (_discoveredPhantomRefs rp)
  | REF_NONE => Fatal "ShouldNotReachHere"
  end.

Definition set_discovered_lists (rt : ReferenceType) (ls : list DiscoveredList.t)
    (rp : ReferenceProcessor) : ReferenceProcessor :=
  mkRP (_discovering_refs rp) (_discovery_is_concurrent rp) (_discovery_is_mt rp)
       (_next_id rp) (_num_queues rp) (_max_num_queues rp)
       (if decide (rt = REF_SOFT) then ls else _discoveredSoftRefs rp)
       (if decide (rt = REF_WEAK) then ls else _discoveredWeakRefs rp)
       (if decide (rt = REF_FINAL) then ls else _discoveredFinalRefs rp)
       (if decide (rt = REF_PHANTOM) then ls else _discoveredPhantomRefs rp).

(** The numbers of [ReferenceProcessorPhaseTimes] that the processor
    writes and reads back. *)
Record PhaseTimes : Type := mkPhaseTimes {
  ref_discovered_soft : Z;
  ref_discovered_weak : Z;
  ref_discovered_final : Z;
  ref_discovered_phantom : Z;
  ref_dropped_soft : Z;
  ref_dropped_weak : Z;
  ref_dropped_final : Z;
  ref_dropped_phantom : Z;
  pt_processing_is_mt : bool
}.

Definition ref_discovered (rt : ReferenceType) (pt : PhaseTimes) : Z :=
  match rt with
  | REF_SOFT => ref_discovered_soft pt
  | REF_WEAK => ref_discovered_weak pt
  | REF_FINAL => ref_discovered_final pt
  | REF_PHANTOM => ref_discovered_phantom pt
  | REF_NONE => 0
  end.

Definition set_ref_discovered (rt : ReferenceType) (v : Z) (pt : PhaseTimes) : PhaseTimes :=
  mkPhaseTimes
    (if decide (rt = REF_SOFT) then v else ref_discovered_soft pt)
    (if decide (rt = REF_WEAK) then v else ref_discovered_weak pt)
    (if decide (rt = REF_FINAL) then v else ref_discovered_final pt)
    (if decide (rt = REF_PHANTOM) then v else ref_discovered_phantom pt)
    (ref_dropped_soft pt) (ref_dropped_weak pt) (ref_dropped_final pt)
    (ref_dropped_phantom pt) (pt_processing_is_mt pt).

Definition add_ref_dropped (rt : ReferenceType) (v : Z) (pt : PhaseTimes) : PhaseTimes :=
  mkPhaseTimes
    (ref_discovered_soft pt) (ref_discovered_weak pt) (ref_discovered_final pt)
    (ref_discovered_phantom pt)
    (if decide (rt = REF_SOFT) then wrap_size_t (ref_dropped_soft pt + v)
     else ref_dropped_soft pt)
    (if decide (rt = REF_WEAK) then wrap_size_t (ref_dropped_weak pt + v)
     else ref_dropped_weak pt)
    (if decide (rt = REF_FINAL) then wrap_size_t (ref_dropped_final pt + v)
     else ref_dropped_final pt)
    (if decide (rt = REF_PHANTOM) then wrap_size_t (ref_dropped_phantom pt + v)
     else ref_dropped_phantom pt)
    (pt_processing_is_mt pt).

Definition set_processing_is_mt (b : bool) (pt : PhaseTimes) : PhaseTimes :=
  mkPhaseTimes
    (ref_discovered_soft pt) (ref_discovered_weak pt) (ref_discovered_final pt)
    (ref_discovered_phantom pt) (ref_dropped_soft pt) (ref_dropped_weak pt)
    (ref_dropped_final pt) (ref_dropped_phantom pt) b.

(** What happened, in order; kept beside the state to speak about the
    order of the clock update and the decisions of the clearing
    policy. *)
Inductive Event : Type :=
| EvEnableDiscovery
| EvDisableDiscovery
| EvShouldClear (o : N) (clock : Z)
| EvUpdateClock (now : Z).

(** The processor, the world it works on, the two static clocks
    ([ReferenceProcessor::_soft_ref_timestamp_clock] and the clock of
    [java.lang.ref.SoftReference]) and the events so far, latest
    last. *)
Record State (G : Type) : Type := mkState {
  rp : ReferenceProcessor;
  world : World G;
  _soft_ref_timestamp_clock : Z;
  SoftReference_clock : Z;
  events : list Event
}.
Arguments mkState {G} _ _ _ _ _.
Arguments rp {G} _.
Arguments world {G} _.
Arguments _soft_ref_timestamp_clock {G} _.
Arguments SoftReference_clock {G} _.
Arguments events {G} _.

Definition set_rp {G : Type} (r : ReferenceProcessor) (s : State G) : State G :=
  mkState r (world s) (_soft_ref_timestamp_clock s) (SoftReference_clock s) (events s).
Definition set_world {G : Type} (w : World G) (s : State G) : State G :=
  mkState (rp s) w (_soft_ref_timestamp_clock s) (SoftReference_clock s) (events s).
Definition log_event {G : Type} (e : Event) (s : State G) : State G :=
  mkState (rp s) (world s) (_soft_ref_timestamp_clock s) (SoftReference_clock s)
          (events s ++ [e]).

(** [NANOSECS_PER_MILLISEC] of globalDefinitions.hpp. *)
Definition NANOSECS_PER_MILLISEC : Z := 1000000.

(** Division of [jlong] values truncates towards zero. *)
Definition jlong_div (a b : Z) : Z := Z.quot a b.

Section Processor.

Context {G : Type}.
Variable build : Build.
Variable flags : Flags.
Variable env : Collaborators G.

(** [for (uint i = 0; i < _max_num_queues; i++) guarantee(lists[i].is_empty(), ..)],
    with [k] iterations left. *)
Fixpoint guarantee_empty (ls : list DiscoveredList.t) (k : nat) (i : Z) : Res unit :=
  match k with
  | O => Ok tt
  | S k' =>
      d ← list_at ls i;
      guarantee (DiscoveredList.is_empty d) "Found non-empty discovered list";;
      guarantee_empty ls k' (i + 1)
  end.

(** Compiled in all builds but the product build. *)
Definition verify_no_references_recorded (p : ReferenceProcessor) : Res unit :=
  if PRODUCT build then Ok tt
  else
    guarantee (negb (_discovering_refs p)) "Discovering refs?";;
    guarantee_empty (_discoveredSoftRefs p) (Z.to_nat (_max_num_queues p)) 0;;
    guarantee_empty (_discoveredWeakRefs p) (Z.to_nat (_max_num_queues p)) 0;;
    guarantee_empty (_discoveredFinalRefs p) (Z.to_nat (_max_num_queues p)) 0;;
    guarantee_empty (_discoveredPhantomRefs p) (Z.to_nat (_max_num_queues p)) 0.

Definition enable_discovery (s : State G) : Res (State G) :=
  (if ASSERT build then
     (* Verify that we're not currently discovering refs *)
     assert_ build (negb (_discovering_refs (rp s))) "nested call?";;
     (* Verify that the discovered lists are empty *)
     verify_no_references_recorded (rp s)
   else Ok tt);;
  Ok (log_event EvEnableDiscovery (set_rp (set_discovering_refs true (rp s)) s)).

(** Modelled from the spec: [disable_discovery] is an inline member of
    referenceProcessor.hpp; it closes the discovery window. *)
Definition disable_discovery (s : State G) : State G :=
  log_event EvDisableDiscovery (set_rp (set_discovering_refs false (rp s)) s).

Definition processing_is_mt (p : ReferenceProcessor) : bool :=
  ParallelRefProcEnabled flags && (1 <? _num_queues p).

Definition update_soft_ref_master_clock (javaTimeNanos : Z) (s : State G) : State G :=
  let now := jlong_div javaTimeNanos NANOSECS_PER_MILLISEC in
  let s := log_event (EvUpdateClock now) s in
  (* In product mode, however, protect ourselves from non-monotonicity. *)
  if _soft_ref_timestamp_clock s <? now then
    mkState (rp s) (world s) now now (events s)
  else
    (* Else leave clock stalled at its old value until time progresses
       past clock value. *)
    s.

Definition total_count (p : ReferenceProcessor) (lists : list DiscoveredList.t) : Res Z :=
  sum_lengths lists (Z.to_nat (_max_num_queues p)) 0 0.

Definition verify_total_count_zero (p : ReferenceProcessor)
    (lists : list DiscoveredList.t) (type : string) : Res unit :=
  if ASSERT build then
    count ← total_count p lists;
    assert_ build (count =? 0) (type ++ "s must be empty")
  else Ok tt.

Definition set_active_mt_degree (v : Z) (p : ReferenceProcessor) : Res ReferenceProcessor :=
  assert_ build (v <=? _max_num_queues p) "Mt degree too high";;
  Ok (set_next_id 0 (set_num_queues v p)).

(** [for (uint i = _num_queues; i < _max_num_queues; ++i)] of
    [need_balance_queues], with [k] iterations left. *)
Fixpoint any_non_empty (ls : list DiscoveredList.t) (k : nat) (i : Z) : Res bool :=
  match k with
  | O => Ok false
  | S k' =>
      d ← list_at ls i;
      if negb (DiscoveredList.is_empty d)
      then Ok true (* Must balance despite configuration. *)
      else any_non_empty ls k' (i + 1)
  end.

Definition need_balance_queues (p : ReferenceProcessor)
    (refs_lists : list DiscoveredList.t) : Res bool :=
  assert_ build (processing_is_mt p) "why balance non-mt processing?";;
  if ParallelRefProcBalancingEnabled flags then
    Ok true (* Configuration says do it. *)
  else
    any_non_empty refs_lists (Z.to_nat (_max_num_queues p - _num_queues p)) (_num_queues p).

(** The processor, the phase times and the world: what a phase works on. *)
Definition Work : Type := (ReferenceProcessor * PhaseTimes * World G)%type.

Definition maybe_balance_queues (fuel : nat) (rt : ReferenceType) (st : Work) : Res Work :=
  let '(p, pt, w) := st in
  assert_ build (processing_is_mt p) "Should not call this otherwise";;
  refs_lists ← discovered_lists rt p;
  b ← need_balance_queues p refs_lists;
  if b : bool then
    '(ls', h') ← balance_queues build (_num_queues p) (_max_num_queues p) fuel
                    refs_lists (heap w);
    Ok (set_discovered_lists rt ls' p, pt, set_heap h' w)
  else Ok st.

(** [RefProcTask::process_discovered_list]. *)
Definition process_discovered_list (fuel : nat) (worker_id : Z) (ref_type : ReferenceType)
    (st : Work) : Res Work :=
  let '(p, pt, w) := st in
  dl ← discovered_lists ref_type p;
  (* Only Final refs are not enqueued and cleared here. *)
  let do_enqueue_and_clear := negb (bool_decide (ref_type = REF_FINAL)) in
  d ← list_at dl worker_id;
  '(removed, d', w') ←
     process_discovered_list_work build env fuel (_discovery_is_concurrent p) d
       do_enqueue_and_clear w;
  Ok (set_discovered_lists ref_type (<[Z.to_nat worker_id := d']> dl) p,
      add_ref_dropped ref_type removed pt, w').

(** The three tasks; [rp_work] is the virtual member each of them
    overrides. *)
Definition rp_work (fuel : nat) (phase : RefProcPhases) (worker_id : Z) (st : Work)
    : Res Work :=
  match phase with
  | SoftWeakFinalRefsPhase =>
      st1 ← process_discovered_list fuel worker_id REF_SOFT st;
      st2 ← process_discovered_list fuel worker_id REF_WEAK st1;
      '(p, pt, w) ← process_discovered_list fuel worker_id REF_FINAL st2;
      (* Close the reachable set *)
      Ok (p, pt, set_gc (complete_gc env (gc w)) w)
  | KeepAliveFinalRefsPhase =>
      let '(p, pt, w) := st in
      d ← list_at (_discoveredFinalRefs p) worker_id;
      '(_, d', w') ← process_final_keep_alive_work build env fuel d w;
      (* Close the reachable set *)
      Ok (set_discovered_lists REF_FINAL
            (<[Z.to_nat worker_id := d']> (_discoveredFinalRefs p)) p,
          pt, set_gc (complete_gc env (gc w')) w')
  | PhantomRefsPhase =>
      '(p, pt, w) ← process_discovered_list fuel worker_id REF_PHANTOM st;
      Ok (p, pt, set_gc (complete_gc env (gc w)) w)
  end.

(** [proxy_task.work(i)] for [k] consecutive worker ids from [i].  The
    workers of a parallel phase own different queues; the model runs
    them one after the other, in the order of their ids. *)
Fixpoint run_workers (fuel : nat) (phase : RefProcPhases) (k : nat) (i : Z) (st : Work)
    : Res Work :=
  match k with
  | O => Ok st
  | S k' =>
      st' ← rp_work fuel phase i st;
      run_workers fuel phase k' (i + 1) st'
  end.

(** [workers] is the number of active workers of the pool, or [None]
    for a null pool. *)
Definition run_task (fuel : nat) (phase : RefProcPhases) (workers : option Z) (st : Work)
    : Res Work :=
  let '(p, _, _) := st in
  if processing_is_mt p then
    assert_ build (bool_decide (is_Some workers))
      "can not dispatch multi threaded without workers";;
    active_workers ← access workers;
    assert_ build (_num_queues p <=? active_workers)
      "Ergonomically chosen workers should be less than or equal to active workers";;
    run_workers fuel phase (Z.to_nat (_num_queues p)) 0 st
  else
    run_workers fuel phase (Z.to_nat (_max_num_queues p)) 0 st.

Definition num_active_workers (workers : option Z) : Z :=
  match workers with
  | Some active_workers => active_workers
  | None => 1
  end.

(** *** RefProcMTDegreeAdjuster *)

Definition use_max_threads (phase : RefProcPhases) : bool :=
  (* Even a small number of references in this phase could produce
     large amounts of work. *)
  bool_decide (phase = KeepAliveFinalRefsPhase).

Definition ergo_proc_thread_count (ref_count max_threads : Z) (phase : RefProcPhases)
    : Res Z :=
  assert_ build (0 <? max_threads) "must allow at least one thread";;
  if use_max_threads phase || (ReferencesPerThread flags =? 0) then Ok max_threads
  else
    let thread_count := wrap_size_t (1 + ref_count / ReferencesPerThread flags) in
    Ok (wrap_uint (Z.min thread_count
                     (Z.min max_threads
                        (wrap_size_t (active_processor_count flags))))).

(** The constructor; the result carries [_saved_num_queues]. *)
Definition RefProcMTDegreeAdjuster (p : ReferenceProcessor) (phase : RefProcPhases)
    (num_active_workers ref_count : Z) : Res (Z * ReferenceProcessor) :=
  let _saved_num_queues := _num_queues p in
  workers ← ergo_proc_thread_count ref_count num_active_workers phase;
  p' ← set_active_mt_degree workers p;
  Ok (_saved_num_queues, p').

(** The destructor. *)
Definition RefProcMTDegreeAdjuster_destroy (_saved_num_queues : Z)
    (p : ReferenceProcessor) : Res ReferenceProcessor :=
  (* Revert to previous status. *)
  set_active_mt_degree _saved_num_queues p.

(** *** The phases *)

Definition process_soft_weak_final_refs (fuel : nat) (workers : option Z) (st : Work)
    : Res Work :=
  let '(p, pt, w) := st in
  let num_soft_refs := ref_discovered REF_SOFT pt in
  let num_weak_refs := ref_discovered REF_WEAK pt in
  let num_final_refs := ref_discovered REF_FINAL pt in
  let num_total_refs :=
    wrap_size_t (wrap_size_t (num_soft_refs + num_weak_refs) + num_final_refs) in
  if num_total_refs =? 0 then Ok st
  else
    '(a, p1) ← RefProcMTDegreeAdjuster p SoftWeakFinalRefsPhase
                 (num_active_workers workers) num_total_refs;
    st2 ← (if processing_is_mt p1 then
             st' ← maybe_balance_queues fuel REF_SOFT (p1, pt, w);
             st'' ← maybe_balance_queues fuel REF_WEAK st';
             maybe_balance_queues fuel REF_FINAL st''
           else Ok (p1, pt, w));
    '(p3, pt3, w3) ← run_task fuel SoftWeakFinalRefsPhase workers st2;
    verify_total_count_zero p3 (_discoveredSoftRefs p3) "SoftReference";;
    verify_total_count_zero p3 (_discoveredWeakRefs p3) "WeakReference";;
    p4 ← RefProcMTDegreeAdjuster_destroy a p3;
    Ok (p4, pt3, w3).

Definition process_final_keep_alive (fuel : nat) (workers : option Z) (st : Work)
    : Res Work :=
  let '(p, pt, w) := st in
  let num_final_refs := ref_discovered REF_FINAL pt in
  if num_final_refs =? 0 then Ok st
  else
    '(a, p1) ← RefProcMTDegreeAdjuster p KeepAliveFinalRefsPhase
                 (num_active_workers workers) num_final_refs;
    st2 ← (if processing_is_mt p1 then maybe_balance_queues fuel REF_FINAL (p1, pt, w)
           else Ok (p1, pt, w));
    (* Traverse referents of final references and keep them and followers alive. *)
    '(p3, pt3, w3) ← run_task fuel KeepAliveFinalRefsPhase workers st2;
    verify_total_count_zero p3 (_discoveredFinalRefs p3) "FinalReference";;
    p4 ← RefProcMTDegreeAdjuster_destroy a p3;
    Ok (p4, pt3, w3).

Definition process_phantom_refs (fuel : nat) (workers : option Z) (st : Work)
    : Res Work :=
  let '(p, pt, w) := st in
  let num_phantom_refs := ref_discovered REF_PHANTOM pt in
  if num_phantom_refs =? 0 then Ok st
  else
    '(a, p1) ← RefProcMTDegreeAdjuster p PhantomRefsPhase
                 (num_active_workers workers) num_phantom_refs;
    st2 ← (if processing_is_mt p1 then maybe_balance_queues fuel REF_PHANTOM (p1, pt, w)
           else Ok (p1, pt, w));
    '(p3, pt3, w3) ← run_task fuel PhantomRefsPhase workers st2;
    verify_total_count_zero p3 (_discoveredPhantomRefs p3) "PhantomReference";;
    p4 ← RefProcMTDegreeAdjuster_destroy a p3;
    Ok (p4, pt3, w3).

(** [ReferenceProcessorStats]: the four discovered counts. *)
Definition ReferenceProcessorStats : Type := (Z * Z * Z * Z)%type.

(** [javaTimeNanos] is what [os::javaTimeNanos()] returns when the
    clock is updated. *)
Definition process_discovered_references (fuel : nat) (javaTimeNanos : Z)
    (workers : option Z) (phase_times : PhaseTimes) (s : State G)
    : Res (ReferenceProcessorStats * PhaseTimes * State G) :=
  (* Stop treating discovered references specially. *)
  let s := disable_discovery s in
  n_soft ← total_count (rp s) (_discoveredSoftRefs (rp s));
  n_weak ← total_count (rp s) (_discoveredWeakRefs (rp s));
  n_final ← total_count (rp s) (_discoveredFinalRefs (rp s));
  n_phantom ← total_count (rp s) (_discoveredPhantomRefs (rp s));
  let pt := set_ref_discovered REF_PHANTOM n_phantom
              (set_ref_discovered REF_FINAL n_final
                 (set_ref_discovered REF_WEAK n_weak
                    (set_ref_discovered REF_SOFT n_soft phase_times))) in
  let s := update_soft_ref_master_clock javaTimeNanos s in
  let pt := set_processing_is_mt (processing_is_mt (rp s)) pt in
  st1 ← process_soft_weak_final_refs fuel workers (rp s, pt, world s);
  st2 ← process_final_keep_alive fuel workers st1;
  '(p3, pt3, w3) ← process_phantom_refs fuel workers st2;
  (* Elements on discovered lists were pushed to the pending list. *)
  verify_no_references_recorded p3;;
  Ok ((ref_discovered REF_SOFT pt3, ref_discovered REF_WEAK pt3,
       ref_discovered REF_FINAL pt3, ref_discovered REF_PHANTOM pt3),
      pt3, set_world w3 (set_rp p3 s)).

(** *** Discovery *)

(** Modelled from the spec: [next_id] is an inline member of
    referenceProcessor.hpp; single-threaded discovery that feeds a
    processing pool goes round-robin over the queue indices. *)
Definition next_id (p : ReferenceProcessor) : Res (Z * ReferenceProcessor) :=
  let id := _next_id p in
  assert_ build (negb (_discovery_is_mt p))
    "Round robin should only be used in serial discovery";;
  let n := wrap_uint (_next_id p + 1) in
  let n := if n =? _num_queues p then 0 else n in
  assert_ build (n <? _num_queues p) "_next_id out of bounds";;
  Ok (id, set_next_id n p).

(** The list is returned as its category and index.  [worker_id] is
    [WorkerThread::worker_id()] of the calling thread. *)
Definition get_discovered_list (worker_id : Z) (rt : ReferenceType)
    (p : ReferenceProcessor) : Res (Z * ReferenceProcessor) :=
  '(id, p') ←
     (if _discovery_is_mt p then
        (* each thread saves to its "own" list. *)
        Ok (worker_id, p)
      else if processing_is_mt p then
        (* single-threaded discovery, we save in round-robin fashion *)
        next_id p
      else Ok (0, p));
  assert_ build (id <? _max_num_queues p) "Id is out of bounds";;
  discovered_lists rt p';;
  Ok (id, p').

Definition set_discovered_link_st (p : ReferenceProcessor) (h : Heap)
    (discovered_addr : oop) (next_discovered : oop) : Res (bool * gmap N Reference) :=
  assert_ build (negb (_discovery_is_mt p)) "must be";;
  h' ← java_lang_ref_Reference.set_discovered_raw h discovered_addr next_discovered;
  (* Always successful. *)
  Ok (true, h').

(** [oop_atomic_cmpxchg(addr, nullptr, v)]: one atomic step. *)
Definition oop_atomic_cmpxchg_null (h : Heap) (discovered_addr : oop) (v : oop)
    : Res (N * gmap N Reference) :=
  old ← java_lang_ref_Reference.get_discovered h discovered_addr;
  if decide (old = null) then
    h' ← java_lang_ref_Reference.set_discovered_raw h discovered_addr v;
    Ok (old, h')
  else Ok (old, h).

Definition set_discovered_link_mt (p : ReferenceProcessor) (h : Heap)
    (discovered_addr : oop) (next_discovered : oop) : Res (bool * gmap N Reference) :=
  assert_ build (_discovery_is_mt p) "must be";;
  (* We must make sure this object is only enqueued once. *)
  '(retest, h') ← oop_atomic_cmpxchg_null h discovered_addr next_discovered;
  Ok (bool_decide (retest = null), h').

Definition set_discovered_link (p : ReferenceProcessor) (h : Heap)
    (discovered_addr : oop) (next_discovered : oop) : Res (bool * gmap N Reference) :=
  if _discovery_is_mt p
  then set_discovered_link_mt p h discovered_addr next_discovered
  else set_discovered_link_st p h discovered_addr next_discovered.

(** The list is [rt]'s list number [id]; the address of the
    [discovered] field of [obj] is [obj] itself. *)
Definition add_to_discovered_list (rt : ReferenceType) (id : Z) (o : oop)
    (p : ReferenceProcessor) (h : Heap) : Res (ReferenceProcessor * gmap N Reference) :=
  ls ← discovered_lists rt p;
  refs_list ← list_at ls id;
  let current_head := DiscoveredList.head refs_list in
  (* The last ref must have its discovered field pointing to itself. *)
  let next_discovered := if decide (current_head <> null) then current_head else o in
  '(added, h') ← set_discovered_link p h o next_discovered;
  if added : bool then
    ls' ← list_update ls id (DiscoveredList.add_as_head o);
    Ok (set_discovered_lists rt ls' p, h')
  else Ok (p, h').

(** Compiled in all builds but the product build; the body is an
    assertion. *)
Definition verify_referent (p : ReferenceProcessor) (h : Heap) (o : oop) : Res unit :=
  if ASSERT build then
    referent ← java_lang_ref_Reference.unknown_referent_no_keepalive h o;
    assert_ build (if _discovery_is_concurrent p then true else is_oop referent)
      "Bad referent found in Reference"
  else Ok tt.

Definition discover_reference (worker_id : Z) (o : oop) (rt : ReferenceType)
    (s : State G) : Res (bool * State G) :=
  (* Make sure we are discovering refs (rather than processing discovered refs). *)
  if negb (_discovering_refs (rp s)) || negb (RegisterReferences flags) then Ok (false, s)
  else
    final_next ← (if decide (rt = REF_FINAL)
                  then java_lang_ref_Reference.get_next (heap (world s)) o
                  else Ok null);
    if bool_decide (rt = REF_FINAL) && negb (bool_decide (final_next = null)) then
      (* Don't rediscover non-active FinalReferences. *)
      Ok (false, s)
    else if negb (is_subject_to_discovery env (gc (world s)) o) then
      Ok (false, s)
    else
      (* We only discover references whose referents are not (yet)
         known to be strongly reachable. *)
      reachable ←
        match is_alive_non_header env with
        | Some alive =>
            verify_referent (rp s) (heap (world s)) o;;
            referent ← java_lang_ref_Reference.unknown_referent_no_keepalive
                         (heap (world s)) o;
            Ok (alive (gc (world s)) referent)
        | None => Ok false
        end;
      if reachable : bool then Ok (false, s) (* referent is reachable *)
      else
        let s1 := if decide (rt = REF_SOFT)
                  then log_event (EvShouldClear o (_soft_ref_timestamp_clock s)) s
                  else s in
        if bool_decide (rt = REF_SOFT)
           && negb (should_clear_reference env o (_soft_ref_timestamp_clock s))
        then Ok (false, s1)
        else
          discovered ← java_lang_ref_Reference.get_discovered (heap (world s1)) o;
          if negb (bool_decide (discovered = null)) then
            (* The reference has already been discovered... *)
            assert_ build (UseG1GC flags) "inv";;
            assert_ build (_discovery_is_concurrent (rp s1)) "inv";;
            Ok (true, s1)
          else
            (* Get the right type of discovered queue head. *)
            '(id, p1) ← get_discovered_list worker_id rt (rp s1);
            '(p2, h2) ← add_to_discovered_list rt id o p1 (heap (world s1));
            assert_ build (is_oop o) "Discovered a bad reference";;
            verify_referent p2 h2 o;;
            Ok (true, set_world (set_heap h2 (world s1)) (set_rp p2 s1)).

End Processor.

(** ** What a walk over a list maintains *)

(** The iterator stands behind the objects [kept] and before the
    objects [rest]: the list is the chain of both, and the previous
    link is the head or the last kept object. *)
Definition links (h : Heap) (kept rest : list N) (it : DiscoveredListIterator) : Prop :=
  is_list h (_refs_list it) (kept ++ rest) /\
  NoDup (kept ++ rest) /\
  _prev_discovered it = List.last kept null /\
  _prev_discovered_addr it =
    match kept with
    | [] => AdrHead
    | _ :: _ => AdrDiscovered (List.last kept null)
    end.

(** The value of the [discovered] field of [x] when [rest] follows it. *)
Definition successor (x : N) (rest : list N) : N :=
  match rest with
  | [] => x
  | y :: _ => y
  end.

(** The referent of [x] in [h], null when there is no such object. *)
Definition referent_of (h : Heap) (x : oop) : N :=
  match java_lang_ref_Reference.load h x with
  | Some r => referent r
  | None => null
  end.

Definition next_of (h : Heap) (x : oop) : N :=
  match java_lang_ref_Reference.load h x with
  | Some r => next r
  | None => null
  end.

Definition discovered_of (h : Heap) (x : oop) : N :=
  match java_lang_ref_Reference.load h x with
  | Some r => discovered r
  | None => null
  end.

Section Pass.

Context {G : Type}.
Variable env : Collaborators G.
(** The heap when the pass starts. *)
Variable h0 : gmap N Reference.

(** What [process_discovered_list_work] decides for one reference:
    whether it stays on the list, and the tracer state afterwards. *)
Definition visit (g : G) (x : oop) : bool * G :=
  if decide (referent_of h0 x = null) then (false, g)
  else if is_alive env g (referent_of h0 x)
       then (false, fst (keep_alive env g (referent_of h0 x)))
       else (true, g).

(** The references a pass over [l] leaves on the list. *)
Fixpoint pass_keeps (g : G) (l : list N) : list N :=
  match l with
  | [] => []
  | x :: l' =>
      (if fst (visit g x) then [x] else []) ++ pass_keeps (snd (visit g x)) l'
  end.

(** The tracer state a pass over [l] leaves. *)
Fixpoint pass_gc (g : G) (l : list N) : G :=
  match l with
  | [] => g
  | x :: l' => pass_gc (snd (visit g x)) l'
  end.

(** The tracer state when a pass over [l] reaches [x]. *)
Fixpoint gc_at_visit (g : G) (l : list N) (x : oop) : G :=
  match l with
  | [] => g
  | y :: l' => if decide (y = x) then g else gc_at_visit (snd (visit g y)) l' x
  end.

(** The pass of [process_final_keep_alive_work] hands every referent
    to [keep_alive]; the tracer state it leaves. *)
Fixpoint keep_alive_gc (g : G) (l : list N) : G :=
  match l with
  | [] => g
  | x :: l' => keep_alive_gc (fst (keep_alive env g (referent_of h0 x))) l'
  end.

End Pass.

(** A store to [discovered] fields only: every object keeps its referent
    and its [next]. *)
Definition keeps_payload (h h' : Heap) : Prop :=
  forall y r, java_lang_ref_Reference.load h y = Some r ->
    exists r', java_lang_ref_Reference.load h' y = Some r' /\
               referent r' = referent r /\ next r' = next r.

(** [x] is an entry of one of the queues. *)
Definition on_lists (abs : list (list N)) (x : N) : Prop :=
  exists (i : nat) l, abs !! i = Some l /\ x ∈ l.

(** Between [h] and [h'] only [discovered] fields of entries of the
    queues [abs] were written. *)
Definition relinks (abs : list (list N)) (h h' : Heap) : Prop :=
  keeps_payload h h' /\ forall y, ~ on_lists abs y -> h' !! y = h !! y.

(** ** Well-formed processors *)

(** The window of a category as a list; [REF_NONE] has none. *)
Definition lists_of (rt : ReferenceType) (p : ReferenceProcessor) : list DiscoveredList.t :=
  match rt with
  | REF_SOFT => _discoveredSoftRefs p
  | REF_WEAK => _discoveredWeakRefs p
  | REF_FINAL => _discoveredFinalRefs p
  | REF_PHANTOM => _discoveredPhantomRefs p
  | REF_NONE => []
  end.

(** The objects on the queues, category by category and queue by
    queue. *)
Abbreviation Entries := (ReferenceType -> list (list N)) (only parsing).

(** Every window holds [_max_num_queues] well-formed lists, no object
    is on two lists, and the processing degree is within its bounds. *)
Record well_formed (h : Heap) (p : ReferenceProcessor) (abs : Entries) : Prop := mk_well_formed {
  wf_max : 0 < _max_num_queues p < uint_range;
  wf_num : 0 < _num_queues p <= _max_num_queues p;
  wf_lists : forall rt, are_lists h (lists_of rt p) (abs rt);
  wf_length : forall rt, rt <> REF_NONE ->
                Z.of_nat (length (lists_of rt p)) = _max_num_queues p;
  wf_apart : forall rt1 rt2 x,
               on_lists (abs rt1) x -> on_lists (abs rt2) x -> rt1 = rt2
}.

(** The number of entries of all queues together. *)
Definition entry_count (p : ReferenceProcessor) : Z :=
  total_length (_discoveredSoftRefs p) + total_length (_discoveredWeakRefs p)
  + total_length (_discoveredFinalRefs p) + total_length (_discoveredPhantomRefs p).

(** What the assertions of a debug build demand of the entries: a
    referent unless discovery is concurrent, and no [next] yet for a
    Final reference. *)
Definition entries_valid (build : Build) (h : Heap) (p : ReferenceProcessor)
    (abs : Entries) : Prop :=
  ASSERT build = true ->
  (_discovery_is_concurrent p = false ->
     forall rt x, on_lists (abs rt) x -> referent_of h x <> null) /\
  (forall x, on_lists (abs REF_FINAL) x -> next_of h x = null).

(** The queues [abs'] hold entries of [abs] only. *)
Definition shrinks (abs abs' : Entries) : Prop :=
  forall rt x, on_lists (abs' rt) x -> on_lists (abs rt) x.

(** Queue by queue, the entries of [abs'] are entries of [abs]. *)
Definition shrinks_each (abs abs' : Entries) : Prop :=
  forall rt (i : nat) l', abs' rt !! i = Some l' ->
    exists l, abs rt !! i = Some l /\ forall x, x ∈ l' -> x ∈ l.

(** The entries of [abs'] have in [h'] the referent and the [next]
    they have in [h]. *)
Definition payload_kept (h h' : Heap) (abs' : Entries) : Prop :=
  forall rt x, on_lists (abs' rt) x ->
    referent_of h' x = referent_of h x /\ next_of h' x = next_of h x.

(** The entries [abs] with the queues of the category [rt] replaced. *)
Definition with_entries (rt : ReferenceType) (v : list (list N)) (abs : Entries)
    : Entries :=
  fun r => if decide (r = rt) then v else abs r.

(** What every step of the processing maintains, from the heap [h],
    the processor [p] and the entries [abs] to [h'], [p'] and [abs']:
    the lists stay well formed, no entry is added, the entries that
    remain keep their referent and their [next], and the configuration
    of the processor is as it was. *)
Record step_ok (h : Heap) (p : ReferenceProcessor) (abs : Entries)
    (h' : Heap) (p' : ReferenceProcessor) (abs' : Entries) : Prop := mk_step_ok {
  step_wf : well_formed h' p' abs';
  step_shrinks : shrinks abs abs';
  step_payload : payload_kept h h' abs';
  step_count : entry_count p' <= entry_count p;
  step_num : _num_queues p' = _num_queues p;
  step_max : _max_num_queues p' = _max_num_queues p;
  step_conc : _discovery_is_concurrent p' = _discovery_is_concurrent p;
  step_disc : _discovering_refs p' = _discovering_refs p
}.

(** Every entry of queue [i] of the category [rt] satisfies [P]. *)
Definition all_at (abs : Entries) (rt : ReferenceType) (i : nat) (P : N -> Prop) : Prop :=
  forall l x, abs rt !! i = Some l -> x ∈ l -> P x.

(** Queue [i] of the category [rt] has no entry. *)
Definition none_at (abs : Entries) (rt : ReferenceType) (i : nat) : Prop :=
  all_at abs rt i (fun _ => False).

(** The Final references on the queues have a referent. *)
Definition final_ready (h : Heap) (abs : Entries) : Prop :=
  forall x, on_lists (abs REF_FINAL) x -> referent_of h x <> null.

(** What a worker of [phase] leaves of the queues with its index: no
    Soft, Weak or Phantom reference, no Final reference after the
    second phase, and after the first phase the Final references whose
    referent is neither null nor alive. *)
Definition done (phase : RefProcPhases) (h : Heap) (abs : Entries) (i : nat) : Prop :=
  match phase with
  | SoftWeakFinalRefsPhase =>
      none_at abs REF_SOFT i /\ none_at abs REF_WEAK i /\
      all_at abs REF_FINAL i (fun x => referent_of h x <> null)
  | KeepAliveFinalRefsPhase => none_at abs REF_FINAL i
  | PhantomRefsPhase => none_at abs REF_PHANTOM i
  end.

(** The worker pool fits the processor: its active workers are at
    least one and at most [_max_num_queues]. *)
Definition workers_fit (workers : option Z) (p : ReferenceProcessor) : Prop :=
  match workers with
  | Some active_workers => 0 < active_workers <= _max_num_queues p
  | None => True
  end.

(** The flags are within their ranges: [ReferencesPerThread] is
    unsigned and the processor count a positive [int]. *)
Definition flags_in_range (flags : Flags) : Prop :=
  0 <= ReferencesPerThread flags /\ 0 < active_processor_count flags < 2 ^ 31.

(** The counts recorded in the phase times speak of the queues: they
    do not overflow when added, and a category with count 0 has no
    entry. *)
Definition counts_cover (pt : PhaseTimes) (abs : Entries) : Prop :=
  (forall rt, 0 <= ref_discovered rt pt) /\
  ref_discovered REF_SOFT pt + ref_discovered REF_WEAK pt
  + ref_discovered REF_FINAL pt + ref_discovered REF_PHANTOM pt + 1 < size_t_range /\
  (forall rt x, ref_discovered rt pt = 0 -> ~ on_lists (abs rt) x).

(** Entries of one category only: the queues [v] for [rt0] and [n]
    empty queues for each of the other categories. *)
Definition one_category (rt0 : ReferenceType) (v : list (list N)) (n : nat) : Entries :=
  fun rt =>
    if decide (rt = rt0) then v
    else if decide (rt = REF_NONE) then [] else replicate n [].

(** The index of the queue that [get_discovered_list] chooses. *)
Definition discovery_queue (flags : Flags) (worker_id : Z) (p : ReferenceProcessor) : Z :=
  if _discovery_is_mt p then worker_id
  else if processing_is_mt flags p then _next_id p else 0.

(** ** Concrete configurations *)

Definition debug_build : Build := mkBuild true false.
Definition product_build : Build := mkBuild false true.

(** Three queues, two of them active: five entries on the first queue,
    none on the second, two on the third. *)
Definition skewed_heap : gmap N Reference :=
  list_to_map
    [(1%N, mkReference 101 2 0); (2%N, mkReference 102 3 0); (3%N, mkReference 103 4 0);
     (4%N, mkReference 104 5 0); (5%N, mkReference 105 5 0);
     (6%N, mkReference 106 7 0); (7%N, mkReference 107 7 0)].

Definition skewed_lists : list DiscoveredList.t :=
  [DiscoveredList.mk 1 5; DiscoveredList.mk 0 0; DiscoveredList.mk 6 2].

Definition skewed_entries : list (list N) :=
  [[1%N; 2%N; 3%N; 4%N; 5%N]; []; [6%N; 7%N]].

(** Serial processing with the default threshold, on eight processors. *)
Definition serial_flags : Flags := mkFlags false true true 1000 false 8.

(** A tracer that keeps the list of the objects it has marked: an
    object is alive when it is marked, and keeping a referent alive
    marks it. *)
Definition marking_env : Collaborators (list N) :=
  mkCollaborators (list N)
    (fun g o => bool_decide (o ∈ g))
    (fun g o => (o :: g, o))
    (fun g => g)
    (fun _ _ => true)
    None
    (fun _ _ => true).

(** The five references of the first queue of [skewed_heap] as Final
    references of a processor with one queue; the referents 102 and 104
    are marked. *)
Definition five_final_rp : ReferenceProcessor :=
  mkRP false false false 0 1 1
       [DiscoveredList.mk 0 0] [DiscoveredList.mk 0 0]
       [DiscoveredList.mk 1 5] [DiscoveredList.mk 0 0].

Definition five_final_world : World (list N) :=
  mkWorld skewed_heap null [102%N; 104%N] [].

Definition no_times : PhaseTimes := mkPhaseTimes 0 0 0 0 0 0 0 0 false.

(** One Final reference, the object 1, whose referent 10 is not marked. *)
Definition one_final_rp : ReferenceProcessor :=
  mkRP false false false 0 1 1
       [DiscoveredList.mk 0 0] [DiscoveredList.mk 0 0]
       [DiscoveredList.mk 1 1] [DiscoveredList.mk 0 0].

Definition one_final_world : World (list N) :=
  mkWorld {[ 1%N := mkReference 10 1 0 ]} null [] [].

Definition one_final_times : PhaseTimes := mkPhaseTimes 0 0 1 0 0 0 0 0 false.

(** ** Gates of discovery *)

(** The checks of [discover_reference] that come before it looks at the
    [discovered] field: the call goes on when this is true. *)
Definition discovery_gates_open {G : Type} (flags : Flags) (env : Collaborators G)
    (o : oop) (rt : ReferenceType) (s : State G) : bool :=
  _discovering_refs (rp s) && RegisterReferences flags
  && negb (bool_decide (rt = REF_FINAL)
           && negb (bool_decide (next_of (heap (world s)) o = null)))
  && is_subject_to_discovery env (gc (world s)) o
  && negb (match is_alive_non_header env with
           | Some alive => alive (gc (world s)) (referent_of (heap (world s)) o)
           | None => false
           end)
  && negb (bool_decide (rt = REF_SOFT)
           && negb (should_clear_reference env o (_soft_ref_timestamp_clock s))).

(** ** Order of the clock update and the policy decisions *)

(** The number of decisions of the clearing policy before the first
    update of the clock. *)
Fixpoint decisions_before_update (evs : list Event) : nat :=
  match evs with
  | [] => O
  | EvUpdateClock _ :: _ => O
  | EvShouldClear _ _ :: evs' => S (decisions_before_update evs')
  | _ :: evs' => decisions_before_update evs'
  end.

Definition is_update (e : Event) : bool :=
  match e with EvUpdateClock _ => true | _ => false end.

(** Whether discovery is closed when the clock is first updated. *)
Fixpoint closed_at_update (closed : bool) (evs : list Event) : bool :=
  match evs with
  | [] => false
  | EvUpdateClock _ :: _ => closed
  | EvDisableDiscovery :: evs' => closed_at_update true evs'
  | EvEnableDiscovery :: evs' => closed_at_update false evs'
  | _ :: evs' => closed_at_update closed evs'
  end.

(** The order the spec states for the events of one cycle: one update
    of the clock, after discovery is closed and before any decision of
    the clearing policy. *)
Definition clock_advanced_first (evs : list Event) : bool :=
  (length (filter is_update evs) =? 1)%nat
  && closed_at_update false evs
  && (decisions_before_update evs =? 0)%nat.

(** One collection cycle with one soft reference [o]: the discovery
    window opens, [o] is met, the discovered references are
    processed. *)
Definition soft_cycle {G : Type} (build : Build) (flags : Flags) (env : Collaborators G)
    (fuel : nat) (javaTimeNanos : Z) (o : oop) (s : State G) : Res (State G) :=
  s1 ← enable_discovery build s;
  '(_, s2) ← discover_reference build flags env 0 o REF_SOFT s1;
  '(_, _, s3) ← process_discovered_references build flags env fuel javaTimeNanos None
                  no_times s2;
  Ok s3.

(** More concrete configurations. *)

(** A processor with one queue per category and nothing discovered. *)
Definition idle_rp : ReferenceProcessor :=
  mkRP false false false 0 1 1
       [DiscoveredList.mk 0 0] [DiscoveredList.mk 0 0]
       [DiscoveredList.mk 0 0] [DiscoveredList.mk 0 0].

(** The soft reference 1 with the dead referent 10, not discovered yet;
    the clock stands at 5. *)
Definition idle_state : State (list N) :=
  mkState idle_rp (mkWorld {[ 1%N := mkReference 10 0 0 ]} null [] []) 5 5 [].

(** G1 with concurrent discovery and a liveness predicate: the weak
    reference 1 is on its list, and its referent 10 has been marked
    since. *)
Definition g1_flags : Flags := mkFlags false true true 1000 true 8.

Definition g1_env : Collaborators (list N) :=
  mkCollaborators (list N)
    (fun g o => bool_decide (o ∈ g))
    (fun g o => (o :: g, o))
    (fun g => g)
    (fun _ _ => true)
    (Some (fun g o => bool_decide (o ∈ g)))
    (fun _ _ => true).

Definition rediscovery_rp : ReferenceProcessor :=
  mkRP true true false 0 1 1
       [DiscoveredList.mk 0 0] [DiscoveredList.mk 1 1]
       [DiscoveredList.mk 0 0] [DiscoveredList.mk 0 0].

Definition rediscovery_state : State (list N) :=
  mkState rediscovery_rp (mkWorld {[ 1%N := mkReference 10 1 0 ]} null [10%N] [])
          5 5 [EvEnableDiscovery].

(** The same reference with a referent that is not marked. *)
Definition rediscovery_dead_state : State (list N) :=
  mkState rediscovery_rp (mkWorld {[ 1%N := mkReference 10 1 0 ]} null [] [])
          5 5 [EvEnableDiscovery].

(** A threshold of 0 references per thread, on two processors. *)
Definition zero_threshold_flags : Flags := mkFlags true true true 0 false 2.

Definition four_queue_rp : ReferenceProcessor :=
  mkRP false false true 0 4 4
       (replicate 4 (DiscoveredList.mk 0 0)) (replicate 4 (DiscoveredList.mk 0 0))
       (replicate 4 (DiscoveredList.mk 0 0)) (replicate 4 (DiscoveredList.mk 0 0)).

(** [idle_state] after the discovery window has opened and the soft
    reference 1 has been discovered. *)
Definition discovered_soft_state : State (list N) :=
  mkState
    (mkRP true false false 0 1 1
       [DiscoveredList.mk 1 1] [DiscoveredList.mk 0 0]
       [DiscoveredList.mk 0 0] [DiscoveredList.mk 0 0])
    (mkWorld {[ 1%N := mkReference 10 1 0 ]} null [] [])
    5 5 [EvEnableDiscovery; EvShouldClear 1 5].

(** Processing by a pool of two workers, one thread for every two
    references, on eight processors. *)
Definition parallel_flags : Flags := mkFlags true true true 2 false 8.

(** The queues of [skewed_lists] as the Soft references of a processor
    with three queues per category, two of them active, after
    discovery; the referents 102 and 104 are marked. *)
Definition skewed_rp : ReferenceProcessor :=
  mkRP true false true 0 2 3
       skewed_lists (replicate 3 (DiscoveredList.mk 0 0))
       (replicate 3 (DiscoveredList.mk 0 0)) (replicate 3 (DiscoveredList.mk 0 0)).

Definition skewed_state : State (list N) :=
  mkState skewed_rp (mkWorld skewed_heap null [102%N; 104%N] []) 5 5 [EvEnableDiscovery].

(** [idle_state] after the discovery window has opened. *)
Definition open_state : State (list N) :=
  mkState (set_discovering_refs true idle_rp)
          (mkWorld {[ 1%N := mkReference 10 0 0 ]} null [] []) 5 5 [EvEnableDiscovery].

(** ** The array behind the windows *)

(** [number_of_subclasses_of_ref()]: the categories Soft, Weak, Final
    and Phantom, one window of the array each (the constructor lays
    the four windows out one after the other). *)
Definition number_of_subclasses_of_ref : Z := 4.

(** The array [_discovered_refs]: the four windows in the order of the
    constructor. *)
Definition _discovered_refs (p : ReferenceProcessor) : list DiscoveredList.t :=
  _discoveredSoftRefs p ++ _discoveredWeakRefs p
  ++ _discoveredFinalRefs p ++ _discoveredPhantomRefs p.

(** The processor after the array was written: window [k] is the
    stretch of [_max_num_queues] lists from index [k * _max_num_queues]. *)
Definition set_discovered_refs (refs : list DiscoveredList.t) (p : ReferenceProcessor)
    : ReferenceProcessor :=
  let n := Z.to_nat (_max_num_queues p) in
  mkRP (_discovering_refs p) (_discovery_is_concurrent p) (_discovery_is_mt p)
       (_next_id p) (_num_queues p) (_max_num_queues p)
       (take n refs) (take n (drop n refs))
       (take n (drop (2 * n) refs)) (take n (drop (3 * n) refs)).

(** ** Giving up the discovered references *)

(** [while (next != obj)] of [clear_discovered_references]. *)
Fixpoint clear_discovered_loop (fuel : nat) (obj next : oop) (h : Heap) : Res Heap :=
  match fuel with
  | O => OutOfFuel
  | S fuel' =>
      if decide (next <> obj) then
        let obj := next in
        next ← java_lang_ref_Reference.get_discovered h obj;
        h' ← java_lang_ref_Reference.set_discovered_raw h obj null;
        clear_discovered_loop fuel' obj next h'
      else Ok h
  end.

Definition clear_discovered_references (fuel : nat) (refs_list : DiscoveredList.t)
    (h : Heap) : Res (DiscoveredList.t * gmap N Reference) :=
  h' ← clear_discovered_loop fuel null (DiscoveredList.head refs_list) h;
  Ok (DiscoveredList.clear refs_list, h').

(** [for (uint i = 0; i < _max_num_queues * number_of_subclasses_of_ref(); i++)]
    of [abandon_partial_discovery], with [k] iterations left. *)
Fixpoint abandon_loop (fuel : nat) (k : nat) (i : Z) (refs : list DiscoveredList.t)
    (h : Heap) : Res (list DiscoveredList.t * gmap N Reference) :=
  match k with
  | O => Ok (refs, h)
  | S k' =>
      d ← list_at refs i;
      '(d', h') ← clear_discovered_references fuel d h;
      abandon_loop fuel k' (i + 1) (<[Z.to_nat i := d']> refs) h'
  end.

Definition abandon_partial_discovery (fuel : nat) (p : ReferenceProcessor) (h : Heap)
    : Res (ReferenceProcessor * gmap N Reference) :=
  (* loop over the lists *)
  '(refs, h') ←
     abandon_loop fuel
       (Z.to_nat (wrap_uint (_max_num_queues p * number_of_subclasses_of_ref))) 0
       (_discovered_refs p) h;
  Ok (set_discovered_refs refs p, h').

(** ** Counting the references of a category *)

Definition total_reference_count (p : ReferenceProcessor) (type : ReferenceType) : Res Z :=
  list ← discovered_lists type p;
  total_count p list.

(** ** Precleaning *)

(** The yield closure of the caller: each question may change the
    state [Y] behind it. *)
Record YieldClosure (Y : Type) : Type := mkYieldClosure {
  should_return : Y -> bool * Y;
  should_return_fine_grain : Y -> bool * Y
}.
Arguments should_return {Y} _ _.
Arguments should_return_fine_grain {Y} _ _.

Section Preclean.

Context {G Y : Type}.
Variable build : Build.
Variable env : Collaborators G.
Variable yield : YieldClosure Y.

(** [while (iter.has_next())] of [preclean_discovered_reflist]; the
    first component of the result is true when the loop was left by
    [return true]. *)
Fixpoint preclean_discovered_reflist_loop (fuel : nat) (it : DiscoveredListIterator)
    (w : World G) (y : Y) : Res (bool * DiscoveredListIterator * World G * Y) :=
  match fuel with
  | O => OutOfFuel
  | S fuel' =>
      if has_next it then
        let '(stop, y1) := should_return_fine_grain yield y in
        if stop : bool then Ok (true, it, w, y1)
        else
          it1 ← load_ptrs build true it w;
          if decide (_referent it1 = null) then
            '(it2, w2) ← remove build it1 w;
            it3 ← move_to_next build it2;
            preclean_discovered_reflist_loop fuel' it3 w2 y1
          else if is_referent_alive env it1 w then
            '(it2, w2) ← remove build it1 w;
            it3 ← move_to_next build it2;
            preclean_discovered_reflist_loop fuel' it3 w2 y1
          else
            it3 ← iter_next build it1;
            preclean_discovered_reflist_loop fuel' it3 w y1
      else Ok (false, it, w, y)
  end.

(** The result carries the list, which the C++ code changes in place. *)
Definition preclean_discovered_reflist (fuel : nat) (refs_list : DiscoveredList.t)
    (w : World G) (y : Y) : Res (bool * DiscoveredList.t * World G * Y) :=
  '(aborted, it, w', y') ←
     preclean_discovered_reflist_loop fuel (new_iterator refs_list) w y;
  Ok (aborted, _refs_list it, w', y').

(** [for (uint i = 0; i < _max_num_queues; i++)] over the window of one
    category, with [k] iterations left; the first component of the
    result is true when the loop was left by [return]. *)
Fixpoint preclean_lists (fuel : nat) (rt : ReferenceType) (k : nat) (i : Z)
    (p : ReferenceProcessor) (w : World G) (y : Y)
    : Res (bool * ReferenceProcessor * World G * Y) :=
  match k with
  | O => Ok (false, p, w, y)
  | S k' =>
      let '(stop, y1) := should_return yield y in
      if stop : bool then Ok (true, p, w, y1)
      else
        d ← list_at (lists_of rt p) i;
        '(aborted, d', w', y2) ← preclean_discovered_reflist fuel d w y1;
        let p' := set_discovered_lists rt (<[Z.to_nat i := d']> (lists_of rt p)) p in
        if aborted : bool then Ok (true, p', w', y2)
        else preclean_lists fuel rt k' (i + 1) p' w' y2
  end.

(** These lists can be handled here in any order and, indeed,
    concurrently; the code takes them in this order. *)
Definition preclean_discovered_references (fuel : nat) (p : ReferenceProcessor)
    (w : World G) (y : Y) : Res (ReferenceProcessor * World G * Y) :=
  (* Soft references *)
  '(stop, p, w, y) ← preclean_lists fuel REF_SOFT (Z.to_nat (_max_num_queues p)) 0 p w y;
  if stop : bool then Ok (p, w, y)
  else
    (* Weak references *)
    '(stop, p, w, y) ← preclean_lists fuel REF_WEAK (Z.to_nat (_max_num_queues p)) 0 p w y;
    if stop : bool then Ok (p, w, y)
    else
      (* Final references *)
      '(stop, p, w, y) ←
         preclean_lists fuel REF_FINAL (Z.to_nat (_max_num_queues p)) 0 p w y;
      if stop : bool then Ok (p, w, y)
      else
        (* Phantom references *)
        '(_, p, w, y) ←
           preclean_lists fuel REF_PHANTOM (Z.to_nat (_max_num_queues p)) 0 p w y;
        Ok (p, w, y).

End Preclean.

(** ** The statics *)

(** The soft-reference policies that [init_statics] creates. *)
Inductive ReferencePolicy : Type :=
| AlwaysClearPolicy | LRUMaxHeapPolicy | LRUCurrentHeapPolicy.

(** [init_statics]: the two clocks are set to the time read, and the
    result carries [_always_clear_soft_ref_policy] and
    [_default_soft_ref_policy].  [is_c2_or_jvmci_compiler_enabled] is
    the answer of [CompilerConfig]. *)
Definition init_statics {G : Type} (javaTimeNanos : Z)
    (is_c2_or_jvmci_compiler_enabled : bool) (s : State G)
    : State G * (ReferencePolicy * ReferencePolicy) :=
  let now := jlong_div javaTimeNanos NANOSECS_PER_MILLISEC in
  (mkState (rp s) (world s) now now (events s),
   (AlwaysClearPolicy,
    if is_c2_or_jvmci_compiler_enabled then LRUMaxHeapPolicy else LRUCurrentHeapPolicy)).

(** What precleaning keeps of the objects [l]: the references whose
    referent is neither null nor alive. *)
Definition preclean_keeps {G : Type} (env : Collaborators G) (h : Heap) (g : G)
    (l : list N) : list N :=
  filter (fun x => referent_of h x <> null /\ is_alive env g (referent_of h x) = false) l.

(** The entries of all four categories, in the order of the array. *)
Definition all_entries (abs : Entries) : list (list N) :=
  abs REF_SOFT ++ abs REF_WEAK ++ abs REF_FINAL ++ abs REF_PHANTOM.

(** A yield closure that never asks to return. *)
Definition never_yields {Y : Type} (yield : YieldClosure Y) : Prop :=
  forall y, fst (should_return yield y) = false /\
            fst (should_return_fine_grain yield y) = false.

(** Precleaning has reason to drop [x]: its referent is null or alive. *)
Definition preclean_drops {G : Type} (env : Collaborators G) (h : Heap) (g : G)
    (x : N) : Prop :=
  referent_of h x = null \/ is_alive env g (referent_of h x) = true.

(** What precleaning does between the heap [h] with the entries [abs]
    and the heap [h'] with the entries [abs'], the tracer being in the
    state [g]: the lists stay well formed, every queue holds entries
    it held before, only [discovered] fields are written and none
    outside the queues, and an entry that is gone had a referent that
    is null or alive and has no [discovered] link any more. *)
Record preclean_step {G : Type} (env : Collaborators G) (g : G)
    (h : Heap) (p : ReferenceProcessor) (abs : Entries)
    (h' : Heap) (p' : ReferenceProcessor) (abs' : Entries) : Prop := mk_preclean_step {
  pc_step : step_ok h p abs h' p' abs';
  pc_each : shrinks_each abs abs';
  pc_payload : keeps_payload h h';
  pc_frame : forall z, (forall r, ~ on_lists (abs r) z) -> h' !! z = h !! z;
  pc_dropped : forall r z, on_lists (abs r) z -> ~ on_lists (abs' r) z ->
                 discovered_of h' z = null /\ preclean_drops env h g z
}.

(** Queue [i] of the category [rt] holds no reference that precleaning
    drops. *)
Definition precleaned {G : Type} (env : Collaborators G) (g : G) (h : Heap)
    (abs : Entries) (rt : ReferenceType) (i : nat) : Prop :=
  all_at abs rt i (fun x => ~ preclean_drops env h g x).

(** ** The constructor *)

(** [for (uint i = 0; i < bound; i++) _discovered_refs[i].clear();]
    with [k] iterations left. *)
Fixpoint clear_all (k : nat) (i : Z) (refs : list DiscoveredList.t)
    : Res (list DiscoveredList.t) :=
  match k with
  | O => Ok refs
  | S k' =>
      refs' ← list_update refs i DiscoveredList.clear;
      clear_all k' (i + 1) refs'
  end.

(** [ReferenceProcessor::ReferenceProcessor].  [fresh] is the memory
    that [NEW_C_HEAP_ARRAY] returns, with whatever it holds.  The
    closures [is_subject_to_discovery] and [is_alive_non_header] and
    the soft-reference policy that [setup_policy] selects are the
    collaborators of the calls. *)
Definition new_ReferenceProcessor (fresh : list DiscoveredList.t)
    (mt_processing_degree mt_discovery_degree : Z) (concurrent_discovery : bool)
    : Res ReferenceProcessor :=
  let discovery_is_mt := 1 <? mt_discovery_degree in
  let num_queues := Z.max 1 mt_processing_degree in
  let max_num_queues := Z.max num_queues mt_discovery_degree in
  (* Initialize all entries to null *)
  refs ← clear_all
           (Z.to_nat (wrap_uint (max_num_queues * number_of_subclasses_of_ref))) 0 fresh;
  Ok (set_discovered_refs refs
        (mkRP false concurrent_discovery discovery_is_mt 0 num_queues max_num_queues
              [] [] [] [])).

(** ** The name of a list *)

(** [list_name(i)]; the quotient [i / _max_num_queues] of two [uint]
    values. *)
Definition list_name (build : Build) (p : ReferenceProcessor) (i : Z) : Res string :=
  assert_ build
    (i <=? wrap_uint (_max_num_queues p * number_of_subclasses_of_ref))
    "Out of bounds index";;
  let j := i / _max_num_queues p in
  if j =? 0 then Ok "SoftRef"%string
  else if j =? 1 then Ok "WeakRef"%string
  else if j =? 2 then Ok "FinalRef"%string
  else if j =? 3 then Ok "PhantomRef"%string
  else Fatal "ShouldNotReachHere".

(** The name under which the lists of a category are logged. *)
Definition category_name (rt : ReferenceType) : string :=
  match rt with
  | REF_SOFT => "SoftRef"%string
  | REF_WEAK => "WeakRef"%string
  | REF_FINAL => "FinalRef"%string
  | REF_PHANTOM => "PhantomRef"%string
  | REF_NONE => EmptyString
  end.

(** The category in whose window list [i] of the array lies. *)
Definition window_of (p : ReferenceProcessor) (i : Z) : ReferenceType :=
  if i <? _max_num_queues p then REF_SOFT
  else if i <? 2 * _max_num_queues p then REF_WEAK
  else if i <? 3 * _max_num_queues p then REF_FINAL
  else if i <? 4 * _max_num_queues p then REF_PHANTOM
  else REF_NONE.

(** ** More concrete configurations *)

(** A yield closure that asks to return at the fine-grain question
    after [n] others; its state is the number of questions left. *)
Definition countdown_yield : YieldClosure nat :=
  mkYieldClosure nat
    (fun n => (false, n))
    (fun n => (bool_decide (n = 0%nat), Nat.pred n)).

(** A yield closure that never asks to return. *)
Definition patient_yield : YieldClosure unit :=
  mkYieldClosure unit (fun u => (false, u)) (fun u => (false, u)).

(** [skewed_state] after discovery has been closed. *)
Definition closed_skewed_state : State (list N) :=
  mkState (set_discovering_refs false skewed_rp)
          (mkWorld skewed_heap null [102%N; 104%N] []) 5 5
          [EvEnableDiscovery; EvDisableDiscovery].

(** ** Where the discovered references go *)

(** Between the heap [h] with the entries [abs] and the pending list
    [pl], and the heap [h'] with the entries [abs'] and the pending
    list [pl'], the references [enq] were put on the pending list:
    they are linked in front of what was there, they were entries and
    are entries no longer, every entry that is gone is one of them or
    has a null [discovered] field, the Soft, Weak and Phantom ones
    among them have lost their referent, the Final ones have their
    [next] pointing to themselves, and no object outside the queues
    is written. *)
Record enqueues (h : Heap) (abs : Entries) (pl : oop)
    (h' : Heap) (abs' : Entries) (pl' : oop) (enq : list N) : Prop := mk_enqueues {
  enq_chain : lseg h' pl' enq pl;
  enq_nodup : NoDup enq;
  enq_was : forall x, x ∈ enq -> exists r, on_lists (abs r) x;
  enq_off : forall x r, x ∈ enq -> ~ on_lists (abs' r) x;
  enq_gone : forall r x, on_lists (abs r) x -> ~ on_lists (abs' r) x ->
               x ∈ enq \/ discovered_of h' x = null;
  enq_cleared : forall r x, x ∈ enq -> on_lists (abs r) x -> r <> REF_FINAL ->
                  referent_of h' x = null;
  enq_final : forall x, x ∈ enq -> on_lists (abs REF_FINAL) x -> next_of h' x = x;
  enq_frame : forall y, (forall r, ~ on_lists (abs r) y) -> h' !! y = h !! y
}.

Definition enqueued (h : Heap) (abs : Entries) (pl : oop)
    (h' : Heap) (abs' : Entries) (pl' : oop) : Prop :=
  exists enq, enqueues h abs pl h' abs' pl' enq.

(** Memory as the allocator may return it for twelve lists: every list
    holds a stale head and a stale count. *)
Definition stale_memory : list DiscoveredList.t := replicate 12 (DiscoveredList.mk 7 9).

(** * Proofs *)

(** ** Stepping through calls *)

Lemma bind_Ok {A B : Type} (a : A) (k : A -> Res B) : (Ok a ≫= k) = k a.
Proof. reflexivity. Qed.

Lemma list_at_Some (ls : list DiscoveredList.t) (i : nat) d :
  ls !! i = Some d -> list_at ls (Z.of_nat i) = Ok d.
Proof.
  intros H. unfold list_at.
  destruct (Z.ltb_spec (Z.of_nat i) 0); [lia|].
  rewrite Nat2Z.id, H. reflexivity.
Qed.

Lemma list_at_Some_Z (ls : list DiscoveredList.t) (i : Z) d :
  0 <= i -> ls !! Z.to_nat i = Some d -> list_at ls i = Ok d.
Proof.
  intros Hi H. rewrite <- (Z2Nat.id i Hi). apply list_at_Some. exact H.
Qed.

Lemma list_update_Some (ls : list DiscoveredList.t) (i : nat) d f :
  ls !! i = Some d -> list_update ls (Z.of_nat i) f = Ok (<[i := f d]> ls).
Proof.
  intros H. unfold list_update. rewrite (list_at_Some _ _ _ H).
  simpl. rewrite Nat2Z.id. reflexivity.
Qed.

(** ** List segments *)

Lemma lseg_app h l1 : forall p l2 q,
  lseg h p (l1 ++ l2) q <-> exists m, lseg h p l1 m /\ lseg h m l2 q.
Proof.
  induction l1 as [|x l1 IH]; intros p l2 q; simpl.
  - split.
    + intros H. exists p. auto.
    + intros (m & -> & H). exact H.
  - split.
    + intros (-> & r & Hr & H). apply IH in H as (m & H1 & H2).
      exists m. split; [|exact H2]. split; [reflexivity|]. eauto.
    + intros (m & (-> & r & Hr & H1) & H2). split; [reflexivity|].
      exists r. split; [exact Hr|]. apply IH. eauto.
Qed.

Lemma load_insert_ne (h : Heap) t r x :
  x <> t ->
  java_lang_ref_Reference.load (<[t := r]> h) x = java_lang_ref_Reference.load h x.
Proof.
  intros Hne. unfold java_lang_ref_Reference.load.
  destruct (decide (x = null)); [reflexivity|].
  rewrite lookup_insert_ne; [reflexivity|congruence].
Qed.

Lemma load_insert_eq (h : Heap) t r :
  t <> null -> java_lang_ref_Reference.load (<[t := r]> h) t = Some r.
Proof.
  intros Hne. unfold java_lang_ref_Reference.load.
  destruct (decide (t = null)); [contradiction|].
  apply lookup_insert_eq.
Qed.

Lemma load_not_null (h : Heap) x r :
  java_lang_ref_Reference.load h x = Some r -> x <> null.
Proof.
  unfold java_lang_ref_Reference.load.
  destruct (decide (x = null)); [discriminate|auto].
Qed.

(** A store to an object outside a segment leaves the segment alone. *)
Lemma lseg_frame h t r l : forall p q,
  t ∉ l -> lseg h p l q -> lseg (<[t := r]> h) p l q.
Proof.
  induction l as [|x l IH]; intros p q Hnot; simpl; [auto|].
  intros (-> & r' & Hr' & H).
  apply not_elem_of_cons in Hnot as [Hne Hnot].
  split; [reflexivity|]. exists r'. split.
  - rewrite load_insert_ne; auto.
  - apply IH; auto.
Qed.

Lemma lseg_not_null h l : forall p q x, lseg h p l q -> x ∈ l -> x <> null.
Proof.
  induction l as [|y l IH]; intros p q x; simpl.
  - intros _ Hin. apply elem_of_nil in Hin. contradiction.
  - intros (-> & r & Hr & H) Hin. apply elem_of_cons in Hin as [->|Hin].
    + eapply load_not_null; eauto.
    + eapply IH; eauto.
Qed.

(** Redirecting the last object of a segment redirects the segment. *)
Lemma lseg_set_last h l : forall p t q v r,
  NoDup (l ++ [t]) ->
  lseg h p (l ++ [t]) q ->
  java_lang_ref_Reference.load h t = Some r ->
  lseg (<[t := mkReference (referent r) v (next r)]> h) p (l ++ [t]) v.
Proof.
  induction l as [|x l IH]; intros p t q v r Hnd; simpl.
  - intros (-> & r' & Hr' & _) Hr. split; [reflexivity|].
    eexists. split; [apply load_insert_eq; eapply load_not_null; eauto|].
    reflexivity.
  - intros (-> & r' & Hr' & H) Hr. simpl in Hnd.
    apply NoDup_cons in Hnd as [Hx Hnd].
    split; [reflexivity|]. exists r'. split.
    + rewrite load_insert_ne; [exact Hr'|].
      intros ->. apply Hx. apply elem_of_app. right. apply list_elem_of_singleton. reflexivity.
    + eapply IH; eauto.
Qed.

Lemma last_cons_default (x : N) l : forall d d', List.last (x :: l) d = List.last (x :: l) d'.
Proof.
  revert x. induction l as [|y l IH]; intros x d d'; [reflexivity|].
  change (List.last (y :: l) d = List.last (y :: l) d'). apply IH.
Qed.

Lemma find_split_lseg h l : forall p q mt,
  lseg h p l q -> find_split h (length l) mt p = Ok (List.last l mt, q).
Proof.
  induction l as [|x l IH]; intros p q mt; simpl.
  - intros ->. reflexivity.
  - intros (-> & r & Hr & H).
    unfold java_lang_ref_Reference.get_discovered. rewrite Hr. simpl.
    rewrite (IH _ _ x H). f_equal. f_equal.
    destruct l; [reflexivity|]. apply last_cons_default.
Qed.

Lemma last_app_cons (l1 : list N) x l2 d :
  List.last (l1 ++ x :: l2) d = List.last (x :: l2) d.
Proof.
  induction l1 as [|y l1 IH]; [reflexivity|].
  rewrite <- IH. simpl app. destruct (l1 ++ x :: l2) eqn:E.
  - destruct l1; discriminate.
  - reflexivity.
Qed.

Lemma lseg_last_load h l : forall p t q,
  lseg h p (l ++ [t]) q ->
  exists r, java_lang_ref_Reference.load h t = Some r /\ discovered r = q.
Proof.
  induction l as [|x l IH]; intros p t q; simpl.
  - intros (-> & r & Hr & Hq). eauto.
  - intros (-> & r & Hr & H). eapply IH; eauto.
Qed.

Lemma is_list_frame h d l t r :
  t ∉ l -> is_list h d l -> is_list (<[t := r]> h) d l.
Proof.
  intros Hnot [Hlen Hch]. split; [exact Hlen|].
  destruct l; [exact Hch|]. apply lseg_frame; auto.
Qed.

Lemma separate_move (abs : list (list N)) (f t : nat) pre post lb :
  separate abs -> f <> t ->
  abs !! f = Some (pre ++ post) -> abs !! t = Some lb ->
  separate (<[f := post]> (<[t := pre ++ lb]> abs)).
Proof.
  intros [Hnd Hsep] Hft Hf Ht.
  assert (Hlf : (f < length abs)%nat) by (eapply lookup_lt_Some; eauto).
  assert (Hlt : (t < length abs)%nat) by (eapply lookup_lt_Some; eauto).
  pose proof (Hnd _ _ Hf) as Hndf. apply NoDup_app in Hndf as (Hpre & Hpp & Hpost).
  pose proof (Hnd _ _ Ht) as Hndt.
  assert (Hlook : forall i l, <[f := post]> (<[t := pre ++ lb]> abs) !! i = Some l ->
            (i = f /\ l = post) \/ (i = t /\ l = pre ++ lb) \/
            (i <> f /\ i <> t /\ abs !! i = Some l)).
  { intros i l. destruct (decide (i = f)) as [->|Hif].
    - rewrite list_lookup_insert_eq by (rewrite length_insert; lia).
      intros [= <-]. auto.
    - rewrite list_lookup_insert_ne by auto.
      destruct (decide (i = t)) as [->|Hit].
      + rewrite list_lookup_insert_eq by lia. intros [= <-]. auto.
      + rewrite list_lookup_insert_ne by auto. auto. }
  assert (Hsub : forall i l x, <[f := post]> (<[t := pre ++ lb]> abs) !! i = Some l ->
            x ∈ l ->
            (i = f /\ x ∈ post) \/ (i = t /\ x ∈ pre) \/
            (i <> f /\ exists l0, abs !! i = Some l0 /\ x ∈ l0)).
  { intros i l x Hl Hx. apply Hlook in Hl as [[-> ->]|[[-> ->]|(H1 & H2 & H3)]].
    - auto.
    - apply elem_of_app in Hx as [Hx|Hx]; [auto|].
      right. right. split; [auto|]. eauto.
    - right. right. split; [auto|]. eauto. }
  split.
  - intros i l Hl. apply Hlook in Hl as [[-> ->]|[[-> ->]|(H1 & H2 & H3)]].
    + exact Hpost.
    + apply NoDup_app. split; [exact Hpre|]. split; [|exact Hndt].
      intros x Hx Hx'. apply Hft.
      eapply (Hsep f t); eauto. apply elem_of_app. auto.
    + eapply Hnd; eauto.
  - intros i j li lj x Hi Hj Hxi Hxj.
    pose proof (Hsub _ _ _ Hi Hxi) as Ci. pose proof (Hsub _ _ _ Hj Hxj) as Cj.
    assert (Hpref : forall k l0, abs !! k = Some l0 -> x ∈ l0 -> x ∈ pre -> k = f).
    { intros k l0 Hk Hx0 Hxp. eapply (Hsep k f); eauto. apply elem_of_app. auto. }
    assert (Hpostf : forall k l0, abs !! k = Some l0 -> x ∈ l0 -> x ∈ post -> k = f).
    { intros k l0 Hk Hx0 Hxp. eapply (Hsep k f); eauto. apply elem_of_app. auto. }
    destruct Ci as [[-> Hi1]|[[-> Hi1]|(Hi0 & l1 & Hi1 & Hi2)]];
      destruct Cj as [[-> Hj1]|[[-> Hj1]|(Hj0 & l2 & Hj1 & Hj2)]];
      try reflexivity.
    + exfalso. eapply Hpp; eauto.
    + exfalso. apply Hj0. eapply Hpostf; eauto.
    + exfalso. eapply Hpp; eauto.
    + exfalso. apply Hj0. eapply Hpref; eauto.
    + exfalso. apply Hi0. eapply Hpostf; eauto.
    + exfalso. apply Hi0. eapply Hpref; eauto.
    + eapply Hsep; eauto.
Qed.

Lemma on_lists_move (abs : list (list N)) (f t : nat) pre post lb x :
  f <> t ->
  abs !! f = Some (pre ++ post) -> abs !! t = Some lb ->
  on_lists (<[f := post]> (<[t := pre ++ lb]> abs)) x <-> on_lists abs x.
Proof.
  intros Hft Hf Ht.
  assert (Hlf : (f < length abs)%nat) by (eapply lookup_lt_Some; eauto).
  assert (Hlt : (t < length abs)%nat) by (eapply lookup_lt_Some; eauto).
  split.
  - intros (i & l & Hi & Hx).
    destruct (decide (i = f)) as [->|Hif].
    + rewrite list_lookup_insert_eq in Hi by (rewrite length_insert; lia).
      injection Hi as <-. exists f, (pre ++ post). split; [exact Hf|].
      apply elem_of_app. auto.
    + rewrite list_lookup_insert_ne in Hi by auto.
      destruct (decide (i = t)) as [->|Hit].
      * rewrite list_lookup_insert_eq in Hi by lia. injection Hi as <-.
        apply elem_of_app in Hx as [Hx|Hx].
        -- exists f, (pre ++ post). split; [exact Hf|]. apply elem_of_app. auto.
        -- exists t, lb. auto.
      * rewrite list_lookup_insert_ne in Hi by auto. exists i, l. auto.
  - intros (i & l & Hi & Hx).
    destruct (decide (i = f)) as [->|Hif].
    + rewrite Hf in Hi. injection Hi as <-.
      apply elem_of_app in Hx as [Hx|Hx].
      * exists t, (pre ++ lb). split.
        -- rewrite list_lookup_insert_ne by auto. apply list_lookup_insert_eq. lia.
        -- apply elem_of_app. auto.
      * exists f, post. split; [|exact Hx].
        apply list_lookup_insert_eq. rewrite length_insert. lia.
    + destruct (decide (i = t)) as [->|Hit].
      * rewrite Ht in Hi. injection Hi as <-.
        exists t, (pre ++ lb). split.
        -- rewrite list_lookup_insert_ne by auto. apply list_lookup_insert_eq. lia.
        -- apply elem_of_app. auto.
      * exists i, l. split; [|exact Hx].
        rewrite !list_lookup_insert_ne by auto. exact Hi.
Qed.

Lemma is_list_nonempty h d l :
  l <> [] -> is_list h d l ->
  lseg h (DiscoveredList.head d) l (List.last l null).
Proof. intros Hne [_ H]. destruct l; [contradiction|exact H]. Qed.

Lemma is_list_intro h d l :
  l <> [] ->
  DiscoveredList.length d = Z.of_nat (length l) ->
  lseg h (DiscoveredList.head d) l (List.last l null) ->
  is_list h d l.
Proof. intros Hne Hlen H. split; [exact Hlen|]. destruct l; [contradiction|exact H]. Qed.

Lemma last_app_nonempty (l1 l2 : list N) d :
  l2 <> [] -> List.last (l1 ++ l2) d = List.last l2 d.
Proof. destruct l2; [contradiction|]. intros _. apply last_app_cons. Qed.

Lemma is_list_length h d l :
  is_list h d l -> DiscoveredList.length d = Z.of_nat (length l).
Proof. intros [H _]. exact H. Qed.

Lemma set_discovered_raw_load h o r v :
  java_lang_ref_Reference.load h o = Some r ->
  java_lang_ref_Reference.set_discovered_raw h o v
  = Ok (<[o := mkReference (referent r) v (next r)]> h).
Proof.
  intros H. unfold java_lang_ref_Reference.set_discovered_raw. rewrite H. reflexivity.
Qed.

(** ** Sums of counts *)

Lemma total_length_insert (ls : list DiscoveredList.t) : forall (i : nat) d d',
  ls !! i = Some d ->
  total_length (<[i := d']> ls)
  = total_length ls - DiscoveredList.length d + DiscoveredList.length d'.
Proof.
  induction ls as [|x ls IH]; intros i d d' H; [discriminate|].
  destruct i as [|i]; simpl in *.
  - injection H as ->. lia.
  - rewrite (IH _ _ _ H). lia.
Qed.

Lemma total_length_nonneg (ls : list DiscoveredList.t) :
  (forall (j : nat) d, ls !! j = Some d -> 0 <= DiscoveredList.length d) ->
  0 <= total_length ls.
Proof.
  induction ls as [|x ls IH]; intros H; simpl; [lia|].
  pose proof (H 0%nat x eq_refl).
  assert (0 <= total_length ls) by (apply IH; intros j d Hj; apply (H (S j) d Hj)).
  lia.
Qed.

Lemma total_length_ge (ls : list DiscoveredList.t) : forall (i : nat) d,
  (forall (j : nat) d, ls !! j = Some d -> 0 <= DiscoveredList.length d) ->
  ls !! i = Some d -> DiscoveredList.length d <= total_length ls.
Proof.
  induction ls as [|x ls IH]; intros i d Hnn H; [discriminate|].
  assert (0 <= total_length ls)
    by (apply total_length_nonneg; intros j d0 Hj; apply (Hnn (S j) d0 Hj)).
  pose proof (Hnn 0%nat x eq_refl).
  destruct i as [|i]; simpl in *.
  - injection H as ->. lia.
  - assert (DiscoveredList.length d <= total_length ls).
    { eapply IH; [|exact H]. intros j d0 Hj. apply (Hnn (S j) d0 Hj). }
    lia.
Qed.

(** When the first [n] counts are at least [avg], so is their mean. *)
Lemma total_length_lower (avg : Z) (ls : list DiscoveredList.t) : forall (n : nat),
  (n <= length ls)%nat ->
  (forall (j : nat) d, ls !! j = Some d -> 0 <= DiscoveredList.length d) ->
  (forall (j : nat) d, (j < n)%nat -> ls !! j = Some d -> avg <= DiscoveredList.length d) ->
  Z.of_nat n * avg <= total_length ls.
Proof.
  induction ls as [|x ls IH]; intros n Hn Hnn Havg.
  - simpl in Hn. assert (n = 0%nat) by lia. subst. simpl. lia.
  - assert (Hnn' : forall (j : nat) d, ls !! j = Some d -> 0 <= DiscoveredList.length d)
      by (intros j d0 Hj; apply (Hnn (S j) d0 Hj)).
    destruct n as [|n].
    + pose proof (total_length_nonneg (x :: ls) Hnn). lia.
    + simpl in Hn.
      assert (Z.of_nat n * avg <= total_length ls).
      { apply IH; [lia|exact Hnn'|]. intros j d0 Hj Hd. apply (Havg (S j) d0); [lia|exact Hd]. }
      pose proof (Havg 0%nat x ltac:(lia) eq_refl).
      simpl. lia.
Qed.

Lemma are_lists_nonneg h ls abs :
  are_lists h ls abs ->
  forall (j : nat) d, ls !! j = Some d -> 0 <= DiscoveredList.length d.
Proof.
  intros [HF _] j d Hj.
  destruct (Forall2_lookup_l _ _ _ _ _ HF Hj) as (l & _ & [Hlen _]).
  rewrite Hlen. lia.
Qed.

Lemma keeps_payload_refl h : keeps_payload h h.
Proof. intros y r H. eauto. Qed.

Lemma keeps_payload_trans h1 h2 h3 :
  keeps_payload h1 h2 -> keeps_payload h2 h3 -> keeps_payload h1 h3.
Proof.
  intros H12 H23 y r H. destruct (H12 _ _ H) as (r2 & H2 & E1 & E2).
  destruct (H23 _ _ H2) as (r3 & H3 & E3 & E4).
  exists r3. split; [exact H3|]. split; congruence.
Qed.

Lemma keeps_payload_set_discovered h x r v :
  java_lang_ref_Reference.load h x = Some r ->
  keeps_payload h (<[x := mkReference (referent r) v (next r)]> h).
Proof.
  intros Hx y ry Hy. destruct (decide (y = x)) as [->|Hne].
  - rewrite Hx in Hy. injection Hy as <-.
    rewrite load_insert_eq by (eapply load_not_null; eauto). eauto.
  - rewrite load_insert_ne by auto. eauto.
Qed.

Lemma relinks_refl abs h : relinks abs h h.
Proof. split; [apply keeps_payload_refl|auto]. Qed.

Lemma relinks_trans abs h1 h2 h3 :
  relinks abs h1 h2 -> relinks abs h2 h3 -> relinks abs h1 h3.
Proof.
  intros [P1 F1] [P2 F2]. split; [eapply keeps_payload_trans; eauto|].
  intros y Hy. rewrite F2, F1; auto.
Qed.

Lemma relinks_same abs abs' h h' :
  (forall x, on_lists abs' x <-> on_lists abs x) ->
  relinks abs' h h' -> relinks abs h h'.
Proof.
  intros Hon [P F]. split; [exact P|]. intros y Hy. apply F. rewrite Hon. exact Hy.
Qed.

Section BalanceProofs.

Variable build : Build.
Variables (num_queues max_num_queues : Z).

Lemma move_refs_spec h ls abs (f t : nat) pre post lb df dt :
  are_lists h ls abs ->
  f <> t ->
  abs !! f = Some (pre ++ post) -> abs !! t = Some lb ->
  ls !! f = Some df -> ls !! t = Some dt ->
  pre <> [] ->
  DiscoveredList.length dt + Z.of_nat (length pre) < size_t_range ->
  DiscoveredList.length df < size_t_range ->
  exists df' dt' h',
    move_refs build (Z.of_nat f) (Z.of_nat t) (Z.of_nat (length pre)) ls h
      = Ok (<[f := df']> (<[t := dt']> ls), h') /\
    DiscoveredList.length df' = DiscoveredList.length df - Z.of_nat (length pre) /\
    DiscoveredList.length dt' = DiscoveredList.length dt + Z.of_nat (length pre) /\
    are_lists h' (<[f := df']> (<[t := dt']> ls)) (<[f := post]> (<[t := pre ++ lb]> abs)) /\
    relinks abs h h'.
Proof.
  intros [HF Hsep] Hft Hf Ht Hdf Hdt Hpre Hb1 Hb2.
  pose proof (Forall2_lookup_lr _ _ _ _ _ _ HF Hdf Hf) as Hisf.
  pose proof (Forall2_lookup_lr _ _ _ _ _ _ HF Hdt Ht) as Hist.
  pose proof (Forall2_length _ _ _ HF) as Hlen.
  assert (Hlf : (f < length ls)%nat) by (eapply lookup_lt_Some; eauto).
  assert (Hlt : (t < length ls)%nat) by (eapply lookup_lt_Some; eauto).
  destruct (exists_last Hpre) as (pre' & mt & ->).
  assert (Hne : (pre' ++ [mt]) ++ post <> []) by (destruct pre'; discriminate).
  pose proof (is_list_nonempty _ _ _ Hne Hisf) as Hseg.
  apply lseg_app in Hseg as (m & Hseg1 & Hseg2).
  destruct (lseg_last_load _ _ _ _ _ Hseg1) as (r & Hr & Hrm).
  pose proof (proj1 Hsep _ _ Hf) as Hndf.
  pose proof (is_list_length _ _ _ Hisf) as Hlenf.
  pose proof (is_list_length _ _ _ Hist) as Hlent.
  rewrite length_app in Hlenf.
  set (k := Z.of_nat (length (pre' ++ [mt]))) in *.
  assert (Hk : 0 < k).
  { subst k. rewrite length_app. simpl. lia. }
  set (v := if decide (DiscoveredList.head dt = null) then mt else DiscoveredList.head dt).
  set (h' := <[mt := mkReference (referent r) v (next r)]> h).
  set (dt' := DiscoveredList.inc_length k
                (DiscoveredList.set_head (DiscoveredList.head df) dt)).
  set (df' := DiscoveredList.dec_length k
                (DiscoveredList.set_head (if decide (mt = m) then null else m) df)).
  exists df', dt', h'.
  assert (Hdt' : DiscoveredList.length dt' = DiscoveredList.length dt + k).
  { subst dt'. unfold DiscoveredList.inc_length, DiscoveredList.length. simpl.
    unfold wrap_size_t. apply Z.mod_small.
    unfold DiscoveredList.length in *. lia. }
  assert (Hdf' : DiscoveredList.length df' = DiscoveredList.length df - k).
  { subst df'. unfold DiscoveredList.dec_length, DiscoveredList.length. simpl.
    unfold wrap_size_t. apply Z.mod_small.
    unfold DiscoveredList.length in *. lia. }
  split; [|split; [exact Hdf'|split; [exact Hdt'|split]]].
  3:{ split; [subst h'; apply keeps_payload_set_discovered; exact Hr|].
      intros y Hy. subst h'. rewrite lookup_insert_ne; [reflexivity|].
      intros <-. apply Hy. exists f, ((pre' ++ [mt]) ++ post). split; [exact Hf|].
      apply elem_of_app. left. apply elem_of_app. right.
      apply list_elem_of_singleton. reflexivity. }
  - unfold move_refs.
    rewrite (list_at_Some _ _ _ Hdf), bind_Ok.
    subst k. rewrite Nat2Z.id.
    rewrite (find_split_lseg _ _ _ _ (DiscoveredList.head df) Hseg1), bind_Ok.
    rewrite List.last_last.
    rewrite (list_at_Some _ _ _ Hdt), bind_Ok.
    replace (if decide (DiscoveredList.head dt = null)
             then java_lang_ref_Reference.set_discovered_raw h mt mt
             else java_lang_ref_Reference.set_discovered_raw h mt (DiscoveredList.head dt))
      with (Ok (A:=gmap N Reference) h').
    2:{ subst h' v. destruct (decide (DiscoveredList.head dt = null));
          symmetry; apply set_discovered_raw_load; exact Hr. }
    rewrite bind_Ok.
    rewrite (list_update_Some _ _ _ _ Hdt), bind_Ok.
    rewrite (list_update_Some _ _ (DiscoveredList.set_head (DiscoveredList.head df) dt)), bind_Ok
      by (apply list_lookup_insert_eq; lia).
    rewrite list_insert_insert_eq.
    rewrite (list_at_Some _ _ dt') by (apply list_lookup_insert_eq; lia).
    rewrite bind_Ok.
    fold (length (pre' ++ [mt])).
    replace (assert_ build (0 <? DiscoveredList.length dt') "Error") with (Ok tt).
    2:{ unfold assert_. destruct (Z.ltb_spec 0 (DiscoveredList.length dt')); [reflexivity|].
        exfalso. lia. }
    rewrite bind_Ok.
    assert (Hf2 : <[t := dt']> ls !! f = Some df)
      by (rewrite list_lookup_insert_ne; auto).
    replace (if decide (mt = m)
             then list_update (<[t := dt']> ls) (Z.of_nat f) (DiscoveredList.set_head null)
             else list_update (<[t := dt']> ls) (Z.of_nat f) (DiscoveredList.set_head m))
      with (Ok (<[f := DiscoveredList.set_head (if decide (mt = m) then null else m) df]>
                  (<[t := dt']> ls))).
    2:{ destruct (decide (mt = m)); symmetry; apply list_update_Some; exact Hf2. }
    rewrite bind_Ok.
    rewrite (list_update_Some _ _
               (DiscoveredList.set_head (if decide (mt = m) then null else m) df)), bind_Ok
      by (apply list_lookup_insert_eq; rewrite length_insert; lia).
    rewrite list_insert_insert_eq. reflexivity.
  - assert (Hmt_post : mt ∉ post).
    { intros Hin. apply NoDup_app in Hndf as (_ & Hdis & _).
      apply (Hdis mt); [|exact Hin]. apply elem_of_app. right.
      apply list_elem_of_singleton. reflexivity. }
    assert (Hmt_other : forall i l, abs !! i = Some l -> mt ∈ l -> i = f).
    { intros i l Hi Hin. eapply (proj2 Hsep i f); eauto.
      apply elem_of_app. left. apply elem_of_app. right.
      apply list_elem_of_singleton. reflexivity. }
    split; [|apply separate_move; auto].
    apply Forall2_same_length_lookup. split.
    { rewrite !length_insert. exact Hlen. }
    intros i d l Hd Hl.
    destruct (decide (i = f)) as [->|Hif].
    + rewrite list_lookup_insert_eq in Hd by (rewrite length_insert; lia).
      rewrite list_lookup_insert_eq in Hl by (rewrite length_insert; lia).
      injection Hd as <-. injection Hl as <-.
      split; [rewrite Hdf'; subst k; lia|].
      destruct post as [|y post'].
      * rewrite app_nil_r in Hseg2. simpl in Hseg2.
        rewrite List.last_last in Hseg2. subst m.
        subst df'. unfold DiscoveredList.head. simpl.
        destruct (decide (mt = mt)); [reflexivity|contradiction].
      * rewrite last_app_cons in Hseg2.
        assert (Hym : m = y) by (simpl in Hseg2; tauto).
        assert (Hne_mt : mt <> m).
        { intros E. apply Hmt_post. rewrite E, Hym. apply elem_of_cons. auto. }
        assert (Hhd : DiscoveredList.head df' = m).
        { subst df'. unfold DiscoveredList.head. simpl.
          destruct (decide (mt = m)); [contradiction|reflexivity]. }
        unfold is_list. rewrite Hhd.
        apply (lseg_frame h mt _ (y :: post')); auto.
    + rewrite list_lookup_insert_ne in Hd by auto.
      rewrite list_lookup_insert_ne in Hl by auto.
      destruct (decide (i = t)) as [->|Hit].
      * rewrite list_lookup_insert_eq in Hd by lia.
        rewrite list_lookup_insert_eq in Hl by lia.
        injection Hd as <-. injection Hl as <-.
        assert (Hmt_lb : mt ∉ lb).
        { intros Hin. apply Hft. symmetry. eapply Hmt_other; eauto. }
        assert (Hhead : DiscoveredList.head dt' = DiscoveredList.head df) by reflexivity.
        assert (Hpre_seg : lseg h' (DiscoveredList.head df) (pre' ++ [mt]) v).
        { eapply lseg_set_last; eauto.
          apply NoDup_app in Hndf as (H1 & _). exact H1. }
        apply is_list_intro.
        { destruct pre'; discriminate. }
        { rewrite Hdt', length_app; subst k; lia. }
        rewrite Hhead. apply lseg_app. exists v. split; [exact Hpre_seg|].
        destruct lb as [|b lb'].
        -- destruct Hist as [_ Hnull]. subst v.
           destruct (decide (DiscoveredList.head dt = null)); [|contradiction].
           rewrite app_nil_r, List.last_last. reflexivity.
        -- pose proof (is_list_nonempty h dt (b :: lb') ltac:(discriminate) Hist) as Hlb.
           assert (Hbn : DiscoveredList.head dt <> null).
           { eapply lseg_not_null; [exact Hlb|]. simpl in Hlb. destruct Hlb as [-> _].
             apply elem_of_cons. auto. }
           subst v. destruct (decide (DiscoveredList.head dt = null)); [contradiction|].
           rewrite last_app_cons. apply lseg_frame; auto.
      * rewrite list_lookup_insert_ne in Hd by auto.
        rewrite list_lookup_insert_ne in Hl by auto.
        apply is_list_frame.
        -- intros Hin. apply Hif. eapply Hmt_other; eauto.
        -- eapply Forall2_lookup_lr; eauto.
Qed.

Section Loops.

Variables (avg_refs total_refs : Z).
Hypothesis Hn : 0 < num_queues <= max_num_queues.
Hypothesis Hmax : max_num_queues < uint_range.
Hypothesis Havg : 0 < avg_refs < size_t_range.
Hypothesis Hroom : total_refs < num_queues * avg_refs.
Hypothesis Hrange : total_refs < size_t_range.

(** While entries remain to be moved there is a queue to take them. *)
Lemma destination_exists h ls abs (f : nat) to_idx remaining :
  are_lists h ls abs ->
  Z.of_nat (length ls) = max_num_queues ->
  total_length ls = total_refs ->
  balanced_before num_queues avg_refs f to_idx ls ->
  moving_from num_queues avg_refs f remaining ls ->
  0 < remaining ->
  to_idx < num_queues.
Proof.
  intros Hwf Hlen Htot (Hto & Hfull & _) (df & Hdf & Hrem & _ & Heq) Hpos.
  destruct (Z.lt_ge_cases to_idx num_queues) as [|Hge]; [assumption|exfalso].
  specialize (Heq Hpos).
  pose proof (are_lists_nonneg _ _ _ Hwf) as Hnn.
  set (d0 := DiscoveredList.set_length (DiscoveredList.length df - remaining) df).
  assert (Hd0 : DiscoveredList.length d0 = DiscoveredList.length df - remaining)
    by reflexivity.
  assert (Hlf : (f < length ls)%nat) by (eapply lookup_lt_Some; eauto).
  assert (Hlow : Z.of_nat (Z.to_nat num_queues) * avg_refs
                 <= total_length (<[f := d0]> ls)).
  { apply total_length_lower.
    - rewrite length_insert. lia.
    - intros j d Hj. destruct (decide (j = f)) as [->|Hjf].
      + rewrite list_lookup_insert_eq in Hj by lia. injection Hj as <-.
        rewrite Hd0. lia.
      + rewrite list_lookup_insert_ne in Hj by auto. eapply Hnn; eauto.
    - intros j d Hjn Hj. destruct (decide (j = f)) as [->|Hjf].
      + rewrite list_lookup_insert_eq in Hj by lia. injection Hj as <-.
        rewrite Hd0, Heq. unfold keep_count.
        destruct (Z.ltb_spec (Z.of_nat f) num_queues); lia.
      + rewrite list_lookup_insert_ne in Hj by auto.
        apply (Hfull j d); [lia|exact Hj]. }
  rewrite (total_length_insert _ _ _ _ Hdf), Hd0, Htot in Hlow.
  rewrite Z2Nat.id in Hlow by lia. lia.
Qed.

Lemma move_loop_spec (f : nat) : forall fuel to_idx remaining ls h abs,
  are_lists h ls abs ->
  Z.of_nat (length ls) = max_num_queues ->
  total_length ls = total_refs ->
  balanced_before num_queues avg_refs f to_idx ls ->
  moving_from num_queues avg_refs f remaining ls ->
  (Z.to_nat (remaining + (num_queues - to_idx)) < fuel)%nat ->
  exists to_idx' ls' h' abs',
    move_loop build num_queues fuel avg_refs (Z.of_nat f) to_idx remaining ls h
      = Ok (to_idx', ls', h') /\
    are_lists h' ls' abs' /\
    Z.of_nat (length ls') = max_num_queues /\
    total_length ls' = total_refs /\
    balanced_before num_queues avg_refs f to_idx' ls' /\
    moving_from num_queues avg_refs f 0 ls' /\
    (forall x, on_lists abs' x <-> on_lists abs x) /\
    relinks abs h h'.
Proof.
  induction fuel as [|fuel IH]; intros to_idx remaining ls h abs
    Hwf Hlen Htot Hbal Hfrom Hfuel; [lia|].
  simpl.
  destruct (Z.ltb_spec 0 remaining) as [Hpos|Hzero].
  2:{ exists to_idx, ls, h, abs. split; [reflexivity|].
      split; [exact Hwf|]. split; [exact Hlen|]. split; [exact Htot|].
      split; [exact Hbal|]. split; [|split; [tauto|apply relinks_refl]].
      destruct Hfrom as (d & Hd & Hr & Hk & He).
      assert (remaining = 0) by lia. subst. exists d. auto. }
  pose proof (destination_exists _ _ _ _ _ _ Hwf Hlen Htot Hbal Hfrom Hpos) as Hto.
  pose proof (are_lists_nonneg _ _ _ Hwf) as Hnn.
  destruct Hbal as (Hto0 & Hfull & Hdone).
  destruct Hfrom as (df & Hdf & Hrem & Hkeep & Heq).
  specialize (Heq Hpos).
  replace (assert_ build (to_idx <? num_queues) "Sanity Check!") with (Ok tt).
  2:{ unfold assert_. destruct (Z.ltb_spec to_idx num_queues); [reflexivity|lia]. }
  rewrite bind_Ok.
  assert (Htn : (Z.to_nat to_idx < length ls)%nat) by lia.
  destruct (lookup_lt_is_Some_2 _ _ Htn) as [dt Hdt].
  rewrite (list_at_Some_Z _ _ _ (proj1 Hto0) Hdt), bind_Ok.
  pose proof (Hnn _ _ Hdt) as Hdt0.
  destruct (Z.leb_spec avg_refs (DiscoveredList.length dt)) as [Hfullt|Hless].
  - (* this list is full enough *)
    replace (wrap_uint (to_idx + 1)) with (to_idx + 1)
      by (unfold wrap_uint; rewrite Z.mod_small; lia).
    apply (IH (to_idx + 1) remaining ls h abs); try assumption.
    + split; [lia|]. split; [|exact Hdone].
      intros j d Hj Hd. destruct (decide (Z.of_nat j = to_idx)) as [E|E].
      * assert (j = Z.to_nat to_idx) by lia. subst j.
        rewrite Hdt in Hd. injection Hd as <-. exact Hfullt.
      * apply (Hfull j d); [lia|exact Hd].
    + exists df. auto.
    + lia.
  - (* move some entries *)
    replace (wrap_size_t (avg_refs - DiscoveredList.length dt))
      with (avg_refs - DiscoveredList.length dt)
      by (unfold wrap_size_t; rewrite Z.mod_small; lia).
    set (k := Z.min remaining (avg_refs - DiscoveredList.length dt)).
    assert (Hk : 0 < k <= remaining /\ k <= avg_refs - DiscoveredList.length dt)
      by (subst k; lia).
    replace (assert_ build (0 <? k) "otherwise the code below will fail") with (Ok tt).
    2:{ unfold assert_. destruct (Z.ltb_spec 0 k); [reflexivity|lia]. }
    rewrite bind_Ok.
    assert (Hft : f <> Z.to_nat to_idx).
    { intros ->. rewrite Hdt in Hdf. injection Hdf as ->.
      unfold keep_count in Heq.
      destruct (Z.ltb_spec (Z.of_nat (Z.to_nat to_idx)) num_queues); lia. }
    destruct Hwf as [HF Hsep].
    destruct (Forall2_lookup_l _ _ _ _ _ HF Hdf) as (lf & Hlf & Hisf).
    destruct (Forall2_lookup_l _ _ _ _ _ HF Hdt) as (lt & Hlt & Hist).
    pose proof (is_list_length _ _ _ Hisf) as Hlenf.
    assert (Hsplit : lf = take (Z.to_nat k) lf ++ drop (Z.to_nat k) lf)
      by (symmetry; apply take_drop).
    assert (Hlpre : Z.of_nat (length (take (Z.to_nat k) lf)) = k).
    { rewrite length_take. lia. }
    rewrite Hsplit in Hlf.
    assert (Hpre_ne : take (Z.to_nat k) lf <> []).
    { intros E. rewrite E in Hlpre. simpl in Hlpre. lia. }
    assert (Hdf_range : DiscoveredList.length df < size_t_range).
    { pose proof (total_length_ge ls f df Hnn Hdf). lia. }
    destruct (move_refs_spec h ls abs f (Z.to_nat to_idx) _ _ lt df dt
                (conj HF Hsep) Hft Hlf Hlt Hdf Hdt Hpre_ne
                ltac:(rewrite Hlpre; lia) Hdf_range)
      as (df' & dt' & h' & Hmove & Hdf' & Hdt' & Hwf' & Hrel').
    rewrite Hlpre in Hmove, Hdf', Hdt'.
    rewrite Z2Nat.id in Hmove by lia. rewrite Hmove, bind_Ok.
    replace (wrap_size_t (remaining - k)) with (remaining - k)
      by (unfold wrap_size_t; rewrite Z.mod_small; lia).
    assert (Hlf' : (f < length ls)%nat) by (eapply lookup_lt_Some; eauto).
    assert (Hon : forall x,
              on_lists (<[f := drop (Z.to_nat k) lf]>
                          (<[Z.to_nat to_idx := take (Z.to_nat k) lf ++ lt]> abs)) x
              <-> on_lists abs x)
      by (intros x; apply on_lists_move; auto).
    cut (exists to_idx' ls' h'0 abs',
      move_loop build num_queues fuel avg_refs (Z.of_nat f) to_idx (remaining - k)
        (<[f := df']> (<[Z.to_nat to_idx := dt']> ls)) h' = Ok (to_idx', ls', h'0) /\
      are_lists h'0 ls' abs' /\
      Z.of_nat (length ls') = max_num_queues /\
      total_length ls' = total_refs /\
      balanced_before num_queues avg_refs f to_idx' ls' /\
      moving_from num_queues avg_refs f 0 ls' /\
      (forall x, on_lists abs' x <->
         on_lists (<[f := drop (Z.to_nat k) lf]>
                     (<[Z.to_nat to_idx := take (Z.to_nat k) lf ++ lt]> abs)) x) /\
      relinks (<[f := drop (Z.to_nat k) lf]>
                 (<[Z.to_nat to_idx := take (Z.to_nat k) lf ++ lt]> abs)) h' h'0).
    { intros (to2 & ls2 & h2 & abs2 & R1 & R2 & R3 & R4 & R5 & R6 & R7 & R8).
      exists to2, ls2, h2, abs2.
      split; [exact R1|]. split; [exact R2|]. split; [exact R3|].
      split; [exact R4|]. split; [exact R5|]. split; [exact R6|].
      split; [intros x; rewrite R7; apply Hon|].
      eapply relinks_trans; [exact Hrel'|].
      eapply relinks_same; [|exact R8]. exact Hon. }
    eapply (IH to_idx (remaining - k)); try exact Hwf'.
    + rewrite !length_insert. exact Hlen.
    + rewrite (total_length_insert _ f df)
        by (rewrite list_lookup_insert_ne; auto).
      rewrite (total_length_insert _ _ dt) by exact Hdt. lia.
    + split; [lia|]. split.
      * intros j d Hj Hd. destruct (decide (j = f)) as [->|Hjf].
        -- rewrite list_lookup_insert_eq in Hd by (rewrite length_insert; lia).
           injection Hd as <-. rewrite Hdf', Heq. unfold keep_count.
           destruct (Z.ltb_spec (Z.of_nat f) num_queues); lia.
        -- rewrite list_lookup_insert_ne in Hd by auto.
           rewrite list_lookup_insert_ne in Hd by lia.
           apply (Hfull j d); auto.
      * intros j d Hj Hd.
        rewrite list_lookup_insert_ne in Hd by lia.
        destruct (decide (j = Z.to_nat to_idx)) as [->|Hjt].
        -- rewrite list_lookup_insert_eq in Hd by lia. injection Hd as <-.
           destruct (Z.ltb_spec (Z.of_nat (Z.to_nat to_idx)) num_queues); lia.
        -- rewrite list_lookup_insert_ne in Hd by auto.
           apply (Hdone j d); auto.
    + exists df'. split.
      * apply list_lookup_insert_eq. rewrite length_insert. lia.
      * rewrite Hdf'. lia.
    + lia.
Qed.

Lemma from_loop_spec fuel : forall k (f : nat) to_idx ls h abs,
  (k + f)%nat = Z.to_nat max_num_queues ->
  are_lists h ls abs ->
  Z.of_nat (length ls) = max_num_queues ->
  total_length ls = total_refs ->
  balanced_before num_queues avg_refs f to_idx ls ->
  (Z.to_nat (total_refs + num_queues) < fuel)%nat ->
  exists to_idx' ls' h' abs',
    from_loop build num_queues fuel k avg_refs (Z.of_nat f) to_idx ls h = Ok (ls', h') /\
    are_lists h' ls' abs' /\
    Z.of_nat (length ls') = max_num_queues /\
    total_length ls' = total_refs /\
    balanced_before num_queues avg_refs (Z.to_nat max_num_queues) to_idx' ls' /\
    (forall x, on_lists abs' x <-> on_lists abs x) /\
    relinks abs h h'.
Proof.
  induction k as [|k IH]; intros f to_idx ls h abs Hk Hwf Hlen Htot Hbal Hfuel.
  - simpl in Hk. subst f. exists to_idx, ls, h, abs. simpl.
    split; [reflexivity|]. split; [exact Hwf|]. split; [exact Hlen|].
    split; [exact Htot|]. split; [exact Hbal|]. split; [tauto|apply relinks_refl].
  - simpl.
    assert (Hfl : (f < length ls)%nat) by lia.
    destruct (lookup_lt_is_Some_2 _ _ Hfl) as [df Hdf].
    rewrite (list_at_Some _ _ _ Hdf), bind_Ok.
    pose proof (are_lists_nonneg _ _ _ Hwf) as Hnn.
    pose proof (Hnn _ _ Hdf) as Hdf0.
    pose proof (total_length_ge ls f df Hnn Hdf) as Hdft.
    set (remaining :=
           if num_queues <=? Z.of_nat f then DiscoveredList.length df
           else if avg_refs <? DiscoveredList.length df
                then wrap_size_t (DiscoveredList.length df - avg_refs) else 0).
    assert (Hfrom : moving_from num_queues avg_refs f remaining ls).
    { exists df. split; [exact Hdf|]. subst remaining. unfold keep_count.
      destruct (Z.leb_spec num_queues (Z.of_nat f));
        destruct (Z.ltb_spec (Z.of_nat f) num_queues); try lia.
      destruct (Z.ltb_spec avg_refs (DiscoveredList.length df)).
      - unfold wrap_size_t. rewrite Z.mod_small by lia. lia.
      - lia. }
    assert (Hrem : remaining <= DiscoveredList.length df)
      by (destruct Hfrom as (d & Hd & H1 & _); rewrite Hdf in Hd;
          injection Hd as <-; lia).
    destruct (move_loop_spec f fuel to_idx remaining ls h abs Hwf Hlen Htot Hbal Hfrom)
      as (to' & ls' & h' & abs' & Hrun & Hwf' & Hlen' & Htot' & Hbal' & Hfrom' & Hon' &
          Hrel').
    { destruct Hbal as ((? & ?) & _). lia. }
    rewrite Hrun, bind_Ok.
    replace (Z.of_nat f + 1) with (Z.of_nat (S f)) by lia.
    cut (exists to_idx' ls'0 h'0 abs'0,
      from_loop build num_queues fuel k avg_refs (Z.of_nat (S f)) to' ls' h'
        = Ok (ls'0, h'0) /\
      are_lists h'0 ls'0 abs'0 /\
      Z.of_nat (length ls'0) = max_num_queues /\
      total_length ls'0 = total_refs /\
      balanced_before num_queues avg_refs (Z.to_nat max_num_queues) to_idx' ls'0 /\
      (forall x, on_lists abs'0 x <-> on_lists abs' x) /\
      relinks abs' h' h'0).
    { intros (to2 & ls2 & h2 & abs2 & R1 & R2 & R3 & R4 & R5 & R6 & R7).
      exists to2, ls2, h2, abs2.
      split; [exact R1|]. split; [exact R2|]. split; [exact R3|].
      split; [exact R4|]. split; [exact R5|].
      split; [intros x; rewrite R6; apply Hon'|].
      eapply relinks_trans; [exact Hrel'|].
      eapply relinks_same; [|exact R7]. exact Hon'. }
    apply (IH (S f) to' ls' h' abs'); try assumption; [lia|].
    destruct Hbal' as (Hto' & Hfull' & Hdone').
    split; [exact Hto'|]. split; [exact Hfull'|].
    intros j d Hj Hd. destruct (decide (j = f)) as [->|Hjf].
    + destruct Hfrom' as (d' & Hd' & H1 & H2 & _).
      rewrite Hd in Hd'. injection Hd' as <-.
      unfold keep_count in H2.
      destruct (Z.ltb_spec (Z.of_nat f) num_queues); lia.
    + apply (Hdone' j d); [lia|exact Hd].
Qed.

End Loops.

Lemma sum_lengths_spec (ls : list DiscoveredList.t) : forall k (i : nat) acc,
  (forall (j : nat) d, ls !! j = Some d -> 0 <= DiscoveredList.length d) ->
  (i + k <= length ls)%nat ->
  0 <= acc ->
  acc + total_length (take k (drop i ls)) < size_t_range ->
  sum_lengths ls k (Z.of_nat i) acc = Ok (acc + total_length (take k (drop i ls))).
Proof.
  induction k as [|k IH]; intros i acc Hnn Hik Hacc Hsum.
  - simpl. f_equal. lia.
  - assert (Hil : (i < length ls)%nat) by lia.
    destruct (lookup_lt_is_Some_2 _ _ Hil) as [d Hd].
    rewrite (drop_S _ _ _ Hd) in *. simpl in Hsum |- *.
    rewrite (list_at_Some _ _ _ Hd), bind_Ok.
    pose proof (Hnn _ _ Hd).
    assert (0 <= total_length (take k (drop (S i) ls))).
    { apply total_length_nonneg. intros j d0 Hj.
      apply lookup_take_Some in Hj as [Hj _]. rewrite lookup_drop in Hj.
      eapply Hnn; eauto. }
    replace (wrap_size_t (acc + DiscoveredList.length d))
      with (acc + DiscoveredList.length d)
      by (unfold wrap_size_t; rewrite Z.mod_small; lia).
    replace (Z.of_nat i + 1) with (Z.of_nat (S i)) by lia.
    rewrite IH by (try assumption; lia). f_equal. lia.
Qed.

Lemma total_length_take_zero (ls : list DiscoveredList.t) : forall (n : nat),
  (forall (j : nat) d, (n <= j)%nat -> ls !! j = Some d -> DiscoveredList.length d = 0) ->
  total_length (take n ls) = total_length ls.
Proof.
  induction ls as [|x ls IH]; intros n Hz; [destruct n; reflexivity|].
  destruct n as [|n]; simpl.
  - pose proof (Hz 0%nat x ltac:(lia) eq_refl) as Hx.
    rewrite <- (IH 0%nat); [rewrite take_0; simpl; lia|].
    intros j d _ Hj. apply (Hz (S j) d); [lia|exact Hj].
  - rewrite IH; [reflexivity|].
    intros j d Hnj Hj. apply (Hz (S j) d); [lia|exact Hj].
Qed.

(** The whole of [balance_queues] on well-formed lists. *)
Lemma balance_queues_spec fuel ls h abs :
  0 < num_queues <= max_num_queues ->
  max_num_queues < uint_range ->
  Z.of_nat (length ls) = max_num_queues ->
  are_lists h ls abs ->
  total_length ls + 1 < size_t_range ->
  (Z.to_nat (total_length ls + num_queues) < fuel)%nat ->
  exists ls' h' abs',
    balance_queues build num_queues max_num_queues fuel ls h = Ok (ls', h') /\
    are_lists h' ls' abs' /\
    length ls' = length ls /\
    total_length ls' = total_length ls /\
    (forall (i : nat) d, ls' !! i = Some d ->
       if Z.of_nat i <? num_queues
       then DiscoveredList.length d <= total_length ls / num_queues + 1
       else DiscoveredList.length d = 0) /\
    (forall x, on_lists abs' x <-> on_lists abs x) /\
    relinks abs h h'.
Proof.
  intros Hn Hmax Hlen Hwf Hrange Hfuel.
  pose proof (are_lists_nonneg _ _ _ Hwf) as Hnn.
  pose proof (total_length_nonneg _ Hnn) as Htot0.
  set (total := total_length ls) in *.
  set (avg := total / num_queues + 1).
  assert (Hdiv : 0 <= total / num_queues <= total).
  { split; [apply Z.div_pos; lia|]. apply Z.div_le_upper_bound; nia. }
  assert (Havg : 0 < avg < size_t_range) by (subst avg; lia).
  assert (Hroom : total < num_queues * avg).
  { subst avg. apply (Z.mul_succ_div_gt total num_queues). lia. }
  unfold balance_queues.
  assert (Hsum : sum_lengths ls (Z.to_nat max_num_queues) 0 0 = Ok total).
  { change 0 with (Z.of_nat 0) at 1.
    assert (Hwhole : take (Z.to_nat max_num_queues) (drop 0 ls) = ls)
      by (rewrite drop_0; apply take_ge; lia).
    rewrite sum_lengths_spec; rewrite ?Hwhole; fold total;
      try assumption; try lia.
    reflexivity. }
  rewrite Hsum, bind_Ok.
  destruct (decide (num_queues = 0)) as [E|_]; [lia|]. rewrite bind_Ok.
  replace (wrap_size_t (total / num_queues + 1)) with avg
    by (unfold wrap_size_t; rewrite Z.mod_small; subst avg; lia).
  destruct (from_loop_spec avg total Hn Hmax Havg Hroom ltac:(lia) fuel
              (Z.to_nat max_num_queues) 0%nat 0 ls h abs)
    as (to' & ls' & h' & abs' & Hrun & Hwf' & Hlen' & Htot' & Hbal' & Hon' & Hrel');
    try assumption.
  { lia. }
  { reflexivity. }
  { split; [lia|]. split; intros j d Hj; lia. }
  change (Z.of_nat 0) with 0 in Hrun. rewrite Hrun, bind_Ok.
  destruct Hbal' as (Hto' & Hfull' & Hdone').
  assert (Hfinal : forall (i : nat) d, ls' !! i = Some d ->
            if Z.of_nat i <? num_queues
            then DiscoveredList.length d <= avg else DiscoveredList.length d = 0).
  { intros i d Hd. apply (Hdone' i d); [|exact Hd].
    apply lookup_lt_Some in Hd. lia. }
  pose proof (are_lists_nonneg _ _ _ Hwf') as Hnn'.
  exists ls', h', abs'. split.
  - destruct (ASSERT build) eqn:Eassert; [|reflexivity].
    assert (Htake : total_length (take (Z.to_nat num_queues) ls') = total).
    { rewrite total_length_take_zero; [exact Htot'|].
      intros j d Hj Hd. pose proof (Hfinal j d Hd) as Hf.
      destruct (Z.ltb_spec (Z.of_nat j) num_queues); [lia|exact Hf]. }
    change 0 with (Z.of_nat 0) at 1.
    rewrite sum_lengths_spec; rewrite ?drop_0, ?Htake; try assumption; try lia.
    rewrite bind_Ok. simpl. unfold assert_.
    replace (total =? 0 + total) with true by (symmetry; apply Z.eqb_eq; lia).
    reflexivity.
  - split; [exact Hwf'|]. split; [lia|]. split; [exact Htot'|].
    split; [exact Hfinal|]. split; [exact Hon'|exact Hrel'].
Qed.

End BalanceProofs.

(** ** Chains under the stores of the iterator *)

Lemma lseg_mid h l1 : forall p x l2 q,
  lseg h p (l1 ++ x :: l2) q ->
  lseg h p l1 x /\
  exists r, java_lang_ref_Reference.load h x = Some r /\ lseg h (discovered r) l2 q.
Proof.
  intros p x l2 q H. apply lseg_app in H as (m & H1 & H2).
  simpl in H2. destruct H2 as (-> & r & Hr & H2). split; [exact H1|]. eauto.
Qed.

Lemma successor_self (x : N) rest :
  x ∉ rest -> (successor x rest = x <-> rest = []).
Proof.
  intros Hx. destruct rest as [|y rest]; simpl; [tauto|].
  split; [|discriminate]. intros ->. exfalso. apply Hx. apply elem_of_cons. auto.
Qed.

(** The object under the cursor and the links around it. *)
Lemma chain_current h d kept x rest :
  is_list h d (kept ++ x :: rest) ->
  exists r, java_lang_ref_Reference.load h x = Some r /\
    discovered r = successor x rest /\
    lseg h (DiscoveredList.head d) kept x /\
    (rest <> [] -> lseg h (successor x rest) rest (List.last rest null)).
Proof.
  intros His.
  assert (Hne : kept ++ x :: rest <> []) by (destruct kept; discriminate).
  pose proof (is_list_nonempty _ _ _ Hne His) as Hseg.
  rewrite last_app_cons in Hseg.
  apply lseg_mid in Hseg as (Hk & r & Hr & Hrest).
  exists r. split; [exact Hr|].
  destruct rest as [|y rest].
  - simpl in Hrest. split; [exact Hrest|]. split; [exact Hk|]. intros []; reflexivity.
  - assert (Hy : discovered r = y) by (simpl in Hrest; tauto).
    split; [exact Hy|]. split; [exact Hk|]. intros _. simpl successor.
    rewrite Hy in Hrest.
    change (List.last (x :: y :: rest) null) with (List.last (y :: rest) null) in Hrest.
    exact Hrest.
Qed.

(** Unlinking the object under the cursor, as [remove] does: its own
    link is cleared and the previous link skips it.  First for the
    object at the head, then for an object behind [p]. *)
Lemma chain_after_remove_head h d x rest r :
  is_list h d (x :: rest) ->
  NoDup (x :: rest) ->
  java_lang_ref_Reference.load h x = Some r ->
  Z.of_nat (length (x :: rest)) < size_t_range ->
  is_list (<[x := mkReference (referent r) null (next r)]> h)
    (DiscoveredList.dec_length 1
       (DiscoveredList.set_head
          (if decide (successor x rest = x) then null else successor x rest) d))
    rest.
Proof.
  intros His Hnd Hr Hrange.
  destruct (chain_current h d [] x rest His) as (r' & Hr' & Hsucc & Hk & Hrest).
  pose proof (is_list_length _ _ _ His) as Hlen.
  simpl length in Hlen, Hrange.
  apply NoDup_cons in Hnd as (Hxrest & Hndr).
  assert (Hdec : forall d', DiscoveredList.length d' = DiscoveredList.length d ->
            DiscoveredList.length (DiscoveredList.dec_length 1 d')
            = Z.of_nat (length rest)).
  { intros d' Hd'. unfold DiscoveredList.dec_length, DiscoveredList.length in *. simpl.
    unfold wrap_size_t. rewrite Z.mod_small; lia. }
  destruct rest as [|y rest].
  - split; [apply Hdec; reflexivity|]. simpl.
    destruct (decide (x = x)); [reflexivity|contradiction].
  - apply is_list_intro; [discriminate|rewrite Hdec by reflexivity; reflexivity|].
    simpl successor.
    destruct (decide (y = x)) as [E|_].
    { exfalso. apply Hxrest. rewrite E. apply elem_of_cons. auto. }
    change (DiscoveredList.head _) with y.
    apply lseg_frame; [exact Hxrest|]. apply (Hrest ltac:(discriminate)).
Qed.

Lemma chain_after_remove_mid h d kept p x rest r :
  is_list h d ((kept ++ [p]) ++ x :: rest) ->
  NoDup ((kept ++ [p]) ++ x :: rest) ->
  java_lang_ref_Reference.load h x = Some r ->
  Z.of_nat (length ((kept ++ [p]) ++ x :: rest)) < size_t_range ->
  let h1 := <[x := mkReference (referent r) null (next r)]> h in
  let new_next := if decide (successor x rest = x) then p else successor x rest in
  p <> x /\
  exists rp, java_lang_ref_Reference.load h p = Some rp /\
    is_list (<[p := mkReference (referent rp) new_next (next rp)]> h1)
      (DiscoveredList.dec_length 1 d) ((kept ++ [p]) ++ rest).
Proof.
  intros His Hnd Hr Hrange h1 new_next.
  destruct (chain_current _ _ _ _ _ His) as (r' & Hr' & Hsucc & Hk & Hrest).
  rewrite Hr in Hr'. injection Hr' as <-.
  pose proof (is_list_length _ _ _ His) as Hlen.
  rewrite length_app in Hlen, Hrange. simpl length in Hlen, Hrange.
  apply NoDup_app in Hnd as (Hndk & Hdisj & Hndx).
  apply NoDup_cons in Hndx as (Hxrest & Hndr).
  assert (Hxk : x ∉ kept ++ [p]).
  { intros Hin. apply (Hdisj x Hin). apply elem_of_cons. auto. }
  assert (Hdec : DiscoveredList.length (DiscoveredList.dec_length 1 d)
            = Z.of_nat (length (kept ++ [p])) + Z.of_nat (length rest)).
  { unfold DiscoveredList.dec_length, DiscoveredList.length in *. simpl.
    unfold wrap_size_t. rewrite Z.mod_small; lia. }
  destruct (lseg_last_load _ _ _ _ _ Hk) as (rp & Hrp & Hrpx).
  assert (Hpx : p <> x).
  { intros ->. apply Hxk. apply elem_of_app. right. apply list_elem_of_singleton.
    reflexivity. }
  split; [exact Hpx|]. exists rp. split; [exact Hrp|].
  assert (Hseg1 : lseg h1 (DiscoveredList.head d) (kept ++ [p]) x).
  { subst h1. apply lseg_frame; auto. }
  assert (Hseg2 : lseg (<[p := mkReference (referent rp) new_next (next rp)]> h1)
                    (DiscoveredList.head d) (kept ++ [p]) new_next).
  { eapply lseg_set_last; eauto. subst h1. rewrite load_insert_ne; auto. }
  apply is_list_intro.
  - destruct kept; discriminate.
  - rewrite Hdec. rewrite !length_app. lia.
  - change (DiscoveredList.head (DiscoveredList.dec_length 1 d))
      with (DiscoveredList.head d).
    destruct rest as [|y rest].
    + rewrite app_nil_r, List.last_last.
      subst new_next. simpl successor in *.
      destruct (decide (x = x)); [|contradiction]. exact Hseg2.
    + rewrite last_app_cons. apply lseg_app. exists new_next. split; [exact Hseg2|].
      subst new_next. simpl successor in *.
      destruct (decide (y = x)) as [E|_].
      { exfalso. apply Hxrest. rewrite E. apply elem_of_cons. auto. }
      apply lseg_frame.
      { intros Hin. apply (Hdisj p).
        - apply elem_of_app. right. apply list_elem_of_singleton. reflexivity.
        - apply elem_of_cons. right. exact Hin. }
      subst h1. apply lseg_frame; [exact Hxrest|]. apply (Hrest ltac:(discriminate)).
Qed.

(** ** The operations of the iterator *)

Lemma assert_ok build c msg :
  (ASSERT build = true -> c = true) -> assert_ build c msg = Ok tt.
Proof.
  intros H. unfold assert_. destruct c; [reflexivity|].
  destruct (ASSERT build); [|reflexivity]. discriminate (H eq_refl).
Qed.

Lemma load_lookup (h : gmap N Reference) x r :
  java_lang_ref_Reference.load h x = Some r -> h !! x = Some r.
Proof.
  unfold java_lang_ref_Reference.load. destruct (decide (x = null)); [discriminate|auto].
Qed.

Lemma links_ext h kept rest it it' :
  _refs_list it' = _refs_list it ->
  _prev_discovered it' = _prev_discovered it ->
  _prev_discovered_addr it' = _prev_discovered_addr it ->
  links h kept rest it -> links h kept rest it'.
Proof.
  intros E1 E2 E3 (H1 & H2 & H3 & H4). unfold links.
  rewrite E1, E2, E3. auto.
Qed.

Lemma links_cases h kept rest it :
  links h kept rest it ->
  (kept = [] /\ _prev_discovered it = null /\ _prev_discovered_addr it = AdrHead) \/
  (exists kept' p, kept = kept' ++ [p] /\
     _prev_discovered it = p /\ _prev_discovered_addr it = AdrDiscovered p).
Proof.
  intros (_ & _ & Hp & Ha). destruct kept as [|k ks].
  - left. auto.
  - right. destruct (exists_last (l := k :: ks) ltac:(discriminate)) as (kept' & p & E).
    exists kept', p. rewrite E in Hp, Ha |- *. rewrite List.last_last in Hp, Ha.
    split; [reflexivity|]. split; [exact Hp|].
    destruct (kept' ++ [p]) eqn:E'; [destruct kept'; discriminate|exact Ha].
Qed.

Lemma lseg_same_discovered h x r v n l : forall p q,
  java_lang_ref_Reference.load h x = Some r ->
  lseg h p l q -> lseg (<[x := mkReference v (discovered r) n]> h) p l q.
Proof.
  induction l as [|y l IH]; intros p q Hx; simpl; [auto|].
  intros (-> & ry & Hry & H). split; [reflexivity|].
  destruct (decide (y = x)) as [->|Hne].
  - rewrite Hx in Hry. injection Hry as <-.
    eexists. split; [apply load_insert_eq; eapply load_not_null; eauto|].
    simpl. apply IH; auto.
  - exists ry. split; [rewrite load_insert_ne; auto|]. apply IH; auto.
Qed.

Lemma is_list_same_discovered h x r v n d l :
  java_lang_ref_Reference.load h x = Some r ->
  is_list h d l -> is_list (<[x := mkReference v (discovered r) n]> h) d l.
Proof.
  intros Hx [Hlen Hch]. split; [exact Hlen|].
  destruct l; [exact Hch|]. apply lseg_same_discovered; auto.
Qed.

Lemma links_same_discovered h x r v n kept rest it :
  java_lang_ref_Reference.load h x = Some r ->
  links h kept rest it -> links (<[x := mkReference v (discovered r) n]> h) kept rest it.
Proof.
  intros Hx (H1 & H2 & H3 & H4). split; [|auto].
  apply is_list_same_discovered; auto.
Qed.

Lemma links_frame h x r kept rest it :
  x ∉ kept ++ rest ->
  links h kept rest it -> links (<[x := r]> h) kept rest it.
Proof.
  intros Hx (H1 & H2 & H3 & H4). split; [|auto]. apply is_list_frame; auto.
Qed.

Lemma set_head_same d x : DiscoveredList.head d = x -> DiscoveredList.set_head x d = d.
Proof. destruct d. unfold DiscoveredList.head. simpl. intros ->. reflexivity. Qed.

Section IteratorProofs.

Context {G : Type}.
Variable build : Build.
Variable env : Collaborators G.

Lemma load_ptrs_spec allow kept x rest it (w : World G) :
  links (heap w) kept (x :: rest) it ->
  _current_discovered it = x ->
  (ASSERT build = true -> allow = false -> referent_of (heap w) x <> null) ->
  exists r, java_lang_ref_Reference.load (heap w) x = Some r /\
    discovered r = successor x rest /\
    load_ptrs build allow it w
    = Ok (mkIter (_refs_list it) (_prev_discovered_addr it) (_prev_discovered it)
            x (Some (AdrDiscovered x)) (successor x rest) (referent r)
            (_first_seen it) (_processed it) (_removed it)).
Proof.
  intros (His & _) Hcur Hvalid.
  destruct (chain_current _ _ _ _ _ His) as (r & Hr & Hsucc & _).
  exists r. split; [exact Hr|]. split; [exact Hsucc|].
  unfold load_ptrs. rewrite Hcur.
  unfold java_lang_ref_Reference.get_discovered,
    java_lang_ref_Reference.unknown_referent_no_keepalive.
  rewrite Hr. simpl. rewrite assert_ok.
  - simpl. rewrite Hsucc. reflexivity.
  - intros Ha. destruct allow; [reflexivity|].
    specialize (Hvalid Ha eq_refl). unfold referent_of in Hvalid. rewrite Hr in Hvalid.
    unfold is_oop. rewrite bool_decide_eq_false_2 by exact Hvalid. reflexivity.
Qed.

(** [enqueue] stores the link that is already there. *)
Lemma enqueue_spec kept x rest it (w : World G) :
  links (heap w) kept (x :: rest) it ->
  _current_discovered it = x ->
  enqueue it w = Ok (it, w).
Proof.
  intros Hl Hcur.
  assert (Hstore : oop_store (_prev_discovered_addr it) x it w = Ok (it, w)).
  { destruct (links_cases _ _ _ _ Hl) as [(-> & Hp & Ha)|(kept' & p & -> & Hp & Ha)].
    - rewrite Ha. simpl. destruct Hl as (His & _).
      destruct (chain_current _ _ [] _ _ His) as (_ & _ & _ & Hhead & _).
      simpl in Hhead. rewrite set_head_same by exact Hhead.
      destruct it; simpl in *. subst. reflexivity.
    - rewrite Ha. simpl. destruct Hl as (His & _).
      destruct (chain_current _ _ _ _ _ His) as (_ & _ & _ & Hk & _).
      destruct (lseg_last_load _ _ _ _ _ Hk) as (rp & Hrp & Hrpx).
      rewrite (set_discovered_raw_load _ _ _ _ Hrp). simpl.
      replace (mkReference (referent rp) x (next rp)) with rp
        by (destruct rp; simpl in *; subst; reflexivity).
      rewrite insert_id by (apply load_lookup; exact Hrp).
      destruct w; reflexivity. }
  unfold enqueue. rewrite Hcur.
  destruct (decide (_prev_discovered_addr it <> AdrHead)); exact Hstore.
Qed.

Lemma move_to_next_spec x rest it :
  _current_discovered it = x ->
  _next_discovered it = successor x rest ->
  x ∉ rest ->
  (ASSERT build = true -> hd null rest <> _first_seen it) ->
  move_to_next build it
  = Ok (mkIter (_refs_list it) (_prev_discovered_addr it) (_prev_discovered it)
          (hd null rest) (_current_discovered_addr it) (_next_discovered it)
          (_referent it) (_first_seen it) (wrap_size_t (_processed it + 1))
          (_removed it)).
Proof.
  intros Hcur Hnext Hx Hfs. unfold move_to_next.
  assert (E : (if decide (_current_discovered it = _next_discovered it)
               then null else _next_discovered it) = hd null rest).
  { rewrite Hcur, Hnext. destruct rest as [|y rest]; simpl.
    - destruct (decide (x = x)); [reflexivity|contradiction].
    - destruct (decide (x = y)) as [->|_]; [|reflexivity].
      exfalso. apply Hx. apply elem_of_cons. auto. }
  rewrite E. rewrite assert_ok; [reflexivity|].
  intros Ha. rewrite bool_decide_eq_false_2 by (apply Hfs; exact Ha). reflexivity.
Qed.

Lemma links_keep h kept x rest it it' :
  _refs_list it' = _refs_list it ->
  _prev_discovered it' = x ->
  _prev_discovered_addr it' = AdrDiscovered x ->
  links h kept (x :: rest) it ->
  links h (kept ++ [x]) rest it'.
Proof.
  intros E1 E2 E3 (H1 & H2 & _ & _). unfold links. rewrite E1, E2, E3.
  rewrite <- app_assoc. simpl. split; [exact H1|]. split; [exact H2|].
  rewrite List.last_last. split; [reflexivity|].
  destruct (kept ++ [x]) eqn:E; [destruct kept; discriminate|reflexivity].
Qed.

Lemma iter_next_spec x rest it :
  _current_discovered it = x ->
  _current_discovered_addr it = Some (AdrDiscovered x) ->
  _next_discovered it = successor x rest ->
  x ∉ rest ->
  (ASSERT build = true -> hd null rest <> _first_seen it) ->
  iter_next build it
  = Ok (mkIter (_refs_list it) (AdrDiscovered x) x
          (hd null rest) (_current_discovered_addr it) (_next_discovered it)
          (_referent it) (_first_seen it) (wrap_size_t (_processed it + 1))
          (_removed it)).
Proof.
  intros Hcur Haddr Hnext Hx Hfs. unfold iter_next. rewrite Haddr. simpl.
  rewrite (move_to_next_spec x rest); simpl; auto.
  rewrite Hcur. reflexivity.
Qed.

Lemma remove_spec kept x rest it (w : World G) r :
  links (heap w) kept (x :: rest) it ->
  _current_discovered it = x ->
  _current_discovered_addr it = Some (AdrDiscovered x) ->
  _next_discovered it = successor x rest ->
  java_lang_ref_Reference.load (heap w) x = Some r ->
  Z.of_nat (length (kept ++ x :: rest)) < size_t_range ->
  exists it2 h2,
    remove build it w = Ok (it2, set_heap h2 w) /\
    links h2 kept rest it2 /\
    _current_discovered it2 = x /\
    _next_discovered it2 = successor x rest /\
    _current_discovered_addr it2 = Some (AdrDiscovered x) /\
    _first_seen it2 = _first_seen it /\
    _processed it2 = _processed it /\
    _removed it2 = wrap_size_t (_removed it + 1) /\
    java_lang_ref_Reference.load h2 x = Some (mkReference (referent r) null (next r)) /\
    keeps_payload (heap w) h2 /\
    (forall y, y ∉ kept -> y <> x -> h2 !! y = heap w !! y).
Proof.
  intros Hl Hcur Haddr Hnext Hr Hrange.
  pose proof (load_not_null _ _ _ Hr) as Hxn.
  set (h1 := <[x := mkReference (referent r) null (next r)]> (heap w)).
  assert (Hstore1 : oop_store (AdrDiscovered x) null it w = Ok (it, set_heap h1 w)).
  { simpl. rewrite (set_discovered_raw_load _ _ _ _ Hr). reflexivity. }
  assert (Hassert : assert_ build (is_oop (_current_discovered it))
                      "Dropping a bad reference" = Ok tt).
  { apply assert_ok. intros _. rewrite Hcur. unfold is_oop.
    rewrite bool_decide_eq_false_2 by exact Hxn. reflexivity. }
  pose proof Hl as (His & Hnd & _ & _).
  destruct (links_cases _ _ _ _ Hl) as [(-> & Hp & Ha)|(kept' & p & -> & Hp & Ha)].
  - simpl app in *.
    pose proof (chain_after_remove_head _ _ _ _ _ His Hnd Hr Hrange) as His'.
    fold h1 in His'.
    eexists _, h1. split.
    { unfold remove. rewrite Hassert, Haddr. simpl access.
      rewrite !bind_Ok, Hstore1, bind_Ok, Ha, Hnext, Hcur, Hp. simpl. reflexivity. }
    simpl. split.
    { split; [exact His'|]. split; [|auto].
      apply NoDup_cons in Hnd. tauto. }
    split; [exact Hcur|]. split; [exact Hnext|]. split; [exact Haddr|].
    split; [reflexivity|]. split; [reflexivity|]. split; [reflexivity|].
    split; [subst h1; apply load_insert_eq; exact Hxn|].
    split; [subst h1; apply keeps_payload_set_discovered; exact Hr|].
    intros y _ Hy. subst h1. rewrite lookup_insert_ne; auto.
  - destruct (chain_after_remove_mid _ _ _ _ _ _ _ His Hnd Hr Hrange)
      as (Hpx & rp & Hrp & His').
    fold h1 in His'.
    assert (Hrp1 : java_lang_ref_Reference.load h1 p = Some rp)
      by (subst h1; rewrite load_insert_ne; auto).
    set (new_next := if decide (successor x rest = x) then p else successor x rest) in *.
    set (h2 := <[p := mkReference (referent rp) new_next (next rp)]> h1) in *.
    eexists _, h2. split.
    { unfold remove. rewrite Hassert, Haddr. simpl access.
      rewrite !bind_Ok, Hstore1, bind_Ok, Ha, Hnext, Hcur, Hp. fold new_next.
      simpl. rewrite (set_discovered_raw_load _ _ _ _ Hrp1). simpl. reflexivity. }
    simpl. split.
    { split; [exact His'|]. split.
      - apply NoDup_app in Hnd as (H1 & H2 & H3). apply NoDup_cons in H3 as (H3 & H4).
        apply NoDup_app. split; [exact H1|]. split; [|exact H4].
        intros y Hy Hy'. apply (H2 y Hy). apply elem_of_cons. auto.
      - rewrite List.last_last. split; [exact Hp|].
        destruct (kept' ++ [p]) eqn:E; [destruct kept'; discriminate|exact Ha]. }
    split; [exact Hcur|]. split; [exact Hnext|]. split; [exact Haddr|].
    split; [reflexivity|]. split; [reflexivity|]. split; [reflexivity|].
    split.
    { subst h2. rewrite load_insert_ne by auto. subst h1.
      apply load_insert_eq; exact Hxn. }
    split.
    { eapply keeps_payload_trans.
      - apply (keeps_payload_set_discovered _ _ _ null Hr).
      - apply (keeps_payload_set_discovered _ _ _ new_next Hrp1). }
    intros y Hyk Hyx. subst h2 h1.
    rewrite lookup_insert_ne.
    + rewrite lookup_insert_ne; auto.
    + intros ->. apply Hyk. apply elem_of_app. right.
      apply list_elem_of_singleton. reflexivity.
Qed.

Lemma make_referent_alive_spec it (w : World G) x r :
  _current_discovered it = x ->
  java_lang_ref_Reference.load (heap w) x = Some r ->
  make_referent_alive env it w
  = Ok (mkWorld
          (<[x := mkReference (snd (keep_alive env (gc w) (referent r)))
                   (discovered r) (next r)]> (heap w))
          (pending_list w) (fst (keep_alive env (gc w) (referent r)))
          (x :: kept_alive w)).
Proof.
  intros Hcur Hr. unfold make_referent_alive. rewrite Hcur.
  unfold java_lang_ref_Reference.unknown_referent_no_keepalive,
    java_lang_ref_Reference.set_referent_raw.
  rewrite Hr. simpl. destruct (keep_alive env (gc w) (referent r)) as [g' v'].
  reflexivity.
Qed.

Lemma has_next_cons kept x rest it (w : World G) :
  links (heap w) kept (x :: rest) it ->
  _current_discovered it = x -> has_next it = true.
Proof.
  intros (His & _) Hcur.
  destruct (chain_current _ _ _ _ _ His) as (r & Hr & _).
  unfold has_next. rewrite Hcur.
  rewrite bool_decide_eq_false_2 by (eapply load_not_null; eauto). reflexivity.
Qed.

Lemma links_not_in h kept x rest it :
  links h kept (x :: rest) it -> (x ∉ kept) /\ (x ∉ rest) /\ (x ∉ kept ++ rest).
Proof.
  intros (_ & Hnd & _).
  apply NoDup_app in Hnd as (H1 & H2 & H3). apply NoDup_cons in H3 as (H3 & H4).
  assert (x ∉ kept) by (intros Hin; apply (H2 x Hin); apply elem_of_cons; auto).
  split; [assumption|]. split; [assumption|].
  intros Hin. apply elem_of_app in Hin as [?|?]; contradiction.
Qed.

Section ListPass.

Variables (conc clear : bool).
Variable h0 : gmap N Reference.

Lemma process_discovered_list_loop_spec : forall rest kept fuel it (w : World G),
  links (heap w) kept rest it ->
  _current_discovered it = hd null rest ->
  (forall y, y ∈ rest ->
     java_lang_ref_Reference.load (heap w) y = java_lang_ref_Reference.load h0 y) ->
  (ASSERT build = true -> rest <> [] ->
     _first_seen it <> null /\ _first_seen it ∉ tl rest) ->
  (ASSERT build = true -> conc = false ->
     forall y, y ∈ rest -> referent_of h0 y <> null) ->
  Z.of_nat (length (kept ++ rest)) < size_t_range ->
  0 <= _removed it -> _removed it + Z.of_nat (length rest) < size_t_range ->
  0 <= _processed it -> _processed it + Z.of_nat (length rest) < size_t_range ->
  (length rest < fuel)%nat ->
  exists it' w',
    process_discovered_list_loop build env fuel conc clear it w = Ok (it', w') /\
    links (heap w') (kept ++ pass_keeps env h0 (gc w) rest) [] it' /\
    _current_discovered it' = null /\
    _removed it' = _removed it + Z.of_nat (length rest)
                   - Z.of_nat (length (pass_keeps env h0 (gc w) rest)) /\
    _processed it' = _processed it + Z.of_nat (length rest) /\
    pending_list w' = pending_list w /\
    gc w' = pass_gc env h0 (gc w) rest /\
    (forall y, y ∉ kept -> y ∉ rest -> heap w' !! y = heap w !! y) /\
    (forall y r, y ∉ rest -> java_lang_ref_Reference.load (heap w) y = Some r ->
       exists r', java_lang_ref_Reference.load (heap w') y = Some r' /\
                  referent r' = referent r /\ next r' = next r) /\
    (forall y, y ∈ pass_keeps env h0 (gc w) rest ->
       exists r', java_lang_ref_Reference.load (heap w') y = Some r' /\
                  referent r' = (if clear then null else referent_of h0 y) /\
                  next r' = next_of h0 y) /\
    (forall y, y ∈ rest -> y ∉ pass_keeps env h0 (gc w) rest ->
       discovered_of (heap w') y = null).
Proof.
  induction rest as [|x rest IH];
    intros kept fuel it w Hl Hcur Hagree Hfs Hvalid Hrange Hrem0 Hrem Hproc0 Hproc Hfuel.
  - destruct fuel as [|fuel]; [simpl in Hfuel; lia|].
    exists it, w. simpl in *. unfold has_next. rewrite Hcur.
    rewrite bool_decide_eq_true_2 by reflexivity. simpl.
    rewrite app_nil_r. split; [reflexivity|]. split; [exact Hl|].
    split; [reflexivity|]. split; [lia|]. split; [lia|].
    split; [reflexivity|]. split; [reflexivity|]. split; [auto|].
    split; [eauto|]. split.
    + intros y Hy. apply elem_of_nil in Hy. contradiction.
    + intros y Hy. apply elem_of_nil in Hy. contradiction.
  - destruct fuel as [|fuel]; [simpl in Hfuel; lia|].
    simpl in Hcur, Hfuel, Hrem, Hproc.
    rewrite length_app in Hrange. simpl length in Hrange.
    destruct (links_not_in _ _ _ _ _ Hl) as (Hxk & Hxr & Hxkr).
    assert (Hvalid_x : ASSERT build = true -> conc = false ->
              referent_of (heap w) x <> null).
    { intros Ha Hc. unfold referent_of. rewrite (Hagree x) by (apply elem_of_cons; auto).
      apply (Hvalid Ha Hc). apply elem_of_cons. auto. }
    destruct (load_ptrs_spec conc kept x rest it w Hl Hcur Hvalid_x)
      as (r & Hr & Hsucc & Hload).
    assert (Hr0 : java_lang_ref_Reference.load h0 x = Some r).
    { rewrite <- (Hagree x) by (apply elem_of_cons; auto). exact Hr. }
    assert (Href0 : referent_of h0 x = referent r)
      by (unfold referent_of; rewrite Hr0; reflexivity).
    assert (Hnext0 : next_of h0 x = next r)
      by (unfold next_of; rewrite Hr0; reflexivity).
    set (it1 := mkIter (_refs_list it) (_prev_discovered_addr it) (_prev_discovered it)
                  x (Some (AdrDiscovered x)) (successor x rest) (referent r)
                  (_first_seen it) (_processed it) (_removed it)) in *.
    assert (Hl1 : links (heap w) kept (x :: rest) it1)
      by (apply (links_ext _ _ _ it); auto).
    assert (Hfs' : ASSERT build = true -> hd null rest <> _first_seen it).
    { intros Ha. destruct (Hfs Ha ltac:(discriminate)) as (Hn & Hnin). simpl in Hnin.
      destruct rest as [|y rest']; simpl; [congruence|].
      intros E. apply Hnin. rewrite <- E. apply elem_of_cons. auto. }
    assert (Hfs_rest : ASSERT build = true -> rest <> [] ->
              _first_seen it <> null /\ _first_seen it ∉ tl rest).
    { intros Ha _. destruct (Hfs Ha ltac:(discriminate)) as (Hn & Hnin).
      split; [exact Hn|].
      simpl in Hnin. intros Hin. apply Hnin.
      destruct rest; simpl in Hin; [apply elem_of_nil in Hin; contradiction|].
      apply elem_of_cons. auto. }
    assert (Hvalid_rest : ASSERT build = true -> conc = false ->
              forall y, y ∈ rest -> referent_of h0 y <> null).
    { intros Ha Hc y Hy. apply (Hvalid Ha Hc). apply elem_of_cons. auto. }
    assert (Hstep : process_discovered_list_loop build env (S fuel) conc clear it w
            = (it1 ← load_ptrs build conc it w;
               if decide (_referent it1 = null) then
                 '(it2, w2) ← remove build it1 w;
                 it3 ← move_to_next build it2;
                 process_discovered_list_loop build env fuel conc clear it3 w2
               else if is_referent_alive env it1 w then
                 '(it2, w2) ← remove build it1 w;
                 w3 ← make_referent_alive env it2 w2;
                 it3 ← move_to_next build it2;
                 process_discovered_list_loop build env fuel conc clear it3 w3
               else
                 '(it2, w2) ←
                    (if clear then
                       w1 ← clear_referent it1 w;
                       '(it2, w2) ← enqueue it1 w1;
                       assert_ build (is_oop (obj it2)) "Adding a bad reference";;
                       Ok (it2, w2)
                     else Ok (it1, w));
                 it3 ← iter_next build it2;
                 process_discovered_list_loop build env fuel conc clear it3 w2)).
    { simpl. rewrite (has_next_cons _ _ _ _ _ Hl Hcur). reflexivity. }
    rewrite Hstep, Hload, bind_Ok. clear Hstep Hload.
    change (_referent it1) with (referent r).
    unfold is_referent_alive. change (_referent it1) with (referent r).
    simpl pass_keeps. simpl pass_gc. unfold visit. rewrite Href0.
    destruct (decide (referent r = null)) as [Hnull|Hnonnull];
      [|destruct (is_alive env (gc w) (referent r)) eqn:Halive].
    + (* cleared since discovery *)
      destruct (remove_spec kept x rest it1 w r Hl1 eq_refl eq_refl eq_refl Hr
                  ltac:(rewrite length_app; simpl length; lia))
        as (it2 & h2 & Hrm & Hl2 & Hc2 & Hn2 & Ha2 & Hf2 & Hp2 & Hr2 & Hx2 & Hpay2 & Hfr2).
      rewrite Hrm, bind_Ok.
      rewrite (move_to_next_spec x rest it2 Hc2 Hn2 Hxr)
        by (rewrite Hf2; exact Hfs').
      rewrite bind_Ok. simpl fst. simpl snd. simpl app.
      simpl in Hr2, Hp2.
      assert (Hr2' : _removed it2 = _removed it + 1)
        by (rewrite Hr2; unfold wrap_size_t; apply Z.mod_small; lia).
      edestruct (IH kept fuel) as (it' & w' & Hrun & Hl' & Hc' & Hrm' & Hpr' & Hpe' &
                                   Hgc' & Hfr' & Hpay' & Hkept' & Hdrop');
        [| | | | | | | | | | |
         exists it', w'; split; [exact Hrun|]].
      * eapply links_ext; [| | |exact Hl2]; reflexivity.
      * reflexivity.
      * intros y Hy. simpl heap. unfold java_lang_ref_Reference.load.
        rewrite Hfr2.
        -- apply (Hagree y). apply elem_of_cons. auto.
        -- intros Hin. destruct Hl as (_ & Hnd & _).
           apply NoDup_app in Hnd as (_ & Hd & _). apply (Hd y Hin).
           apply elem_of_cons. auto.
        -- intros ->. contradiction.
      * simpl. rewrite Hf2. exact Hfs_rest.
      * exact Hvalid_rest.
      * rewrite length_app. lia.
      * simpl. lia.
      * simpl. lia.
      * simpl. unfold wrap_size_t. rewrite Z.mod_small; lia.
      * simpl. unfold wrap_size_t. rewrite Z.mod_small; lia.
      * lia.
      * simpl in Hrm', Hpr', Hpe', Hgc', Hfr', Hpay', Hkept', Hdrop', Hl'.
        split; [exact Hl'|]. split; [exact Hc'|].
        split; [rewrite Hrm'; simpl length; lia|].
        split; [rewrite Hpr'; unfold wrap_size_t; rewrite Z.mod_small;
                simpl length; lia|].
        split; [exact Hpe'|]. split; [exact Hgc'|].
        split.
        { intros y Hyk Hyr. apply not_elem_of_cons in Hyr as (Hyx & Hyr).
          rewrite Hfr' by auto. apply Hfr2; auto. }
        split.
        { intros y ry Hyr Hy. apply not_elem_of_cons in Hyr as (Hyx & Hyr).
          destruct (Hpay2 _ _ Hy) as (r2 & Hy2 & E1 & E2).
          destruct (Hpay' _ _ Hyr Hy2) as (r3 & Hy3 & E3 & E4).
          exists r3. split; [exact Hy3|]. split; congruence. }
        split; [exact Hkept'|].
        intros y Hy Hyk. apply elem_of_cons in Hy as [->|Hy].
        { unfold discovered_of, java_lang_ref_Reference.load.
          rewrite Hfr' by auto.
          fold (java_lang_ref_Reference.load h2 x). rewrite Hx2. reflexivity. }
        apply Hdrop'; auto.
    + (* reachable *)
      destruct (remove_spec kept x rest it1 w r Hl1 eq_refl eq_refl eq_refl Hr
                  ltac:(rewrite length_app; simpl length; lia))
        as (it2 & h2 & Hrm & Hl2 & Hc2 & Hn2 & Ha2 & Hf2 & Hp2 & Hr2 & Hx2 & Hpay2 & Hfr2).
      rewrite Hrm, bind_Ok.
      rewrite (make_referent_alive_spec it2 (set_heap h2 w) x _ Hc2 Hx2), bind_Ok.
      simpl heap. simpl pending_list. simpl gc. simpl kept_alive.
      simpl referent. simpl discovered. simpl next.
      destruct (keep_alive env (gc w) (referent r)) as [g' v'] eqn:Hka.
      simpl fst. simpl snd.
      set (h3 := <[x := mkReference v' null (next r)]> h2).
      rewrite (move_to_next_spec x rest it2 Hc2 Hn2 Hxr)
        by (rewrite Hf2; exact Hfs').
      rewrite bind_Ok. simpl fst. simpl snd. simpl app.
      simpl in Hr2, Hp2.
      assert (Hr2' : _removed it2 = _removed it + 1)
        by (rewrite Hr2; unfold wrap_size_t; apply Z.mod_small; lia).
      edestruct (IH kept fuel) as (it' & w' & Hrun & Hl' & Hc' & Hrm' & Hpr' & Hpe' &
                                   Hgc' & Hfr' & Hpay' & Hkept' & Hdrop');
        [| | | | | | | | | | |
         exists it', w'; split; [exact Hrun|]].
      * simpl heap. apply links_frame; [exact Hxkr|].
        eapply links_ext; [| | |exact Hl2]; reflexivity.
      * reflexivity.
      * intros y Hy. simpl heap. subst h3.
        rewrite load_insert_ne by (intros ->; contradiction).
        unfold java_lang_ref_Reference.load. rewrite Hfr2.
        -- apply (Hagree y). apply elem_of_cons. auto.
        -- intros Hin. destruct Hl as (_ & Hnd & _).
           apply NoDup_app in Hnd as (_ & Hd & _). apply (Hd y Hin).
           apply elem_of_cons. auto.
        -- intros ->. contradiction.
      * simpl. rewrite Hf2. exact Hfs_rest.
      * exact Hvalid_rest.
      * rewrite length_app. lia.
      * simpl. lia.
      * simpl. lia.
      * simpl. unfold wrap_size_t. rewrite Z.mod_small; lia.
      * simpl. unfold wrap_size_t. rewrite Z.mod_small; lia.
      * lia.
      * simpl in Hrm', Hpr', Hpe', Hgc', Hfr', Hpay', Hkept', Hdrop', Hl'.
        split; [exact Hl'|]. split; [exact Hc'|].
        split; [rewrite Hrm'; simpl length; lia|].
        split; [rewrite Hpr'; unfold wrap_size_t; rewrite Z.mod_small;
                simpl length; lia|].
        split; [exact Hpe'|]. split; [exact Hgc'|].
        split.
        { intros y Hyk Hyr. apply not_elem_of_cons in Hyr as (Hyx & Hyr).
          rewrite Hfr' by auto. subst h3. rewrite lookup_insert_ne by auto.
          apply Hfr2; auto. }
        split.
        { intros y ry Hyr Hy. apply not_elem_of_cons in Hyr as (Hyx & Hyr).
          destruct (Hpay2 _ _ Hy) as (r2 & Hy2 & E1 & E2).
          assert (Hy3 : java_lang_ref_Reference.load h3 y = Some r2)
            by (subst h3; rewrite load_insert_ne; auto).
          destruct (Hpay' _ _ Hyr Hy3) as (r3 & Hy4 & E3 & E4).
          exists r3. split; [exact Hy4|]. split; congruence. }
        split; [exact Hkept'|].
        intros y Hy Hyk. apply elem_of_cons in Hy as [->|Hy].
        { unfold discovered_of, java_lang_ref_Reference.load.
          rewrite Hfr' by auto.
          fold (java_lang_ref_Reference.load h3 x). subst h3.
          rewrite load_insert_eq by (eapply load_not_null; eauto). reflexivity. }
        apply Hdrop'; auto.
    + (* kept on the list *)
      set (v := if clear then null else referent r).
      set (h1 := if clear then <[x := mkReference null (discovered r) (next r)]> (heap w)
                 else heap w).
      assert (Hl1' : links h1 kept (x :: rest) it1).
      { subst h1. destruct clear; [|exact Hl1].
        apply links_same_discovered; [exact Hr|exact Hl1]. }
      assert (Hx1 : java_lang_ref_Reference.load h1 x
                    = Some (mkReference v (discovered r) (next r))).
      { subst h1 v. destruct clear.
        - apply load_insert_eq. eapply load_not_null; eauto.
        - rewrite Hr. destruct r; reflexivity. }
      assert (Hbody : (if clear then
                         w1 ← clear_referent it1 w;
                         '(it2, w2) ← enqueue it1 w1;
                         assert_ build (is_oop (obj it2)) "Adding a bad reference";;
                         Ok (it2, w2)
                       else Ok (it1, w)) = Ok (it1, set_heap h1 w)).
      { subst h1. destruct clear.
        - unfold clear_referent, java_lang_ref_Reference.clear_referent_raw,
            java_lang_ref_Reference.set_referent_raw.
          change (_current_discovered it1) with x. rewrite Hr. simpl.
          rewrite (enqueue_spec kept x rest it1); [|exact Hl1'|reflexivity].
          simpl. rewrite assert_ok; [reflexivity|].
          intros _. unfold is_oop, obj. simpl.
          rewrite bool_decide_eq_false_2 by (eapply load_not_null; eauto).
          reflexivity.
        - destruct w; reflexivity. }
      rewrite Hbody, bind_Ok.
      rewrite (iter_next_spec x rest it1 eq_refl eq_refl eq_refl Hxr)
        by exact Hfs'.
      rewrite bind_Ok. simpl fst. simpl snd.
      edestruct (IH (kept ++ [x]) fuel) as (it' & w' & Hrun & Hl' & Hc' & Hrm' & Hpr' &
                                   Hpe' & Hgc' & Hfr' & Hpay' & Hkept' & Hdrop');
        [| | | | | | | | | | |
         exists it', w'; split; [exact Hrun|]].
      * simpl heap. apply (links_keep _ _ _ _ it1); [reflexivity..|exact Hl1'].
      * reflexivity.
      * intros y Hy. simpl heap.
        assert (Hyx : y <> x) by (intros ->; contradiction).
        subst h1. destruct clear; [rewrite load_insert_ne by auto|];
          apply (Hagree y); apply elem_of_cons; auto.
      * simpl. exact Hfs_rest.
      * exact Hvalid_rest.
      * rewrite !length_app. simpl length. lia.
      * simpl. lia.
      * simpl. lia.
      * simpl. unfold wrap_size_t. rewrite Z.mod_small; lia.
      * simpl. unfold wrap_size_t. rewrite Z.mod_small; lia.
      * lia.
      * simpl in Hrm', Hpr', Hpe', Hgc', Hfr', Hpay', Hkept', Hdrop', Hl'.
        rewrite <- app_assoc in Hl'. simpl in Hl'.
        split; [exact Hl'|]. split; [exact Hc'|].
        split; [rewrite Hrm'; simpl length; lia|].
        split; [rewrite Hpr'; unfold wrap_size_t; rewrite Z.mod_small;
                simpl length; lia|].
        split; [exact Hpe'|]. split; [exact Hgc'|].
        assert (Hsame : forall y, y <> x -> h1 !! y = heap w !! y).
        { intros y Hy. subst h1. destruct clear; [|reflexivity].
          rewrite lookup_insert_ne; auto. }
        split.
        { intros y Hyk Hyr. apply not_elem_of_cons in Hyr as (Hyx & Hyr).
          rewrite Hfr'; [apply Hsame; auto| |exact Hyr].
          intros Hin. apply elem_of_app in Hin as [Hin|Hin]; [contradiction|].
          apply list_elem_of_singleton in Hin. contradiction. }
        split.
        { intros y ry Hyr Hy. apply not_elem_of_cons in Hyr as (Hyx & Hyr).
          apply (Hpay' y ry Hyr).
          unfold java_lang_ref_Reference.load in Hy |- *.
          rewrite Hsame by auto. exact Hy. }
        split.
        { intros y Hy. apply elem_of_cons in Hy as [->|Hy].
          - destruct (Hpay' _ _ Hxr Hx1) as (r' & Hr' & E1 & E2).
            exists r'. split; [exact Hr'|]. simpl in E1, E2.
            rewrite E1, E2, Href0, Hnext0. subst v. split; reflexivity.
          - apply Hkept'. exact Hy. }
        intros y Hy Hyk. apply not_elem_of_cons in Hyk as (Hyx & Hyk).
        apply elem_of_cons in Hy as [->|Hy]; [contradiction|].
        apply Hdrop'; auto.
Qed.

Lemma process_final_keep_alive_loop_spec : forall rest kept fuel it (w : World G),
  links (heap w) kept rest it ->
  _current_discovered it = hd null rest ->
  (forall y, y ∈ rest ->
     java_lang_ref_Reference.load (heap w) y = java_lang_ref_Reference.load h0 y) ->
  (ASSERT build = true -> rest <> [] ->
     _first_seen it <> null /\ _first_seen it ∉ tl rest) ->
  (ASSERT build = true ->
     forall y, y ∈ rest -> referent_of h0 y <> null /\ next_of h0 y = null) ->
  0 <= _processed it -> _processed it + Z.of_nat (length rest) < size_t_range ->
  (length rest < fuel)%nat ->
  exists it' w',
    process_final_keep_alive_loop build env fuel it w = Ok (it', w') /\
    links (heap w') (kept ++ rest) [] it' /\
    _current_discovered it' = null /\
    _removed it' = _removed it /\
    _processed it' = _processed it + Z.of_nat (length rest) /\
    pending_list w' = pending_list w /\
    gc w' = keep_alive_gc env h0 (gc w) rest /\
    kept_alive w' = rev rest ++ kept_alive w /\
    (forall y, y ∉ kept -> y ∉ rest -> heap w' !! y = heap w !! y) /\
    (forall y r, y ∉ rest -> java_lang_ref_Reference.load (heap w) y = Some r ->
       exists r', java_lang_ref_Reference.load (heap w') y = Some r' /\
                  referent r' = referent r /\ next r' = next r) /\
    (forall y, y ∈ rest -> next_of (heap w') y = y).
Proof.
  induction rest as [|x rest IH];
    intros kept fuel it w Hl Hcur Hagree Hfs Hvalid Hproc0 Hproc Hfuel.
  - destruct fuel as [|fuel]; [simpl in Hfuel; lia|].
    exists it, w. simpl in *. unfold has_next. rewrite Hcur.
    rewrite bool_decide_eq_true_2 by reflexivity. simpl.
    rewrite app_nil_r. split; [reflexivity|]. split; [exact Hl|].
    split; [reflexivity|]. split; [reflexivity|]. split; [lia|].
    split; [reflexivity|]. split; [reflexivity|]. split; [reflexivity|].
    split; [auto|]. split; [eauto|].
    intros y Hy. apply elem_of_nil in Hy. contradiction.
  - destruct fuel as [|fuel]; [simpl in Hfuel; lia|].
    simpl in Hcur, Hfuel, Hproc.
    destruct (links_not_in _ _ _ _ _ Hl) as (Hxk & Hxr & Hxkr).
    assert (Hx0 : ASSERT build = true ->
              referent_of h0 x <> null /\ next_of h0 x = null).
    { intros Ha. apply (Hvalid Ha). apply elem_of_cons. auto. }
    assert (Hvalid_x : ASSERT build = true -> false = false ->
              referent_of (heap w) x <> null).
    { intros Ha _. unfold referent_of. rewrite (Hagree x) by (apply elem_of_cons; auto).
      apply (Hx0 Ha). }
    destruct (load_ptrs_spec false kept x rest it w Hl Hcur Hvalid_x)
      as (r & Hr & Hsucc & Hload).
    assert (Hr0 : java_lang_ref_Reference.load h0 x = Some r).
    { rewrite <- (Hagree x) by (apply elem_of_cons; auto). exact Hr. }
    assert (Href0 : referent_of h0 x = referent r)
      by (unfold referent_of; rewrite Hr0; reflexivity).
    assert (Hnext0 : next_of h0 x = next r)
      by (unfold next_of; rewrite Hr0; reflexivity).
    set (it1 := mkIter (_refs_list it) (_prev_discovered_addr it) (_prev_discovered it)
                  x (Some (AdrDiscovered x)) (successor x rest) (referent r)
                  (_first_seen it) (_processed it) (_removed it)) in *.
    assert (Hl1 : links (heap w) kept (x :: rest) it1)
      by (apply (links_ext _ _ _ it); auto).
    assert (Hfs' : ASSERT build = true -> hd null rest <> _first_seen it).
    { intros Ha. destruct (Hfs Ha ltac:(discriminate)) as (Hn & Hnin). simpl in Hnin.
      destruct rest as [|y rest']; simpl; [congruence|].
      intros E. apply Hnin. rewrite <- E. apply elem_of_cons. auto. }
    assert (Hfs_rest : ASSERT build = true -> rest <> [] ->
              _first_seen it <> null /\ _first_seen it ∉ tl rest).
    { intros Ha _. destruct (Hfs Ha ltac:(discriminate)) as (Hn & Hnin).
      split; [exact Hn|].
      simpl in Hnin. intros Hin. apply Hnin.
      destruct rest; simpl in Hin; [apply elem_of_nil in Hin; contradiction|].
      apply elem_of_cons. auto. }
    assert (Hstep : process_final_keep_alive_loop build env (S fuel) it w
            = (it1 ← load_ptrs build false it w;
               w1 ← make_referent_alive env it1 w;
               n ← java_lang_ref_Reference.get_next (heap w1) (obj it1);
               assert_ build (bool_decide (n = null)) "enqueued FinalReference";;
               h ← java_lang_ref_Reference.set_next_raw (heap w1) (obj it1) (obj it1);
               '(it2, w2) ← enqueue it1 (set_heap h w1);
               assert_ build (is_oop (obj it2)) "Adding a bad reference";;
               it3 ← iter_next build it2;
               process_final_keep_alive_loop build env fuel it3 w2)).
    { simpl. rewrite (has_next_cons _ _ _ _ _ Hl Hcur). reflexivity. }
    rewrite Hstep, Hload, bind_Ok. clear Hstep Hload.
    rewrite (make_referent_alive_spec it1 w x r eq_refl Hr), bind_Ok.
    simpl keep_alive_gc. rewrite Href0.
    destruct (keep_alive env (gc w) (referent r)) as [g' v'] eqn:Hka.
    simpl fst. simpl snd. change (obj it1) with x. simpl heap.
    set (r1 := mkReference v' (discovered r) (next r)).
    set (h1 := <[x := r1]> (heap w)).
    assert (Hxn : x <> null) by (eapply load_not_null; eauto).
    assert (Hr1 : java_lang_ref_Reference.load h1 x = Some r1)
      by (subst h1; apply load_insert_eq; exact Hxn).
    unfold java_lang_ref_Reference.get_next, java_lang_ref_Reference.set_next_raw.
    rewrite Hr1. simpl access. rewrite !bind_Ok. simpl next.
    rewrite assert_ok.
    2:{ intros Ha. destruct (Hx0 Ha) as (_ & Hn). rewrite Hnext0 in Hn.
        rewrite Hn. apply bool_decide_eq_true_2. reflexivity. }
    rewrite bind_Ok. simpl referent. simpl discovered.
    set (h2 := <[x := mkReference v' (discovered r) x]> h1).
    assert (Hl2 : links h2 kept (x :: rest) it1).
    { subst h2. apply (links_same_discovered h1 x r1 v' x); [exact Hr1|].
      subst h1 r1. apply links_same_discovered; [exact Hr|exact Hl1]. }
    rewrite (enqueue_spec kept x rest it1); [|exact Hl2|reflexivity].
    rewrite bind_Ok. rewrite assert_ok.
    2:{ intros _. unfold is_oop, obj. simpl.
        rewrite bool_decide_eq_false_2 by exact Hxn. reflexivity. }
    rewrite bind_Ok.
    rewrite (iter_next_spec x rest it1 eq_refl eq_refl eq_refl Hxr) by exact Hfs'.
    rewrite bind_Ok.
    assert (Hx2 : java_lang_ref_Reference.load h2 x
                  = Some (mkReference v' (discovered r) x))
      by (subst h2; apply load_insert_eq; exact Hxn).
    assert (Hsame : forall y, y <> x -> h2 !! y = heap w !! y).
    { intros y Hy. subst h2 h1. rewrite !lookup_insert_ne; auto. }
    edestruct (IH (kept ++ [x]) fuel) as (it' & w' & Hrun & Hl' & Hc' & Hrm' & Hpr' &
                        Hpe' & Hgc' & Hka' & Hfr' & Hpay' & Hnx');
      [| | | | | | | |
       exists it', w'; split; [exact Hrun|]].
    + simpl heap. apply (links_keep _ _ _ _ it1); [reflexivity..|exact Hl2].
    + reflexivity.
    + intros y Hy. simpl heap.
      assert (Hyx : y <> x) by (intros ->; contradiction).
      unfold java_lang_ref_Reference.load. rewrite Hsame by exact Hyx.
      apply (Hagree y). apply elem_of_cons. auto.
    + simpl. exact Hfs_rest.
    + intros Ha y Hy. apply (Hvalid Ha). apply elem_of_cons. auto.
    + simpl. unfold wrap_size_t. rewrite Z.mod_small; lia.
    + simpl. unfold wrap_size_t. rewrite Z.mod_small; lia.
    + lia.
    + simpl in Hrm', Hpr', Hpe', Hgc', Hka', Hfr', Hpay', Hnx', Hl'.
      rewrite <- app_assoc in Hl'. simpl in Hl'.
      split; [exact Hl'|]. split; [exact Hc'|]. split; [exact Hrm'|].
      split; [rewrite Hpr'; unfold wrap_size_t; rewrite Z.mod_small;
              simpl length; lia|].
      split; [exact Hpe'|]. split; [exact Hgc'|].
      split; [rewrite Hka'; simpl rev; rewrite <- app_assoc; reflexivity|].
      split.
      { intros y Hyk Hyr. apply not_elem_of_cons in Hyr as (Hyx & Hyr).
        rewrite Hfr'; [apply Hsame; auto| |exact Hyr].
        intros Hin. apply elem_of_app in Hin as [Hin|Hin]; [contradiction|].
        apply list_elem_of_singleton in Hin. contradiction. }
      split.
      { intros y ry Hyr Hy. apply not_elem_of_cons in Hyr as (Hyx & Hyr).
        apply (Hpay' y ry Hyr).
        unfold java_lang_ref_Reference.load in Hy |- *.
        rewrite Hsame by auto. exact Hy. }
      intros y Hy. apply elem_of_cons in Hy as [->|Hy].
      * destruct (Hpay' _ _ Hxr Hx2) as (r' & Hr' & E1 & E2).
        unfold next_of. rewrite Hr'. exact E2.
      * apply Hnx'. exact Hy.
Qed.

End ListPass.

Lemma is_list_head h d l : is_list h d l -> DiscoveredList.head d = hd null l.
Proof.
  intros [_ H]. destruct l as [|x l]; [exact H|]. simpl in H. tauto.
Qed.

Lemma new_iterator_links h d l :
  is_list h d l -> NoDup l -> links h [] l (new_iterator d).
Proof. intros His Hnd. unfold links. simpl. auto. Qed.

Lemma first_seen_fresh h d l :
  is_list h d l -> NoDup l -> l <> [] ->
  DiscoveredList.head d <> null /\ DiscoveredList.head d ∉ tl l.
Proof.
  intros His Hnd Hne. rewrite (is_list_head _ _ _ His).
  destruct l as [|x l]; [contradiction|]. simpl.
  pose proof (is_list_nonempty _ _ _ Hne His) as Hseg.
  apply NoDup_cons in Hnd as (Hx & _). split; [|exact Hx].
  eapply lseg_not_null; [exact Hseg|]. apply elem_of_cons. auto.
Qed.

(** The kept objects go to the pending list in one piece, in front of
    what was there. *)
Lemma complete_enqueue_spec kept it (w : World G) :
  links (heap w) kept [] it ->
  exists h',
    complete_enqueue it w
    = Ok (mkWorld h'
            (if decide (kept = []) then pending_list w
             else DiscoveredList.head (_refs_list it))
            (gc w) (kept_alive w)) /\
    lseg h' (if decide (kept = []) then pending_list w
             else DiscoveredList.head (_refs_list it)) kept (pending_list w) /\
    keeps_payload (heap w) h' /\
    (forall y, y ∉ kept -> h' !! y = heap w !! y).
Proof.
  intros Hl. pose proof Hl as (His & Hnd & _).
  rewrite app_nil_r in His, Hnd.
  destruct (links_cases _ _ _ _ Hl) as [(-> & Hp & Ha)|(kept' & p & -> & Hp & Ha)].
  - exists (heap w). unfold complete_enqueue. rewrite Hp.
    destruct (decide (null <> null)) as [Hc|_]; [contradiction|].
    destruct (decide ([] = [])) as [_|Hc]; [|contradiction].
    split; [destruct w; reflexivity|]. split; [reflexivity|].
    split; [apply keeps_payload_refl|auto].
  - assert (Hne : kept' ++ [p] <> []) by (destruct kept'; discriminate).
    pose proof (is_list_nonempty _ _ _ Hne His) as Hseg.
    rewrite List.last_last in Hseg.
    destruct (lseg_last_load _ _ _ _ _ Hseg) as (rp & Hrp & _).
    exists (<[p := mkReference (referent rp) (pending_list w) (next rp)]> (heap w)).
    unfold complete_enqueue. rewrite Hp.
    destruct (decide (p <> null)) as [_|Hc];
      [|exfalso; apply Hc; eapply load_not_null; eauto].
    destruct (decide (kept' ++ [p] = [])) as [Hc|_]; [contradiction|].
    split.
    { simpl. rewrite (set_discovered_raw_load _ _ _ _ Hrp). reflexivity. }
    split; [eapply lseg_set_last; eauto|].
    split; [apply keeps_payload_set_discovered; exact Hrp|].
    intros y Hy. rewrite lookup_insert_ne; [reflexivity|].
    intros ->. apply Hy. apply elem_of_app. right.
    apply list_elem_of_singleton. reflexivity.
Qed.

Lemma pass_keeps_sub h0 : forall l (g : G) y,
  y ∈ pass_keeps env h0 g l -> y ∈ l.
Proof.
  induction l as [|x l IH]; intros g y; simpl; [auto|].
  intros Hin. apply elem_of_app in Hin as [Hin|Hin].
  - destruct (fst (visit env h0 g x)).
    + apply list_elem_of_singleton in Hin. subst. apply elem_of_cons. auto.
    + apply elem_of_nil in Hin. contradiction.
  - apply elem_of_cons. right. eapply IH; eauto.
Qed.

Lemma pass_keeps_length h0 : forall l (g : G),
  (length (pass_keeps env h0 g l) <= length l)%nat.
Proof.
  induction l as [|x l IH]; intros g; simpl; [lia|].
  rewrite length_app. specialize (IH (snd (visit env h0 g x))).
  destruct (fst (visit env h0 g x)); simpl; lia.
Qed.

(** [process_final_keep_alive_work] on a well-formed list. *)
Lemma process_final_keep_alive_work_spec fuel d l (w : World G) :
  is_list (heap w) d l ->
  NoDup l ->
  Z.of_nat (length l) < size_t_range ->
  (ASSERT build = true ->
     forall y, y ∈ l -> referent_of (heap w) y <> null /\ next_of (heap w) y = null) ->
  (length l < fuel)%nat ->
  exists w',
    process_final_keep_alive_work build env fuel d w
      = Ok (0, DiscoveredList.clear d, w') /\
    lseg (heap w') (pending_list w') l (pending_list w) /\
    gc w' = keep_alive_gc env (heap w) (gc w) l /\
    kept_alive w' = rev l ++ kept_alive w /\
    (forall y, y ∉ l -> heap w' !! y = heap w !! y) /\
    (forall y, y ∈ l -> next_of (heap w') y = y).
Proof.
  intros His Hnd Hrange Hvalid Hfuel.
  destruct (process_final_keep_alive_loop_spec (heap w) l [] fuel (new_iterator d) w)
    as (it' & w1 & Hrun & Hl' & Hc' & Hrm' & Hpr' & Hpe' & Hgc' & Hka' & Hfr' & Hpay' & Hnx');
    try assumption.
  - apply new_iterator_links; assumption.
  - simpl. apply (is_list_head _ _ _ His).
  - reflexivity.
  - intros _ Hne. simpl. apply (first_seen_fresh _ _ _ His Hnd Hne).
  - simpl. lia.
  - simpl app in Hl'.
    destruct (complete_enqueue_spec l it' w1 Hl') as (h' & Hce & Hseg & Hpay & Hfr).
    eexists. split.
    { unfold process_final_keep_alive_work. rewrite Hrun, bind_Ok, Hce, bind_Ok.
      unfold removed. rewrite Hrm'. simpl. unfold assert_. simpl. reflexivity. }
    simpl. rewrite Hpe' in Hseg |- *. split; [exact Hseg|]. split; [exact Hgc'|].
    split; [exact Hka'|]. split.
    + intros y Hy. rewrite Hfr by exact Hy. apply Hfr'; [|exact Hy].
      intros Hin. apply elem_of_nil in Hin. contradiction.
    + intros y Hy. specialize (Hnx' y Hy). unfold next_of in Hnx' |- *.
      destruct (java_lang_ref_Reference.load (heap w1) y) as [r1|] eqn:E.
      * destruct (Hpay _ _ E) as (r2 & Hr2 & _ & E2). rewrite Hr2. congruence.
      * exfalso. destruct Hl' as (His' & _). rewrite app_nil_r in His'.
        destruct (list_elem_of_split _ _ Hy) as (l1 & l2 & ->).
        destruct (chain_current _ _ _ _ _ His') as (r & Hr & _). congruence.
Qed.

(** [process_discovered_list_work] on a well-formed list. *)
Lemma process_discovered_list_work_spec conc clear fuel d l (w : World G) :
  is_list (heap w) d l ->
  NoDup l ->
  Z.of_nat (length l) < size_t_range ->
  (ASSERT build = true -> conc = false ->
     forall y, y ∈ l -> referent_of (heap w) y <> null) ->
  (length l < fuel)%nat ->
  let K := pass_keeps env (heap w) (gc w) l in
  exists d' w',
    process_discovered_list_work build env fuel conc d clear w
      = Ok (Z.of_nat (length l) - Z.of_nat (length K), d', w') /\
    (if clear
     then d' = DiscoveredList.clear d /\
          lseg (heap w') (pending_list w') K (pending_list w)
     else is_list (heap w') d' K /\ pending_list w' = pending_list w) /\
    NoDup K /\
    gc w' = pass_gc env (heap w) (gc w) l /\
    (forall y, y ∉ l -> heap w' !! y = heap w !! y) /\
    (forall y, y ∈ K ->
       exists r', java_lang_ref_Reference.load (heap w') y = Some r' /\
                  referent r' = (if clear then null else referent_of (heap w) y) /\
                  next r' = next_of (heap w) y) /\
    (forall y, y ∈ l -> y ∉ K -> discovered_of (heap w') y = null).
Proof.
  intros His Hnd Hrange Hvalid Hfuel K.
  destruct (process_discovered_list_loop_spec conc clear (heap w) l [] fuel
              (new_iterator d) w)
    as (it' & w1 & Hrun & Hl' & Hc' & Hrm' & Hpr' & Hpe' & Hgc' & Hfr' & Hpay' &
        Hkept' & Hdrop');
    try assumption.
  - apply new_iterator_links; assumption.
  - simpl. apply (is_list_head _ _ _ His).
  - reflexivity.
  - intros _ Hne. simpl. apply (first_seen_fresh _ _ _ His Hnd Hne).
  - simpl. lia.
  - simpl. lia.
  - simpl app in Hl'. fold K in Hl', Hrm', Hkept', Hdrop'.
    simpl in Hrm'.
    pose proof Hl' as (His' & Hnd' & _). rewrite app_nil_r in His', Hnd'.
    assert (Hsub : forall y, y ∈ K -> y ∈ l) by (intros y; apply pass_keeps_sub).
    destruct clear.
    + destruct (complete_enqueue_spec K it' w1 Hl') as (h' & Hce & Hseg & Hpay & Hfr).
      eexists _, _. split.
      { unfold process_discovered_list_work. rewrite Hrun, bind_Ok, Hce, !bind_Ok.
        unfold removed. rewrite Hrm'. reflexivity. }
      simpl. split.
      { split; [reflexivity|]. rewrite Hpe' in Hseg |- *. exact Hseg. }
      split; [exact Hnd'|]. split; [exact Hgc'|]. split.
      { intros y Hy. rewrite Hfr by (intros Hin; apply Hy, Hsub, Hin).
        apply Hfr'; [|exact Hy]. intros Hin. apply elem_of_nil in Hin. contradiction. }
      split.
      { intros y Hy. destruct (Hkept' y Hy) as (r1 & Hr1 & E1 & E2).
        destruct (Hpay _ _ Hr1) as (r2 & Hr2 & E3 & E4).
        exists r2. split; [exact Hr2|]. split; congruence. }
      intros y Hy HyK. unfold discovered_of, java_lang_ref_Reference.load.
      rewrite Hfr by exact HyK. apply (Hdrop' y Hy HyK).
    + eexists _, _. split.
      { unfold process_discovered_list_work. rewrite Hrun, !bind_Ok.
        unfold removed. rewrite Hrm'. reflexivity. }
      split; [split; [exact His'|exact Hpe']|].
      split; [exact Hnd'|]. split; [exact Hgc'|]. split.
      { intros y Hy. apply Hfr'; [|exact Hy].
        intros Hin. apply elem_of_nil in Hin. contradiction. }
      split; [exact Hkept'|exact Hdrop'].
Qed.

End IteratorProofs.

(** ** Lists under stores to other objects *)

Lemma lseg_agree (h h' : gmap N Reference) l : forall p q,
  (forall y, y ∈ l -> h' !! y = h !! y) -> lseg h p l q -> lseg h' p l q.
Proof.
  induction l as [|x l IH]; intros p q Hag; simpl; [auto|].
  intros (-> & r & Hr & H). split; [reflexivity|]. exists r. split.
  - unfold java_lang_ref_Reference.load in *.
    destruct (decide (x = null)); [discriminate|].
    rewrite Hag; [exact Hr|apply elem_of_cons; auto].
  - apply IH; [|exact H]. intros y Hy. apply Hag. apply elem_of_cons; auto.
Qed.

Lemma is_list_agree (h h' : gmap N Reference) d l :
  (forall y, y ∈ l -> h' !! y = h !! y) -> is_list h d l -> is_list h' d l.
Proof.
  intros Hag [Hlen Hch]. split; [exact Hlen|].
  destruct l; [exact Hch|]. eapply lseg_agree; eauto.
Qed.

Lemma are_lists_agree (h h' : gmap N Reference) ls abs :
  (forall y, on_lists abs y -> h' !! y = h !! y) ->
  are_lists h ls abs -> are_lists h' ls abs.
Proof.
  intros Hag [HF Hsep]. split; [|exact Hsep].
  apply Forall2_same_length_lookup. split; [eapply Forall2_length; eauto|].
  intros i d l Hd Hl. eapply is_list_agree; [|eapply Forall2_lookup_lr; eauto].
  intros y Hy. apply Hag. exists i, l. auto.
Qed.

Lemma separate_shrink (abs : list (list N)) (i : nat) l l' :
  separate abs -> abs !! i = Some l ->
  NoDup l' -> (forall y, y ∈ l' -> y ∈ l) ->
  separate (<[i := l']> abs).
Proof.
  intros [Hnd Hdis] Hi Hnd' Hsub.
  assert (Hil : (i < length abs)%nat) by (eapply lookup_lt_Some; eauto).
  assert (Hlook : forall j lj, <[i := l']> abs !! j = Some lj ->
            exists lj0, abs !! j = Some lj0 /\ forall y, y ∈ lj -> y ∈ lj0).
  { intros j lj Hj. destruct (decide (j = i)) as [->|Hne].
    - rewrite list_lookup_insert_eq in Hj by exact Hil. injection Hj as <-. eauto.
    - rewrite list_lookup_insert_ne in Hj by auto. eauto. }
  split.
  - intros j lj Hj. destruct (decide (j = i)) as [->|Hne].
    + rewrite list_lookup_insert_eq in Hj by exact Hil. injection Hj as <-. exact Hnd'.
    + rewrite list_lookup_insert_ne in Hj by auto. eapply Hnd; eauto.
  - intros j1 j2 l1 l2 x H1 H2 Hx1 Hx2.
    destruct (Hlook _ _ H1) as (l10 & H10 & S1).
    destruct (Hlook _ _ H2) as (l20 & H20 & S2).
    eapply Hdis; eauto.
Qed.

Lemma are_lists_shrink (h h' : gmap N Reference) ls abs (i : nat) d' l l' :
  are_lists h ls abs -> abs !! i = Some l ->
  (forall y, y ∉ l -> h' !! y = h !! y) ->
  is_list h' d' l' -> NoDup l' -> (forall y, y ∈ l' -> y ∈ l) ->
  are_lists h' (<[i := d']> ls) (<[i := l']> abs).
Proof.
  intros [HF Hsep] Hi Hfr His' Hnd' Hsub.
  pose proof (Forall2_length _ _ _ HF) as Hlen.
  assert (Hil : (i < length abs)%nat) by (eapply lookup_lt_Some; eauto).
  split; [|eapply separate_shrink; eauto].
  apply Forall2_same_length_lookup. split; [rewrite !length_insert; exact Hlen|].
  intros j d lj Hd Hl. destruct (decide (j = i)) as [->|Hne].
  - rewrite list_lookup_insert_eq in Hd by lia.
    rewrite list_lookup_insert_eq in Hl by lia.
    injection Hd as <-. injection Hl as <-. exact His'.
  - rewrite list_lookup_insert_ne in Hd by auto.
    rewrite list_lookup_insert_ne in Hl by auto.
    eapply is_list_agree; [|eapply Forall2_lookup_lr; eauto].
    intros y Hy. apply Hfr. intros Hyl. apply Hne.
    eapply (proj2 Hsep j i); eauto.
Qed.

Lemma on_lists_insert (abs : list (list N)) (i : nat) l' x :
  on_lists (<[i := l']> abs) x -> x ∈ l' \/ on_lists abs x.
Proof.
  intros (j & lj & Hj & Hx). destruct (decide (j = i)) as [->|Hne].
  - destruct (decide (i < length abs)%nat) as [Hlt|Hge].
    + rewrite list_lookup_insert_eq in Hj by exact Hlt. injection Hj as <-. auto.
    + rewrite list_insert_ge in Hj by lia. right. exists i, lj. auto.
  - rewrite list_lookup_insert_ne in Hj by auto. right. exists j, lj. auto.
Qed.

Lemma is_list_nil (h : gmap N Reference) d :
  is_list h d [] -> d = DiscoveredList.mk null 0.
Proof.
  intros [Hlen Hhead]. destruct d as [hd len].
  unfold DiscoveredList.length, DiscoveredList.head in *. simpl in *. subst. reflexivity.
Qed.

Lemma is_list_clear (h : gmap N Reference) d : is_list h (DiscoveredList.clear d) [].
Proof. split; reflexivity. Qed.

Lemma is_list_null_head (h : gmap N Reference) d l :
  is_list h d l -> DiscoveredList.head d = null -> l = [].
Proof.
  intros His Hnull. destruct l as [|x l]; [reflexivity|exfalso].
  pose proof (is_list_nonempty h d (x :: l) ltac:(discriminate) His) as Hseg.
  assert (Hx : x <> null).
  { eapply lseg_not_null; [exact Hseg|]. apply elem_of_cons. auto. }
  simpl in Hseg. destruct Hseg as [E _]. congruence.
Qed.

Lemma is_list_zero (h : gmap N Reference) d l :
  is_list h d l -> DiscoveredList.length d = 0 -> l = [].
Proof.
  intros [Hlen _] Hz. destruct l; [reflexivity|]. simpl length in Hlen. lia.
Qed.

(** ** The windows of the processor *)

Lemma lists_of_set rt ls p rt' :
  rt <> REF_NONE ->
  lists_of rt' (set_discovered_lists rt ls p)
  = if decide (rt' = rt) then ls else lists_of rt' p.
Proof. intros Hrt. destruct rt, rt'; try contradiction; reflexivity. Qed.

Lemma discovered_lists_of rt p :
  rt <> REF_NONE -> discovered_lists rt p = Ok (lists_of rt p).
Proof. intros Hrt. destruct rt; try contradiction; reflexivity. Qed.

Lemma referent_of_agree (h h' : gmap N Reference) y :
  h' !! y = h !! y -> referent_of h' y = referent_of h y /\ next_of h' y = next_of h y.
Proof.
  intros E. unfold referent_of, next_of, java_lang_ref_Reference.load.
  destruct (decide (y = null)); [auto|]. rewrite E. auto.
Qed.

Lemma well_formed_nonneg h p abs rt :
  well_formed h p abs -> 0 <= total_length (lists_of rt p).
Proof.
  intros Hwf. apply total_length_nonneg. eapply are_lists_nonneg. apply (wf_lists _ _ _ Hwf).
Qed.

Lemma entry_count_ge h p abs rt :
  well_formed h p abs -> total_length (lists_of rt p) <= entry_count p.
Proof.
  intros Hwf.
  pose proof (well_formed_nonneg h p abs REF_SOFT Hwf).
  pose proof (well_formed_nonneg h p abs REF_WEAK Hwf).
  pose proof (well_formed_nonneg h p abs REF_FINAL Hwf).
  pose proof (well_formed_nonneg h p abs REF_PHANTOM Hwf).
  unfold entry_count. destruct rt; simpl in *; lia.
Qed.

Lemma entry_count_set rt ls p :
  rt <> REF_NONE ->
  entry_count (set_discovered_lists rt ls p)
  = entry_count p - total_length (lists_of rt p) + total_length ls.
Proof.
  intros Hrt. unfold entry_count. destruct rt; try contradiction; simpl; lia.
Qed.

Lemma shrinks_refl abs : shrinks abs abs.
Proof. intros rt x H. exact H. Qed.

Lemma shrinks_trans abs1 abs2 abs3 :
  shrinks abs1 abs2 -> shrinks abs2 abs3 -> shrinks abs1 abs3.
Proof. intros H12 H23 rt x H. apply H12, H23, H. Qed.

Lemma shrinks_each_shrinks abs abs' : shrinks_each abs abs' -> shrinks abs abs'.
Proof.
  intros H rt x (i & l' & Hi & Hx). destruct (H rt i l' Hi) as (l & Hl & Hsub).
  exists i, l. auto.
Qed.

Lemma shrinks_each_refl abs : shrinks_each abs abs.
Proof. intros rt i l H. eauto. Qed.

Lemma shrinks_each_trans abs1 abs2 abs3 :
  shrinks_each abs1 abs2 -> shrinks_each abs2 abs3 -> shrinks_each abs1 abs3.
Proof.
  intros H12 H23 rt i l3 H3. destruct (H23 rt i l3 H3) as (l2 & H2 & S2).
  destruct (H12 rt i l2 H2) as (l1 & H1 & S1). exists l1. split; [exact H1|auto].
Qed.

Lemma payload_kept_refl h abs : payload_kept h h abs.
Proof. intros rt x _. auto. Qed.

Lemma payload_kept_trans h1 h2 h3 abs2 abs3 :
  payload_kept h1 h2 abs2 -> payload_kept h2 h3 abs3 -> shrinks abs2 abs3 ->
  payload_kept h1 h3 abs3.
Proof.
  intros H12 H23 Hs rt x Hx. destruct (H23 rt x Hx) as [E1 E2].
  destruct (H12 rt x (Hs rt x Hx)) as [E3 E4]. split; congruence.
Qed.

Lemma step_ok_refl h p abs : well_formed h p abs -> step_ok h p abs h p abs.
Proof.
  intros Hwf. constructor; auto using shrinks_refl, payload_kept_refl. lia.
Qed.

Lemma step_ok_trans h1 p1 abs1 h2 p2 abs2 h3 p3 abs3 :
  step_ok h1 p1 abs1 h2 p2 abs2 -> step_ok h2 p2 abs2 h3 p3 abs3 ->
  step_ok h1 p1 abs1 h3 p3 abs3.
Proof.
  intros [W1 S1 P1 C1 N1 M1 D1 R1] [W2 S2 P2 C2 N2 M2 D2 R2].
  constructor; [exact W2| | |lia|congruence..].
  - eapply shrinks_trans; eauto.
  - eapply payload_kept_trans; eauto.
Qed.

Lemma entries_valid_step build h p abs h' p' abs' :
  entries_valid build h p abs -> step_ok h p abs h' p' abs' ->
  entries_valid build h' p' abs'.
Proof.
  intros Hv [W S P C N M D R] Ha. destruct (Hv Ha) as [Hr Hn]. split.
  - intros Hc rt x Hx. rewrite D in Hc.
    rewrite (proj1 (P rt x Hx)). apply (Hr Hc rt x). apply S. exact Hx.
  - intros x Hx. rewrite (proj2 (P _ x Hx)). apply Hn. apply S. exact Hx.
Qed.

(** Replacing the lists of one category by lists of entries it had. *)
Lemma well_formed_update (h h' : gmap N Reference) p abs rt ls' v :
  well_formed h p abs -> rt <> REF_NONE ->
  are_lists h' ls' v ->
  length ls' = length (lists_of rt p) ->
  (forall x, on_lists v x -> on_lists (abs rt) x) ->
  (forall y, ~ on_lists (abs rt) y -> h' !! y = h !! y) ->
  well_formed h' (set_discovered_lists rt ls' p) (with_entries rt v abs).
Proof.
  intros [Hmax Hnum Hls Hlen Hap] Hrt Hnew Hlen' Hsub Hfr.
  assert (Hsub' : forall r x, on_lists (with_entries rt v abs r) x -> on_lists (abs r) x).
  { intros r x. unfold with_entries. destruct (decide (r = rt)) as [->|_]; auto. }
  constructor.
  - exact Hmax.
  - exact Hnum.
  - intros r. rewrite lists_of_set by exact Hrt. unfold with_entries.
    destruct (decide (r = rt)) as [->|Hne]; [exact Hnew|].
    eapply are_lists_agree; [|apply Hls].
    intros y Hy. apply Hfr. intros Hy'. apply Hne. eapply Hap; eauto.
  - intros r Hr. rewrite lists_of_set by exact Hrt.
    destruct (decide (r = rt)) as [->|Hne]; [|apply Hlen; exact Hr].
    rewrite Hlen'. apply Hlen. exact Hr.
  - intros r1 r2 x H1 H2. eapply Hap; eauto.
Qed.

Lemma ref_discovered_add_dropped r rt v pt :
  ref_discovered r (add_ref_dropped rt v pt) = ref_discovered r pt.
Proof. destruct r; reflexivity. Qed.

Lemma on_lists_insert_other (abs : list (list N)) (i : nat) l l' x :
  separate abs -> abs !! i = Some l ->
  on_lists (<[i := l']> abs) x -> x ∈ l' \/ (on_lists abs x /\ x ∉ l).
Proof.
  intros Hsep Hi (j & lj & Hj & Hx).
  assert (Hil : (i < length abs)%nat) by (eapply lookup_lt_Some; eauto).
  destruct (decide (j = i)) as [->|Hne].
  - rewrite list_lookup_insert_eq in Hj by exact Hil. injection Hj as <-. auto.
  - rewrite list_lookup_insert_ne in Hj by auto. right. split; [exists j, lj; auto|].
    intros Hxl. apply Hne. eapply (proj2 Hsep j i); eauto.
Qed.

(** One list of one category is replaced by a list of some of its
    entries, and nothing outside that list is written. *)
Lemma list_step_ok (h h' : gmap N Reference) p abs rt (i : nat) d d' l l' :
  well_formed h p abs -> rt <> REF_NONE ->
  lists_of rt p !! i = Some d -> abs rt !! i = Some l ->
  is_list h' d' l' -> NoDup l' -> (forall y, y ∈ l' -> y ∈ l) ->
  (forall y, y ∉ l -> h' !! y = h !! y) ->
  (forall y, y ∈ l' ->
     referent_of h' y = referent_of h y /\ next_of h' y = next_of h y) ->
  step_ok h p abs h' (set_discovered_lists rt (<[i := d']> (lists_of rt p)) p)
    (with_entries rt (<[i := l']> (abs rt)) abs) /\
  shrinks_each abs (with_entries rt (<[i := l']> (abs rt)) abs) /\
  with_entries rt (<[i := l']> (abs rt)) abs rt !! i = Some l'.
Proof.
  intros Hwf Hrt Hd Hl His' Hnd' Hsub Hfr Hpay.
  pose proof (wf_lists _ _ _ Hwf rt) as Hls.
  pose proof Hls as [HF Hsep].
  pose proof (Forall2_lookup_lr _ _ _ _ _ _ HF Hd Hl) as His.
  pose proof (is_list_length _ _ _ His) as Hdl.
  assert (Hlen' : DiscoveredList.length d' <= DiscoveredList.length d).
  { rewrite (is_list_length _ _ _ His'), Hdl.
    assert (length l' <= length l)%nat; [|lia].
    apply submseteq_length. apply NoDup_submseteq; auto. }
  set (ls' := <[i := d']> (lists_of rt p)).
  set (abs' := with_entries rt (<[i := l']> (abs rt)) abs).
  assert (Hon : forall x, on_lists (<[i := l']> (abs rt)) x -> on_lists (abs rt) x).
  { intros x Hx. apply on_lists_insert in Hx as [Hx|Hx]; [|exact Hx].
    exists i, l. auto. }
  assert (Hfr' : forall y, ~ on_lists (abs rt) y -> h' !! y = h !! y).
  { intros y Hy. apply Hfr. intros Hyl. apply Hy. exists i, l. auto. }
  assert (Hwf' : well_formed h' (set_discovered_lists rt ls' p) abs').
  { apply (well_formed_update h); auto.
    - eapply are_lists_shrink; eauto.
    - subst ls'. apply length_insert. }
  assert (Heach : shrinks_each abs abs').
  { intros r j lj Hj. subst abs'. unfold with_entries in Hj.
    destruct (decide (r = rt)) as [->|Hne]; [|eauto].
    destruct (decide (j = i)) as [->|Hji].
    - rewrite list_lookup_insert_eq in Hj by (eapply lookup_lt_Some; eauto).
      injection Hj as <-. eauto.
    - rewrite list_lookup_insert_ne in Hj by auto. eauto. }
  split; [|split; [exact Heach|]].
  - constructor; try reflexivity.
    + exact Hwf'.
    + apply shrinks_each_shrinks. exact Heach.
    + intros r x Hx. subst abs'. unfold with_entries in Hx.
      assert (Hcase : x ∈ l' \/ x ∉ l).
      { destruct (decide (r = rt)) as [->|Hne].
        - apply (on_lists_insert_other _ _ l) in Hx as [Hx|[_ Hx]]; auto.
        - right. intros Hxl. apply Hne. eapply (wf_apart _ _ _ Hwf); eauto.
          exists i, l. auto. }
      destruct Hcase as [Hx'|Hx'].
      * apply Hpay. exact Hx'.
      * apply referent_of_agree. apply Hfr. exact Hx'.
    + rewrite entry_count_set by exact Hrt. subst ls'.
      rewrite (total_length_insert _ _ _ _ Hd). lia.
  - subst abs'. unfold with_entries. destruct (decide (rt = rt)); [|contradiction].
    apply list_lookup_insert_eq. eapply lookup_lt_Some; eauto.
Qed.

(** A queue of a well-formed processor and its entries. *)
Lemma well_formed_lookup h p abs rt (i : nat) :
  well_formed h p abs -> rt <> REF_NONE -> Z.of_nat i < _max_num_queues p ->
  exists d l, lists_of rt p !! i = Some d /\ abs rt !! i = Some l /\
    is_list h d l /\ NoDup l /\
    Z.of_nat (length l) <= entry_count p.
Proof.
  intros Hwf Hrt Hi.
  pose proof (wf_lists _ _ _ Hwf rt) as Hls.
  pose proof (wf_length _ _ _ Hwf rt Hrt) as Hlen.
  assert (Hil : (i < length (lists_of rt p))%nat) by lia.
  destruct (lookup_lt_is_Some_2 _ _ Hil) as [d Hd].
  pose proof Hls as [HF Hsep].
  destruct (Forall2_lookup_l _ _ _ _ _ HF Hd) as (l & Hl & His).
  exists d, l. split; [exact Hd|]. split; [exact Hl|]. split; [exact His|].
  split; [exact (proj1 Hsep _ _ Hl)|].
  pose proof (is_list_length _ _ _ His) as Hdl.
  pose proof (total_length_ge _ i d (are_lists_nonneg _ _ _ Hls) Hd) as Hdt.
  pose proof (entry_count_ge _ _ _ rt Hwf) as Hec. lia.
Qed.

Lemma on_lists_loaded (h : gmap N Reference) ls abs x :
  are_lists h ls abs -> on_lists abs x ->
  exists r, java_lang_ref_Reference.load h x = Some r.
Proof.
  intros [HF _] (i & l & Hl & Hx).
  destruct (Forall2_lookup_r _ _ _ _ _ HF Hl) as (d & _ & His).
  destruct (list_elem_of_split _ _ Hx) as (l1 & l2 & ->).
  destruct (chain_current _ _ _ _ _ His) as (r & Hr & _). eauto.
Qed.

Lemma keeps_payload_referent (h h' : gmap N Reference) x r :
  keeps_payload h h' -> java_lang_ref_Reference.load h x = Some r ->
  referent_of h' x = referent_of h x /\ next_of h' x = next_of h x.
Proof.
  intros Hk Hr. destruct (Hk _ _ Hr) as (r' & Hr' & E1 & E2).
  unfold referent_of, next_of. rewrite Hr, Hr'. auto.
Qed.

Lemma any_non_empty_spec (ls : list DiscoveredList.t) : forall k (i : nat),
  (i + k <= length ls)%nat ->
  exists b, any_non_empty ls k (Z.of_nat i) = Ok b /\
    (b = false -> forall (j : nat) d, (i <= j < i + k)%nat -> ls !! j = Some d ->
       DiscoveredList.head d = null).
Proof.
  induction k as [|k IH]; intros i Hik.
  - exists false. split; [reflexivity|]. intros _ j d Hj. lia.
  - assert (Hil : (i < length ls)%nat) by lia.
    destruct (lookup_lt_is_Some_2 _ _ Hil) as [d Hd].
    cbn [any_non_empty]. rewrite (list_at_Some _ _ _ Hd), bind_Ok.
    unfold DiscoveredList.is_empty.
    destruct (decide (DiscoveredList.head d = null)) as [Hnull|Hnn].
    + rewrite bool_decide_eq_true_2 by exact Hnull. simpl negb. cbv iota.
      replace (Z.of_nat i + 1) with (Z.of_nat (S i)) by lia.
      destruct (IH (S i) ltac:(lia)) as (b & Hb & Hall).
      exists b. split; [exact Hb|]. intros E j d0 Hj Hd0.
      destruct (decide (j = i)) as [->|Hne].
      * rewrite Hd in Hd0. injection Hd0 as <-. exact Hnull.
      * apply (Hall E j d0); [lia|exact Hd0].
    + rewrite bool_decide_eq_false_2 by exact Hnn. simpl negb. cbv iota.
      exists true. split; [reflexivity|discriminate].
Qed.

Lemma lists_of_degree rt a d p :
  lists_of rt (set_next_id a (set_num_queues d p)) = lists_of rt p.
Proof. destruct rt; reflexivity. Qed.

Lemma well_formed_degree (h : gmap N Reference) p abs a d :
  well_formed h p abs -> 0 < d <= _max_num_queues p ->
  well_formed h (set_next_id a (set_num_queues d p)) abs.
Proof.
  intros [Hmax Hnum Hls Hlen Hap] Hd. constructor; simpl; auto.
Qed.

(** A phase that runs with another degree and puts the old one back. *)
Lemma step_ok_degrees (h h' : gmap N Reference) p abs p' abs' a b d :
  step_ok h (set_next_id a (set_num_queues d p)) abs h' p' abs' ->
  0 < _num_queues p <= _max_num_queues p ->
  step_ok h p abs h' (set_next_id b (set_num_queues (_num_queues p) p')) abs'.
Proof.
  intros [W S P C Nq M D R] Hn. simpl in *. constructor; simpl; auto.
  apply well_formed_degree; [exact W|]. rewrite M. exact Hn.
Qed.

Lemma no_entries_lists (h : gmap N Reference) p abs rt :
  well_formed h p abs -> (forall x, ~ on_lists (abs rt) x) ->
  forall (i : nat) d, lists_of rt p !! i = Some d -> d = DiscoveredList.mk null 0.
Proof.
  intros Hwf Hno i d Hd. destruct (wf_lists _ _ _ Hwf rt) as [HF _].
  destruct (Forall2_lookup_l _ _ _ _ _ HF Hd) as (l & Hl & His).
  destruct l as [|x l]; [eapply is_list_nil; eauto|].
  exfalso. apply (Hno x). exists i, (x :: l). split; [exact Hl|].
  apply elem_of_cons. auto.
Qed.

Lemma total_length_zero (ls : list DiscoveredList.t) :
  (forall (i : nat) d, ls !! i = Some d -> DiscoveredList.length d = 0) ->
  total_length ls = 0.
Proof.
  intros Hz. rewrite <- (total_length_take_zero ls 0%nat).
  - rewrite take_0. reflexivity.
  - intros j d _ Hd. eapply Hz; eauto.
Qed.

Lemma total_count_spec (h : gmap N Reference) p abs rt :
  well_formed h p abs -> rt <> REF_NONE -> entry_count p < size_t_range ->
  total_count p (lists_of rt p) = Ok (total_length (lists_of rt p)).
Proof.
  intros Hwf Hrt Hrange. unfold total_count.
  pose proof (wf_length _ _ _ Hwf rt Hrt) as Hlen.
  pose proof (entry_count_ge _ _ _ rt Hwf) as Hec.
  assert (Hwhole : take (Z.to_nat (_max_num_queues p)) (drop 0 (lists_of rt p))
                   = lists_of rt p) by (rewrite drop_0; apply take_ge; lia).
  change 0 with (Z.of_nat 0) at 1.
  rewrite sum_lengths_spec; rewrite ?Hwhole; try lia.
  - reflexivity.
  - eapply are_lists_nonneg. apply (wf_lists _ _ _ Hwf).
Qed.

Lemma guarantee_empty_spec (ls : list DiscoveredList.t) : forall k (i : nat),
  (forall (j : nat) d, ls !! j = Some d -> DiscoveredList.head d = null) ->
  (i + k <= length ls)%nat ->
  guarantee_empty ls k (Z.of_nat i) = Ok tt.
Proof.
  induction k as [|k IH]; intros i Hall Hik; [reflexivity|].
  assert (Hil : (i < length ls)%nat) by lia.
  destruct (lookup_lt_is_Some_2 _ _ Hil) as [d Hd].
  cbn [guarantee_empty]. rewrite (list_at_Some _ _ _ Hd), bind_Ok.
  unfold DiscoveredList.is_empty. rewrite bool_decide_eq_true_2 by (eapply Hall; eauto).
  unfold guarantee. rewrite bind_Ok.
  replace (Z.of_nat i + 1) with (Z.of_nat (S i)) by lia. apply IH; [exact Hall|lia].
Qed.

Lemma done_beyond phase (h : gmap N Reference) p abs (j : nat) :
  well_formed h p abs -> _max_num_queues p <= Z.of_nat j -> done phase h abs j.
Proof.
  intros Hwf Hj.
  assert (Hnone : forall rt P, rt <> REF_NONE -> all_at abs rt j P).
  { intros rt P Hrt l x Hl Hx. exfalso.
    destruct (wf_lists _ _ _ Hwf rt) as [HF _].
    pose proof (Forall2_length _ _ _ HF) as Hlen.
    pose proof (wf_length _ _ _ Hwf rt Hrt) as HM.
    apply lookup_lt_Some in Hl. lia. }
  destruct phase; simpl; unfold none_at; repeat split; apply Hnone; discriminate.
Qed.

Lemma on_lists_dec (abs : list (list N)) x : on_lists abs x \/ ~ on_lists abs x.
Proof.
  induction abs as [|l abs IH].
  - right. intros (i & li & Hl & _). discriminate.
  - destruct (decide (x ∈ l)) as [Hx|Hx].
    + left. exists 0%nat, l. auto.
    + destruct IH as [(i & li & Hl & Hxi)|Hn].
      * left. exists (S i), li. auto.
      * right. intros (i & li & Hl & Hxi). destruct i as [|i].
        -- injection Hl as <-. contradiction.
        -- apply Hn. exists i, li. auto.
Qed.

Lemma discovered_of_agree (h h' : gmap N Reference) y :
  h' !! y = h !! y -> discovered_of h' y = discovered_of h y.
Proof.
  intros E. unfold discovered_of, java_lang_ref_Reference.load.
  destruct (decide (y = null)); [auto|]. rewrite E. auto.
Qed.

(** ** The way to the pending list *)

Lemma enqueues_refl (h : gmap N Reference) abs pl : enqueues h abs pl h abs pl [].
Proof.
  constructor; try (intros x Hx; apply elem_of_nil in Hx; contradiction).
  - reflexivity.
  - constructor.
  - intros x r Hx. apply elem_of_nil in Hx. contradiction.
  - intros r x Hon Hoff. contradiction.
  - intros r x Hx. apply elem_of_nil in Hx. contradiction.
  - auto.
Qed.

Lemma enqueues_trans (h1 : gmap N Reference) p1 abs1 pl1
    (h2 : gmap N Reference) abs2 pl2 (h3 : gmap N Reference) abs3 pl3 e1 e2 :
  well_formed h1 p1 abs1 -> shrinks abs1 abs2 -> shrinks abs2 abs3 ->
  enqueues h1 abs1 pl1 h2 abs2 pl2 e1 ->
  enqueues h2 abs2 pl2 h3 abs3 pl3 e2 ->
  enqueues h1 abs1 pl1 h3 abs3 pl3 (e2 ++ e1).
Proof.
  intros Hwf S12 S23 [C1 N1 W1 O1 G1 L1 F1 R1] [C2 N2 W2 O2 G2 L2 F2 R2].
  assert (Hoff : forall x, x ∈ e1 -> h3 !! x = h2 !! x).
  { intros x Hx. apply R2. intros r. apply O1. exact Hx. }
  assert (Hsame : forall r r' x, on_lists (abs1 r) x -> on_lists (abs2 r') x -> r' = r).
  { intros r r' x Hr Hr'. eapply (wf_apart _ _ _ Hwf); [apply S12; exact Hr'|exact Hr]. }
  constructor.
  - apply lseg_app. exists pl2. split; [exact C2|].
    eapply lseg_agree; [|exact C1]. exact Hoff.
  - apply NoDup_app. split; [exact N2|]. split; [|exact N1].
    intros x Hx2 Hx1. destruct (W2 x Hx2) as (r & Hr). exact (O1 x r Hx1 Hr).
  - intros x Hx. apply elem_of_app in Hx as [Hx|Hx]; [|exact (W1 x Hx)].
    destruct (W2 x Hx) as (r & Hr). exists r. apply S12. exact Hr.
  - intros x r Hx. apply elem_of_app in Hx as [Hx|Hx]; [exact (O2 x r Hx)|].
    intros Hon. apply (O1 x r Hx). apply S23. exact Hon.
  - intros r x Hon Hoff3. destruct (on_lists_dec (abs2 r) x) as [Hmid|Hmid].
    + destruct (G2 r x Hmid Hoff3) as [Hx|Hd]; [left; apply elem_of_app; auto|auto].
    + destruct (G1 r x Hon Hmid) as [Hx|Hd]; [left; apply elem_of_app; auto|right].
      rewrite <- Hd. unfold discovered_of, java_lang_ref_Reference.load.
      rewrite R2; [reflexivity|].
      intros r' Hon'. rewrite (Hsame r r' x Hon Hon') in Hon'. contradiction.
  - intros r x Hx Hon Hr. apply elem_of_app in Hx as [Hx|Hx].
    + destruct (W2 x Hx) as (r' & Hr'). pose proof (Hsame r r' x Hon Hr') as ->.
      exact (L2 r x Hx Hr' Hr).
    + rewrite <- (L1 r x Hx Hon Hr). apply referent_of_agree. exact (Hoff x Hx).
  - intros x Hx Hon. apply elem_of_app in Hx as [Hx|Hx].
    + destruct (W2 x Hx) as (r' & Hr'). pose proof (Hsame _ r' x Hon Hr') as ->.
      exact (F2 x Hx Hr').
    + rewrite <- (F1 x Hx Hon) at 2. apply referent_of_agree. exact (Hoff x Hx).
  - intros y Hy. rewrite R2; [apply R1; exact Hy|].
    intros r Hon. apply (Hy r). apply S12. exact Hon.
Qed.

Lemma enqueued_refl (h : gmap N Reference) abs pl : enqueued h abs pl h abs pl.
Proof. exists []. apply enqueues_refl. Qed.

Lemma enqueued_trans (h1 : gmap N Reference) p1 abs1 pl1
    (h2 : gmap N Reference) p2 abs2 pl2 (h3 : gmap N Reference) p3 abs3 pl3 :
  step_ok h1 p1 abs1 h2 p2 abs2 -> step_ok h2 p2 abs2 h3 p3 abs3 ->
  well_formed h1 p1 abs1 ->
  enqueued h1 abs1 pl1 h2 abs2 pl2 ->
  enqueued h2 abs2 pl2 h3 abs3 pl3 ->
  enqueued h1 abs1 pl1 h3 abs3 pl3.
Proof.
  intros S12 S23 Hwf [e1 Q1] [e2 Q2]. exists (e2 ++ e1).
  eapply enqueues_trans; eauto.
  - exact (step_shrinks _ _ _ _ _ _ S12).
  - exact (step_shrinks _ _ _ _ _ _ S23).
Qed.

(** One list of one category gives up the references [enq] to the
    pending list and keeps the references [l']. *)
Lemma list_enqueues (h h' : gmap N Reference) p abs rt (i : nat) l l' enq pl pl' :
  well_formed h p abs -> rt <> REF_NONE -> abs rt !! i = Some l ->
  (forall y, y ∈ l' -> y ∈ l) -> (forall y, y ∈ enq -> y ∈ l) ->
  (forall y, y ∈ enq -> y ∉ l') -> NoDup enq ->
  lseg h' pl' enq pl ->
  (forall y, y ∉ l -> h' !! y = h !! y) ->
  (forall y, y ∈ l -> y ∉ l' -> y ∈ enq \/ discovered_of h' y = null) ->
  (rt <> REF_FINAL -> forall y, y ∈ enq -> referent_of h' y = null) ->
  (rt = REF_FINAL -> forall y, y ∈ enq -> next_of h' y = y) ->
  enqueues h abs pl h' (with_entries rt (<[i := l']> (abs rt)) abs) pl' enq.
Proof.
  intros Hwf Hrt Hl Hsub Hin Hdis Hnd Hseg Hfr Hgone Hclr Hfin.
  pose proof (wf_lists _ _ _ Hwf rt) as [_ Hsep].
  assert (Hil : (i < length (abs rt))%nat) by (eapply lookup_lt_Some; eauto).
  assert (Hrt_of : forall r x, x ∈ l -> on_lists (abs r) x -> r = rt).
  { intros r x Hx Hon. eapply (wf_apart _ _ _ Hwf); [exact Hon|]. exists i, l. auto. }
  constructor.
  - exact Hseg.
  - exact Hnd.
  - intros x Hx. exists rt, i, l. auto.
  - intros x r Hx Hon. unfold with_entries in Hon.
    destruct (decide (r = rt)) as [->|Hne].
    + apply (on_lists_insert_other _ _ l) in Hon as [Hon|[_ Hon]]; auto.
      * exact (Hdis x Hx Hon).
    + apply Hne. exact (Hrt_of r x (Hin x Hx) Hon).
  - intros r x Hon Hoff. unfold with_entries in Hoff.
    destruct (decide (r = rt)) as [->|Hne]; [|contradiction].
    destruct Hon as (j & lj & Hj & Hx).
    destruct (decide (j = i)) as [->|Hji].
    + rewrite Hl in Hj. injection Hj as <-. apply Hgone; [exact Hx|].
      intros Hx'. apply Hoff. exists i, l'. split; [|exact Hx'].
      apply list_lookup_insert_eq. exact Hil.
    + exfalso. apply Hoff. exists j, lj. split; [|exact Hx].
      rewrite list_lookup_insert_ne by auto. exact Hj.
  - intros r x Hx Hon Hr. pose proof (Hrt_of r x (Hin x Hx) Hon) as ->.
    exact (Hclr Hr x Hx).
  - intros x Hx Hon. pose proof (Hrt_of _ x (Hin x Hx) Hon) as E.
    exact (Hfin (eq_sym E) x Hx).
  - intros y Hy. apply Hfr. intros Hyl. apply (Hy rt). exists i, l. auto.
Qed.

Lemma enqueued_same (h h' : gmap N Reference) abs abs' pl :
  (forall r x, on_lists (abs r) x -> on_lists (abs' r) x) ->
  (forall y, (forall r, ~ on_lists (abs r) y) -> h' !! y = h !! y) ->
  enqueued h abs pl h' abs' pl.
Proof.
  intros Hon Hfr. exists [].
  constructor; try (intros x Hx; apply elem_of_nil in Hx; contradiction).
  - reflexivity.
  - constructor.
  - intros x r Hx. apply elem_of_nil in Hx. contradiction.
  - intros r x H1 H2. destruct (H2 (Hon r x H1)).
  - intros r x Hx. apply elem_of_nil in Hx. contradiction.
  - exact Hfr.
Qed.

Section CycleProofs.

Context {G : Type}.
Variable build : Build.
Variable flags : Flags.
Variable env : Collaborators G.

Lemma pass_keeps_referent h0 : forall l (g : G) y,
  y ∈ pass_keeps env h0 g l -> referent_of h0 y <> null.
Proof.
  induction l as [|x l IH]; intros g y; simpl.
  - intros H. apply elem_of_nil in H. contradiction.
  - intros Hin. apply elem_of_app in Hin as [Hin|Hin]; [|eapply IH; eauto].
    unfold visit in Hin. destruct (decide (referent_of h0 x = null)); simpl in Hin.
    + apply elem_of_nil in Hin. contradiction.
    + destruct (is_alive env g (referent_of h0 x)); simpl in Hin.
      * apply elem_of_nil in Hin. contradiction.
      * apply list_elem_of_singleton in Hin. subst. assumption.
Qed.

(** One list of one category, processed by [process_discovered_list]. *)
Lemma process_discovered_list_step fuel (i : nat) rt p pt (w : World G) abs :
  well_formed (heap w) p abs ->
  entries_valid build (heap w) p abs ->
  rt <> REF_NONE ->
  Z.of_nat i < _max_num_queues p ->
  entry_count p < size_t_range ->
  (Z.to_nat (entry_count p) < fuel)%nat ->
  exists p' pt' w' abs' l',
    process_discovered_list build env fuel (Z.of_nat i) rt (p, pt, w) = Ok (p', pt', w') /\
    step_ok (heap w) p abs (heap w') p' abs' /\
    shrinks_each abs abs' /\
    (forall r, ref_discovered r pt' = ref_discovered r pt) /\
    abs' rt !! i = Some l' /\
    (rt <> REF_FINAL -> l' = []) /\
    (forall x, x ∈ l' -> referent_of (heap w') x <> null) /\
    enqueued (heap w) abs (pending_list w) (heap w') abs' (pending_list w').
Proof.
  intros Hwf Hval Hrt Hi Hrange Hfuel.
  destruct (well_formed_lookup _ _ _ rt i Hwf Hrt Hi) as (d & l & Hd & Hl & His & Hnd & Hll).
  set (clear := negb (bool_decide (rt = REF_FINAL))).
  destruct (process_discovered_list_work_spec build env (_discovery_is_concurrent p) clear
              fuel d l w His Hnd ltac:(lia))
    as (d' & w' & Hrun & Hres & HndK & Hgc & Hfr & Hkept & Hdrop).
  { intros Ha Hc y Hy. apply (proj1 (Hval Ha) Hc rt). exists i, l. auto. }
  { lia. }
  set (K := pass_keeps env (heap w) (gc w) l) in *.
  set (l' := if clear then [] else K).
  assert (Hsub : forall y, y ∈ l' -> y ∈ l).
  { subst l'. destruct clear; intros y Hy.
    - apply elem_of_nil in Hy. contradiction.
    - eapply pass_keeps_sub; eauto. }
  assert (Hnd' : NoDup l') by (subst l'; destruct clear; [constructor|exact HndK]).
  assert (His' : is_list (heap w') d' l').
  { subst l'. destruct clear.
    - destruct Hres as [-> _]. apply is_list_clear.
    - apply Hres. }
  assert (Hpay : forall y, y ∈ l' ->
            referent_of (heap w') y = referent_of (heap w) y /\
            next_of (heap w') y = next_of (heap w) y).
  { intros y Hy. subst l'. destruct clear eqn:Ec; [apply elem_of_nil in Hy; contradiction|].
    destruct (Hkept y Hy) as (r' & Hr' & E1 & E2).
    unfold referent_of at 1, next_of at 1. rewrite Hr'. auto. }
  destruct (list_step_ok (heap w) (heap w') p abs rt i d d' l l'
              Hwf Hrt Hd Hl His' Hnd' Hsub Hfr Hpay) as (Hstep & Heach & Hat).
  eexists _, _, w', _, l'. split.
  { unfold process_discovered_list.
    rewrite (discovered_lists_of _ _ Hrt), bind_Ok.
    rewrite (list_at_Some _ _ _ Hd), bind_Ok.
    fold clear. rewrite Hrun, bind_Ok. rewrite Nat2Z.id. reflexivity. }
  split; [exact Hstep|]. split; [exact Heach|].
  split; [intros r; apply ref_discovered_add_dropped|].
  split; [exact Hat|]. split.
  { intros Hnf. subst l' clear. rewrite bool_decide_eq_false_2 by exact Hnf. reflexivity. }
  split.
  { intros x Hx. rewrite (proj1 (Hpay x Hx)).
    subst l'. destruct clear eqn:Ec; [apply elem_of_nil in Hx; contradiction|].
    eapply pass_keeps_referent; eauto. }
  exists (if clear then K else []).
  apply (list_enqueues (heap w) (heap w') p abs rt i l); try assumption.
  - intros y Hy. destruct clear; [|apply elem_of_nil in Hy; contradiction].
    eapply pass_keeps_sub; eauto.
  - intros y Hy Hy'. subst l'.
    destruct clear; [apply elem_of_nil in Hy'|apply elem_of_nil in Hy]; contradiction.
  - destruct clear; [exact HndK|constructor].
  - destruct clear; [apply Hres|]. simpl. apply (proj2 Hres).
  - intros y Hy Hy'. subst l'. destruct clear.
    + destruct (decide (y ∈ K)); [left; assumption|right; apply Hdrop; assumption].
    + right. apply Hdrop; assumption.
  - intros Hnf y Hy. destruct clear eqn:Ec; [|apply elem_of_nil in Hy; contradiction].
    destruct (Hkept y Hy) as (r' & Hr' & E1 & _). unfold referent_of. rewrite Hr'. exact E1.
  - intros Hf y Hy. subst clear. rewrite bool_decide_eq_true_2 in Hy by exact Hf.
    apply elem_of_nil in Hy. contradiction.
Qed.

Lemma all_at_kept abs abs' rt i (P P' : N -> Prop) :
  shrinks_each abs abs' -> all_at abs rt i P ->
  (forall x, on_lists (abs' rt) x -> P x -> P' x) ->
  all_at abs' rt i P'.
Proof.
  intros Hs Ha Himp l' x Hl' Hx. destruct (Hs rt i l' Hl') as (l & Hl & Hsub).
  apply Himp; [exists i, l'; auto|]. eapply Ha; eauto.
Qed.

Lemma none_at_kept abs abs' rt i :
  shrinks_each abs abs' -> none_at abs rt i -> none_at abs' rt i.
Proof. intros Hs Ha. eapply all_at_kept; eauto. Qed.

Lemma all_at_lookup (abs : ReferenceType -> list (list N)) rt i l (P : N -> Prop) :
  abs rt !! i = Some l -> (forall x, x ∈ l -> P x) -> all_at abs rt i P.
Proof. intros Hl HP l0 x Hl0 Hx. rewrite Hl in Hl0. injection Hl0 as <-. auto. Qed.

Lemma done_kept phase (h h' : gmap N Reference) abs abs' i :
  shrinks_each abs abs' -> payload_kept h h' abs' ->
  done phase h abs i -> done phase h' abs' i.
Proof.
  intros Hs Hp. destruct phase; simpl.
  - intros (H1 & H2 & H3). split; [eapply none_at_kept; eauto|].
    split; [eapply none_at_kept; eauto|].
    eapply all_at_kept; eauto. intros x Hx Hr. rewrite (proj1 (Hp _ x Hx)). exact Hr.
  - apply none_at_kept; auto.
  - apply none_at_kept; auto.
Qed.

Lemma final_ready_step (h h' : gmap N Reference) p abs p' abs' :
  final_ready h abs -> step_ok h p abs h' p' abs' -> final_ready h' abs'.
Proof.
  intros Hr Hs x Hx. rewrite (proj1 (step_payload _ _ _ _ _ _ Hs _ x Hx)).
  apply Hr. apply (step_shrinks _ _ _ _ _ _ Hs). exact Hx.
Qed.

(** The work of one worker in one phase. *)
Lemma rp_work_step fuel phase (i : nat) p pt (w : World G) abs :
  well_formed (heap w) p abs ->
  entries_valid build (heap w) p abs ->
  (phase = KeepAliveFinalRefsPhase -> final_ready (heap w) abs) ->
  Z.of_nat i < _max_num_queues p ->
  entry_count p < size_t_range ->
  (Z.to_nat (entry_count p) < fuel)%nat ->
  exists p' pt' w' abs',
    rp_work build env fuel phase (Z.of_nat i) (p, pt, w) = Ok (p', pt', w') /\
    step_ok (heap w) p abs (heap w') p' abs' /\
    shrinks_each abs abs' /\
    (forall r, ref_discovered r pt' = ref_discovered r pt) /\
    done phase (heap w') abs' i /\
    enqueued (heap w) abs (pending_list w) (heap w') abs' (pending_list w').
Proof.
  intros Hwf Hval Hready Hi Hrange Hfuel. destruct phase.
  - (* Soft, Weak and Final references *)
    destruct (process_discovered_list_step fuel i REF_SOFT p pt w abs)
      as (p1 & pt1 & w1 & abs1 & l1 & R1 & S1 & E1 & D1 & A1 & N1 & _ & Q1);
      try assumption; try discriminate.
    pose proof (entries_valid_step _ _ _ _ _ _ _ Hval S1) as Hval1.
    pose proof S1 as [W1 Sh1 P1 C1 Nq1 M1 Dc1 Dr1].
    destruct (process_discovered_list_step fuel i REF_WEAK p1 pt1 w1 abs1)
      as (p2 & pt2 & w2 & abs2 & l2 & R2 & S2 & E2 & D2 & A2 & N2 & _ & Q2);
      try assumption; try discriminate; try lia.
    pose proof (entries_valid_step _ _ _ _ _ _ _ Hval1 S2) as Hval2.
    pose proof S2 as [W2 Sh2 P2 C2 Nq2 M2 Dc2 Dr2].
    destruct (process_discovered_list_step fuel i REF_FINAL p2 pt2 w2 abs2)
      as (p3 & pt3 & w3 & abs3 & l3 & R3 & S3 & E3 & D3 & A3 & _ & V3 & Q3);
      try assumption; try discriminate; try lia.
    pose proof S3 as [W3 Sh3 P3 C3 Nq3 M3 Dc3 Dr3].
    exists p3, pt3, (set_gc (complete_gc env (gc w3)) w3), abs3. split.
    { unfold rp_work. rewrite R1, bind_Ok, R2, bind_Ok, R3, bind_Ok. reflexivity. }
    simpl heap.
    assert (S12 : step_ok (heap w) p abs (heap w2) p2 abs2).
    { eapply step_ok_trans; eauto. }
    split; [eapply step_ok_trans; eauto|].
    split; [eapply shrinks_each_trans; [eapply shrinks_each_trans|]; eauto|].
    split; [intros r; rewrite D3, D2, D1; reflexivity|].
    split; [split; [|split]|].
    + apply (none_at_kept abs1 abs3); [eapply shrinks_each_trans; eauto|].
      apply (all_at_lookup abs1 REF_SOFT i l1 _ A1). rewrite N1 by discriminate.
      intros x Hx. apply elem_of_nil in Hx. contradiction.
    + apply (none_at_kept abs2 abs3); [exact E3|].
      apply (all_at_lookup abs2 REF_WEAK i l2 _ A2). rewrite N2 by discriminate.
      intros x Hx. apply elem_of_nil in Hx. contradiction.
    + apply (all_at_lookup abs3 REF_FINAL i l3 _ A3). exact V3.
    + simpl pending_list.
      eapply enqueued_trans; [exact S12|exact S3|exact Hwf| |exact Q3].
      eapply enqueued_trans; [exact S1|exact S2|exact Hwf|exact Q1|exact Q2].
  - (* Final references, kept alive *)
    destruct (well_formed_lookup _ _ _ REF_FINAL i Hwf ltac:(discriminate) Hi)
      as (d & l & Hd & Hl & His & Hnd & Hll).
    destruct (process_final_keep_alive_work_spec build env fuel d l w His Hnd
                ltac:(lia))
      as (w' & Hrun & Hseg & Hgc & Hka & Hfr & Hnx).
    { intros Ha y Hy. split.
      - apply (Hready eq_refl). exists i, l. auto.
      - apply (proj2 (Hval Ha)). exists i, l. auto. }
    { lia. }
    destruct (list_step_ok (heap w) (heap w') p abs REF_FINAL i d (DiscoveredList.clear d)
                l [] Hwf ltac:(discriminate) Hd Hl (is_list_clear _ _) (NoDup_nil_2))
      as (Hstep & Heach & Hat).
    { intros y Hy. apply elem_of_nil in Hy. contradiction. }
    { exact Hfr. }
    { intros y Hy. apply elem_of_nil in Hy. contradiction. }
    eexists _, pt, (set_gc (complete_gc env (gc w')) w'), _. split.
    { unfold rp_work. change (_discoveredFinalRefs p) with (lists_of REF_FINAL p).
      rewrite (list_at_Some _ _ _ Hd), bind_Ok, Hrun, bind_Ok.
      rewrite Nat2Z.id. reflexivity. }
    simpl heap. split; [exact Hstep|]. split; [exact Heach|].
    split; [reflexivity|]. split.
    { apply (all_at_lookup _ REF_FINAL i [] _ Hat).
      intros x Hx. apply elem_of_nil in Hx. contradiction. }
    simpl pending_list. exists l.
    apply (list_enqueues (heap w) (heap w') p abs REF_FINAL i l); try assumption;
      try discriminate; auto.
    + intros y Hy. apply elem_of_nil in Hy. contradiction.
    + intros y _ Hy. apply elem_of_nil in Hy. contradiction.
    + intros Hc. contradiction.
  - (* Phantom references *)
    destruct (process_discovered_list_step fuel i REF_PHANTOM p pt w abs)
      as (p1 & pt1 & w1 & abs1 & l1 & R1 & S1 & E1 & D1 & A1 & N1 & _ & Q1);
      try assumption; try discriminate.
    exists p1, pt1, (set_gc (complete_gc env (gc w1)) w1), abs1. split.
    { unfold rp_work. rewrite R1, bind_Ok. reflexivity. }
    simpl heap. split; [exact S1|]. split; [exact E1|]. split; [exact D1|].
    split; [|exact Q1].
    apply (all_at_lookup abs1 REF_PHANTOM i l1 _ A1). rewrite N1 by discriminate.
    intros x Hx. apply elem_of_nil in Hx. contradiction.
Qed.

(** The workers [i], [i + 1], ... of one phase, one after the other. *)
Lemma run_workers_spec fuel phase : forall k (i : nat) p pt (w : World G) abs,
  well_formed (heap w) p abs ->
  entries_valid build (heap w) p abs ->
  (phase = KeepAliveFinalRefsPhase -> final_ready (heap w) abs) ->
  Z.of_nat (i + k) <= _max_num_queues p ->
  entry_count p < size_t_range ->
  (Z.to_nat (entry_count p) < fuel)%nat ->
  (forall j, (j < i)%nat -> done phase (heap w) abs j) ->
  exists p' pt' w' abs',
    run_workers build env fuel phase k (Z.of_nat i) (p, pt, w) = Ok (p', pt', w') /\
    step_ok (heap w) p abs (heap w') p' abs' /\
    shrinks_each abs abs' /\
    (forall r, ref_discovered r pt' = ref_discovered r pt) /\
    (forall j, (j < i + k)%nat -> done phase (heap w') abs' j) /\
    enqueued (heap w) abs (pending_list w) (heap w') abs' (pending_list w').
Proof.
  induction k as [|k IH]; intros i p pt w abs Hwf Hval Hready Hik Hrange Hfuel Hdone.
  - exists p, pt, w, abs. split; [reflexivity|].
    split; [apply step_ok_refl; exact Hwf|]. split; [apply shrinks_each_refl|].
    split; [reflexivity|]. split; [intros j Hj; apply Hdone; lia|].
    apply enqueued_refl.
  - destruct (rp_work_step fuel phase i p pt w abs)
      as (p1 & pt1 & w1 & abs1 & R1 & S1 & E1 & D1 & Done1 & Q1); try assumption; [lia|].
    pose proof S1 as [W1 Sh1 P1 C1 Nq1 M1 Dc1 Dr1].
    destruct (IH (S i) p1 pt1 w1 abs1)
      as (p2 & pt2 & w2 & abs2 & R2 & S2 & E2 & D2 & Done2 & Q2); try assumption.
    + eapply entries_valid_step; eauto.
    + intros Hp. eapply final_ready_step; eauto.
    + lia.
    + lia.
    + lia.
    + intros j Hj. destruct (decide (j = i)) as [->|Hne]; [exact Done1|].
      eapply done_kept; eauto. apply Hdone. lia.
    + exists p2, pt2, w2, abs2. split.
      { cbn [run_workers]. rewrite R1, bind_Ok.
        replace (Z.of_nat i + 1) with (Z.of_nat (S i)) by lia. exact R2. }
      split; [eapply step_ok_trans; eauto|].
      split; [eapply shrinks_each_trans; eauto|].
      split; [intros r; rewrite D2, D1; reflexivity|].
      split; [intros j Hj; apply Done2; lia|].
      eapply enqueued_trans; [exact S1|exact S2|exact Hwf|exact Q1|exact Q2].
Qed.

(** Balancing the queues of one category, when it is called for. *)
Lemma maybe_balance_queues_step fuel rt p pt (w : World G) abs :
  well_formed (heap w) p abs -> rt <> REF_NONE ->
  processing_is_mt flags p = true ->
  entry_count p + 1 < size_t_range ->
  (Z.to_nat (entry_count p + _max_num_queues p) < fuel)%nat ->
  exists p' w' abs',
    maybe_balance_queues build flags fuel rt (p, pt, w) = Ok (p', pt, w') /\
    step_ok (heap w) p abs (heap w') p' abs' /\
    (forall r, r <> rt -> abs' r = abs r) /\
    (forall j : nat, _num_queues p <= Z.of_nat j -> none_at abs' rt j) /\
    enqueued (heap w) abs (pending_list w) (heap w') abs' (pending_list w').
Proof.
  intros Hwf Hrt Hmt Hrange Hfuel.
  pose proof Hwf as [Hmax Hnum Hls Hlen Hap].
  pose proof (entry_count_ge _ _ _ rt Hwf) as Hec.
  pose proof (well_formed_nonneg _ _ _ rt Hwf) as Hnn.
  assert (Hbal : exists p' w' abs',
    ('(ls', h') ← balance_queues build (_num_queues p) (_max_num_queues p) fuel
                    (lists_of rt p) (heap w);
     Ok (set_discovered_lists rt ls' p, pt, set_heap h' w)) = Ok (p', pt, w') /\
    step_ok (heap w) p abs (heap w') p' abs' /\
    (forall r, r <> rt -> abs' r = abs r) /\
    (forall j : nat, _num_queues p <= Z.of_nat j -> none_at abs' rt j) /\
    enqueued (heap w) abs (pending_list w) (heap w') abs' (pending_list w')).
  { destruct (balance_queues_spec build (_num_queues p) (_max_num_queues p) fuel
                (lists_of rt p) (heap w) (abs rt))
      as (ls' & h' & v & Hrun & Hwf' & Hlen' & Htot' & Hfair & Hon & Hpay & Hfr);
      try assumption; try lia.
    { apply Hlen. exact Hrt. }
    { apply Hls. }
    exists (set_discovered_lists rt ls' p), (set_heap h' w), (with_entries rt v abs).
    split; [rewrite Hrun, bind_Ok; reflexivity|].
    simpl heap. split; [|split; [|split]].
    - constructor; try reflexivity.
      + apply (well_formed_update (heap w)); auto.
        intros x. apply Hon.
      + intros r x. unfold with_entries. destruct (decide (r = rt)) as [->|_]; [|auto].
        apply Hon.
      + intros r x Hx. unfold with_entries in Hx.
        destruct (decide (r = rt)) as [->|Hne].
        * apply Hon in Hx. destruct (on_lists_loaded _ _ _ _ (Hls rt) Hx) as (rx & Hrx).
          eapply keeps_payload_referent; eauto.
        * apply referent_of_agree. apply Hfr. intros Hx'. apply Hne. eapply Hap; eauto.
      + rewrite entry_count_set by exact Hrt. lia.
    - intros r Hne. unfold with_entries. destruct (decide (r = rt)); [contradiction|].
      reflexivity.
    - intros j Hj l x Hl Hx. unfold with_entries in Hl.
      destruct (decide (rt = rt)); [|contradiction].
      destruct Hwf' as [HF' _].
      destruct (Forall2_lookup_r _ _ _ _ _ HF' Hl) as (d & Hd & His).
      pose proof (Hfair j d Hd) as Hz.
      destruct (Z.ltb_spec (Z.of_nat j) (_num_queues p)); [lia|].
      rewrite (is_list_zero _ _ _ His Hz) in Hx. apply elem_of_nil in Hx. exact Hx.
    - simpl pending_list. apply enqueued_same.
      + intros r x. unfold with_entries. destruct (decide (r = rt)) as [->|_]; [|auto].
        apply Hon.
      + intros y Hy. apply Hfr. apply Hy. }
  unfold maybe_balance_queues.
  rewrite assert_ok by (intros _; exact Hmt). rewrite bind_Ok.
  rewrite (discovered_lists_of _ _ Hrt), bind_Ok.
  unfold need_balance_queues.
  rewrite assert_ok by (intros _; exact Hmt). rewrite bind_Ok.
  destruct (ParallelRefProcBalancingEnabled flags).
  { rewrite bind_Ok. exact Hbal. }
  destruct (any_non_empty_spec (lists_of rt p)
              (Z.to_nat (_max_num_queues p - _num_queues p))
              (Z.to_nat (_num_queues p)))
    as (b & Hb & Hall).
  { pose proof (Hlen rt Hrt). lia. }
  rewrite Z2Nat.id in Hb by lia. rewrite Hb, bind_Ok.
  destruct b; [exact Hbal|].
  exists p, w, abs. split; [reflexivity|].
  split; [apply step_ok_refl; exact Hwf|]. split; [reflexivity|].
  split; [|apply enqueued_refl].
  intros j Hj l x Hl Hx.
  destruct (Hls rt) as [HF _].
  destruct (Forall2_lookup_r _ _ _ _ _ HF Hl) as (d & Hd & His).
  assert (Hjl : (j < length (lists_of rt p))%nat) by (eapply lookup_lt_Some; eauto).
  pose proof (Hlen rt Hrt) as Hlen_rt.
  rewrite (is_list_null_head _ _ _ His) in Hx.
  - apply elem_of_nil in Hx. exact Hx.
  - apply (Hall eq_refl j d); [lia|exact Hd].
Qed.

Lemma ergo_proc_thread_count_spec ref_count max_threads phase :
  0 < max_threads < uint_range ->
  0 <= ref_count < size_t_range - 1 ->
  flags_in_range flags ->
  exists d, ergo_proc_thread_count build flags ref_count max_threads phase = Ok d /\
    0 < d <= max_threads.
Proof.
  intros Hw Hc [Hrpt Hproc]. unfold ergo_proc_thread_count.
  rewrite assert_ok by (intros _; apply Z.ltb_lt; lia). rewrite bind_Ok.
  destruct (use_max_threads phase || (ReferencesPerThread flags =? 0)) eqn:E.
  - exists max_threads. split; [reflexivity|lia].
  - apply orb_false_iff in E as (_ & E). apply Z.eqb_neq in E.
    assert (0 <= ref_count / ReferencesPerThread flags <= ref_count).
    { split; [apply Z.div_pos; lia|]. apply Z.div_le_upper_bound; nia. }
    eexists. split; [reflexivity|].
    unfold wrap_size_t, wrap_uint, size_t_range, uint_range in *.
    rewrite (Z.mod_small (1 + _)) by lia.
    rewrite (Z.mod_small (active_processor_count flags)) by lia.
    rewrite Z.mod_small by lia. lia.
Qed.

(** The constructor of the adjuster on a well-formed processor. *)
Lemma adjuster_spec (h : gmap N Reference) p abs phase workers ref_count :
  well_formed h p abs ->
  workers_fit workers p ->
  flags_in_range flags ->
  0 <= ref_count < size_t_range - 1 ->
  exists d,
    RefProcMTDegreeAdjuster build flags p phase (num_active_workers workers) ref_count
      = Ok (_num_queues p, set_next_id 0 (set_num_queues d p)) /\
    0 < d <= _max_num_queues p /\
    (1 < d -> exists a, workers = Some a /\ d <= a).
Proof.
  intros Hwf Hfit Hflags Hc. pose proof (wf_max _ _ _ Hwf) as Hmax.
  assert (Hnaw : 0 < num_active_workers workers <= _max_num_queues p).
  { destruct workers as [a|]; simpl in *; lia. }
  destruct (ergo_proc_thread_count_spec ref_count (num_active_workers workers) phase)
    as (d & Hd & Hdr); [lia|exact Hc|exact Hflags|].
  exists d. split; [|split; [lia|]].
  - unfold RefProcMTDegreeAdjuster. rewrite Hd, bind_Ok.
    unfold set_active_mt_degree.
    rewrite assert_ok by (intros _; apply Z.leb_le; simpl; lia). reflexivity.
  - intros H1. destruct workers as [a|]; simpl in *; [exists a; split; [reflexivity|lia]|lia].
Qed.

(** The tasks of one phase, run by the pool or by the caller. *)
Lemma run_task_spec fuel phase workers p pt (w : World G) abs :
  well_formed (heap w) p abs ->
  entries_valid build (heap w) p abs ->
  (phase = KeepAliveFinalRefsPhase -> final_ready (heap w) abs) ->
  entry_count p < size_t_range ->
  (Z.to_nat (entry_count p) < fuel)%nat ->
  (processing_is_mt flags p = true ->
     (exists a, workers = Some a /\ _num_queues p <= a) /\
     forall j : nat, _num_queues p <= Z.of_nat j -> done phase (heap w) abs j) ->
  exists p' pt' w' abs',
    run_task build flags env fuel phase workers (p, pt, w) = Ok (p', pt', w') /\
    step_ok (heap w) p abs (heap w') p' abs' /\
    (forall r, ref_discovered r pt' = ref_discovered r pt) /\
    (forall j : nat, done phase (heap w') abs' j) /\
    enqueued (heap w) abs (pending_list w) (heap w') abs' (pending_list w').
Proof.
  intros Hwf Hval Hready Hrange Hfuel Hmt.
  pose proof (wf_max _ _ _ Hwf) as Hmax. pose proof (wf_num _ _ _ Hwf) as Hnum.
  unfold run_task. destruct (processing_is_mt flags p) eqn:Emt.
  - destruct (Hmt eq_refl) as ((a & -> & Ha) & Hrest).
    rewrite assert_ok by (intros _; apply bool_decide_eq_true_2; eauto).
    rewrite bind_Ok. simpl access. rewrite bind_Ok.
    rewrite assert_ok by (intros _; apply Z.leb_le; exact Ha). rewrite bind_Ok.
    destruct (run_workers_spec fuel phase (Z.to_nat (_num_queues p)) 0%nat p pt w abs)
      as (p' & pt' & w' & abs' & R & S & E & D & Done & Q); try assumption; try lia.
    exists p', pt', w', abs'. split; [exact R|]. split; [exact S|]. split; [exact D|].
    split; [|exact Q]. intros j. destruct (Z.lt_ge_cases (Z.of_nat j) (_num_queues p)) as [Hj|Hj].
    + apply Done. lia.
    + eapply done_kept; [exact E|apply (step_payload _ _ _ _ _ _ S)|].
      apply Hrest. lia.
  - destruct (run_workers_spec fuel phase (Z.to_nat (_max_num_queues p)) 0%nat p pt w abs)
      as (p' & pt' & w' & abs' & R & S & E & D & Done & Q); try assumption; try lia.
    exists p', pt', w', abs'. split; [exact R|]. split; [exact S|]. split; [exact D|].
    split; [|exact Q]. intros j. destruct (Z.lt_ge_cases (Z.of_nat j) (_max_num_queues p)) as [Hj|Hj].
    + apply Done. lia.
    + apply (done_beyond _ _ p'); [apply (step_wf _ _ _ _ _ _ S)|].
      rewrite (step_max _ _ _ _ _ _ S). lia.
Qed.

Lemma none_at_all_at (abs : ReferenceType -> list (list N)) rt i (P : N -> Prop) :
  none_at abs rt i -> all_at abs rt i P.
Proof. intros H l x Hl Hx. destruct (H l x Hl Hx). Qed.

Lemma none_at_no_entries (abs : ReferenceType -> list (list N)) rt :
  (forall j : nat, none_at abs rt j) -> forall x, ~ on_lists (abs rt) x.
Proof. intros H x (i & l & Hl & Hx). exact (H i l x Hl Hx). Qed.

Lemma verify_total_count_zero_spec (h : gmap N Reference) p abs rt msg :
  well_formed h p abs -> rt <> REF_NONE ->
  (forall x, ~ on_lists (abs rt) x) ->
  entry_count p < size_t_range ->
  verify_total_count_zero build p (lists_of rt p) msg = Ok tt.
Proof.
  intros Hwf Hrt Hno Hrange. unfold verify_total_count_zero.
  destruct (ASSERT build); [|reflexivity].
  rewrite (total_count_spec h p abs rt Hwf Hrt Hrange), bind_Ok.
  rewrite total_length_zero; [reflexivity|].
  intros i d Hd. rewrite (no_entries_lists h p abs rt Hwf Hno i d Hd). reflexivity.
Qed.

(** What the three phases share: the degree is chosen, the queues are
    balanced when the phase is run by the pool, and the tasks run. *)
Lemma adjusted_run_spec fuel phase workers p pt (w : World G) abs ref_count
    (bal : @Work G -> Res (@Work G)) :
  well_formed (heap w) p abs ->
  entries_valid build (heap w) p abs ->
  (phase = KeepAliveFinalRefsPhase -> final_ready (heap w) abs) ->
  entry_count p + 1 < size_t_range ->
  (Z.to_nat (entry_count p + _max_num_queues p) < fuel)%nat ->
  workers_fit workers p ->
  flags_in_range flags ->
  0 <= ref_count < size_t_range - 1 ->
  (forall p1, well_formed (heap w) p1 abs ->
     processing_is_mt flags p1 = true ->
     entry_count p1 = entry_count p -> _max_num_queues p1 = _max_num_queues p ->
     exists p2 w2 abs2,
       bal (p1, pt, w) = Ok (p2, pt, w2) /\
       step_ok (heap w) p1 abs (heap w2) p2 abs2 /\
       (forall j : nat, _num_queues p1 <= Z.of_nat j -> done phase (heap w2) abs2 j) /\
       enqueued (heap w) abs (pending_list w) (heap w2) abs2 (pending_list w2)) ->
  exists p1 p2 w2 p3 pt3 w3 abs3,
    RefProcMTDegreeAdjuster build flags p phase (num_active_workers workers) ref_count
      = Ok (_num_queues p, p1) /\
    (if processing_is_mt flags p1 then bal (p1, pt, w) else Ok (p1, pt, w))
      = Ok (p2, pt, w2) /\
    run_task build flags env fuel phase workers (p2, pt, w2) = Ok (p3, pt3, w3) /\
    step_ok (heap w) p abs (heap w3)
      (set_next_id 0 (set_num_queues (_num_queues p) p3)) abs3 /\
    well_formed (heap w3) p3 abs3 /\
    _max_num_queues p3 = _max_num_queues p /\
    entry_count p3 <= entry_count p /\
    (forall r, ref_discovered r pt3 = ref_discovered r pt) /\
    (forall j : nat, done phase (heap w3) abs3 j) /\
    enqueued (heap w) abs (pending_list w) (heap w3) abs3 (pending_list w3).
Proof.
  intros Hwf Hval Hready Hrange Hfuel Hfit Hflags Hc Hbal.
  pose proof (wf_max _ _ _ Hwf) as Hmax. pose proof (wf_num _ _ _ Hwf) as Hnum.
  destruct (adjuster_spec (heap w) p abs phase workers ref_count Hwf Hfit Hflags Hc)
    as (d & Hadj & Hd & Hw).
  set (p1 := set_next_id 0 (set_num_queues d p)) in *.
  assert (W1 : well_formed (heap w) p1 abs) by (apply well_formed_degree; assumption).
  assert (V1 : entries_valid build (heap w) p1 abs) by exact Hval.
  assert (Hmt1 : processing_is_mt flags p1 = true -> 1 < d).
  { unfold processing_is_mt. simpl. intros E. apply andb_true_iff in E as [_ E].
    apply Z.ltb_lt in E. exact E. }
  assert (Hpre : exists p2 w2 abs2,
    (if processing_is_mt flags p1 then bal (p1, pt, w) else Ok (p1, pt, w))
      = Ok (p2, pt, w2) /\
    step_ok (heap w) p1 abs (heap w2) p2 abs2 /\
    (processing_is_mt flags p1 = true ->
     forall j : nat, d <= Z.of_nat j -> done phase (heap w2) abs2 j) /\
    enqueued (heap w) abs (pending_list w) (heap w2) abs2 (pending_list w2)).
  { destruct (processing_is_mt flags p1) eqn:Emt.
    - destruct (Hbal p1 W1 Emt eq_refl eq_refl) as (p2 & w2 & abs2 & R & S & Hdone & Q).
      exists p2, w2, abs2. split; [exact R|]. split; [exact S|].
      split; [intros _; exact Hdone|exact Q].
    - exists p1, w, abs. split; [reflexivity|].
      split; [apply step_ok_refl; exact W1|]. split; [discriminate|apply enqueued_refl]. }
  destruct Hpre as (p2 & w2 & abs2 & Rb & S12 & Hdone2 & Q12).
  pose proof S12 as [W2 Sh2 P2 C2 Nq2 M2 Dc2 Dr2].
  change (entry_count p1) with (entry_count p) in C2.
  change (_max_num_queues p1) with (_max_num_queues p) in M2.
  change (_num_queues p1) with d in Nq2.
  assert (Emt2 : processing_is_mt flags p2 = processing_is_mt flags p1).
  { unfold processing_is_mt. rewrite Nq2. reflexivity. }
  destruct (run_task_spec fuel phase workers p2 pt w2 abs2)
    as (p3 & pt3 & w3 & abs3 & Rt & S23 & D & Done & Q23); try assumption; try lia.
  { eapply entries_valid_step; eauto. }
  { intros Hp. eapply final_ready_step; eauto. }
  { rewrite Emt2. intros E. split.
    - rewrite Nq2. apply Hw. apply Hmt1. exact E.
    - rewrite Nq2. apply Hdone2. exact E. }
  pose proof S23 as [W3 Sh3 P3 C3 Nq3 M3 Dc3 Dr3].
  exists p1, p2, w2, p3, pt3, w3, abs3.
  split; [exact Hadj|]. split; [exact Rb|]. split; [exact Rt|].
  split; [|split; [exact W3|split; [lia|split; [lia|split; [exact D|split; [exact Done|]]]]]].
  - apply (step_ok_degrees (heap w) (heap w3) p abs p3 abs3 0 0 d); [|exact Hnum].
    eapply step_ok_trans; eauto.
  - eapply enqueued_trans; [exact S12|exact S23|exact W1|exact Q12|exact Q23].
Qed.

Lemma destroy_spec p p3 :
  _max_num_queues p3 = _max_num_queues p ->
  _num_queues p <= _max_num_queues p ->
  RefProcMTDegreeAdjuster_destroy build (_num_queues p) p3
  = Ok (set_next_id 0 (set_num_queues (_num_queues p) p3)).
Proof.
  intros HM Hn. unfold RefProcMTDegreeAdjuster_destroy, set_active_mt_degree.
  rewrite assert_ok by (intros _; apply Z.leb_le; lia). reflexivity.
Qed.

Lemma processing_is_mt_step (h h' : gmap N Reference) p abs p' abs' :
  step_ok h p abs h' p' abs' -> processing_is_mt flags p' = processing_is_mt flags p.
Proof. intros S. unfold processing_is_mt. rewrite (step_num _ _ _ _ _ _ S). reflexivity. Qed.

(** The first phase on a well-formed processor: afterwards no Soft and
    no Weak reference is on a queue, and the Final references that
    remain have a referent. *)
Lemma process_soft_weak_final_refs_spec fuel workers p pt (w : World G) abs :
  well_formed (heap w) p abs ->
  entries_valid build (heap w) p abs ->
  entry_count p + 1 < size_t_range ->
  (Z.to_nat (entry_count p + _max_num_queues p) < fuel)%nat ->
  workers_fit workers p ->
  flags_in_range flags ->
  counts_cover pt abs ->
  exists p' pt' w' abs',
    process_soft_weak_final_refs build flags env fuel workers (p, pt, w)
      = Ok (p', pt', w') /\
    step_ok (heap w) p abs (heap w') p' abs' /\
    (forall r, ref_discovered r pt' = ref_discovered r pt) /\
    (forall x, ~ on_lists (abs' REF_SOFT) x) /\
    (forall x, ~ on_lists (abs' REF_WEAK) x) /\
    final_ready (heap w') abs' /\
    enqueued (heap w) abs (pending_list w) (heap w') abs' (pending_list w').
Proof.
  intros Hwf Hval Hrange Hfuel Hfit Hflags (Hnn & Hsum & Hzero).
  pose proof (wf_max _ _ _ Hwf) as Hmax. pose proof (wf_num _ _ _ Hwf) as Hnum.
  pose proof (Hnn REF_SOFT) as H1. pose proof (Hnn REF_WEAK) as H2.
  pose proof (Hnn REF_FINAL) as H3. pose proof (Hnn REF_PHANTOM) as H4.
  unfold process_soft_weak_final_refs.
  replace (wrap_size_t (wrap_size_t (ref_discovered REF_SOFT pt + ref_discovered REF_WEAK pt)
                        + ref_discovered REF_FINAL pt))
    with (ref_discovered REF_SOFT pt + ref_discovered REF_WEAK pt
          + ref_discovered REF_FINAL pt).
  2:{ unfold wrap_size_t.
      rewrite (Z.mod_small (ref_discovered REF_SOFT pt + ref_discovered REF_WEAK pt))
        by lia.
      rewrite Z.mod_small by lia. reflexivity. }
  destruct (Z.eqb_spec (ref_discovered REF_SOFT pt + ref_discovered REF_WEAK pt
                        + ref_discovered REF_FINAL pt) 0) as [E0|Hne].
  { exists p, pt, w, abs. split; [reflexivity|].
    split; [apply step_ok_refl; exact Hwf|]. split; [reflexivity|].
    split; [intros x; apply Hzero; lia|]. split; [intros x; apply Hzero; lia|].
    split; [|apply enqueued_refl].
    intros x Hx. exfalso. apply (Hzero REF_FINAL x); [lia|exact Hx]. }
  destruct (adjusted_run_spec fuel SoftWeakFinalRefsPhase workers p pt w abs
              (ref_discovered REF_SOFT pt + ref_discovered REF_WEAK pt
               + ref_discovered REF_FINAL pt)
              (fun st : @Work G =>
                 st' ← maybe_balance_queues build flags fuel REF_SOFT st;
                 st'' ← maybe_balance_queues build flags fuel REF_WEAK st';
                 maybe_balance_queues build flags fuel REF_FINAL st''))
    as (p1 & p2 & w2 & p3 & pt3 & w3 & abs3 & Ra & Rb & Rt & S & W3 & M3 & C3 & D & Done & Q);
    try assumption; try discriminate; try lia.
  { intros p1 W1 Emt Ec Em.
    destruct (maybe_balance_queues_step fuel REF_SOFT p1 pt w abs)
      as (pa & wa & absa & Ra & Sa & Oa & Na & Qa); try assumption; try discriminate; try lia.
    pose proof Sa as [Wa Sha Pa Ca Nqa Ma Dca Dra].
    destruct (maybe_balance_queues_step fuel REF_WEAK pa pt wa absa)
      as (pb & wb & absb & Rb & Sb & Ob & Nb & Qb); try assumption; try discriminate; try lia.
    { rewrite (processing_is_mt_step _ _ _ _ _ _ Sa). exact Emt. }
    pose proof Sb as [Wb Shb Pb Cb Nqb Mb Dcb Drb].
    destruct (maybe_balance_queues_step fuel REF_FINAL pb pt wb absb)
      as (pc & wc & absc & Rc & Sc & Oc & Nc & Qc); try assumption; try discriminate; try lia.
    { rewrite (processing_is_mt_step _ _ _ _ _ _ Sb),
        (processing_is_mt_step _ _ _ _ _ _ Sa). exact Emt. }
    exists pc, wc, absc. split.
    { cbv beta. rewrite Ra, bind_Ok, Rb, bind_Ok. exact Rc. }
    split; [eapply step_ok_trans; [eapply step_ok_trans|]; eauto|].
    split.
    2:{ eapply enqueued_trans;
          [eapply step_ok_trans; [exact Sa|exact Sb]|exact Sc|exact W1| |exact Qc].
        eapply enqueued_trans; [exact Sa|exact Sb|exact W1|exact Qa|exact Qb]. }
    intros j Hj.
    assert (HS : none_at absc REF_SOFT j).
    { unfold none_at, all_at. rewrite Oc, Ob by discriminate. apply Na. exact Hj. }
    assert (HW : none_at absc REF_WEAK j).
    { unfold none_at, all_at. rewrite Oc by discriminate. apply Nb. lia. }
    assert (HF : none_at absc REF_FINAL j) by (apply Nc; lia).
    split; [exact HS|]. split; [exact HW|]. apply none_at_all_at. exact HF. }
  cbv beta in Rb.
  assert (HnoS : forall x, ~ on_lists (abs3 REF_SOFT) x).
  { apply none_at_no_entries. intros j. apply (Done j). }
  assert (HnoW : forall x, ~ on_lists (abs3 REF_WEAK) x).
  { apply none_at_no_entries. intros j. apply (Done j). }
  eexists _, pt3, w3, abs3. split.
  { rewrite Ra, bind_Ok, Rb, bind_Ok, Rt, bind_Ok.
    change (_discoveredSoftRefs p3) with (lists_of REF_SOFT p3).
    change (_discoveredWeakRefs p3) with (lists_of REF_WEAK p3).
    rewrite (verify_total_count_zero_spec (heap w3) p3 abs3 REF_SOFT);
      try assumption; try discriminate; try lia.
    rewrite (verify_total_count_zero_spec (heap w3) p3 abs3 REF_WEAK);
      try assumption; try discriminate; try lia.
    rewrite !bind_Ok, (destroy_spec p p3) by lia. reflexivity. }
  split; [exact S|]. split; [exact D|]. split; [exact HnoS|]. split; [exact HnoW|].
  split; [|exact Q].
  intros x (i & l & Hl & Hx). destruct (Done i) as (_ & _ & HF). eapply HF; eauto.
Qed.

(** The second phase: afterwards no Final reference is on a queue. *)
Lemma process_final_keep_alive_spec fuel workers p pt (w : World G) abs :
  well_formed (heap w) p abs ->
  entries_valid build (heap w) p abs ->
  final_ready (heap w) abs ->
  entry_count p + 1 < size_t_range ->
  (Z.to_nat (entry_count p + _max_num_queues p) < fuel)%nat ->
  workers_fit workers p ->
  flags_in_range flags ->
  counts_cover pt abs ->
  exists p' pt' w' abs',
    process_final_keep_alive build flags env fuel workers (p, pt, w) = Ok (p', pt', w') /\
    step_ok (heap w) p abs (heap w') p' abs' /\
    (forall r, ref_discovered r pt' = ref_discovered r pt) /\
    (forall x, ~ on_lists (abs' REF_FINAL) x) /\
    enqueued (heap w) abs (pending_list w) (heap w') abs' (pending_list w').
Proof.
  intros Hwf Hval Hready Hrange Hfuel Hfit Hflags (Hnn & Hsum & Hzero).
  pose proof (wf_max _ _ _ Hwf) as Hmax. pose proof (wf_num _ _ _ Hwf) as Hnum.
  pose proof (Hnn REF_SOFT) as H1. pose proof (Hnn REF_WEAK) as H2.
  pose proof (Hnn REF_FINAL) as H3. pose proof (Hnn REF_PHANTOM) as H4.
  unfold process_final_keep_alive.
  destruct (Z.eqb_spec (ref_discovered REF_FINAL pt) 0) as [E0|Hne].
  { exists p, pt, w, abs. split; [reflexivity|].
    split; [apply step_ok_refl; exact Hwf|]. split; [reflexivity|].
    split; [intros x; apply Hzero; lia|apply enqueued_refl]. }
  destruct (adjusted_run_spec fuel KeepAliveFinalRefsPhase workers p pt w abs
              (ref_discovered REF_FINAL pt)
              (maybe_balance_queues build flags fuel REF_FINAL))
    as (p1 & p2 & w2 & p3 & pt3 & w3 & abs3 & Ra & Rb & Rt & S & W3 & M3 & C3 & D & Done & Q);
    try assumption; try lia.
  { intros _. exact Hready. }
  { intros p1 W1 Emt Ec Em.
    destruct (maybe_balance_queues_step fuel REF_FINAL p1 pt w abs)
      as (pa & wa & absa & Ra & Sa & Oa & Na & Qa); try assumption; try discriminate; try lia.
    exists pa, wa, absa. split; [exact Ra|]. split; [exact Sa|].
    split; [|exact Qa]. intros j Hj. apply Na. exact Hj. }
  assert (HnoF : forall x, ~ on_lists (abs3 REF_FINAL) x).
  { apply none_at_no_entries. intros j. apply (Done j). }
  eexists _, pt3, w3, abs3. split.
  { rewrite Ra, bind_Ok, Rb, bind_Ok, Rt, bind_Ok.
    change (_discoveredFinalRefs p3) with (lists_of REF_FINAL p3).
    rewrite (verify_total_count_zero_spec (heap w3) p3 abs3 REF_FINAL);
      try assumption; try discriminate; try lia.
    rewrite !bind_Ok, (destroy_spec p p3) by lia. reflexivity. }
  split; [exact S|]. split; [exact D|]. split; [exact HnoF|exact Q].
Qed.

(** The third phase: afterwards no Phantom reference is on a queue. *)
Lemma process_phantom_refs_spec fuel workers p pt (w : World G) abs :
  well_formed (heap w) p abs ->
  entries_valid build (heap w) p abs ->
  entry_count p + 1 < size_t_range ->
  (Z.to_nat (entry_count p + _max_num_queues p) < fuel)%nat ->
  workers_fit workers p ->
  flags_in_range flags ->
  counts_cover pt abs ->
  exists p' pt' w' abs',
    process_phantom_refs build flags env fuel workers (p, pt, w) = Ok (p', pt', w') /\
    step_ok (heap w) p abs (heap w') p' abs' /\
    (forall r, ref_discovered r pt' = ref_discovered r pt) /\
    (forall x, ~ on_lists (abs' REF_PHANTOM) x) /\
    enqueued (heap w) abs (pending_list w) (heap w') abs' (pending_list w').
Proof.
  intros Hwf Hval Hrange Hfuel Hfit Hflags (Hnn & Hsum & Hzero).
  pose proof (wf_max _ _ _ Hwf) as Hmax. pose proof (wf_num _ _ _ Hwf) as Hnum.
  pose proof (Hnn REF_SOFT) as H1. pose proof (Hnn REF_WEAK) as H2.
  pose proof (Hnn REF_FINAL) as H3. pose proof (Hnn REF_PHANTOM) as H4.
  unfold process_phantom_refs.
  destruct (Z.eqb_spec (ref_discovered REF_PHANTOM pt) 0) as [E0|Hne].
  { exists p, pt, w, abs. split; [reflexivity|].
    split; [apply step_ok_refl; exact Hwf|]. split; [reflexivity|].
    split; [intros x; apply Hzero; lia|apply enqueued_refl]. }
  destruct (adjusted_run_spec fuel PhantomRefsPhase workers p pt w abs
              (ref_discovered REF_PHANTOM pt)
              (maybe_balance_queues build flags fuel REF_PHANTOM))
    as (p1 & p2 & w2 & p3 & pt3 & w3 & abs3 & Ra & Rb & Rt & S & W3 & M3 & C3 & D & Done & Q);
    try assumption; try discriminate; try lia.
  { intros p1 W1 Emt Ec Em.
    destruct (maybe_balance_queues_step fuel REF_PHANTOM p1 pt w abs)
      as (pa & wa & absa & Ra & Sa & Oa & Na & Qa); try assumption; try discriminate; try lia.
    exists pa, wa, absa. split; [exact Ra|]. split; [exact Sa|].
    split; [|exact Qa]. intros j Hj. apply Na. exact Hj. }
  assert (HnoP : forall x, ~ on_lists (abs3 REF_PHANTOM) x).
  { apply none_at_no_entries. intros j. apply (Done j). }
  eexists _, pt3, w3, abs3. split.
  { rewrite Ra, bind_Ok, Rb, bind_Ok, Rt, bind_Ok.
    change (_discoveredPhantomRefs p3) with (lists_of REF_PHANTOM p3).
    rewrite (verify_total_count_zero_spec (heap w3) p3 abs3 REF_PHANTOM);
      try assumption; try discriminate; try lia.
    rewrite !bind_Ok, (destroy_spec p p3) by lia. reflexivity. }
  split; [exact S|]. split; [exact D|]. split; [exact HnoP|exact Q].
Qed.

Lemma counts_cover_step pt pt' abs abs' :
  counts_cover pt abs ->
  (forall r, ref_discovered r pt' = ref_discovered r pt) ->
  shrinks abs abs' ->
  counts_cover pt' abs'.
Proof.
  intros (Hnn & Hsum & Hzero) D Hs. split; [|split].
  - intros rt. rewrite D. apply Hnn.
  - rewrite !D. exact Hsum.
  - intros rt x E Hx. rewrite D in E. apply (Hzero rt x E). apply Hs. exact Hx.
Qed.

Lemma no_entries_step (abs abs' : ReferenceType -> list (list N)) rt :
  shrinks abs abs' -> (forall x, ~ on_lists (abs rt) x) -> forall x, ~ on_lists (abs' rt) x.
Proof. intros Hs Hno x Hx. apply (Hno x). apply Hs. exact Hx. Qed.

Lemma counts_cover_initial (h : gmap N Reference) p abs pt :
  well_formed h p abs ->
  entry_count p + 1 < size_t_range ->
  (forall rt, ref_discovered rt pt = total_length (lists_of rt p)) ->
  counts_cover pt abs.
Proof.
  intros Hwf Hrange Hpt. split; [|split].
  - intros rt. rewrite Hpt. eapply well_formed_nonneg; eauto.
  - rewrite !Hpt. exact Hrange.
  - intros rt x E (i & l & Hl & Hx). rewrite Hpt in E.
    pose proof (wf_lists _ _ _ Hwf rt) as Hls. pose proof Hls as [HF _].
    destruct (Forall2_lookup_r _ _ _ _ _ HF Hl) as (d & Hd & His).
    pose proof (total_length_ge _ i d (are_lists_nonneg _ _ _ Hls) Hd) as Hge.
    pose proof (are_lists_nonneg _ _ _ Hls i d Hd) as Hd0.
    rewrite (is_list_zero _ _ _ His) in Hx by lia.
    apply elem_of_nil in Hx. exact Hx.
Qed.

Lemma verify_no_references_recorded_spec (h : gmap N Reference) p abs :
  well_formed h p abs ->
  _discovering_refs p = false ->
  (forall rt x, ~ on_lists (abs rt) x) ->
  verify_no_references_recorded build p = Ok tt.
Proof.
  intros Hwf Hdisc Hno. unfold verify_no_references_recorded.
  destruct (PRODUCT build); [reflexivity|].
  rewrite Hdisc. simpl negb. unfold guarantee at 1. rewrite bind_Ok.
  pose proof (wf_max _ _ _ Hwf) as Hmax.
  assert (Hempty : forall rt, rt <> REF_NONE ->
            guarantee_empty (lists_of rt p) (Z.to_nat (_max_num_queues p)) 0 = Ok tt).
  { intros rt Hrt. change 0 with (Z.of_nat 0). apply guarantee_empty_spec.
    - intros j d Hd. rewrite (no_entries_lists h p abs rt Hwf (Hno rt) j d Hd). reflexivity.
    - pose proof (wf_length _ _ _ Hwf rt Hrt). lia. }
  change (_discoveredSoftRefs p) with (lists_of REF_SOFT p).
  change (_discoveredWeakRefs p) with (lists_of REF_WEAK p).
  change (_discoveredFinalRefs p) with (lists_of REF_FINAL p).
  change (_discoveredPhantomRefs p) with (lists_of REF_PHANTOM p).
  rewrite !Hempty by discriminate. reflexivity.
Qed.

Lemma update_clock_rp javaTimeNanos (s : State G) :
  rp (update_soft_ref_master_clock javaTimeNanos s) = rp s /\
  world (update_soft_ref_master_clock javaTimeNanos s) = world s /\
  events (update_soft_ref_master_clock javaTimeNanos s)
  = events s ++ [EvUpdateClock (jlong_div javaTimeNanos NANOSECS_PER_MILLISEC)] /\
  _soft_ref_timestamp_clock (update_soft_ref_master_clock javaTimeNanos s)
  = Z.max (_soft_ref_timestamp_clock s) (jlong_div javaTimeNanos NANOSECS_PER_MILLISEC).
Proof.
  unfold update_soft_ref_master_clock. simpl.
  destruct (Z.ltb_spec (_soft_ref_timestamp_clock s)
              (jlong_div javaTimeNanos NANOSECS_PER_MILLISEC)); simpl;
    repeat split; lia.
Qed.

(** The whole of [process_discovered_references] on a well-formed
    processor, with the way the references take: the call returns,
    every queue is empty afterwards, and the references that left the
    queues without a null [discovered] field are on the pending
    list. *)
Lemma process_discovered_references_full fuel javaTimeNanos workers pt (s : State G) abs :
  well_formed (heap (world s)) (rp s) abs ->
  entries_valid build (heap (world s)) (rp s) abs ->
  entry_count (rp s) + 1 < size_t_range ->
  (Z.to_nat (entry_count (rp s) + _max_num_queues (rp s)) < fuel)%nat ->
  workers_fit workers (rp s) ->
  flags_in_range flags ->
  exists pt' p' w' abs' enq,
    process_discovered_references build flags env fuel javaTimeNanos workers pt s
    = Ok ((total_length (_discoveredSoftRefs (rp s)),
           total_length (_discoveredWeakRefs (rp s)),
           total_length (_discoveredFinalRefs (rp s)),
           total_length (_discoveredPhantomRefs (rp s))),
          pt',
          set_world w' (set_rp p'
            (update_soft_ref_master_clock javaTimeNanos (disable_discovery s)))) /\
    (forall rt (i : nat) d, lists_of rt p' !! i = Some d -> d = DiscoveredList.mk null 0) /\
    (forall rt, length (lists_of rt p') = length (lists_of rt (rp s))) /\
    _discovering_refs p' = false /\
    _num_queues p' = _num_queues (rp s) /\
    _max_num_queues p' = _max_num_queues (rp s) /\
    (forall rt x, ~ on_lists (abs' rt) x) /\
    enqueues (heap (world s)) abs (pending_list (world s))
      (heap w') abs' (pending_list w') enq.
Proof.
  intros Hwf Hval Hrange Hfuel Hfit Hflags.
  set (p0 := set_discovering_refs false (rp s)).
  assert (W0 : well_formed (heap (world s)) p0 abs).
  { destruct Hwf as [Hmax Hnum Hls Hlen Hap]. constructor; simpl; auto. }
  assert (V0 : entries_valid build (heap (world s)) p0 abs) by exact Hval.
  assert (Hcount : forall rt, rt <> REF_NONE ->
            total_count p0 (lists_of rt p0) = Ok (total_length (lists_of rt (rp s)))).
  { intros rt Hrt. rewrite (total_count_spec _ _ _ rt W0 Hrt); [reflexivity|].
    change (entry_count p0) with (entry_count (rp s)). lia. }
  destruct (update_clock_rp javaTimeNanos (disable_discovery s)) as (Erp & Ew & _).
  unfold process_discovered_references. cbv zeta.
  rewrite Erp, Ew.
  change (rp (disable_discovery s)) with p0.
  change (world (disable_discovery s)) with (world s).
  change (_discoveredSoftRefs p0) with (lists_of REF_SOFT p0).
  change (_discoveredWeakRefs p0) with (lists_of REF_WEAK p0).
  change (_discoveredFinalRefs p0) with (lists_of REF_FINAL p0).
  change (_discoveredPhantomRefs p0) with (lists_of REF_PHANTOM p0).
  rewrite !Hcount by discriminate. rewrite !bind_Ok.
  set (pt1 := set_processing_is_mt _ _).
  assert (Hpt1 : forall rt, ref_discovered rt pt1 = total_length (lists_of rt p0)).
  { intros rt. destruct rt; reflexivity. }
  assert (Cov : counts_cover pt1 abs).
  { apply (counts_cover_initial (heap (world s)) p0); auto. }
  destruct (process_soft_weak_final_refs_spec fuel workers p0 pt1 (world s) abs)
    as (pa & pta & wa & absa & Ra & Sa & Da & NoS & NoW & Ready & Qa); try assumption.
  pose proof Sa as [Wa Sha Pa Ca Nqa Ma Dca Dra].
  change (entry_count p0) with (entry_count (rp s)) in Ca.
  change (_max_num_queues p0) with (_max_num_queues (rp s)) in Ma.
  assert (Fita : workers_fit workers pa).
  { unfold workers_fit in *. destruct workers; [rewrite Ma; exact Hfit|exact I]. }
  destruct (process_final_keep_alive_spec fuel workers pa pta wa absa)
    as (pb & ptb & wb & absb & Rb & Sb & Db & NoF & Qb); try assumption; try lia.
  { eapply entries_valid_step; eauto. }
  { eapply counts_cover_step; eauto. }
  pose proof Sb as [Wb Shb Pb Cb Nqb Mb Dcb Drb].
  assert (Fitb : workers_fit workers pb).
  { unfold workers_fit in *. destruct workers; [rewrite Mb, Ma; exact Hfit|exact I]. }
  pose proof (step_ok_trans _ _ _ _ _ _ _ _ _ Sa Sb) as Sab.
  destruct (process_phantom_refs_spec fuel workers pb ptb wb absb)
    as (pc & ptc & wc & absc & Rc & Sc & Dc & NoP & Qc); try assumption; try lia.
  { eapply entries_valid_step; eauto. }
  { eapply counts_cover_step; [exact Cov| |exact (step_shrinks _ _ _ _ _ _ Sab)].
    intros r. rewrite Db, Da. reflexivity. }
  pose proof Sc as [Wc Shc Pc Cc Nqc Mc Dcc Drc].
  assert (Hnone : forall rt x, ~ on_lists (absc rt) x).
  { intros rt. destruct rt.
    - intros x (i & l & Hl & Hx). destruct (wf_lists _ _ _ Wc REF_NONE) as [HF _].
      destruct (Forall2_lookup_r _ _ _ _ _ HF Hl) as (d & Hd & _). discriminate.
    - eapply no_entries_step; [exact Shc|]. eapply no_entries_step; [exact Shb|]. exact NoS.
    - eapply no_entries_step; [exact Shc|]. eapply no_entries_step; [exact Shb|]. exact NoW.
    - eapply no_entries_step; [exact Shc|]. exact NoF.
    - exact NoP. }
  assert (Hd0 : _discovering_refs p0 = false) by reflexivity.
  assert (Hn0 : _num_queues p0 = _num_queues (rp s)) by reflexivity.
  assert (Q : enqueued (heap (world s)) abs (pending_list (world s))
                (heap wc) absc (pending_list wc)).
  { eapply enqueued_trans; [exact Sab|exact Sc|exact W0| |exact Qc].
    eapply enqueued_trans; [exact Sa|exact Sb|exact W0|exact Qa|exact Qb]. }
  destruct Q as [enq Q].
  exists ptc, pc, wc, absc, enq. split.
  { rewrite Ra, bind_Ok, Rb, bind_Ok, Rc, bind_Ok.
    rewrite (verify_no_references_recorded_spec (heap wc) pc absc Wc); [|congruence|exact Hnone].
    rewrite bind_Ok. rewrite !Dc, !Db, !Da. reflexivity. }
  split.
  { intros rt i d Hd. exact (no_entries_lists (heap wc) pc absc rt Wc (Hnone rt) i d Hd). }
  split.
  { intros rt. destruct (decide (rt = REF_NONE)) as [->|Hrt]; [reflexivity|].
    pose proof (wf_length _ _ _ Wc rt Hrt). pose proof (wf_length _ _ _ Hwf rt Hrt). lia. }
  split; [congruence|]. split; [congruence|]. split; [lia|]. split; [exact Hnone|exact Q].
Qed.

(** The whole of [process_discovered_references] on a well-formed
    processor: the call returns, the statistics are the numbers of
    entries found, every queue is empty afterwards and the processing
    degree is the one from before. *)
Lemma process_discovered_references_spec fuel javaTimeNanos workers pt (s : State G) abs :
  well_formed (heap (world s)) (rp s) abs ->
  entries_valid build (heap (world s)) (rp s) abs ->
  entry_count (rp s) + 1 < size_t_range ->
  (Z.to_nat (entry_count (rp s) + _max_num_queues (rp s)) < fuel)%nat ->
  workers_fit workers (rp s) ->
  flags_in_range flags ->
  exists pt' p' w',
    process_discovered_references build flags env fuel javaTimeNanos workers pt s
    = Ok ((total_length (_discoveredSoftRefs (rp s)),
           total_length (_discoveredWeakRefs (rp s)),
           total_length (_discoveredFinalRefs (rp s)),
           total_length (_discoveredPhantomRefs (rp s))),
          pt',
          set_world w' (set_rp p'
            (update_soft_ref_master_clock javaTimeNanos (disable_discovery s)))) /\
    (forall rt (i : nat) d, lists_of rt p' !! i = Some d -> d = DiscoveredList.mk null 0) /\
    (forall rt, length (lists_of rt p') = length (lists_of rt (rp s))) /\
    _discovering_refs p' = false /\
    _num_queues p' = _num_queues (rp s) /\
    _max_num_queues p' = _max_num_queues (rp s).
Proof.
  intros Hwf Hval Hrange Hfuel Hfit Hflags.
  destruct (process_discovered_references_full fuel javaTimeNanos workers pt s abs
              Hwf Hval Hrange Hfuel Hfit Hflags)
    as (pt' & p' & w' & abs' & enq & Hrun & H1 & H2 & H3 & H4 & H5 & _).
  exists pt', p', w'. auto 10.
Qed.

End CycleProofs.

(** ** Discovery on a well-formed processor *)

(** An object on a list has a [discovered] field that is not null. *)
Lemma entry_discovered (h : gmap N Reference) ls abs x :
  are_lists h ls abs -> on_lists abs x -> discovered_of h x <> null.
Proof.
  intros [HF Hsep] (i & l & Hl & Hx).
  destruct (Forall2_lookup_r _ _ _ _ _ HF Hl) as (d & _ & His).
  pose proof (proj1 Hsep _ _ Hl) as Hnd.
  destruct (list_elem_of_split _ _ Hx) as (l1 & l2 & ->).
  destruct (chain_current _ _ _ _ _ His) as (r & Hr & Hsucc & _ & Hrest).
  unfold discovered_of. rewrite Hr, Hsucc.
  destruct l2 as [|y l2]; simpl.
  - eapply load_not_null; eauto.
  - specialize (Hrest ltac:(discriminate)). simpl in Hrest.
    destruct Hrest as (_ & ry & Hry & _). eapply load_not_null; eauto.
Qed.

Lemma separate_grow (abs : list (list N)) (i : nat) l o :
  separate abs -> abs !! i = Some l ->
  (forall x, on_lists abs x -> x <> o) ->
  separate (<[i := o :: l]> abs).
Proof.
  intros [Hnd Hdis] Hi Hfresh.
  assert (Hil : (i < length abs)%nat) by (eapply lookup_lt_Some; eauto).
  assert (Hol : forall j lj, abs !! j = Some lj -> o ∉ lj).
  { intros j lj Hj Ho. apply (Hfresh o); [exists j, lj; auto|reflexivity]. }
  split.
  - intros j lj Hj. destruct (decide (j = i)) as [->|Hne].
    + rewrite list_lookup_insert_eq in Hj by exact Hil. injection Hj as <-.
      apply NoDup_cons. split; [eapply Hol; eauto|eapply Hnd; eauto].
    + rewrite list_lookup_insert_ne in Hj by auto. eapply Hnd; eauto.
  - intros j1 j2 l1 l2 x H1 H2 Hx1 Hx2.
    destruct (decide (j1 = i)) as [->|N1]; destruct (decide (j2 = i)) as [->|N2];
      try reflexivity.
    + rewrite list_lookup_insert_eq in H1 by exact Hil. injection H1 as <-.
      rewrite list_lookup_insert_ne in H2 by auto.
      apply elem_of_cons in Hx1 as [->|Hx1]; [destruct (Hol _ _ H2 Hx2)|].
      eapply Hdis; eauto.
    + rewrite list_lookup_insert_eq in H2 by exact Hil. injection H2 as <-.
      rewrite list_lookup_insert_ne in H1 by auto.
      apply elem_of_cons in Hx2 as [->|Hx2]; [destruct (Hol _ _ H1 Hx1)|].
      eapply Hdis; eauto.
    + rewrite list_lookup_insert_ne in H1 by auto.
      rewrite list_lookup_insert_ne in H2 by auto. eapply Hdis; eauto.
Qed.

(** A new object linked in front of a list. *)
Lemma is_list_add_as_head (h : gmap N Reference) d l o r :
  is_list h d l -> o ∉ l ->
  java_lang_ref_Reference.load h o = Some r ->
  DiscoveredList.length d + 1 < size_t_range ->
  is_list
    (<[o := mkReference (referent r)
              (if decide (DiscoveredList.head d <> null) then DiscoveredList.head d else o)
              (next r)]> h)
    (DiscoveredList.add_as_head o d) (o :: l).
Proof.
  intros His Hol Hr Hrange.
  pose proof (load_not_null _ _ _ Hr) as Hon.
  pose proof (is_list_length _ _ _ His) as Hlen.
  apply is_list_intro; [discriminate| |].
  - unfold DiscoveredList.add_as_head, DiscoveredList.length in *. simpl.
    unfold wrap_size_t. rewrite Z.mod_small by lia. lia.
  - change (DiscoveredList.head (DiscoveredList.add_as_head o d)) with o.
    split; [reflexivity|]. eexists. split; [apply load_insert_eq; exact Hon|].
    simpl discovered.
    destruct l as [|x l].
    + destruct His as [_ Hnull].
      destruct (decide (DiscoveredList.head d <> null)); [contradiction|]. reflexivity.
    + pose proof (is_list_nonempty h d (x :: l) ltac:(discriminate) His) as Hseg.
      assert (Hhx : DiscoveredList.head d = x) by (simpl in Hseg; tauto).
      assert (Hxn : x <> null).
      { eapply lseg_not_null; [exact Hseg|]. apply elem_of_cons. auto. }
      destruct (decide (DiscoveredList.head d <> null)) as [_|Hc];
        [|exfalso; apply Hc; congruence].
      change (List.last (o :: x :: l) null) with (List.last (x :: l) null).
      apply lseg_frame; [exact Hol|]. exact Hseg.
Qed.

(** The processor after [o], which is on no list, was put in front of
    queue [i] of the category [rt]. *)
Lemma well_formed_grow (h : gmap N Reference) p abs rt (i : nat) d l o r :
  well_formed h p abs -> rt <> REF_NONE ->
  lists_of rt p !! i = Some d -> abs rt !! i = Some l ->
  java_lang_ref_Reference.load h o = Some r ->
  (forall rt' x, on_lists (abs rt') x -> x <> o) ->
  DiscoveredList.length d + 1 < size_t_range ->
  well_formed
    (<[o := mkReference (referent r)
              (if decide (DiscoveredList.head d <> null) then DiscoveredList.head d else o)
              (next r)]> h)
    (set_discovered_lists rt (<[i := DiscoveredList.add_as_head o d]> (lists_of rt p)) p)
    (with_entries rt (<[i := o :: l]> (abs rt)) abs).
Proof.
  intros [Hmax Hnum Hls Hlen Hap] Hrt Hd Hl Hr Hfresh Hrange.
  set (h' := <[o := _]> h).
  assert (Hfr : forall y, y <> o -> h' !! y = h !! y).
  { intros y Hy. subst h'. apply lookup_insert_ne. auto. }
  assert (Hil : (i < length (abs rt))%nat) by (eapply lookup_lt_Some; eauto).
  constructor.
  - exact Hmax.
  - exact Hnum.
  - intros r0. rewrite lists_of_set by exact Hrt. unfold with_entries.
    destruct (decide (r0 = rt)) as [->|Hne].
    + destruct (Hls rt) as [HF Hsep].
      pose proof (Forall2_length _ _ _ HF) as HFl.
      split; [|eapply separate_grow; eauto].
      apply Forall2_same_length_lookup. split; [rewrite !length_insert; exact HFl|].
      intros j dj lj Hdj Hlj. destruct (decide (j = i)) as [->|Hji].
      * rewrite list_lookup_insert_eq in Hdj by lia.
        rewrite list_lookup_insert_eq in Hlj by lia.
        injection Hdj as <-. injection Hlj as <-.
        apply is_list_add_as_head; auto.
        -- eapply Forall2_lookup_lr; eauto.
        -- intros Ho. apply (Hfresh rt o); [exists i, l; auto|reflexivity].
      * rewrite list_lookup_insert_ne in Hdj by auto.
        rewrite list_lookup_insert_ne in Hlj by auto.
        apply is_list_frame; [|eapply Forall2_lookup_lr; eauto].
        intros Ho. apply (Hfresh rt o); [exists j, lj; auto|reflexivity].
    + eapply are_lists_agree; [|apply Hls].
      intros y Hy. apply Hfr. eapply Hfresh; eauto.
  - intros r0 Hr0. rewrite lists_of_set by exact Hrt.
    destruct (decide (r0 = rt)) as [->|Hne]; [|apply Hlen; exact Hr0].
    rewrite length_insert. apply Hlen. exact Hr0.
  - assert (Hcase : forall r0 x, on_lists (with_entries rt (<[i := o :: l]> (abs rt)) abs r0) x ->
              (x = o /\ r0 = rt) \/ on_lists (abs r0) x).
    { intros r0 x. unfold with_entries. destruct (decide (r0 = rt)) as [->|Hne]; [|auto].
      intros Hx. apply on_lists_insert in Hx as [Hx|Hx]; [|auto].
      apply elem_of_cons in Hx as [->|Hx]; [auto|]. right. exists i, l. auto. }
    intros r1 r2 x H1 H2.
    destruct (Hcase _ _ H1) as [[-> ->]|H1']; destruct (Hcase _ _ H2) as [[E ->]|H2'].
    + reflexivity.
    + destruct (Hfresh _ _ H2' eq_refl).
    + subst x. destruct (Hfresh _ _ H1' eq_refl).
    + eapply Hap; eauto.
Qed.

Lemma well_formed_next_id (h : gmap N Reference) p abs n :
  well_formed h p abs -> well_formed h (set_next_id n p) abs.
Proof. intros [Hmax Hnum Hls Hlen Hap]. constructor; simpl; auto. Qed.

Section DiscoveryProofs.

Context {G : Type}.
Variable build : Build.
Variable flags : Flags.
Variable env : Collaborators G.

(** The choice of the queue. *)
Lemma get_discovered_list_spec worker_id rt p :
  rt <> REF_NONE ->
  0 < _num_queues p <= _max_num_queues p ->
  _max_num_queues p < uint_range ->
  0 <= discovery_queue flags worker_id p < _max_num_queues p ->
  (_discovery_is_mt p = false -> processing_is_mt flags p = true ->
   0 <= _next_id p < _num_queues p) ->
  exists n,
    get_discovered_list build flags worker_id rt p
    = Ok (discovery_queue flags worker_id p, set_next_id n p).
Proof.
  intros Hrt Hnum Hmax Hq Hnext. unfold get_discovered_list, discovery_queue in *.
  assert (Hrest : forall id p', lists_of rt p' = lists_of rt p ->
            0 <= id < _max_num_queues p ->
            (assert_ build (id <? _max_num_queues p) "Id is out of bounds";;
             discovered_lists rt p';; Ok (id, p')) = Ok (id, p')).
  { intros id p' _ Hid.
    rewrite assert_ok by (intros _; apply Z.ltb_lt; lia). rewrite bind_Ok.
    rewrite (discovered_lists_of _ _ Hrt), bind_Ok. reflexivity. }
  destruct (_discovery_is_mt p) eqn:Emt.
  - exists (_next_id p). rewrite bind_Ok.
    replace (set_next_id (_next_id p) p) with p by (destruct p; reflexivity).
    apply Hrest; [reflexivity|exact Hq].
  - destruct (processing_is_mt flags p) eqn:Epmt.
    + specialize (Hnext eq_refl eq_refl). unfold next_id. rewrite Emt. simpl negb.
      rewrite (assert_ok build true) by reflexivity. rewrite bind_Ok.
      replace (wrap_uint (_next_id p + 1)) with (_next_id p + 1)
        by (unfold wrap_uint; rewrite Z.mod_small; lia).
      eexists.
      rewrite assert_ok.
      2:{ intros _. apply Z.ltb_lt.
          destruct (Z.eqb_spec (_next_id p + 1) (_num_queues p)); lia. }
      rewrite bind_Ok. rewrite bind_Ok. apply Hrest; [|exact Hq].
      destruct rt; reflexivity.
    + exists (_next_id p). rewrite bind_Ok.
      replace (set_next_id (_next_id p) p) with p by (destruct p; reflexivity).
      apply Hrest; [reflexivity|exact Hq].
Qed.

(** [add_to_discovered_list] for an object whose [discovered] field is
    null: the link is set and the object becomes the head. *)
Lemma add_to_discovered_list_spec rt (i : nat) o p (h : gmap N Reference) d r :
  rt <> REF_NONE ->
  lists_of rt p !! i = Some d ->
  java_lang_ref_Reference.load h o = Some r ->
  discovered r = null ->
  add_to_discovered_list build rt (Z.of_nat i) o p h
  = Ok (set_discovered_lists rt (<[i := DiscoveredList.add_as_head o d]> (lists_of rt p)) p,
        <[o := mkReference (referent r)
                 (if decide (DiscoveredList.head d <> null) then DiscoveredList.head d else o)
                 (next r)]> h).
Proof.
  intros Hrt Hd Hr Hnull. unfold add_to_discovered_list.
  rewrite (discovered_lists_of _ _ Hrt), bind_Ok.
  rewrite (list_at_Some _ _ _ Hd), bind_Ok.
  set (nd := if decide (DiscoveredList.head d <> null) then DiscoveredList.head d else o).
  assert (Hlink : set_discovered_link build p h o nd
                  = Ok (true, <[o := mkReference (referent r) nd (next r)]> h)).
  { unfold set_discovered_link. destruct (_discovery_is_mt p) eqn:Emt.
    - unfold set_discovered_link_mt. rewrite Emt.
      rewrite assert_ok by reflexivity. rewrite bind_Ok.
      unfold oop_atomic_cmpxchg_null, java_lang_ref_Reference.get_discovered.
      rewrite Hr. simpl access. rewrite !bind_Ok, Hnull.
      destruct (decide (null = null)); [|contradiction].
      rewrite (set_discovered_raw_load _ _ _ _ Hr), !bind_Ok.
      rewrite bool_decide_eq_true_2 by reflexivity. reflexivity.
    - unfold set_discovered_link_st. rewrite Emt.
      rewrite assert_ok by reflexivity. rewrite bind_Ok.
      rewrite (set_discovered_raw_load _ _ _ _ Hr), bind_Ok. reflexivity. }
  rewrite Hlink, bind_Ok.
  rewrite (list_update_Some _ _ _ _ Hd), bind_Ok. reflexivity.
Qed.

(** [discover_reference] for an object that passes the checks and has
    a null [discovered] field: the object becomes the head of the queue
    chosen for it, and the processor stays well formed. *)
Lemma discover_reference_spec worker_id o rt (s : State G) abs r :
  well_formed (heap (world s)) (rp s) abs ->
  entries_valid build (heap (world s)) (rp s) abs ->
  java_lang_ref_Reference.load (heap (world s)) o = Some r ->
  discovered r = null ->
  rt <> REF_NONE ->
  discovery_gates_open flags env o rt s = true ->
  0 <= discovery_queue flags worker_id (rp s) < _max_num_queues (rp s) ->
  (_discovery_is_mt (rp s) = false -> processing_is_mt flags (rp s) = true ->
   0 <= _next_id (rp s) < _num_queues (rp s)) ->
  (ASSERT build = true -> _discovery_is_concurrent (rp s) = false -> referent r <> null) ->
  entry_count (rp s) + 1 < size_t_range ->
  let i := Z.to_nat (discovery_queue flags worker_id (rp s)) in
  exists s' d l,
    discover_reference build flags env worker_id o rt s = Ok (true, s') /\
    lists_of rt (rp s) !! i = Some d /\
    abs rt !! i = Some l /\
    lists_of rt (rp s') = <[i := DiscoveredList.add_as_head o d]> (lists_of rt (rp s)) /\
    (forall rt', rt' <> rt -> lists_of rt' (rp s') = lists_of rt' (rp s)) /\
    heap (world s')
    = <[o := mkReference (referent r)
               (if decide (DiscoveredList.head d <> null) then DiscoveredList.head d else o)
               (next r)]> (heap (world s)) /\
    well_formed (heap (world s')) (rp s') (with_entries rt (<[i := o :: l]> (abs rt)) abs) /\
    entries_valid build (heap (world s')) (rp s')
      (with_entries rt (<[i := o :: l]> (abs rt)) abs) /\
    entry_count (rp s') = entry_count (rp s) + 1.
Proof.
  intros Hwf Hval Hr Hnull Hrt Hgates Hq Hnext Hvalid Hrange i.
  pose proof (wf_max _ _ _ Hwf) as Hmax. pose proof (wf_num _ _ _ Hwf) as Hnum.
  pose proof (load_not_null _ _ _ Hr) as Hon.
  unfold discovery_gates_open in Hgates.
  unfold next_of, referent_of in Hgates. rewrite Hr in Hgates.
  apply andb_true_iff in Hgates as [Hgates G6].
  apply andb_true_iff in Hgates as [Hgates G5].
  apply andb_true_iff in Hgates as [Hgates G4].
  apply andb_true_iff in Hgates as [Hgates G3].
  apply andb_true_iff in Hgates as [G1 G2].
  apply negb_true_iff in G3, G5, G6.
  destruct (well_formed_lookup _ _ _ rt i Hwf Hrt ltac:(subst i; lia))
    as (d & l & Hd & Hl & His & Hnd & Hll).
  assert (Hfresh : forall rt' x, on_lists (abs rt') x -> x <> o).
  { intros rt' x Hx ->.
    apply (entry_discovered _ _ _ _ (wf_lists _ _ _ Hwf rt') Hx).
    unfold discovered_of. rewrite Hr. exact Hnull. }
  assert (Hdlen : DiscoveredList.length d + 1 < size_t_range).
  { rewrite (is_list_length _ _ _ His). lia. }
  destruct (get_discovered_list_spec worker_id rt (rp s) Hrt Hnum ltac:(lia) Hq Hnext)
    as (n & Hget).
  set (p1 := set_next_id n (rp s)) in *.
  assert (Hd1 : lists_of rt p1 !! i = Some d) by exact Hd.
  pose proof (add_to_discovered_list_spec rt i o p1 (heap (world s)) d r Hrt Hd1 Hr Hnull)
    as Hadd.
  set (h' := <[o := _]> (heap (world s))) in *.
  set (p2 := set_discovered_lists rt _ p1) in *.
  assert (Hwf' : well_formed h' p2 (with_entries rt (<[i := o :: l]> (abs rt)) abs)).
  { apply (well_formed_grow (heap (world s)) p1 abs rt i d l o r); auto.
    apply well_formed_next_id. exact Hwf. }
  assert (Hr' : java_lang_ref_Reference.load h' o
                = Some (mkReference (referent r)
                          (if decide (DiscoveredList.head d <> null)
                           then DiscoveredList.head d else o) (next r))).
  { subst h'. apply load_insert_eq. exact Hon. }
  assert (Hverify : forall p0 h0 r0, java_lang_ref_Reference.load h0 o = Some r0 ->
            referent r0 = referent r ->
            _discovery_is_concurrent p0 = _discovery_is_concurrent (rp s) ->
            verify_referent build p0 h0 o = Ok tt).
  { intros p0 h0 r0 Hr0 Eref Econc. unfold verify_referent.
    destruct (ASSERT build) eqn:Ha; [|reflexivity].
    unfold java_lang_ref_Reference.unknown_referent_no_keepalive.
    rewrite Hr0. simpl. rewrite Econc, Eref. apply assert_ok. intros _.
    destruct (_discovery_is_concurrent (rp s)) eqn:Ec; [reflexivity|].
    unfold is_oop. rewrite bool_decide_eq_false_2 by (apply Hvalid; auto). reflexivity. }
  exists (set_world (set_heap h' (world s))
            (set_rp p2 (if decide (rt = REF_SOFT)
                        then log_event (EvShouldClear o (_soft_ref_timestamp_clock s)) s
                        else s))), d, l.
  split.
  { unfold discover_reference. rewrite G1, G2. simpl orb. cbv iota.
    assert (Hnextf : (if decide (rt = REF_FINAL)
                      then java_lang_ref_Reference.get_next (heap (world s)) o
                      else Ok null)
                     = Ok (if decide (rt = REF_FINAL) then next r else null)).
    { destruct (decide (rt = REF_FINAL)); [|reflexivity].
      unfold java_lang_ref_Reference.get_next. rewrite Hr. reflexivity. }
    rewrite Hnextf, bind_Ok. clear Hnextf.
    assert (Hgate2 : bool_decide (rt = REF_FINAL)
                     && negb (bool_decide ((if decide (rt = REF_FINAL) then next r else null)
                                           = null)) = false).
    { destruct (decide (rt = REF_FINAL)) as [E|E].
      - exact G3.
      - rewrite bool_decide_eq_false_2 by exact E. reflexivity. }
    rewrite Hgate2. cbv iota. rewrite G4. simpl negb. cbv iota.
    assert (Hreach : match is_alive_non_header env with
                     | Some alive =>
                         verify_referent build (rp s) (heap (world s)) o;;
                         referent ← java_lang_ref_Reference.unknown_referent_no_keepalive
                                      (heap (world s)) o;
                         Ok (alive (gc (world s)) referent)
                     | None => Ok false
                     end = Ok false).
    { destruct (is_alive_non_header env) as [alive|]; [|reflexivity].
      rewrite (Hverify (rp s) (heap (world s)) r Hr eq_refl eq_refl), bind_Ok.
      unfold java_lang_ref_Reference.unknown_referent_no_keepalive.
      rewrite Hr. simpl. rewrite G5. reflexivity. }
    rewrite Hreach, bind_Ok. clear Hreach. cbv iota.
    rewrite G6. cbv iota.
    set (s1 := if decide (rt = REF_SOFT)
               then log_event (EvShouldClear o (_soft_ref_timestamp_clock s)) s else s).
    assert (Hw1 : world s1 = world s) by (subst s1; destruct (decide (rt = REF_SOFT)); reflexivity).
    assert (Hp1 : rp s1 = rp s) by (subst s1; destruct (decide (rt = REF_SOFT)); reflexivity).
    rewrite Hw1, Hp1.
    unfold java_lang_ref_Reference.get_discovered at 1. rewrite Hr. simpl access.
    rewrite !bind_Ok, Hnull.
    rewrite bool_decide_eq_true_2 by reflexivity. simpl negb. cbv iota.
    rewrite Hget, bind_Ok.
    replace (discovery_queue flags worker_id (rp s)) with (Z.of_nat i)
      by (subst i; rewrite Z2Nat.id; lia).
    rewrite Hadd, bind_Ok.
    rewrite assert_ok.
    2:{ intros _. unfold is_oop. rewrite bool_decide_eq_false_2 by exact Hon. reflexivity. }
    rewrite bind_Ok.
    rewrite (Hverify p2 h' _ Hr' eq_refl eq_refl), bind_Ok.
    reflexivity. }
  split; [exact Hd|]. split; [exact Hl|].
  simpl rp. simpl heap.
  split.
  { subst p2. rewrite lists_of_set by exact Hrt.
    destruct (decide (rt = rt)); [reflexivity|contradiction]. }
  split.
  { intros rt' Hne. subst p2. rewrite lists_of_set by exact Hrt.
    destruct (decide (rt' = rt)); [contradiction|]. subst p1. destruct rt'; reflexivity. }
  split; [reflexivity|]. split; [exact Hwf'|]. split.
  - intros Ha. destruct (Hval Ha) as [Hv1 Hv2].
    assert (Hcase : forall r0 x,
              on_lists (with_entries rt (<[i := o :: l]> (abs rt)) abs r0) x ->
              (x = o /\ r0 = rt) \/ (on_lists (abs r0) x /\ x <> o)).
    { intros r0 x. unfold with_entries. destruct (decide (r0 = rt)) as [->|Hne].
      - intros Hx. apply on_lists_insert in Hx as [Hx|Hx].
        + apply elem_of_cons in Hx as [->|Hx]; [auto|]. right.
          assert (Hon' : on_lists (abs rt) x) by (exists i, l; auto).
          split; [exact Hon'|eapply Hfresh; eauto].
        + right. split; [exact Hx|eapply Hfresh; eauto].
      - intros Hx. right. split; [exact Hx|eapply Hfresh; eauto]. }
    assert (Hsame : forall x, x <> o ->
              referent_of h' x = referent_of (heap (world s)) x /\
              next_of h' x = next_of (heap (world s)) x).
    { intros x Hx. apply referent_of_agree. subst h'. apply lookup_insert_ne. auto. }
    split.
    + intros Hc r0 x Hx. destruct (Hcase _ _ Hx) as [[-> ->]|[Hx' Hxo]].
      * unfold referent_of. rewrite Hr'. simpl. apply Hvalid; [exact Ha|exact Hc].
      * rewrite (proj1 (Hsame x Hxo)). eapply Hv1; eauto.
    + intros x Hx. destruct (Hcase _ _ Hx) as [[-> E]|[Hx' Hxo]].
      * unfold next_of. rewrite Hr'. simpl. subst rt.
        rewrite bool_decide_eq_true_2 in G3 by reflexivity. simpl in G3.
        apply negb_false_iff in G3. apply bool_decide_eq_true in G3. exact G3.
      * rewrite (proj2 (Hsame x Hxo)). apply Hv2. exact Hx'.
  - subst p2. rewrite entry_count_set by exact Hrt.
    change (entry_count p1) with (entry_count (rp s)).
    rewrite (total_length_insert _ _ _ _ Hd1).
    unfold DiscoveredList.add_as_head, DiscoveredList.length in *. simpl.
    unfold wrap_size_t. rewrite Z.mod_small; [lia|].
    pose proof (are_lists_nonneg _ _ _ (wf_lists _ _ _ Hwf rt) _ _ Hd) as H0.
    unfold DiscoveredList.length in H0. lia.
Qed.

End DiscoveryProofs.
(** ** Concrete lists *)

Lemma separate_of_NoDup (abs : list (list N)) : NoDup (concat abs) -> separate abs.
Proof.
  induction abs as [|l abs IH]; intros Hnd.
  - split; intros; discriminate.
  - simpl in Hnd. apply NoDup_app in Hnd as (Hl & Hdis & Hrest).
    destruct (IH Hrest) as [IH1 IH2].
    assert (Hin : forall (j : nat) lj x, abs !! j = Some lj -> x ∈ lj -> x ∈ concat abs).
    { intros j lj x Hj Hx. apply list_elem_of_In. apply in_concat.
      exists lj. split; [|apply list_elem_of_In; exact Hx].
      apply list_elem_of_In. eapply list_elem_of_lookup_2. exact Hj. }
    split.
    + intros [|i] li Hi; simpl in Hi; [injection Hi as <-; exact Hl|eauto].
    + intros [|i] [|j] li lj x Hi Hj Hxi Hxj; simpl in Hi, Hj.
      * reflexivity.
      * injection Hi as <-. exfalso. eapply Hdis; eauto.
      * injection Hj as <-. exfalso. eapply Hdis; eauto.
      * f_equal. eapply IH2; eauto.
Qed.

(** Proves a concrete [is_list] by following the chain. *)
Ltac follow_chain :=
  split; [reflexivity|];
  simpl;
  repeat (split; [reflexivity|]; eexists; split; [vm_compute; reflexivity|]; simpl);
  try reflexivity.

Lemma skewed_are_lists : are_lists skewed_heap skewed_lists skewed_entries.
Proof.
  split.
  - constructor; [follow_chain|].
    constructor; [follow_chain|].
    constructor; [follow_chain|].
    constructor.
  - apply separate_of_NoDup. apply (bool_decide_unpack _). vm_compute. exact I.
Qed.

Lemma no_entries_replicate (n : nat) x : ~ on_lists (replicate n []) x.
Proof.
  intros (i & l & Hl & Hx). apply lookup_replicate in Hl as [-> _].
  apply elem_of_nil in Hx. exact Hx.
Qed.

Lemma are_lists_replicate (h : gmap N Reference) (n : nat) :
  are_lists h (replicate n (DiscoveredList.mk null 0)) (replicate n []).
Proof.
  split.
  - apply Forall2_replicate. split; reflexivity.
  - split.
    + intros i l Hl. apply lookup_replicate in Hl as [-> _]. constructor.
    + intros i j li lj x Hi _ Hx. apply lookup_replicate in Hi as [-> _].
      apply elem_of_nil in Hx. contradiction.
Qed.

(** A processor with entries of one category only is well formed when
    the queues of that category are. *)
Lemma well_formed_one_category (h : gmap N Reference) p rt0 v :
  rt0 <> REF_NONE ->
  0 < _max_num_queues p < uint_range ->
  0 < _num_queues p <= _max_num_queues p ->
  are_lists h (lists_of rt0 p) v ->
  Z.of_nat (length (lists_of rt0 p)) = _max_num_queues p ->
  (forall rt, rt <> rt0 -> rt <> REF_NONE ->
     lists_of rt p = replicate (Z.to_nat (_max_num_queues p)) (DiscoveredList.mk null 0)) ->
  well_formed h p (one_category rt0 v (Z.to_nat (_max_num_queues p))).
Proof.
  intros Hrt0 Hmax Hnum Hls Hlen Hother.
  assert (Hno : forall rt x, rt <> rt0 ->
            ~ on_lists (one_category rt0 v (Z.to_nat (_max_num_queues p)) rt) x).
  { intros rt x Hne. unfold one_category.
    destruct (decide (rt = rt0)); [contradiction|].
    destruct (decide (rt = REF_NONE)).
    - intros (i & l & Hl & _). discriminate.
    - apply no_entries_replicate. }
  constructor; try assumption.
  - intros rt. unfold one_category. destruct (decide (rt = rt0)) as [->|Hne]; [exact Hls|].
    destruct (decide (rt = REF_NONE)) as [->|Hnn].
    + split; [constructor|]. split; intros; discriminate.
    + rewrite (Hother rt Hne Hnn). apply are_lists_replicate.
  - intros rt Hnn. destruct (decide (rt = rt0)) as [->|Hne]; [exact Hlen|].
    rewrite (Hother rt Hne Hnn), length_replicate. lia.
  - intros rt1 rt2 x H1 H2.
    destruct (decide (rt1 = rt0)) as [->|N1]; [|destruct (Hno rt1 x N1 H1)].
    destruct (decide (rt2 = rt0)) as [->|N2]; [reflexivity|destruct (Hno rt2 x N2 H2)].
Qed.

Lemma entries_valid_one_category build (h : gmap N Reference) p rt0 v n :
  Forall (fun x => referent_of h x <> null /\ next_of h x = null) (concat v) ->
  entries_valid build h p (one_category rt0 v n).
Proof.
  intros Hall _.
  assert (Hon : forall rt x, on_lists (one_category rt0 v n rt) x ->
            referent_of h x <> null /\ next_of h x = null).
  { intros rt x. unfold one_category. destruct (decide (rt = rt0)).
    - intros (i & l & Hl & Hx). rewrite Forall_forall in Hall. apply Hall.
      apply list_elem_of_In. apply in_concat. exists l. split.
      + apply list_elem_of_In. eapply list_elem_of_lookup_2; eauto.
      + apply list_elem_of_In. exact Hx.
    - destruct (decide (rt = REF_NONE)).
      + intros (i & l & Hl & _). discriminate.
      + intros Hx. destruct (no_entries_replicate _ _ Hx). }
  split.
  - intros _ rt x Hx. apply (Hon rt x Hx).
  - intros x Hx. apply (Hon REF_FINAL x Hx).
Qed.

Lemma skewed_well_formed :
  well_formed skewed_heap skewed_rp (one_category REF_SOFT skewed_entries 3).
Proof.
  apply (well_formed_one_category skewed_heap skewed_rp REF_SOFT skewed_entries).
  - discriminate.
  - vm_compute. split; reflexivity.
  - vm_compute. split; [reflexivity|discriminate].
  - exact skewed_are_lists.
  - reflexivity.
  - intros rt H1 H2. destruct rt; try contradiction; reflexivity.
Qed.

Lemma skewed_entries_valid build :
  entries_valid build skewed_heap skewed_rp (one_category REF_SOFT skewed_entries 3).
Proof.
  apply entries_valid_one_category.
  repeat constructor; vm_compute; discriminate.
Qed.

(** * The statements of the specification *)

(** ** Queue balancing *)

(** C1.  Balancing preserves the total entry count: on well-formed
    lists [balance_queues] returns, the sum of the queue lengths
    afterwards equals the sum before, no length is negative (none has
    wrapped around), and the queues hold the same objects as before. *)
Theorem balance_queues_preserves_total build n max fuel ls h abs :
  0 < n <= max ->
  max < uint_range ->
  Z.of_nat (length ls) = max ->
  are_lists h ls abs ->
  total_length ls + 1 < size_t_range ->
  (Z.to_nat (total_length ls + n) < fuel)%nat ->
  exists ls' h' abs',
    balance_queues build n max fuel ls h = Ok (ls', h') /\
    total_length ls' = total_length ls /\
    Forall (fun d => 0 <= DiscoveredList.length d < size_t_range) ls' /\
    are_lists h' ls' abs' /\
    (forall x, on_lists abs' x <-> on_lists abs x).
Proof.
  intros Hn Hmax Hlen Hwf Hrange Hfuel.
  destruct (balance_queues_spec build n max fuel ls h abs Hn Hmax Hlen Hwf Hrange Hfuel)
    as (ls' & h' & abs' & Hrun & Hwf' & _ & Htot & _ & Hon & _).
  exists ls', h', abs'. split; [exact Hrun|]. split; [exact Htot|].
  split; [|split; [exact Hwf'|exact Hon]].
  apply Forall_lookup. intros i d Hd.
  pose proof (are_lists_nonneg _ _ _ Hwf') as Hnn.
  pose proof (total_length_ge ls' i d Hnn Hd). split; [eapply Hnn; eauto|lia].
Qed.

Lemma balance_queues_preserves_total_witness :
  exists ls' h' abs',
    balance_queues debug_build 2 3 20 skewed_lists skewed_heap = Ok (ls', h') /\
    total_length ls' = total_length skewed_lists /\
    Forall (fun d => 0 <= DiscoveredList.length d < size_t_range) ls' /\
    are_lists h' ls' abs' /\
    (forall x, on_lists abs' x <-> on_lists skewed_entries x).
Proof.
  apply (balance_queues_preserves_total debug_build 2 3 20 skewed_lists skewed_heap
           skewed_entries).
  - lia.
  - reflexivity.
  - reflexivity.
  - exact skewed_are_lists.
  - reflexivity.
  - vm_compute. lia.
Defined.

(** C2.  Balancing is fair: with [avg = total / num_queues + 1], after
    [balance_queues] every active queue (index below the processing
    degree) holds at most [avg] entries and every other queue holds
    none. *)
Theorem balance_queues_fair build n max fuel ls h abs :
  0 < n <= max ->
  max < uint_range ->
  Z.of_nat (length ls) = max ->
  are_lists h ls abs ->
  total_length ls + 1 < size_t_range ->
  (Z.to_nat (total_length ls + n) < fuel)%nat ->
  exists ls' h',
    balance_queues build n max fuel ls h = Ok (ls', h') /\
    length ls' = length ls /\
    forall (i : nat) d, ls' !! i = Some d ->
      if Z.of_nat i <? n
      then DiscoveredList.length d <= total_length ls / n + 1
      else DiscoveredList.length d = 0.
Proof.
  intros Hn Hmax Hlen Hwf Hrange Hfuel.
  destruct (balance_queues_spec build n max fuel ls h abs Hn Hmax Hlen Hwf Hrange Hfuel)
    as (ls' & h' & abs' & Hrun & _ & Hlen' & _ & Hfair & _).
  exists ls', h'. auto.
Qed.

Lemma balance_queues_fair_witness :
  exists ls' h',
    balance_queues product_build 2 3 20 skewed_lists skewed_heap = Ok (ls', h') /\
    length ls' = length skewed_lists /\
    forall (i : nat) d, ls' !! i = Some d ->
      if Z.of_nat i <? 2
      then DiscoveredList.length d <= total_length skewed_lists / 2 + 1
      else DiscoveredList.length d = 0.
Proof.
  apply (balance_queues_fair product_build 2 3 20 skewed_lists skewed_heap skewed_entries).
  - lia.
  - reflexivity.
  - reflexivity.
  - exact skewed_are_lists.
  - reflexivity.
  - vm_compute. lia.
Defined.

(** ** The phases on one list *)

Lemma pass_keeps_dead {G : Type} (env : Collaborators G) h0 x : forall l (g : G),
  x ∈ l ->
  referent_of h0 x <> null ->
  is_alive env (gc_at_visit env h0 g l x) (referent_of h0 x) = false ->
  x ∈ pass_keeps env h0 g l.
Proof.
  induction l as [|y l IH]; intros g Hin Hnn Hdead.
  - apply elem_of_nil in Hin. contradiction.
  - simpl in Hdead |- *. destruct (decide (y = x)) as [->|Hne].
    + apply elem_of_app. left. unfold visit.
      destruct (decide (referent_of h0 x = null)); [contradiction|].
      rewrite Hdead. simpl. apply list_elem_of_singleton. reflexivity.
    + apply elem_of_app. right. apply IH; [|exact Hnn|exact Hdead].
      apply elem_of_cons in Hin as [->|Hin]; [contradiction|exact Hin].
Qed.

Lemma pass_keeps_alive {G : Type} (env : Collaborators G) h0 x : forall l (g : G),
  NoDup l ->
  x ∈ pass_keeps env h0 g l ->
  is_alive env (gc_at_visit env h0 g l x) (referent_of h0 x) = false.
Proof.
  induction l as [|y l IH]; intros g Hnd Hin.
  - apply elem_of_nil in Hin. contradiction.
  - apply NoDup_cons in Hnd as (Hy & Hnd). simpl in Hin |- *.
    apply elem_of_app in Hin as [Hin|Hin].
    + unfold visit in Hin.
      destruct (decide (referent_of h0 y = null)); simpl in Hin;
        [apply elem_of_nil in Hin; contradiction|].
      destruct (is_alive env g (referent_of h0 y)) eqn:E; simpl in Hin;
        [apply elem_of_nil in Hin; contradiction|].
      apply list_elem_of_singleton in Hin. subst x.
      destruct (decide (y = y)); [exact E|contradiction].
    + destruct (decide (y = x)) as [->|Hne].
      * exfalso. apply Hy. eapply pass_keeps_sub; eauto.
      * apply IH; assumption.
Qed.

(** C4, as the code has it.  In the SoftWeakFinal phase the pass over a
    list of Final references neither clears nor enqueues: every
    reference whose referent is neither null nor alive when the pass
    examines it stays on its discovered list with its referent as it
    was, and the pending list is left alone. *)
Theorem final_refs_wait_for_keep_alive {G : Type} build (env : Collaborators G)
    fuel worker_id p pt (w : World G) d l :
  0 <= worker_id ->
  _discoveredFinalRefs p !! Z.to_nat worker_id = Some d ->
  is_list (heap w) d l ->
  NoDup l ->
  Z.of_nat (length l) < size_t_range ->
  (ASSERT build = true -> _discovery_is_concurrent p = false ->
     forall y, y ∈ l -> referent_of (heap w) y <> null) ->
  (length l < fuel)%nat ->
  exists p' pt' w' d' l',
    process_discovered_list build env fuel worker_id REF_FINAL (p, pt, w)
      = Ok (p', pt', w') /\
    _discoveredFinalRefs p' !! Z.to_nat worker_id = Some d' /\
    is_list (heap w') d' l' /\
    pending_list w' = pending_list w /\
    forall x, x ∈ l ->
      referent_of (heap w) x <> null ->
      is_alive env (gc_at_visit env (heap w) (gc w) l x) (referent_of (heap w) x) = false ->
      x ∈ l' /\ referent_of (heap w') x = referent_of (heap w) x.
Proof.
  intros Hid Hd His Hnd Hrange Hvalid Hfuel.
  destruct (process_discovered_list_work_spec build env (_discovery_is_concurrent p) false
              fuel d l w His Hnd Hrange Hvalid Hfuel)
    as (d' & w' & Hrun & (His' & Hpend) & _ & _ & _ & Hkept & _).
  eexists _, _, w', d', _. split.
  { unfold process_discovered_list. simpl discovered_lists. rewrite bind_Ok.
    rewrite (list_at_Some_Z _ _ _ Hid Hd), bind_Ok.
    simpl in Hrun |- *. rewrite Hrun. reflexivity. }
  split.
  { simpl. apply list_lookup_insert_eq. eapply lookup_lt_Some. exact Hd. }
  split; [exact His'|]. split; [exact Hpend|].
  intros x Hx Hnn Hdead.
  pose proof (pass_keeps_dead env (heap w) x l (gc w) Hx Hnn Hdead) as HxK.
  split; [exact HxK|].
  destruct (Hkept x HxK) as (r' & Hr' & E & _).
  unfold referent_of at 1. rewrite Hr'. exact E.
Qed.

Lemma final_refs_wait_for_keep_alive_witness :
  exists p' pt' w' d' l',
    process_discovered_list debug_build marking_env 6 0 REF_FINAL
      (five_final_rp, no_times, five_final_world) = Ok (p', pt', w') /\
    _discoveredFinalRefs p' !! Z.to_nat 0 = Some d' /\
    is_list (heap w') d' l' /\
    pending_list w' = pending_list five_final_world /\
    forall x, x ∈ [1%N; 2%N; 3%N; 4%N; 5%N] ->
      referent_of (heap five_final_world) x <> null ->
      is_alive marking_env
        (gc_at_visit marking_env (heap five_final_world) (gc five_final_world)
           [1%N; 2%N; 3%N; 4%N; 5%N] x)
        (referent_of (heap five_final_world) x) = false ->
      x ∈ l' /\ referent_of (heap w') x = referent_of (heap five_final_world) x.
Proof.
  apply (final_refs_wait_for_keep_alive debug_build marking_env 6 0 five_final_rp no_times
           five_final_world (DiscoveredList.mk 1 5) [1%N; 2%N; 3%N; 4%N; 5%N]).
  - lia.
  - reflexivity.
  - follow_chain.
  - apply (bool_decide_unpack _). vm_compute. exact I.
  - reflexivity.
  - intros _ _ y Hy.
    repeat (apply elem_of_cons in Hy as [->|Hy]; [vm_compute; discriminate|]).
    apply elem_of_nil in Hy. contradiction.
  - simpl. lia.
Defined.

(** The claim as the spec states it fails: after the SoftWeakFinal phase
    the Final reference 1, whose referent 10 is not alive, still has
    its referent, and the pending list is still empty. *)
Lemma final_ref_not_cleared_in_first_phase :
  exists p pt w,
    process_soft_weak_final_refs debug_build serial_flags marking_env 5 None
      (one_final_rp, one_final_times, one_final_world) = Ok (p, pt, w) /\
    _discoveredFinalRefs p = [DiscoveredList.mk 1 1] /\
    referent_of (heap w) 1 = 10%N /\
    pending_list w = null.
Proof.
  eexists _, _, _. split; [vm_compute; reflexivity|].
  split; [reflexivity|]. split; vm_compute; reflexivity.
Qed.

(** C5.  The KeepAliveFinal pass removes nothing: on a list of Final
    references [process_final_keep_alive_work] hands the referent of
    every reference to the keep-alive visitor, makes its [next] field
    point to the reference itself, puts the references on the pending
    list in front of what was there, returns a removed count of 0 and
    leaves the list empty. *)
Theorem final_keep_alive_removes_nothing {G : Type} build (env : Collaborators G)
    fuel d l (w : World G) :
  is_list (heap w) d l ->
  NoDup l ->
  Z.of_nat (length l) < size_t_range ->
  (ASSERT build = true ->
     forall y, y ∈ l -> referent_of (heap w) y <> null /\ next_of (heap w) y = null) ->
  (length l < fuel)%nat ->
  exists d' w',
    process_final_keep_alive_work build env fuel d w = Ok (0, d', w') /\
    DiscoveredList.is_empty d' = true /\
    DiscoveredList.length d' = 0 /\
    lseg (heap w') (pending_list w') l (pending_list w) /\
    gc w' = keep_alive_gc env (heap w) (gc w) l /\
    forall x, x ∈ l -> x ∈ kept_alive w' /\ next_of (heap w') x = x.
Proof.
  intros His Hnd Hrange Hvalid Hfuel.
  destruct (process_final_keep_alive_work_spec build env fuel d l w His Hnd Hrange
              Hvalid Hfuel)
    as (w' & Hrun & Hseg & Hgc & Hka & _ & Hnext).
  exists (DiscoveredList.clear d), w'. split; [exact Hrun|].
  split; [reflexivity|]. split; [reflexivity|]. split; [exact Hseg|].
  split; [exact Hgc|].
  intros x Hx. split; [|apply Hnext; exact Hx].
  rewrite Hka. apply elem_of_app. left.
  apply list_elem_of_In. apply -> in_rev. apply list_elem_of_In. exact Hx.
Qed.

Lemma final_keep_alive_removes_nothing_witness :
  exists d' w',
    process_final_keep_alive_work debug_build marking_env 3 (DiscoveredList.mk 6 2)
      five_final_world = Ok (0, d', w') /\
    DiscoveredList.is_empty d' = true /\
    DiscoveredList.length d' = 0 /\
    lseg (heap w') (pending_list w') [6%N; 7%N] (pending_list five_final_world) /\
    gc w' = keep_alive_gc marking_env (heap five_final_world) (gc five_final_world)
              [6%N; 7%N] /\
    forall x, x ∈ [6%N; 7%N] -> x ∈ kept_alive w' /\ next_of (heap w') x = x.
Proof.
  apply (final_keep_alive_removes_nothing debug_build marking_env 3
           (DiscoveredList.mk 6 2) [6%N; 7%N] five_final_world).
  - follow_chain.
  - apply (bool_decide_unpack _). vm_compute. exact I.
  - reflexivity.
  - intros _ y Hy.
    repeat (apply elem_of_cons in Hy as [->|Hy]; [vm_compute; split; [discriminate|reflexivity]|]).
    apply elem_of_nil in Hy. contradiction.
  - simpl. lia.
Defined.

(** ** The soft-reference clock *)

(** C7.  The soft-reference clock never goes back:
    [update_soft_ref_master_clock] leaves it at the larger of its old
    value and the time read; when the time read is not later than the
    clock both clocks stay as they are, and when it is later both
    clocks take it. *)
Theorem soft_ref_clock_monotone {G : Type} (javaTimeNanos : Z) (s : State G) :
  let now := jlong_div javaTimeNanos NANOSECS_PER_MILLISEC in
  let s' := update_soft_ref_master_clock javaTimeNanos s in
  _soft_ref_timestamp_clock s <= _soft_ref_timestamp_clock s' /\
  _soft_ref_timestamp_clock s' = Z.max (_soft_ref_timestamp_clock s) now /\
  (now <= _soft_ref_timestamp_clock s ->
   _soft_ref_timestamp_clock s' = _soft_ref_timestamp_clock s /\
   SoftReference_clock s' = SoftReference_clock s) /\
  (_soft_ref_timestamp_clock s < now ->
   _soft_ref_timestamp_clock s' = now /\ SoftReference_clock s' = now).
Proof.
  intros now s'. subst s'. unfold update_soft_ref_master_clock. fold now.
  simpl _soft_ref_timestamp_clock.
  destruct (Z.ltb_spec (_soft_ref_timestamp_clock s) now) as [Hlt|Hge]; simpl.
  - split; [lia|]. split; [lia|]. split; [intros Hle; lia|].
    intros _. split; reflexivity.
  - split; [lia|]. split; [lia|]. split; [intros _; split; reflexivity|].
    intros Hlt. lia.
Qed.

(** ** The MT-degree adjuster *)

(** C8, as the code has it.  The adjuster installs the caller-supplied
    maximum in the KeepAliveFinal phase and also when the threshold
    [ReferencesPerThread] is 0; otherwise it installs the minimum of
    [1 + count / threshold], the caller-supplied maximum and the
    processor count.  Its destructor restores the degree that was
    active before. *)
Theorem mt_degree_adjuster_installs_and_restores build flags p phase
    num_active_workers ref_count :
  0 < num_active_workers < uint_range ->
  0 <= ref_count < size_t_range - 1 ->
  0 <= ReferencesPerThread flags ->
  0 < active_processor_count flags < 2 ^ 31 ->
  (ASSERT build = true ->
   num_active_workers <= _max_num_queues p /\ _num_queues p <= _max_num_queues p) ->
  exists p',
    RefProcMTDegreeAdjuster build flags p phase num_active_workers ref_count
      = Ok (_num_queues p, p') /\
    _num_queues p' =
      (if use_max_threads phase || (ReferencesPerThread flags =? 0)
       then num_active_workers
       else Z.min (1 + ref_count / ReferencesPerThread flags)
              (Z.min num_active_workers (active_processor_count flags))) /\
    forall p'', _max_num_queues p'' = _max_num_queues p ->
      exists p3,
        RefProcMTDegreeAdjuster_destroy build (_num_queues p) p'' = Ok p3 /\
        _num_queues p3 = _num_queues p.
Proof.
  intros Hw Hc Hrpt Hproc Hassert.
  set (degree := if use_max_threads phase || (ReferencesPerThread flags =? 0)
                 then num_active_workers
                 else Z.min (1 + ref_count / ReferencesPerThread flags)
                        (Z.min num_active_workers (active_processor_count flags))).
  assert (Hergo : ergo_proc_thread_count build flags ref_count num_active_workers phase
                  = Ok degree).
  { unfold ergo_proc_thread_count. rewrite assert_ok.
    2:{ intros _. apply Z.ltb_lt. lia. }
    rewrite bind_Ok. subst degree.
    destruct (use_max_threads phase || (ReferencesPerThread flags =? 0)) eqn:E;
      [reflexivity|].
    apply orb_false_iff in E as (_ & E). apply Z.eqb_neq in E.
    assert (0 <= ref_count / ReferencesPerThread flags <= ref_count).
    { split; [apply Z.div_pos; lia|]. apply Z.div_le_upper_bound; nia. }
    f_equal. unfold wrap_size_t, wrap_uint, size_t_range, uint_range in *.
    rewrite (Z.mod_small (1 + _)) by lia.
    rewrite (Z.mod_small (active_processor_count flags)) by lia.
    apply Z.mod_small. lia. }
  assert (Hdeg : degree <= num_active_workers).
  { subst degree.
    destruct (use_max_threads phase || (ReferencesPerThread flags =? 0)); lia. }
  eexists. split.
  { unfold RefProcMTDegreeAdjuster. rewrite Hergo, bind_Ok.
    unfold set_active_mt_degree. rewrite assert_ok.
    - reflexivity.
    - intros Ha. apply Z.leb_le. destruct (Hassert Ha). lia. }
  split; [reflexivity|].
  intros p'' Hmax. eexists. split.
  { unfold RefProcMTDegreeAdjuster_destroy, set_active_mt_degree. rewrite assert_ok.
    - reflexivity.
    - intros Ha. apply Z.leb_le. destruct (Hassert Ha). lia. }
  reflexivity.
Qed.

Lemma mt_degree_adjuster_installs_and_restores_witness :
  exists p',
    RefProcMTDegreeAdjuster debug_build serial_flags four_queue_rp SoftWeakFinalRefsPhase
      4 2500 = Ok (_num_queues four_queue_rp, p') /\
    _num_queues p' =
      (if use_max_threads SoftWeakFinalRefsPhase || (ReferencesPerThread serial_flags =? 0)
       then 4
       else Z.min (1 + 2500 / ReferencesPerThread serial_flags)
              (Z.min 4 (active_processor_count serial_flags))) /\
    forall p'', _max_num_queues p'' = _max_num_queues four_queue_rp ->
      exists p3,
        RefProcMTDegreeAdjuster_destroy debug_build (_num_queues four_queue_rp) p''
          = Ok p3 /\
        _num_queues p3 = _num_queues four_queue_rp.
Proof.
  apply (mt_degree_adjuster_installs_and_restores debug_build serial_flags four_queue_rp
           SoftWeakFinalRefsPhase 4 2500).
  - vm_compute. split; reflexivity.
  - vm_compute. split; [discriminate|reflexivity].
  - vm_compute. discriminate.
  - vm_compute. split; reflexivity.
  - intros _. vm_compute. split; discriminate.
Defined.

(** The claim as the spec states it fails when the threshold is 0: in
    the SoftWeakFinal phase, with a maximum of 4 workers on 2
    processors, the adjuster installs 4, above the minimum of the three
    numbers whatever the quotient is taken to be. *)
Lemma zero_threshold_installs_maximum :
  exists saved p',
    RefProcMTDegreeAdjuster debug_build zero_threshold_flags four_queue_rp
      SoftWeakFinalRefsPhase 4 5 = Ok (saved, p') /\
    _num_queues p' = 4 /\
    forall q, Z.min (1 + q) (Z.min 4 (active_processor_count zero_threshold_flags))
              < _num_queues p'.
Proof.
  eexists _, _. split; [vm_compute; reflexivity|]. split; [reflexivity|].
  intros q. simpl. lia.
Qed.

(** ** Calls outside the protocol *)

(** C9, as the code has it.  [discover_reference] outside a discovery
    window returns "not discovered" and changes nothing; a nested
    [enable_discovery] aborts the VM in debug builds, and in the other
    builds it sets the flag again. *)
Theorem discovery_outside_window {G : Type} build flags (env : Collaborators G)
    worker_id o rt (s : State G) :
  (_discovering_refs (rp s) = false ->
   discover_reference build flags env worker_id o rt s = Ok (false, s)) /\
  (_discovering_refs (rp s) = true ->
   enable_discovery build s
   = if ASSERT build then Fatal "nested call?"
     else Ok (log_event EvEnableDiscovery (set_rp (set_discovering_refs true (rp s)) s))).
Proof.
  split.
  - intros H. unfold discover_reference. rewrite H. reflexivity.
  - intros H. unfold enable_discovery. destruct (ASSERT build) eqn:Ha; [|reflexivity].
    unfold assert_. rewrite H, Ha. reflexivity.
Qed.

Lemma discovery_outside_window_witness :
  discover_reference debug_build serial_flags marking_env 0 1%N REF_WEAK idle_state
  = Ok (false, idle_state) /\
  enable_discovery debug_build rediscovery_state = Fatal "nested call?".
Proof.
  split.
  - apply (discovery_outside_window debug_build serial_flags marking_env 0 1%N REF_WEAK
             idle_state).
    reflexivity.
  - apply (discovery_outside_window debug_build serial_flags g1_env 0 1%N REF_WEAK
             rediscovery_state).
    reflexivity.
Defined.

(** The claim as the spec states it fails: outside a discovery window
    [discover_reference] does not abort, it returns "not discovered". *)
Lemma discover_outside_window_returns_false :
  _discovering_refs (rp idle_state) = false /\
  discover_reference debug_build serial_flags marking_env 0 1%N REF_WEAK idle_state
  = Ok (false, idle_state).
Proof. split; reflexivity. Qed.

(** ** Phases without references *)

(** C10.  A phase whose categories have no discovered references does
    nothing: the processor (with its active degree and its lists), the
    phase times and the world (with the heap and the pending list) are
    returned as they were, whatever the fuel and the worker pool.  The
    count of the first phase is the sum that the code computes, in
    [size_t]; it is 0 when its three counts are. *)
Theorem empty_phase_does_nothing {G : Type} build flags (env : Collaborators G)
    fuel workers p pt (w : World G) :
  (wrap_size_t (wrap_size_t (ref_discovered REF_SOFT pt + ref_discovered REF_WEAK pt)
                + ref_discovered REF_FINAL pt) = 0 ->
   process_soft_weak_final_refs build flags env fuel workers (p, pt, w) = Ok (p, pt, w)) /\
  (ref_discovered REF_SOFT pt = 0 ->
   ref_discovered REF_WEAK pt = 0 ->
   ref_discovered REF_FINAL pt = 0 ->
   process_soft_weak_final_refs build flags env fuel workers (p, pt, w) = Ok (p, pt, w)) /\
  (ref_discovered REF_FINAL pt = 0 ->
   process_final_keep_alive build flags env fuel workers (p, pt, w) = Ok (p, pt, w)) /\
  (ref_discovered REF_PHANTOM pt = 0 ->
   process_phantom_refs build flags env fuel workers (p, pt, w) = Ok (p, pt, w)).
Proof.
  split; [|split; [|split]].
  - intros Ht. unfold process_soft_weak_final_refs. rewrite Ht. reflexivity.
  - intros Hs Hw Hf. unfold process_soft_weak_final_refs. rewrite Hs, Hw, Hf. reflexivity.
  - intros Hf. unfold process_final_keep_alive. rewrite Hf. reflexivity.
  - intros Hp. unfold process_phantom_refs. rewrite Hp. reflexivity.
Qed.

Lemma empty_phase_does_nothing_witness :
  process_soft_weak_final_refs debug_build zero_threshold_flags marking_env 0 (Some 4)
    (four_queue_rp, no_times, five_final_world)
  = Ok (four_queue_rp, no_times, five_final_world) /\
  process_final_keep_alive debug_build zero_threshold_flags marking_env 0 (Some 4)
    (four_queue_rp, no_times, five_final_world)
  = Ok (four_queue_rp, no_times, five_final_world) /\
  process_phantom_refs debug_build zero_threshold_flags marking_env 0 (Some 4)
    (four_queue_rp, no_times, five_final_world)
  = Ok (four_queue_rp, no_times, five_final_world).
Proof.
  destruct (empty_phase_does_nothing debug_build zero_threshold_flags marking_env 0
              (Some 4) four_queue_rp no_times five_final_world) as (_ & H1 & H2 & H3).
  split; [apply H1; reflexivity|]. split; [apply H2; reflexivity|apply H3; reflexivity].
Defined.

(** ** Order of the clock update *)

Lemma bind_Ok_inv {A B : Type} (m : Res A) (k : A -> Res B) b :
  (m ≫= k) = Ok b -> exists a, m = Ok a /\ k a = Ok b.
Proof. destruct m; simpl; intros H; try discriminate. eauto. Qed.

Lemma discover_reference_events {G : Type} build flags (env : Collaborators G)
    worker_id o rt (t : State G) b t' :
  discover_reference build flags env worker_id o rt t = Ok (b, t') ->
  events t' = events t \/
  (_discovering_refs (rp t) = true /\ rt = REF_SOFT /\
   events t' = events t ++ [EvShouldClear o (_soft_ref_timestamp_clock t)]).
Proof.
  unfold discover_reference. intros H.
  destruct (_discovering_refs (rp t)) eqn:Hd; simpl in H;
    [|injection H as _ <-; left; reflexivity].
  destruct (RegisterReferences flags); simpl in H;
    [|injection H as _ <-; left; reflexivity].
  apply bind_Ok_inv in H as (final_next & _ & H).
  destruct (bool_decide (rt = REF_FINAL) && negb (bool_decide (final_next = null)));
    [injection H as _ <-; left; reflexivity|].
  destruct (negb (is_subject_to_discovery env (gc (world t)) o));
    [injection H as _ <-; left; reflexivity|].
  apply bind_Ok_inv in H as (reachable & _ & H).
  destruct reachable; [injection H as _ <-; left; reflexivity|].
  set (t1 := if decide (rt = REF_SOFT)
             then log_event (EvShouldClear o (_soft_ref_timestamp_clock t)) t else t) in *.
  assert (Ht1 : events t1 = events t \/
                (rt = REF_SOFT /\
                 events t1 = events t ++ [EvShouldClear o (_soft_ref_timestamp_clock t)])).
  { subst t1. destruct (decide (rt = REF_SOFT)); [right|left]; auto. }
  assert (Hfin : events t' = events t1 ->
            events t' = events t \/
            (true = true /\ rt = REF_SOFT /\
             events t' = events t ++ [EvShouldClear o (_soft_ref_timestamp_clock t)])).
  { intros E. rewrite E. destruct Ht1 as [?|[? ?]]; [left|right]; auto. }
  destruct (bool_decide (rt = REF_SOFT) &&
            negb (should_clear_reference env o (_soft_ref_timestamp_clock t)));
    [injection H as _ <-; apply Hfin; reflexivity|].
  apply bind_Ok_inv in H as (discovered & _ & H).
  destruct (negb (bool_decide (discovered = null))).
  - apply bind_Ok_inv in H as (u1 & _ & H). apply bind_Ok_inv in H as (u2 & _ & H).
    injection H as _ <-. apply Hfin. reflexivity.
  - apply bind_Ok_inv in H as ([id p1] & _ & H).
    apply bind_Ok_inv in H as ([p2 h2] & _ & H).
    apply bind_Ok_inv in H as (u1 & _ & H). apply bind_Ok_inv in H as (u2 & _ & H).
    injection H as _ <-. apply Hfin. reflexivity.
Qed.

(** C6, as the code has it.  On a well-formed processor a call of
    [process_discovered_references] returns; it closes discovery and
    then updates the clock, once, and consults the clearing policy
    nowhere.  The policy is consulted by [discover_reference] only,
    inside a discovery window and with the clock as it stands then.
    So the decisions of a cycle come before the update of that cycle
    and see the clock of the cycle before. *)
Theorem clock_update_follows_decisions {G : Type} build flags (env : Collaborators G)
    fuel javaTimeNanos workers pt (s : State G) abs :
  well_formed (heap (world s)) (rp s) abs ->
  entries_valid build (heap (world s)) (rp s) abs ->
  entry_count (rp s) + 1 < size_t_range ->
  (Z.to_nat (entry_count (rp s) + _max_num_queues (rp s)) < fuel)%nat ->
  workers_fit workers (rp s) ->
  flags_in_range flags ->
  (exists stats pt' s',
     process_discovered_references build flags env fuel javaTimeNanos workers pt s
       = Ok (stats, pt', s') /\
     events s' = events s ++ [EvDisableDiscovery;
                              EvUpdateClock (jlong_div javaTimeNanos NANOSECS_PER_MILLISEC)] /\
     _soft_ref_timestamp_clock s'
       = Z.max (_soft_ref_timestamp_clock s)
           (jlong_div javaTimeNanos NANOSECS_PER_MILLISEC)) /\
  forall worker_id o rt (t : State G) b t',
    discover_reference build flags env worker_id o rt t = Ok (b, t') ->
    events t' = events t \/
    (_discovering_refs (rp t) = true /\ rt = REF_SOFT /\
     events t' = events t ++ [EvShouldClear o (_soft_ref_timestamp_clock t)]).
Proof.
  intros Hwf Hval Hrange Hfuel Hfit Hflags.
  split; [|intros; eapply discover_reference_events; eauto].
  destruct (process_discovered_references_spec build flags env fuel javaTimeNanos workers
              pt s abs Hwf Hval Hrange Hfuel Hfit Hflags)
    as (pt' & p' & w' & Hrun & _).
  destruct (update_clock_rp javaTimeNanos (disable_discovery s)) as (_ & _ & Hev & Hclock).
  eexists _, pt', _. split; [exact Hrun|]. split.
  - simpl events. rewrite Hev. simpl events. rewrite <- app_assoc. reflexivity.
  - simpl _soft_ref_timestamp_clock. rewrite Hclock. reflexivity.
Qed.

(** The claim as the spec states it fails: in a cycle with one soft
    reference the clearing policy is consulted, with the clock at 5,
    before discovery is closed and the clock is moved to 7. *)
Lemma policy_decision_precedes_clock_update :
  exists s',
    soft_cycle debug_build serial_flags marking_env 5 7000000 1%N idle_state = Ok s' /\
    events s' = [EvEnableDiscovery; EvShouldClear 1 5; EvDisableDiscovery; EvUpdateClock 7] /\
    _soft_ref_timestamp_clock s' = 7 /\
    clock_advanced_first (events s') = false.
Proof.
  eexists. split; [vm_compute; reflexivity|].
  split; [reflexivity|]. split; reflexivity.
Qed.

Lemma discovered_soft_well_formed :
  well_formed (heap (world discovered_soft_state)) (rp discovered_soft_state)
    (one_category REF_SOFT [[1%N]] 1).
Proof.
  apply (well_formed_one_category _ (rp discovered_soft_state) REF_SOFT [[1%N]]).
  - discriminate.
  - vm_compute. split; reflexivity.
  - vm_compute. split; [reflexivity|discriminate].
  - split.
    + constructor; [follow_chain|constructor].
    + apply separate_of_NoDup. apply (bool_decide_unpack _). vm_compute. exact I.
  - reflexivity.
  - intros rt H1 H2. destruct rt; try contradiction; reflexivity.
Qed.

Lemma clock_update_follows_decisions_witness :
  (exists stats pt' s',
     process_discovered_references debug_build serial_flags marking_env 5 7000000 None
       no_times discovered_soft_state = Ok (stats, pt', s') /\
     events s' = events discovered_soft_state
                 ++ [EvDisableDiscovery;
                     EvUpdateClock (jlong_div 7000000 NANOSECS_PER_MILLISEC)] /\
     _soft_ref_timestamp_clock s'
       = Z.max (_soft_ref_timestamp_clock discovered_soft_state)
           (jlong_div 7000000 NANOSECS_PER_MILLISEC)) /\
  forall worker_id o rt (t : State (list N)) b t',
    discover_reference debug_build serial_flags marking_env worker_id o rt t
      = Ok (b, t') ->
    events t' = events t \/
    (_discovering_refs (rp t) = true /\ rt = REF_SOFT /\
     events t' = events t ++ [EvShouldClear o (_soft_ref_timestamp_clock t)]).
Proof.
  apply (clock_update_follows_decisions debug_build serial_flags marking_env 5 7000000
           None no_times discovered_soft_state (one_category REF_SOFT [[1%N]] 1)).
  - exact discovered_soft_well_formed.
  - apply entries_valid_one_category. repeat constructor; vm_compute; discriminate.
  - vm_compute. reflexivity.
  - vm_compute. lia.
  - exact I.
  - split; vm_compute; [discriminate|split; reflexivity].
Defined.

(** ** Discovery of an object that is already discovered *)

Lemma get_discovered_load h o r :
  java_lang_ref_Reference.load h o = Some r ->
  java_lang_ref_Reference.get_discovered h o = Ok (discovered r).
Proof. intros H. unfold java_lang_ref_Reference.get_discovered. rewrite H. reflexivity. Qed.

Lemma set_discovered_link_mt_once build p h o v1 v2 h1 :
  v1 <> null ->
  set_discovered_link_mt build p h o v1 = Ok (true, h1) ->
  set_discovered_link_mt build p h1 o v2 = Ok (false, h1).
Proof.
  intros Hv1 H. unfold set_discovered_link_mt in *.
  apply bind_Ok_inv in H as (u & Hassert & H). rewrite Hassert, bind_Ok.
  apply bind_Ok_inv in H as ([retest h'] & Hcas & H).
  injection H as Hretest <-.
  apply bool_decide_eq_true in Hretest. subst retest.
  unfold oop_atomic_cmpxchg_null in Hcas.
  apply bind_Ok_inv in Hcas as (old & Hold & Hcas).
  destruct (decide (old = null)) as [->|Hne].
  2:{ injection Hcas as E _. contradiction. }
  apply bind_Ok_inv in Hcas as (h2 & Hset & Hcas). injection Hcas as <-.
  unfold java_lang_ref_Reference.set_discovered_raw in Hset.
  apply bind_Ok_inv in Hset as (r & Hr & Hset). injection Hset as <-.
  assert (Hload : java_lang_ref_Reference.load h o = Some r).
  { destruct (java_lang_ref_Reference.load h o); [|discriminate]. injection Hr as ->.
    reflexivity. }
  assert (Ho : o <> null) by (eapply load_not_null; eauto).
  unfold oop_atomic_cmpxchg_null.
  rewrite (get_discovered_load _ _ _ (load_insert_eq h o _ Ho)), bind_Ok. simpl.
  destruct (decide (v1 = null)); [contradiction|]. simpl.
  rewrite bool_decide_eq_false_2 by exact Hv1. reflexivity.
Qed.

(** C3, as the code has it.  For an object whose [discovered] field is
    not null, [discover_reference] adds no second entry: the processor
    with its lists and the world with its heap stay as they are.  It
    returns success exactly when none of the earlier checks rejects
    the call (debug builds also assert G1 with concurrent discovery at
    this point).  In multi-threaded discovery, once the
    compare-and-exchange of one thread has succeeded, that of any other
    thread fails and its [add_to_discovered_list] adds nothing. *)
Theorem rediscovery_adds_nothing {G : Type} build flags (env : Collaborators G)
    worker_id o rt (s : State G) r :
  java_lang_ref_Reference.load (heap (world s)) o = Some r ->
  discovered r <> null ->
  (ASSERT build = true ->
   UseG1GC flags = true /\ _discovery_is_concurrent (rp s) = true) ->
  (exists s',
     discover_reference build flags env worker_id o rt s
       = Ok (discovery_gates_open flags env o rt s, s') /\
     rp s' = rp s /\ world s' = world s) /\
  (forall p h h1 v1 v2,
     v1 <> null ->
     set_discovered_link_mt build p h o v1 = Ok (true, h1) ->
     set_discovered_link_mt build p h1 o v2 = Ok (false, h1) /\
     forall rt' id ls d,
       _discovery_is_mt p = true ->
       discovered_lists rt' p = Ok ls -> list_at ls id = Ok d ->
       add_to_discovered_list build rt' id o p h1 = Ok (p, h1)).
Proof.
  intros Hload Hdisc Hassert. split.
  - unfold discover_reference, discovery_gates_open, next_of, referent_of.
    rewrite Hload.
    destruct (_discovering_refs (rp s)); simpl;
      [|eexists; split; [reflexivity|split; reflexivity]].
    destruct (RegisterReferences flags); simpl;
      [|eexists; split; [reflexivity|split; reflexivity]].
    assert (Hnext : (if decide (rt = REF_FINAL)
                     then java_lang_ref_Reference.get_next (heap (world s)) o
                     else Ok null)
                    = Ok (if decide (rt = REF_FINAL) then next r else null)).
    { destruct (decide (rt = REF_FINAL)); [|reflexivity].
      unfold java_lang_ref_Reference.get_next. rewrite Hload. reflexivity. }
    rewrite Hnext, bind_Ok. clear Hnext.
    assert (Hgate2 : bool_decide (rt = REF_FINAL)
                     && negb (bool_decide ((if decide (rt = REF_FINAL) then next r else null)
                                           = null))
                     = bool_decide (rt = REF_FINAL) && negb (bool_decide (next r = null))).
    { destruct (decide (rt = REF_FINAL)) as [E|E].
      - reflexivity.
      - rewrite bool_decide_eq_false_2 by exact E. reflexivity. }
    rewrite Hgate2. clear Hgate2.
    destruct (bool_decide (rt = REF_FINAL) && negb (bool_decide (next r = null))); simpl;
      [eexists; split; [reflexivity|split; reflexivity]|].
    destruct (is_subject_to_discovery env (gc (world s)) o); simpl;
      [|eexists; split; [reflexivity|split; reflexivity]].
    assert (Hreach : match is_alive_non_header env with
                     | Some alive =>
                         verify_referent build (rp s) (heap (world s)) o;;
                         referent ← java_lang_ref_Reference.unknown_referent_no_keepalive
                                      (heap (world s)) o;
                         Ok (alive (gc (world s)) referent)
                     | None => Ok false
                     end
                     = Ok (match is_alive_non_header env with
                           | Some alive => alive (gc (world s)) (referent r)
                           | None => false
                           end)).
    { destruct (is_alive_non_header env) as [alive|]; [|reflexivity].
      unfold verify_referent, java_lang_ref_Reference.unknown_referent_no_keepalive.
      rewrite Hload. simpl.
      destruct (ASSERT build) eqn:Ha; [|reflexivity].
      destruct (Hassert eq_refl) as (_ & ->). simpl. reflexivity. }
    rewrite Hreach, bind_Ok. clear Hreach.
    destruct (match is_alive_non_header env with
              | Some alive => alive (gc (world s)) (referent r)
              | None => false
              end); simpl;
      [eexists; split; [reflexivity|split; reflexivity]|].
    destruct (bool_decide (rt = REF_SOFT)
              && negb (should_clear_reference env o (_soft_ref_timestamp_clock s))); simpl.
    { eexists. split; [reflexivity|].
      destruct (decide (rt = REF_SOFT)); split; reflexivity. }
    assert (Hh : heap (world (if decide (rt = REF_SOFT)
                              then log_event (EvShouldClear o (_soft_ref_timestamp_clock s)) s
                              else s)) = heap (world s))
      by (destruct (decide (rt = REF_SOFT)); reflexivity).
    rewrite Hh, (get_discovered_load _ _ _ Hload), bind_Ok.
    rewrite bool_decide_eq_false_2 by exact Hdisc. simpl.
    rewrite (assert_ok build (UseG1GC flags)) by (intros Ha; apply (Hassert Ha)).
    rewrite bind_Ok.
    rewrite assert_ok.
    2:{ intros Ha. destruct (Hassert Ha) as (_ & Hc).
        destruct (decide (rt = REF_SOFT)); exact Hc. }
    rewrite bind_Ok. eexists. split; [reflexivity|].
    destruct (decide (rt = REF_SOFT)); split; reflexivity.
  - intros p h h1 v1 v2 Hv1 Hfirst.
    pose proof (set_discovered_link_mt_once build p h o v1 v2 h1 Hv1 Hfirst) as Hsecond.
    split; [exact Hsecond|].
    intros rt' id ls d Hmt Hls Hd. unfold add_to_discovered_list.
    rewrite Hls, bind_Ok, Hd, bind_Ok.
    unfold set_discovered_link. rewrite Hmt.
    rewrite (set_discovered_link_mt_once build p h o v1 _ h1 Hv1 Hfirst). reflexivity.
Qed.

Lemma rediscovery_adds_nothing_witness :
  (exists s',
     discover_reference debug_build g1_flags g1_env 0 1%N REF_WEAK rediscovery_dead_state
       = Ok (discovery_gates_open g1_flags g1_env 1%N REF_WEAK rediscovery_dead_state, s') /\
     rp s' = rp rediscovery_dead_state /\ world s' = world rediscovery_dead_state) /\
  (forall p h h1 v1 v2,
     v1 <> null ->
     set_discovered_link_mt debug_build p h 1%N v1 = Ok (true, h1) ->
     set_discovered_link_mt debug_build p h1 1%N v2 = Ok (false, h1) /\
     forall rt' id ls d,
       _discovery_is_mt p = true ->
       discovered_lists rt' p = Ok ls -> list_at ls id = Ok d ->
       add_to_discovered_list debug_build rt' id 1%N p h1 = Ok (p, h1)).
Proof.
  apply (rediscovery_adds_nothing debug_build g1_flags g1_env 0 1%N REF_WEAK
           rediscovery_dead_state (mkReference 10 1 0)).
  - reflexivity.
  - discriminate.
  - intros _. split; reflexivity.
Defined.

(** The claim as the spec states it fails: the weak reference 1 is
    already discovered (its [discovered] field holds 1), its referent
    has been marked since, and [discover_reference] returns "not
    discovered". *)
Lemma rediscovery_of_live_referent_returns_false :
  discovered_of (heap (world rediscovery_state)) 1 = 1%N /\
  discover_reference debug_build g1_flags g1_env 0 1%N REF_WEAK rediscovery_state
  = Ok (false, rediscovery_state).
Proof. split; reflexivity. Qed.

(** ** The whole of the processing *)

(** On a well-formed processor [process_discovered_references]
    returns.  Its statistics are the numbers of references found on
    the queues of each category; afterwards every discovered list of
    every category is empty, discovery is closed, and the processing
    degree is the one from before the call. *)
Theorem processing_empties_every_queue {G : Type} build flags (env : Collaborators G)
    fuel javaTimeNanos workers pt (s : State G) abs :
  well_formed (heap (world s)) (rp s) abs ->
  entries_valid build (heap (world s)) (rp s) abs ->
  entry_count (rp s) + 1 < size_t_range ->
  (Z.to_nat (entry_count (rp s) + _max_num_queues (rp s)) < fuel)%nat ->
  workers_fit workers (rp s) ->
  flags_in_range flags ->
  exists pt' s',
    process_discovered_references build flags env fuel javaTimeNanos workers pt s
    = Ok ((total_length (_discoveredSoftRefs (rp s)),
           total_length (_discoveredWeakRefs (rp s)),
           total_length (_discoveredFinalRefs (rp s)),
           total_length (_discoveredPhantomRefs (rp s))), pt', s') /\
    (forall rt, lists_of rt (rp s')
                = replicate (length (lists_of rt (rp s))) (DiscoveredList.mk null 0)) /\
    _discovering_refs (rp s') = false /\
    _num_queues (rp s') = _num_queues (rp s) /\
    _max_num_queues (rp s') = _max_num_queues (rp s).
Proof.
  intros Hwf Hval Hrange Hfuel Hfit Hflags.
  destruct (process_discovered_references_spec build flags env fuel javaTimeNanos workers
              pt s abs Hwf Hval Hrange Hfuel Hfit Hflags)
    as (pt' & p' & w' & Hrun & Hempty & Hlen & Hdisc & Hnum & Hmax).
  eexists pt', _. split; [exact Hrun|]. simpl rp.
  split; [|split; [exact Hdisc|split; [exact Hnum|exact Hmax]]].
  intros rt. apply list_eq_same_length with (length (lists_of rt (rp s))).
  - apply length_replicate.
  - apply Hlen.
  - intros i d d' Hi Hd Hd'. apply lookup_replicate in Hd' as [-> _].
    eapply Hempty; eauto.
Qed.

Lemma processing_empties_every_queue_witness :
  exists pt' s',
    process_discovered_references debug_build parallel_flags marking_env 20 7000000
      (Some 2) no_times skewed_state
    = Ok ((total_length (_discoveredSoftRefs (rp skewed_state)),
           total_length (_discoveredWeakRefs (rp skewed_state)),
           total_length (_discoveredFinalRefs (rp skewed_state)),
           total_length (_discoveredPhantomRefs (rp skewed_state))), pt', s') /\
    (forall rt, lists_of rt (rp s')
                = replicate (length (lists_of rt (rp skewed_state)))
                    (DiscoveredList.mk null 0)) /\
    _discovering_refs (rp s') = false /\
    _num_queues (rp s') = _num_queues (rp skewed_state) /\
    _max_num_queues (rp s') = _max_num_queues (rp skewed_state).
Proof.
  apply (processing_empties_every_queue debug_build parallel_flags marking_env 20 7000000
           (Some 2) no_times skewed_state (one_category REF_SOFT skewed_entries 3)).
  - exact skewed_well_formed.
  - apply skewed_entries_valid.
  - vm_compute. reflexivity.
  - vm_compute. lia.
  - vm_compute. split; [reflexivity|discriminate].
  - split; vm_compute; [discriminate|split; reflexivity].
Defined.

(** The pass over a list of Soft, Weak or Phantom references: a
    reference whose referent is null is dropped; one whose referent is
    alive is dropped and its referent handed to the keep-alive
    visitor; every other reference has its referent cleared and goes,
    in the order of the list, to the front of the pending list.  The
    dropped references have a null [discovered] field, the returned
    count is their number, and the list is empty afterwards. *)
Theorem clearing_pass_clears_and_enqueues {G : Type} build (env : Collaborators G)
    conc fuel d l (w : World G) :
  is_list (heap w) d l ->
  NoDup l ->
  Z.of_nat (length l) < size_t_range ->
  (ASSERT build = true -> conc = false ->
     forall y, y ∈ l -> referent_of (heap w) y <> null) ->
  (length l < fuel)%nat ->
  exists w',
    process_discovered_list_work build env fuel conc d true w
      = Ok (Z.of_nat (length l)
            - Z.of_nat (length (pass_keeps env (heap w) (gc w) l)),
            DiscoveredList.mk null 0, w') /\
    lseg (heap w') (pending_list w') (pass_keeps env (heap w) (gc w) l) (pending_list w) /\
    gc w' = pass_gc env (heap w) (gc w) l /\
    (forall x, x ∈ l ->
       if decide (referent_of (heap w) x = null) then discovered_of (heap w') x = null
       else if is_alive env (gc_at_visit env (heap w) (gc w) l x) (referent_of (heap w) x)
            then discovered_of (heap w') x = null
            else x ∈ pass_keeps env (heap w) (gc w) l /\
                 referent_of (heap w') x = null /\
                 next_of (heap w') x = next_of (heap w) x) /\
    (forall y, y ∉ l -> heap w' !! y = heap w !! y).
Proof.
  intros His Hnd Hrange Hvalid Hfuel.
  destruct (process_discovered_list_work_spec build env conc true fuel d l w
              His Hnd Hrange Hvalid Hfuel)
    as (d' & w' & Hrun & (-> & Hseg) & _ & Hgc & Hfr & Hkept & Hdrop).
  exists w'. split; [exact Hrun|]. split; [exact Hseg|]. split; [exact Hgc|].
  split; [|exact Hfr].
  intros x Hx.
  destruct (decide (referent_of (heap w) x = null)) as [Hnull|Hnn].
  - apply Hdrop; [exact Hx|]. intros HxK.
    apply (pass_keeps_referent env (heap w) l (gc w) x HxK). exact Hnull.
  - destruct (is_alive env (gc_at_visit env (heap w) (gc w) l x) (referent_of (heap w) x))
      eqn:Ealive.
    + apply Hdrop; [exact Hx|]. intros HxK.
      pose proof (pass_keeps_alive env (heap w) x l (gc w) Hnd HxK) as Hdead.
      congruence.
    + pose proof (pass_keeps_dead env (heap w) x l (gc w) Hx Hnn Ealive) as HxK.
      split; [exact HxK|].
      destruct (Hkept x HxK) as (r' & Hr' & E1 & E2).
      unfold referent_of at 1, next_of at 1. rewrite Hr'. auto.
Qed.

Lemma clearing_pass_clears_and_enqueues_witness :
  exists w',
    process_discovered_list_work debug_build marking_env 6 false (DiscoveredList.mk 1 5)
      true five_final_world
      = Ok (Z.of_nat (length [1%N; 2%N; 3%N; 4%N; 5%N])
            - Z.of_nat (length (pass_keeps marking_env (heap five_final_world)
                                  (gc five_final_world) [1%N; 2%N; 3%N; 4%N; 5%N])),
            DiscoveredList.mk null 0, w') /\
    lseg (heap w') (pending_list w')
      (pass_keeps marking_env (heap five_final_world) (gc five_final_world)
         [1%N; 2%N; 3%N; 4%N; 5%N])
      (pending_list five_final_world) /\
    gc w' = pass_gc marking_env (heap five_final_world) (gc five_final_world)
              [1%N; 2%N; 3%N; 4%N; 5%N] /\
    (forall x, x ∈ [1%N; 2%N; 3%N; 4%N; 5%N] ->
       if decide (referent_of (heap five_final_world) x = null)
       then discovered_of (heap w') x = null
       else if is_alive marking_env
                 (gc_at_visit marking_env (heap five_final_world) (gc five_final_world)
                    [1%N; 2%N; 3%N; 4%N; 5%N] x)
                 (referent_of (heap five_final_world) x)
            then discovered_of (heap w') x = null
            else x ∈ pass_keeps marking_env (heap five_final_world) (gc five_final_world)
                       [1%N; 2%N; 3%N; 4%N; 5%N] /\
                 referent_of (heap w') x = null /\
                 next_of (heap w') x = next_of (heap five_final_world) x) /\
    (forall y, y ∉ [1%N; 2%N; 3%N; 4%N; 5%N] ->
       heap w' !! y = heap five_final_world !! y).
Proof.
  apply (clearing_pass_clears_and_enqueues debug_build marking_env false 6
           (DiscoveredList.mk 1 5) [1%N; 2%N; 3%N; 4%N; 5%N] five_final_world).
  - follow_chain.
  - apply (bool_decide_unpack _). vm_compute. exact I.
  - reflexivity.
  - intros _ _ y Hy.
    repeat (apply elem_of_cons in Hy as [->|Hy]; [vm_compute; discriminate|]).
    apply elem_of_nil in Hy. contradiction.
  - simpl. lia.
Defined.

(** ** Discovery of a new reference *)

(** On a well-formed processor, [discover_reference] for an object
    that passes the checks and has a null [discovered] field returns
    success: the object is the new head of the queue chosen for it, the
    count of that queue is one more, the [discovered] field of the
    object points to the old head, or to the object itself when the
    queue was empty, no other object is written, and the processor is
    well formed again, so the object is on this queue and on no
    other. *)
Theorem discovery_adds_at_head {G : Type} build flags (env : Collaborators G)
    worker_id o rt (s : State G) abs r :
  well_formed (heap (world s)) (rp s) abs ->
  entries_valid build (heap (world s)) (rp s) abs ->
  java_lang_ref_Reference.load (heap (world s)) o = Some r ->
  discovered r = null ->
  rt <> REF_NONE ->
  discovery_gates_open flags env o rt s = true ->
  0 <= discovery_queue flags worker_id (rp s) < _max_num_queues (rp s) ->
  (_discovery_is_mt (rp s) = false -> processing_is_mt flags (rp s) = true ->
   0 <= _next_id (rp s) < _num_queues (rp s)) ->
  (ASSERT build = true -> _discovery_is_concurrent (rp s) = false -> referent r <> null) ->
  entry_count (rp s) + 1 < size_t_range ->
  let i := Z.to_nat (discovery_queue flags worker_id (rp s)) in
  exists s' d l,
    discover_reference build flags env worker_id o rt s = Ok (true, s') /\
    lists_of rt (rp s) !! i = Some d /\
    is_list (heap (world s)) d l /\
    lists_of rt (rp s') !! i
    = Some (DiscoveredList.mk o (DiscoveredList.length d + 1)) /\
    is_list (heap (world s')) (DiscoveredList.mk o (DiscoveredList.length d + 1)) (o :: l) /\
    discovered_of (heap (world s')) o = hd o l /\
    (forall y, y <> o -> heap (world s') !! y = heap (world s) !! y) /\
    well_formed (heap (world s')) (rp s') (with_entries rt (<[i := o :: l]> (abs rt)) abs) /\
    entries_valid build (heap (world s')) (rp s')
      (with_entries rt (<[i := o :: l]> (abs rt)) abs).
Proof.
  intros Hwf Hval Hr Hnull Hrt Hgates Hq Hnext Hvalid Hrange i.
  destruct (discover_reference_spec build flags env worker_id o rt s abs r
              Hwf Hval Hr Hnull Hrt Hgates Hq Hnext Hvalid Hrange)
    as (s' & d & l & Hrun & Hd & Hl & Hls' & _ & Hh' & Hwf' & Hval' & Hcount).
  fold i in Hd, Hl, Hls', Hwf', Hval'.
  pose proof (Forall2_lookup_lr _ _ _ _ _ _ (proj1 (wf_lists _ _ _ Hwf rt)) Hd Hl) as His.
  assert (Hadd : DiscoveredList.add_as_head o d
                 = DiscoveredList.mk o (DiscoveredList.length d + 1)).
  { unfold DiscoveredList.add_as_head, DiscoveredList.length. f_equal.
    pose proof (is_list_length _ _ _ His) as Hlen. unfold DiscoveredList.length in Hlen.
    destruct (well_formed_lookup _ _ _ rt i Hwf Hrt ltac:(subst i; lia))
      as (d0 & l0 & Hd0 & Hl0 & _ & _ & Hll).
    rewrite Hl in Hl0. injection Hl0 as <-.
    unfold wrap_size_t. apply Z.mod_small. lia. }
  assert (Hd' : lists_of rt (rp s') !! i = Some (DiscoveredList.add_as_head o d)).
  { rewrite Hls'. apply list_lookup_insert_eq. eapply lookup_lt_Some; eauto. }
  assert (Hl' : with_entries rt (<[i := o :: l]> (abs rt)) abs rt !! i = Some (o :: l)).
  { unfold with_entries. destruct (decide (rt = rt)); [|contradiction].
    apply list_lookup_insert_eq. eapply lookup_lt_Some; eauto. }
  pose proof (Forall2_lookup_lr _ _ _ _ _ _ (proj1 (wf_lists _ _ _ Hwf' rt)) Hd' Hl') as His'.
  rewrite Hadd in Hd', His'.
  exists s', d, l. split; [exact Hrun|]. split; [exact Hd|]. split; [exact His|].
  split; [exact Hd'|]. split; [exact His'|]. split; [|split; [|split; assumption]].
  - rewrite Hh'. unfold discovered_of.
    rewrite load_insert_eq by (eapply load_not_null; eauto). simpl.
    rewrite (is_list_head _ _ _ His). destruct l as [|x l]; simpl.
    + destruct (decide (null <> null)); [contradiction|reflexivity].
    + pose proof (is_list_nonempty _ _ (x :: l) ltac:(discriminate) His) as Hseg.
      assert (x <> null).
      { eapply lseg_not_null; [exact Hseg|]. apply elem_of_cons. auto. }
      destruct (decide (x <> null)); [reflexivity|contradiction].
  - intros y Hy. rewrite Hh'. apply lookup_insert_ne. auto.
Qed.

Lemma open_state_well_formed :
  well_formed (heap (world open_state)) (rp open_state) (one_category REF_SOFT [[]] 1).
Proof.
  apply (well_formed_one_category _ (rp open_state) REF_SOFT [[]]).
  - discriminate.
  - vm_compute. split; reflexivity.
  - vm_compute. split; [reflexivity|discriminate].
  - apply (are_lists_replicate _ 1).
  - reflexivity.
  - intros rt H1 H2. destruct rt; try contradiction; reflexivity.
Qed.

Lemma discovery_adds_at_head_witness :
  exists s' d l,
    discover_reference debug_build serial_flags marking_env 0 1%N REF_SOFT open_state
      = Ok (true, s') /\
    lists_of REF_SOFT (rp open_state) !! 0%nat = Some d /\
    is_list (heap (world open_state)) d l /\
    lists_of REF_SOFT (rp s') !! 0%nat
    = Some (DiscoveredList.mk 1 (DiscoveredList.length d + 1)) /\
    is_list (heap (world s')) (DiscoveredList.mk 1 (DiscoveredList.length d + 1))
      (1%N :: l) /\
    discovered_of (heap (world s')) 1 = hd 1%N l /\
    (forall y, y <> 1%N -> heap (world s') !! y = heap (world open_state) !! y) /\
    well_formed (heap (world s')) (rp s')
      (with_entries REF_SOFT (<[0%nat := 1%N :: l]> [[]]) (one_category REF_SOFT [[]] 1)) /\
    entries_valid debug_build (heap (world s')) (rp s')
      (with_entries REF_SOFT (<[0%nat := 1%N :: l]> [[]]) (one_category REF_SOFT [[]] 1)).
Proof.
  apply (discovery_adds_at_head debug_build serial_flags marking_env 0 1%N REF_SOFT
           open_state (one_category REF_SOFT [[]] 1) (mkReference 10 0 0)).
  - exact open_state_well_formed.
  - apply entries_valid_one_category. constructor.
  - reflexivity.
  - reflexivity.
  - discriminate.
  - reflexivity.
  - vm_compute. split; [discriminate|reflexivity].
  - intros _ H. discriminate H.
  - intros _ _. discriminate.
  - vm_compute. reflexivity.
Defined.

(** * The operations beside the processing cycle *)

(** ** Lists of queues, put together and taken apart *)

Lemma on_lists_app (a b : list (list N)) x :
  on_lists (a ++ b) x <-> on_lists a x \/ on_lists b x.
Proof.
  split.
  - intros (i & l & Hl & Hx). apply lookup_app_Some in Hl as [Hl|[_ Hl]].
    + left. exists i, l. auto.
    + right. exists (i - length a)%nat, l. auto.
  - intros [(i & l & Hl & Hx)|(i & l & Hl & Hx)].
    + exists i, l. split; [|exact Hx]. apply lookup_app_Some. auto.
    + exists (length a + i)%nat, l. split; [|exact Hx]. apply lookup_app_Some. right.
      split; [lia|]. replace (length a + i - length a)%nat with i by lia. exact Hl.
Qed.

Lemma separate_app (a b : list (list N)) :
  separate a -> separate b -> (forall x, on_lists a x -> on_lists b x -> False) ->
  separate (a ++ b).
Proof.
  intros [Na Sa] [Nb Sb] Hab. split.
  - intros i l Hl. apply lookup_app_Some in Hl as [Hl|[_ Hl]]; eauto.
  - intros i j li lj x Hi Hj Hxi Hxj.
    apply lookup_app_Some in Hi as [Hi|[Hia Hi]];
      apply lookup_app_Some in Hj as [Hj|[Hja Hj]].
    + eapply Sa; eauto.
    + exfalso. apply (Hab x); [exists i, li|exists (j - length a)%nat, lj]; auto.
    + exfalso. apply (Hab x); [exists j, lj|exists (i - length a)%nat, li]; auto.
    + assert (i - length a = j - length a)%nat by (eapply Sb; eauto). lia.
Qed.

Lemma separate_cons_inv (l : list N) (abs : list (list N)) :
  separate (l :: abs) ->
  NoDup l /\ separate abs /\ forall x, x ∈ l -> ~ on_lists abs x.
Proof.
  intros [Hn Hs]. split; [apply (Hn 0%nat); reflexivity|]. split.
  - split.
    + intros i li Hi. apply (Hn (S i)). exact Hi.
    + intros i j li lj x Hi Hj Hxi Hxj.
      assert (S i = S j) by (apply (Hs (S i) (S j) li lj x); auto). lia.
  - intros x Hx (j & lj & Hj & Hxj).
    assert (0%nat = S j) by (apply (Hs 0%nat (S j) l lj x); auto). discriminate.
Qed.

(** The array of a well-formed processor holds the entries of the four
    categories, window after window. *)
Lemma well_formed_array (h : gmap N Reference) p abs :
  well_formed h p abs -> are_lists h (_discovered_refs p) (all_entries abs).
Proof.
  intros Hwf.
  pose proof (wf_lists _ _ _ Hwf REF_SOFT) as [F1 S1].
  pose proof (wf_lists _ _ _ Hwf REF_WEAK) as [F2 S2].
  pose proof (wf_lists _ _ _ Hwf REF_FINAL) as [F3 S3].
  pose proof (wf_lists _ _ _ Hwf REF_PHANTOM) as [F4 S4].
  pose proof (wf_apart _ _ _ Hwf) as Hap.
  split.
  - unfold _discovered_refs, all_entries. repeat apply Forall2_app; assumption.
  - unfold all_entries.
    apply separate_app; [exact S1| |].
    + apply separate_app; [exact S2| |].
      * apply separate_app; [exact S3|exact S4|].
        intros x H3 H4. pose proof (Hap _ _ x H3 H4). discriminate.
      * intros x H2 H34. apply on_lists_app in H34 as [H|H];
          pose proof (Hap _ _ x H2 H); discriminate.
    + intros x H1 H. apply on_lists_app in H as [H|H];
        [|apply on_lists_app in H as [H|H]];
        pose proof (Hap _ _ x H1 H); discriminate.
Qed.

Lemma on_all_entries (abs : ReferenceType -> list (list N)) x :
  on_lists (all_entries abs) x <->
  exists rt, rt <> REF_NONE /\ on_lists (abs rt) x.
Proof.
  unfold all_entries. rewrite !on_lists_app. split.
  - intros [H|[H|[H|H]]]; eexists; (split; [|exact H]); discriminate.
  - intros (rt & Hrt & H). destruct rt; try contradiction; auto.
Qed.

(** ** Giving up the discovered references *)

Lemma clear_discovered_loop_spec : forall l x obj (h : gmap N Reference) fuel,
  lseg h x (x :: l) (List.last (x :: l) null) -> NoDup (x :: l) -> obj <> x ->
  (length (x :: l) < fuel)%nat ->
  exists h', clear_discovered_loop fuel obj x h = Ok h' /\
    (forall y, y ∈ x :: l ->
       exists r, java_lang_ref_Reference.load h y = Some r /\
         java_lang_ref_Reference.load h' y
         = Some (mkReference (referent r) null (next r))) /\
    (forall y, y ∉ x :: l -> h' !! y = h !! y).
Proof.
  induction l as [|x2 l IH]; intros x obj h fuel Hseg Hnd Hobj Hfuel.
  - destruct fuel as [|[|fuel]]; simpl in Hfuel; try lia.
    simpl in Hseg. destruct Hseg as (_ & r & Hr & Hd).
    pose proof (load_not_null _ _ _ Hr) as Hxn.
    exists (<[x := mkReference (referent r) null (next r)]> h). split.
    + cbn [clear_discovered_loop].
      destruct (decide (x <> obj)) as [_|Hc]; [|exfalso; apply Hc; congruence].
      unfold java_lang_ref_Reference.get_discovered. rewrite Hr. simpl.
      rewrite (set_discovered_raw_load _ _ _ _ Hr), bind_Ok. rewrite Hd.
      destruct (decide (x <> x)) as [Hc|_]; [contradiction|reflexivity].
    + split.
      * intros y Hy. apply list_elem_of_singleton in Hy as ->.
        exists r. split; [exact Hr|]. apply load_insert_eq. exact Hxn.
      * intros y Hy. apply not_elem_of_cons in Hy as [Hy _].
        apply lookup_insert_ne. congruence.
  - destruct fuel as [|fuel]; [simpl in Hfuel; lia|].
    destruct Hseg as (_ & r & Hr & Hseg).
    pose proof (load_not_null _ _ _ Hr) as Hxn.
    pose proof Hseg as (Hd & _).
    apply NoDup_cons in Hnd as [Hx Hnd].
    set (h1 := <[x := mkReference (referent r) null (next r)]> h).
    destruct (IH x2 x h1 fuel) as (h' & Hrun & Hin & Hout).
    { apply lseg_frame; [exact Hx|]. rewrite Hd in Hseg. exact Hseg. }
    { exact Hnd. }
    { intros ->. apply Hx. apply elem_of_cons. auto. }
    { simpl in *. lia. }
    exists h'. split.
    + cbn [clear_discovered_loop].
      destruct (decide (x <> obj)) as [_|Hc]; [|exfalso; apply Hc; congruence].
      unfold java_lang_ref_Reference.get_discovered. rewrite Hr. simpl.
      rewrite (set_discovered_raw_load _ _ _ _ Hr), bind_Ok. rewrite Hd. exact Hrun.
    + split.
      * intros y Hy. apply elem_of_cons in Hy as [->|Hy].
        -- exists r. split; [exact Hr|].
           unfold java_lang_ref_Reference.load.
           destruct (decide (x = null)); [contradiction|].
           rewrite Hout by exact Hx. subst h1. apply lookup_insert_eq.
        -- destruct (Hin y Hy) as (ry & Hy1 & Hy2). exists ry. split; [|exact Hy2].
           subst h1. rewrite load_insert_ne in Hy1; [exact Hy1|].
           intros ->. contradiction.
      * intros y Hy. apply not_elem_of_cons in Hy as [Hyx Hy].
        rewrite Hout by exact Hy. subst h1. apply lookup_insert_ne. congruence.
Qed.

Lemma clear_discovered_references_spec fuel d l (h : gmap N Reference) :
  is_list h d l -> NoDup l -> (length l < fuel)%nat ->
  exists h', clear_discovered_references fuel d h = Ok (DiscoveredList.mk null 0, h') /\
    (forall y, y ∈ l ->
       exists r, java_lang_ref_Reference.load h y = Some r /\
         java_lang_ref_Reference.load h' y
         = Some (mkReference (referent r) null (next r))) /\
    (forall y, y ∉ l -> h' !! y = h !! y).
Proof.
  intros His Hnd Hfuel. unfold clear_discovered_references. destruct l as [|x l].
  - destruct His as [_ Hhead]. rewrite Hhead.
    destruct fuel as [|fuel]; [simpl in Hfuel; lia|].
    exists h. split.
    + cbn [clear_discovered_loop].
      destruct (decide (null <> null)) as [Hc|_]; [contradiction|reflexivity].
    + split; [|auto]. intros y Hy. apply elem_of_nil in Hy. contradiction.
  - pose proof (is_list_nonempty h d (x :: l) ltac:(discriminate) His) as Hseg.
    pose proof Hseg as (Hhead & r & Hr & _).
    pose proof (load_not_null _ _ _ Hr) as Hxn.
    rewrite Hhead in Hseg |- *.
    destruct (clear_discovered_loop_spec l x null h fuel Hseg Hnd ltac:(congruence) Hfuel)
      as (h' & Hrun & Hin & Hout).
    exists h'. rewrite Hrun. auto.
Qed.

Lemma abandon_loop_spec fuel : forall rest abs pre (h : gmap N Reference),
  Forall2 (is_list h) rest abs -> separate abs ->
  (forall (i : nat) l, abs !! i = Some l -> (length l < fuel)%nat) ->
  exists h',
    abandon_loop fuel (length rest) (Z.of_nat (length pre)) (pre ++ rest) h
    = Ok (pre ++ replicate (length rest) (DiscoveredList.mk null 0), h') /\
    (forall y, on_lists abs y ->
       exists r, java_lang_ref_Reference.load h y = Some r /\
         java_lang_ref_Reference.load h' y
         = Some (mkReference (referent r) null (next r))) /\
    (forall y, ~ on_lists abs y -> h' !! y = h !! y).
Proof.
  induction rest as [|d rest IH]; intros abs pre h HF Hsep Hfuel.
  - apply Forall2_nil_inv_l in HF as ->. exists h. split; [reflexivity|].
    split; [|auto]. intros y (i & l & Hl & _). discriminate.
  - apply Forall2_cons_inv_l in HF as (l & abs' & His & HF & ->).
    destruct (separate_cons_inv _ _ Hsep) as (Hnd & Hsep' & Hapart).
    destruct (clear_discovered_references_spec fuel d l h His Hnd (Hfuel 0%nat l eq_refl))
      as (h1 & Hclear & Hin1 & Hout1).
    destruct (IH abs' (pre ++ [DiscoveredList.mk null 0]) h1) as (h' & Hrun & Hin & Hout).
    { apply Forall2_same_length_lookup. split; [eapply Forall2_length; eauto|].
      intros i di li Hdi Hli. eapply is_list_agree; [|eapply Forall2_lookup_lr; eauto].
      intros y Hy. apply Hout1. intros Hyl. apply (Hapart y Hyl). exists i, li. auto. }
    { exact Hsep'. }
    { intros i li Hli. apply (Hfuel (S i)). exact Hli. }
    exists h'. split.
    + cbn [abandon_loop length].
      assert (Hd : (pre ++ d :: rest) !! length pre = Some d).
      { rewrite lookup_app_r by lia. rewrite Nat.sub_diag. reflexivity. }
      rewrite (list_at_Some _ _ _ Hd), bind_Ok, Hclear, bind_Ok. rewrite Nat2Z.id.
      replace (<[length pre := DiscoveredList.mk null 0]> (pre ++ d :: rest))
        with ((pre ++ [DiscoveredList.mk null 0]) ++ rest).
      2:{ rewrite insert_app_r_alt by lia. rewrite Nat.sub_diag. simpl.
          rewrite <- app_assoc. reflexivity. }
      replace (Z.of_nat (length pre) + 1)
        with (Z.of_nat (length (pre ++ [DiscoveredList.mk null 0])))
        by (rewrite length_app; simpl; lia).
      rewrite Hrun. rewrite <- app_assoc. reflexivity.
    + split.
      * intros y Hy.
        apply (on_lists_app [l] abs') in Hy as [(i & li & Hli & Hy)|Hy].
        -- destruct i; [|destruct i; discriminate]. injection Hli as <-.
           destruct (Hin1 y Hy) as (r & Hr & Hr1). exists r. split; [exact Hr|].
           rewrite <- Hr1. unfold java_lang_ref_Reference.load.
           destruct (decide (y = null)); [reflexivity|].
           apply Hout. intros Hy'. exact (Hapart y Hy Hy').
        -- destruct (Hin y Hy) as (r & Hr & Hr').
           exists r. split; [|exact Hr'].
           rewrite <- Hr. unfold java_lang_ref_Reference.load.
           destruct (decide (y = null)); [reflexivity|].
           symmetry. apply Hout1. intros Hyl. exact (Hapart y Hyl Hy).
      * intros y Hy. rewrite Hout.
        -- apply Hout1. intros Hyl. apply Hy. exists 0%nat, l. auto.
        -- intros (i & li & Hli & Hyi). apply Hy. exists (S i), li. auto.
Qed.

Lemma total_length_app (a b : list DiscoveredList.t) :
  total_length (a ++ b) = total_length a + total_length b.
Proof.
  unfold total_length. induction a as [|d a IH]; simpl; [reflexivity|].
  rewrite IH. lia.
Qed.

Lemma entry_count_array p : total_length (_discovered_refs p) = entry_count p.
Proof. unfold _discovered_refs, entry_count. rewrite !total_length_app. lia. Qed.

Lemma lists_of_set_discovered_refs (n : nat) c p rt :
  n = Z.to_nat (_max_num_queues p) -> rt <> REF_NONE ->
  lists_of rt (set_discovered_refs (replicate (4 * n) c) p) = replicate n c.
Proof.
  intros -> Hrt. unfold set_discovered_refs.
  destruct rt; try contradiction; simpl lists_of;
    rewrite ?drop_replicate, ?take_replicate; f_equal; lia.
Qed.

Lemma no_category_no_entries (h : gmap N Reference) p abs x :
  well_formed h p abs -> ~ on_lists (abs REF_NONE) x.
Proof.
  intros Hwf (i & l & Hl & _). destruct (wf_lists _ _ _ Hwf REF_NONE) as [HF _].
  simpl in HF. apply Forall2_nil_inv_l in HF. rewrite HF in Hl. discriminate.
Qed.

(** The whole of [abandon_partial_discovery] on a well-formed processor. *)
Lemma abandon_partial_discovery_spec fuel p (h : gmap N Reference) abs :
  well_formed h p abs ->
  4 * _max_num_queues p < uint_range ->
  (Z.to_nat (entry_count p) < fuel)%nat ->
  exists h',
    abandon_partial_discovery fuel p h
    = Ok (set_discovered_refs
            (replicate (4 * Z.to_nat (_max_num_queues p)) (DiscoveredList.mk null 0)) p,
          h') /\
    (forall rt x, on_lists (abs rt) x ->
       exists r, java_lang_ref_Reference.load h x = Some r /\
         java_lang_ref_Reference.load h' x
         = Some (mkReference (referent r) null (next r))) /\
    (forall y, (forall rt, ~ on_lists (abs rt) y) -> h' !! y = h !! y).
Proof.
  intros Hwf H4 Hfuel.
  pose proof (wf_max _ _ _ Hwf) as Hmax.
  destruct (well_formed_array h p abs Hwf) as [HF Hsep].
  assert (Hlen : length (_discovered_refs p) = (4 * Z.to_nat (_max_num_queues p))%nat).
  { unfold _discovered_refs. rewrite !length_app.
    pose proof (wf_length _ _ _ Hwf REF_SOFT ltac:(discriminate)).
    pose proof (wf_length _ _ _ Hwf REF_WEAK ltac:(discriminate)).
    pose proof (wf_length _ _ _ Hwf REF_FINAL ltac:(discriminate)).
    pose proof (wf_length _ _ _ Hwf REF_PHANTOM ltac:(discriminate)).
    simpl in *. lia. }
  destruct (abandon_loop_spec fuel (_discovered_refs p) (all_entries abs) [] h HF Hsep)
    as (h' & Hrun & Hin & Hout).
  { intros i l Hl. destruct (Forall2_lookup_r _ _ _ _ _ HF Hl) as (d & Hd & His).
    pose proof (is_list_length _ _ _ His) as Hdl.
    assert (Hnn : forall (j : nat) dj, _discovered_refs p !! j = Some dj ->
              0 <= DiscoveredList.length dj).
    { intros j dj Hj. destruct (Forall2_lookup_l _ _ _ _ _ HF Hj) as (lj & _ & Hisj).
      rewrite (is_list_length _ _ _ Hisj). lia. }
    pose proof (total_length_ge _ i d Hnn Hd) as Hge.
    rewrite entry_count_array in Hge. lia. }
  exists h'. split.
  - unfold abandon_partial_discovery, number_of_subclasses_of_ref.
    replace (Z.to_nat (wrap_uint (_max_num_queues p * 4)))
      with (length (_discovered_refs p)).
    2:{ rewrite Hlen. unfold wrap_uint. rewrite Z.mod_small by (fold uint_range; lia). lia. }
    change 0 with (Z.of_nat (length (@nil DiscoveredList.t))) at 1.
    change (_discovered_refs p) with ([] ++ _discovered_refs p) at 2.
    rewrite Hrun, bind_Ok. simpl app. rewrite Hlen. reflexivity.
  - split.
    + intros rt x Hx. apply Hin. apply on_all_entries. exists rt. split; [|exact Hx].
      intros ->. exact (no_category_no_entries _ _ _ _ Hwf Hx).
    + intros y Hy. apply Hout. intros Hon. apply on_all_entries in Hon as (rt & _ & Hon).
      exact (Hy rt Hon).
Qed.

(** ** Precleaning *)

Lemma preclean_keeps_sub {G : Type} (env : Collaborators G) h (g : G) l x :
  x ∈ preclean_keeps env h g l ->
  x ∈ l /\ referent_of h x <> null /\ is_alive env g (referent_of h x) = false.
Proof.
  unfold preclean_keeps. intros Hx. apply list_elem_of_filter in Hx. tauto.
Qed.

Lemma preclean_keeps_dropped {G : Type} (env : Collaborators G) h (g : G) l x :
  x ∈ l -> x ∉ preclean_keeps env h g l -> preclean_drops env h g x.
Proof.
  intros Hx Hn. unfold preclean_drops.
  destruct (decide (referent_of h x = null)) as [|Hr]; [auto|].
  destruct (is_alive env g (referent_of h x)) eqn:Ha; [auto|].
  exfalso. apply Hn. unfold preclean_keeps. apply list_elem_of_filter. auto.
Qed.

Section PrecleanProofs.

Context {G Y : Type}.
Variable build : Build.
Variable env : Collaborators G.
Variable yield : YieldClosure Y.
Variable h0 : gmap N Reference.

Lemma preclean_discovered_reflist_loop_spec : forall rest kept fuel it (w : World G) y,
  links (heap w) kept rest it ->
  _current_discovered it = hd null rest ->
  (forall z, z ∈ rest ->
     java_lang_ref_Reference.load (heap w) z = java_lang_ref_Reference.load h0 z) ->
  (ASSERT build = true -> rest <> [] ->
     _first_seen it <> null /\ _first_seen it ∉ tl rest) ->
  Z.of_nat (length (kept ++ rest)) < size_t_range ->
  (length rest < fuel)%nat ->
  exists aborted l1 l2 it' h' y',
    preclean_discovered_reflist_loop build env yield fuel it w y
    = Ok (aborted, it', set_heap h' w, y') /\
    rest = l1 ++ l2 /\
    (aborted = false -> l2 = []) /\
    (never_yields yield -> aborted = false) /\
    links h' (kept ++ preclean_keeps env h0 (gc w) l1) l2 it' /\
    keeps_payload (heap w) h' /\
    (forall z, z ∉ kept -> z ∉ l1 -> h' !! z = heap w !! z) /\
    (forall z, z ∈ l1 -> z ∉ preclean_keeps env h0 (gc w) l1 ->
       discovered_of h' z = null).
Proof.
  induction rest as [|x rest IH]; intros kept fuel it w y Hl Hcur Hagree Hfs Hrange Hfuel.
  - destruct fuel as [|fuel]; [simpl in Hfuel; lia|].
    exists false, [], [], it, (heap w), y. simpl. unfold has_next. rewrite Hcur.
    rewrite bool_decide_eq_true_2 by reflexivity. simpl.
    rewrite app_nil_r. split; [destruct w; reflexivity|].
    split; [reflexivity|]. split; [reflexivity|]. split; [reflexivity|].
    split; [exact Hl|]. split; [apply keeps_payload_refl|]. split; [auto|].
    intros z Hz. apply elem_of_nil in Hz. contradiction.
  - destruct fuel as [|fuel]; [simpl in Hfuel; lia|].
    simpl in Hcur, Hfuel.
    cbn [preclean_discovered_reflist_loop].
    rewrite (has_next_cons _ _ _ _ _ Hl Hcur).
    destruct (should_return_fine_grain yield y) as [stop y1] eqn:Hy.
    destruct stop.
    { (* the caller wants the thread back *)
      exists true, [], (x :: rest), it, (heap w), y1. simpl. rewrite app_nil_r.
      split; [destruct w; reflexivity|]. split; [reflexivity|].
      split; [discriminate|]. split.
      { intros Hnever. destruct (Hnever y) as [_ Hn]. rewrite Hy in Hn. exact Hn. }
      split; [exact Hl|]. split; [apply keeps_payload_refl|]. split; [auto|].
      intros z Hz. apply elem_of_nil in Hz. contradiction. }
    rewrite length_app in Hrange. simpl length in Hrange.
    destruct (links_not_in _ _ _ _ _ Hl) as (Hxk & Hxr & Hxkr).
    destruct (load_ptrs_spec build true kept x rest it w Hl Hcur ltac:(discriminate))
      as (r & Hr & Hsucc & Hload).
    assert (Hr0 : java_lang_ref_Reference.load h0 x = Some r).
    { rewrite <- (Hagree x) by (apply elem_of_cons; auto). exact Hr. }
    assert (Href0 : referent_of h0 x = referent r)
      by (unfold referent_of; rewrite Hr0; reflexivity).
    set (it1 := mkIter (_refs_list it) (_prev_discovered_addr it) (_prev_discovered it)
                  x (Some (AdrDiscovered x)) (successor x rest) (referent r)
                  (_first_seen it) (_processed it) (_removed it)) in *.
    assert (Hl1 : links (heap w) kept (x :: rest) it1)
      by (apply (links_ext _ _ _ it); auto).
    assert (Hfs' : ASSERT build = true -> hd null rest <> _first_seen it).
    { intros Ha. destruct (Hfs Ha ltac:(discriminate)) as (Hn & Hnin). simpl in Hnin.
      destruct rest as [|z rest']; simpl; [congruence|].
      intros E. apply Hnin. rewrite <- E. apply elem_of_cons. auto. }
    assert (Hfs_rest : ASSERT build = true -> rest <> [] ->
              _first_seen it <> null /\ _first_seen it ∉ tl rest).
    { intros Ha _. destruct (Hfs Ha ltac:(discriminate)) as (Hn & Hnin).
      split; [exact Hn|].
      simpl in Hnin. intros Hin. apply Hnin.
      destruct rest; simpl in Hin; [apply elem_of_nil in Hin; contradiction|].
      apply elem_of_cons. auto. }
    rewrite Hload, bind_Ok. clear Hload.
    change (_referent it1) with (referent r).
    unfold is_referent_alive. change (_referent it1) with (referent r).
    set (drop := bool_decide (referent r = null) || is_alive env (gc w) (referent r)).
    assert (Hkeeps : forall l, preclean_keeps env h0 (gc w) (x :: l)
                     = if drop then preclean_keeps env h0 (gc w) l
                       else x :: preclean_keeps env h0 (gc w) l).
    { intros l. unfold preclean_keeps. rewrite filter_cons. rewrite Href0. subst drop.
      destruct (decide (referent r <> null /\ is_alive env (gc w) (referent r) = false))
        as [[H1 H2]|Hn].
      - rewrite bool_decide_eq_false_2 by exact H1. rewrite H2. reflexivity.
      - destruct (decide (referent r = null)) as [H1|H1].
        + rewrite bool_decide_eq_true_2 by exact H1. reflexivity.
        + rewrite bool_decide_eq_false_2 by exact H1.
          destruct (is_alive env (gc w) (referent r)); [reflexivity|].
          exfalso. apply Hn. auto. }
    assert (Hbody :
      (if decide (referent r = null) then
         '(it2, w2) ← remove build it1 w;
         it3 ← move_to_next build it2;
         preclean_discovered_reflist_loop build env yield fuel it3 w2 y1
       else if is_alive env (gc w) (referent r) then
         '(it2, w2) ← remove build it1 w;
         it3 ← move_to_next build it2;
         preclean_discovered_reflist_loop build env yield fuel it3 w2 y1
       else
         it3 ← iter_next build it1;
         preclean_discovered_reflist_loop build env yield fuel it3 w y1)
      = if drop then
          '(it2, w2) ← remove build it1 w;
          it3 ← move_to_next build it2;
          preclean_discovered_reflist_loop build env yield fuel it3 w2 y1
        else
          it3 ← iter_next build it1;
          preclean_discovered_reflist_loop build env yield fuel it3 w y1).
    { subst drop. destruct (decide (referent r = null)) as [H1|H1].
      - rewrite bool_decide_eq_true_2 by exact H1. reflexivity.
      - rewrite bool_decide_eq_false_2 by exact H1. reflexivity. }
    rewrite Hbody. clear Hbody. destruct drop.
    + (* cleared or reachable: dropped *)
      destruct (remove_spec build kept x rest it1 w r Hl1 eq_refl eq_refl eq_refl Hr
                  ltac:(rewrite length_app; simpl length; lia))
        as (it2 & h2 & Hrm & Hl2 & Hc2 & Hn2 & Ha2 & Hf2 & Hp2 & Hr2 & Hx2 & Hpay2 & Hfr2).
      rewrite Hrm, bind_Ok.
      rewrite (move_to_next_spec build x rest it2 Hc2 Hn2 Hxr)
        by (rewrite Hf2; exact Hfs').
      rewrite bind_Ok.
      edestruct (IH kept fuel) as (ab & l1 & l2 & it' & h' & y' & Hrun & Hsplit & Hdone &
                                   Hnever & Hl' & Hpay' & Hfr' & Hdrop');
        [| | | | | |
         exists ab, (x :: l1), l2, it', h', y'; split; [exact Hrun|]].
      * eapply links_ext; [| | |exact Hl2]; reflexivity.
      * reflexivity.
      * intros z Hz. simpl heap. unfold java_lang_ref_Reference.load.
        rewrite Hfr2.
        -- apply (Hagree z). apply elem_of_cons. auto.
        -- intros Hin. destruct Hl as (_ & Hnd & _).
           apply NoDup_app in Hnd as (_ & Hd & _). apply (Hd z Hin).
           apply elem_of_cons. auto.
        -- intros ->. contradiction.
      * simpl. rewrite Hf2. exact Hfs_rest.
      * rewrite length_app. lia.
      * lia.
      * simpl in Hl', Hpay', Hfr', Hdrop'. rewrite Hkeeps.
        split; [rewrite Hsplit; reflexivity|]. split; [exact Hdone|].
        split; [exact Hnever|]. split; [exact Hl'|].
        split; [eapply keeps_payload_trans; eauto|].
        split.
        { intros z Hzk Hzr. apply not_elem_of_cons in Hzr as (Hzx & Hzr).
          rewrite Hfr' by auto. apply Hfr2; auto. }
        intros z Hz Hzk. apply elem_of_cons in Hz as [->|Hz]; [|apply Hdrop'; auto].
        unfold discovered_of, java_lang_ref_Reference.load.
        rewrite Hfr'; [| exact Hxk |].
        -- fold (java_lang_ref_Reference.load h2 x). rewrite Hx2. reflexivity.
        -- intros Hin. apply Hxr. rewrite Hsplit. apply elem_of_app. auto.
    + (* neither: kept for the collection *)
      rewrite (iter_next_spec build x rest it1 eq_refl eq_refl eq_refl Hxr Hfs').
      rewrite bind_Ok.
      edestruct (IH (kept ++ [x]) fuel) as (ab & l1 & l2 & it' & h' & y' & Hrun & Hsplit &
                                   Hdone & Hnever & Hl' & Hpay' & Hfr' & Hdrop');
        [| | | | | |
         exists ab, (x :: l1), l2, it', h', y'; split; [exact Hrun|]].
      * eapply links_keep; [| | |exact Hl1]; reflexivity.
      * reflexivity.
      * intros z Hz. apply Hagree. apply elem_of_cons. auto.
      * exact Hfs_rest.
      * rewrite !length_app. simpl length. lia.
      * lia.
      * rewrite Hkeeps. rewrite <- app_assoc in Hl'. simpl app in Hl'.
        split; [rewrite Hsplit; reflexivity|]. split; [exact Hdone|].
        split; [exact Hnever|]. split; [exact Hl'|].
        split; [exact Hpay'|].
        split.
        { intros z Hzk Hzr. apply not_elem_of_cons in Hzr as (Hzx & Hzr).
          apply Hfr'; [|exact Hzr]. intros Hin. apply elem_of_app in Hin as [Hin|Hin].
          - contradiction.
          - apply list_elem_of_singleton in Hin. contradiction. }
        intros z Hz Hzk. apply not_elem_of_cons in Hzk as (Hzx & Hzk).
        apply elem_of_cons in Hz as [->|Hz]; [contradiction|]. apply Hdrop'; auto.
Qed.

End PrecleanProofs.

Lemma preclean_step_refl {G : Type} (env : Collaborators G) (g : G)
    (h : gmap N Reference) p abs :
  well_formed h p abs -> preclean_step env g h p abs h p abs.
Proof.
  intros Hwf. constructor.
  - apply step_ok_refl. exact Hwf.
  - apply shrinks_each_refl.
  - apply keeps_payload_refl.
  - auto.
  - intros r z Hon Hoff. contradiction.
Qed.

Lemma preclean_step_trans {G : Type} (env : Collaborators G) (g : G)
    (h1 : gmap N Reference) p1 abs1 (h2 : gmap N Reference) p2 abs2
    (h3 : gmap N Reference) p3 abs3 :
  well_formed h1 p1 abs1 ->
  preclean_step env g h1 p1 abs1 h2 p2 abs2 ->
  preclean_step env g h2 p2 abs2 h3 p3 abs3 ->
  preclean_step env g h1 p1 abs1 h3 p3 abs3.
Proof.
  intros Hwf [S1 E1 P1 F1 D1] [S2 E2 P2 F2 D2].
  pose proof (step_shrinks _ _ _ _ _ _ S1) as Sh1.
  constructor.
  - eapply step_ok_trans; eauto.
  - eapply shrinks_each_trans; eauto.
  - eapply keeps_payload_trans; eauto.
  - intros z Hz. rewrite F2; [apply F1; exact Hz|].
    intros r Hon. apply (Hz r). apply Sh1. exact Hon.
  - intros r z Hon Hoff. destruct (on_lists_dec (abs2 r) z) as [Hmid|Hmid].
    + destruct (D2 r z Hmid Hoff) as [Hd Hdr]. split; [exact Hd|].
      unfold preclean_drops in *.
      rewrite <- (proj1 (step_payload _ _ _ _ _ _ S1 r z Hmid)). exact Hdr.
    + destruct (D1 r z Hon Hmid) as [Hd Hdr]. split; [|exact Hdr].
      rewrite <- Hd. apply discovered_of_agree. apply F2.
      intros r' Hon'. assert (r' = r).
      { eapply (wf_apart _ _ _ Hwf); [apply Sh1; exact Hon'|exact Hon]. }
      subst r'. contradiction.
Qed.

Lemma precleaned_kept {G : Type} (env : Collaborators G) (g : G)
    (h h' : gmap N Reference) p abs p' abs' rt i :
  preclean_step env g h p abs h' p' abs' ->
  precleaned env g h abs rt i -> precleaned env g h' abs' rt i.
Proof.
  intros [S E _ _ _] Hc. unfold precleaned. eapply all_at_kept; [exact E|exact Hc|].
  intros x Hx Hn. unfold preclean_drops in *.
  rewrite (proj1 (step_payload _ _ _ _ _ _ S rt x Hx)). exact Hn.
Qed.

Section PrecleanLists.

Context {G Y : Type}.
Variable build : Build.
Variable env : Collaborators G.
Variable yield : YieldClosure Y.

Lemma preclean_discovered_reflist_spec fuel d l (w : World G) y :
  is_list (heap w) d l -> NoDup l ->
  Z.of_nat (length l) < size_t_range -> (length l < fuel)%nat ->
  exists aborted l1 l2 d' h' y',
    preclean_discovered_reflist build env yield fuel d w y
    = Ok (aborted, d', set_heap h' w, y') /\
    l = l1 ++ l2 /\
    (aborted = false -> l2 = []) /\
    (never_yields yield -> aborted = false) /\
    is_list h' d' (preclean_keeps env (heap w) (gc w) l1 ++ l2) /\
    NoDup (preclean_keeps env (heap w) (gc w) l1 ++ l2) /\
    keeps_payload (heap w) h' /\
    (forall z, z ∉ l1 -> h' !! z = heap w !! z) /\
    (forall z, z ∈ l1 -> z ∉ preclean_keeps env (heap w) (gc w) l1 ->
       discovered_of h' z = null).
Proof.
  intros His Hnd Hrange Hfuel.
  destruct (preclean_discovered_reflist_loop_spec build env yield (heap w) l [] fuel
              (new_iterator d) w y)
    as (ab & l1 & l2 & it' & h' & y' & Hrun & Hsplit & Hdone & Hnever & Hl' & Hpay &
        Hfr & Hdrop).
  { apply new_iterator_links; assumption. }
  { simpl. apply (is_list_head _ _ _ His). }
  { reflexivity. }
  { intros _ Hne. simpl. eapply first_seen_fresh; eauto. }
  { simpl. exact Hrange. }
  { exact Hfuel. }
  simpl app in Hl'.
  exists ab, l1, l2, (_refs_list it'), h', y'. split.
  { unfold preclean_discovered_reflist. rewrite Hrun, bind_Ok. reflexivity. }
  split; [exact Hsplit|]. split; [exact Hdone|]. split; [exact Hnever|].
  destruct Hl' as (His' & Hnd' & _).
  split; [exact His'|]. split; [exact Hnd'|]. split; [exact Hpay|].
  split; [|exact Hdrop].
  intros z Hz. apply Hfr; [|exact Hz]. intros Hin. apply elem_of_nil in Hin. exact Hin.
Qed.

(** Precleaning one queue of one category. *)
Lemma preclean_list_step fuel (i : nat) rt p (w : World G) y abs :
  well_formed (heap w) p abs -> rt <> REF_NONE ->
  Z.of_nat i < _max_num_queues p ->
  entry_count p < size_t_range ->
  (Z.to_nat (entry_count p) < fuel)%nat ->
  exists d aborted d' h' y' abs',
    lists_of rt p !! i = Some d /\
    preclean_discovered_reflist build env yield fuel d w y
    = Ok (aborted, d', set_heap h' w, y') /\
    preclean_step env (gc w) (heap w) p abs
      h' (set_discovered_lists rt (<[i := d']> (lists_of rt p)) p) abs' /\
    (never_yields yield -> aborted = false) /\
    (aborted = false -> precleaned env (gc w) h' abs' rt i).
Proof.
  intros Hwf Hrt Hi Hrange Hfuel.
  destruct (well_formed_lookup _ _ _ rt i Hwf Hrt Hi) as (d & l & Hd & Hl & His & Hnd & Hll).
  destruct (preclean_discovered_reflist_spec fuel d l w y His Hnd ltac:(lia) ltac:(lia))
    as (ab & l1 & l2 & d' & h' & y' & Hrun & Hsplit & Hdone & Hnever & His' & Hnd' &
        Hpay & Hfr & Hdrop).
  set (K := preclean_keeps env (heap w) (gc w) l1) in *.
  set (l' := K ++ l2) in *.
  assert (Hsub : forall z, z ∈ l' -> z ∈ l).
  { intros z Hz. subst l'. rewrite Hsplit. apply elem_of_app in Hz as [Hz|Hz].
    - apply elem_of_app. left. apply (preclean_keeps_sub env _ _ _ _ Hz).
    - apply elem_of_app. auto. }
  assert (Hfr' : forall z, z ∉ l -> h' !! z = heap w !! z).
  { intros z Hz. apply Hfr. intros Hin. apply Hz. rewrite Hsplit.
    apply elem_of_app. auto. }
  assert (Href : forall z r, java_lang_ref_Reference.load (heap w) z = Some r ->
            referent_of h' z = referent r /\ next_of h' z = next r).
  { intros z r Hr. destruct (Hpay z r Hr) as (r' & Hr' & E1 & E2).
    unfold referent_of, next_of. rewrite Hr'. auto. }
  assert (Hloaded : forall z, z ∈ l -> exists r,
            java_lang_ref_Reference.load (heap w) z = Some r).
  { intros z Hz. apply (on_lists_loaded (heap w) (lists_of rt p) (abs rt)).
    - apply (wf_lists _ _ _ Hwf).
    - exists i, l. auto. }
  assert (Hpay' : forall z, z ∈ l' ->
            referent_of h' z = referent_of (heap w) z /\
            next_of h' z = next_of (heap w) z).
  { intros z Hz. destruct (Hloaded z (Hsub z Hz)) as (r & Hr).
    destruct (Href z r Hr) as [E1 E2].
    unfold referent_of at 2, next_of at 2. rewrite Hr. auto. }
  destruct (list_step_ok (heap w) h' p abs rt i d d' l l'
              Hwf Hrt Hd Hl His' Hnd' Hsub Hfr' Hpay') as (Hstep & Heach & Hat).
  exists d, ab, d', h', y', (with_entries rt (<[i := l']> (abs rt)) abs).
  split; [exact Hd|]. split; [exact Hrun|]. split.
  { constructor.
    - exact Hstep.
    - exact Heach.
    - exact Hpay.
    - intros z Hz. apply Hfr'. intros Hin. apply (Hz rt). exists i, l. auto.
    - intros r z Hon Hoff. unfold with_entries in Hoff.
      destruct (decide (r = rt)) as [->|Hne]; [|contradiction].
      destruct Hon as (j & lj & Hj & Hzj).
      destruct (decide (j = i)) as [->|Hji].
      + rewrite Hl in Hj. injection Hj as <-.
        assert (Hzl' : z ∉ l').
        { intros Hin. apply Hoff. exists i, l'. split; [|exact Hin].
          apply list_lookup_insert_eq. eapply lookup_lt_Some; eauto. }
        assert (Hz1 : z ∈ l1 /\ z ∉ K).
        { rewrite Hsplit in Hzj. apply elem_of_app in Hzj as [Hz1|Hz2].
          - split; [exact Hz1|]. intros Hk. apply Hzl'. apply elem_of_app. auto.
          - exfalso. apply Hzl'. apply elem_of_app. auto. }
        destruct Hz1 as [Hz1 HzK]. split; [apply Hdrop; assumption|].
        eapply preclean_keeps_dropped; eauto.
      + exfalso. apply Hoff. exists j, lj. split; [|exact Hzj].
        rewrite list_lookup_insert_ne by auto. exact Hj. }
  split; [exact Hnever|].
  intros Hab. unfold precleaned. apply (all_at_lookup _ rt i l' _ Hat).
  intros x Hx Hdr. destruct (Hpay' x Hx) as [E _].
  subst l'. rewrite (Hdone Hab), app_nil_r in Hx.
  destruct (preclean_keeps_sub env _ _ _ _ Hx) as (Hxl & Hnn & Hdead). unfold preclean_drops in Hdr. rewrite E in Hdr.
  destruct Hdr as [Hdr|Hdr]; [contradiction|congruence].
Qed.

End PrecleanLists.

Section PrecleanCategories.

Context {G Y : Type}.
Variable build : Build.
Variable env : Collaborators G.
Variable yield : YieldClosure Y.

(** Precleaning the queues [i], [i + 1], ... of one category. *)
Lemma preclean_lists_spec fuel rt : forall k (i : nat) p (w : World G) y abs,
  well_formed (heap w) p abs -> rt <> REF_NONE ->
  Z.of_nat (i + k) <= _max_num_queues p ->
  entry_count p < size_t_range ->
  (Z.to_nat (entry_count p) < fuel)%nat ->
  (forall j, (j < i)%nat -> precleaned env (gc w) (heap w) abs rt j) ->
  exists stop p' h' y' abs',
    preclean_lists build env yield fuel rt k (Z.of_nat i) p w y
    = Ok (stop, p', set_heap h' w, y') /\
    preclean_step env (gc w) (heap w) p abs h' p' abs' /\
    (never_yields yield -> stop = false) /\
    (stop = false -> forall j, (j < i + k)%nat -> precleaned env (gc w) h' abs' rt j).
Proof.
  induction k as [|k IH]; intros i p w y abs Hwf Hrt Hik Hrange Hfuel Hclean.
  - exists false, p, (heap w), y, abs. split; [destruct w; reflexivity|].
    split; [apply preclean_step_refl; exact Hwf|]. split; [reflexivity|].
    intros _ j Hj. apply Hclean. lia.
  - cbn [preclean_lists].
    destruct (should_return yield y) as [stop y1] eqn:Hy. destruct stop.
    { exists true, p, (heap w), y1, abs. split; [destruct w; reflexivity|].
      split; [apply preclean_step_refl; exact Hwf|]. split; [|discriminate].
      intros Hnever. destruct (Hnever y) as [Hn _]. rewrite Hy in Hn. exact Hn. }
    destruct (preclean_list_step build env yield fuel i rt p w y1 abs Hwf Hrt
                ltac:(lia) Hrange Hfuel)
      as (d & ab & d' & h1 & y2 & abs1 & Hd & Hrun & S1 & N1 & C1).
    rewrite (list_at_Some _ _ _ Hd), bind_Ok, Hrun, bind_Ok. rewrite Nat2Z.id.
    set (p1 := set_discovered_lists rt (<[i := d']> (lists_of rt p)) p) in *.
    destruct ab.
    { exists true, p1, h1, y2, abs1. split; [reflexivity|]. split; [exact S1|].
      split; [exact N1|discriminate]. }
    pose proof (pc_step _ _ _ _ _ _ _ _ S1) as [W1 Sh1 P1 Cn1 Nq1 M1 Dc1 Dr1].
    destruct (IH (S i) p1 (set_heap h1 w) y2 abs1)
      as (stop & p2 & h2 & y3 & abs2 & R2 & S2 & N2 & C2).
    { exact W1. }
    { exact Hrt. }
    { lia. }
    { lia. }
    { lia. }
    { intros j Hj. simpl. destruct (decide (j = i)) as [->|Hne]; [apply C1; reflexivity|].
      eapply precleaned_kept; [exact S1|]. apply Hclean. lia. }
    exists stop, p2, h2, y3, abs2. split.
    { replace (Z.of_nat i + 1) with (Z.of_nat (S i)) by lia. exact R2. }
    split; [eapply preclean_step_trans; eauto|]. split; [exact N2|].
    intros Hs j Hj. apply (C2 Hs). lia.
Qed.

(** The whole of [preclean_discovered_references] on a well-formed
    processor, whatever the yield closure answers. *)
Lemma preclean_discovered_references_spec fuel p (w : World G) y abs :
  well_formed (heap w) p abs ->
  entry_count p < size_t_range ->
  (Z.to_nat (entry_count p) < fuel)%nat ->
  exists p' h' y' abs',
    preclean_discovered_references build env yield fuel p w y
    = Ok (p', set_heap h' w, y') /\
    preclean_step env (gc w) (heap w) p abs h' p' abs' /\
    (never_yields yield ->
     forall rt x, on_lists (abs' rt) x -> ~ preclean_drops env h' (gc w) x).
Proof.
  intros Hwf Hrange Hfuel.
  pose proof (wf_max _ _ _ Hwf) as Hmax.
  assert (Hphase : forall rt p0 (w0 : World G) y0 abs0,
            rt <> REF_NONE -> well_formed (heap w0) p0 abs0 ->
            entry_count p0 < size_t_range -> (Z.to_nat (entry_count p0) < fuel)%nat ->
            exists stop p' h' y' abs',
              preclean_lists build env yield fuel rt (Z.to_nat (_max_num_queues p0)) 0
                p0 w0 y0
              = Ok (stop, p', set_heap h' w0, y') /\
              preclean_step env (gc w0) (heap w0) p0 abs0 h' p' abs' /\
              (never_yields yield -> stop = false) /\
              (stop = false -> forall j, precleaned env (gc w0) h' abs' rt j)).
  { intros rt p0 w0 y0 abs0 Hrt Hwf0 Hrange0 Hfuel0.
    pose proof (wf_max _ _ _ Hwf0) as Hmax0.
    destruct (preclean_lists_spec fuel rt (Z.to_nat (_max_num_queues p0)) 0 p0 w0 y0 abs0
                Hwf0 Hrt ltac:(lia) Hrange0 Hfuel0 ltac:(intros j Hj; lia))
      as (stop & p' & h' & y' & abs' & R & S & N & C).
    exists stop, p', h', y', abs'. split; [exact R|]. split; [exact S|].
    split; [exact N|]. intros Hs j.
    destruct (decide (j < Z.to_nat (_max_num_queues p0))%nat) as [Hj|Hj].
    - apply (C Hs). simpl. exact Hj.
    - intros l x Hl Hx. exfalso.
      pose proof (step_wf _ _ _ _ _ _ (pc_step _ _ _ _ _ _ _ _ S)) as W'.
      pose proof (step_max _ _ _ _ _ _ (pc_step _ _ _ _ _ _ _ _ S)) as M'.
      destruct (wf_lists _ _ _ W' rt) as [HF _].
      pose proof (Forall2_length _ _ _ HF) as Hlen.
      pose proof (wf_length _ _ _ W' rt Hrt) as HM.
      apply lookup_lt_Some in Hl. lia. }
  assert (Hall : forall (h' : gmap N Reference) p' abs',
            well_formed h' p' abs' ->
            (forall rt, rt <> REF_NONE -> forall j, precleaned env (gc w) h' abs' rt j) ->
            forall rt x, on_lists (abs' rt) x -> ~ preclean_drops env h' (gc w) x).
  { intros h' p' abs' W' Hc rt x Hon.
    destruct (decide (rt = REF_NONE)) as [->|Hrt].
    - destruct (no_category_no_entries _ _ _ _ W' Hon).
    - destruct Hon as (j & l & Hl & Hx). exact (Hc rt Hrt j l x Hl Hx). }
  unfold preclean_discovered_references.
  (* Soft references *)
  destruct (Hphase REF_SOFT p w y abs ltac:(discriminate) Hwf Hrange Hfuel)
    as (stop1 & p1 & h1 & y1 & abs1 & R1 & S1 & N1 & C1).
  rewrite R1, bind_Ok.
  destruct stop1.
  { exists p1, h1, y1, abs1. split; [reflexivity|]. split; [exact S1|].
    intros Hn. specialize (N1 Hn). discriminate. }
  pose proof (pc_step _ _ _ _ _ _ _ _ S1) as [W1 Sh1 P1 Cn1 Nq1 M1 Dc1 Dr1].
  (* Weak references *)
  destruct (Hphase REF_WEAK p1 (set_heap h1 w) y1 abs1 ltac:(discriminate) W1
              ltac:(lia) ltac:(lia))
    as (stop2 & p2 & h2 & y2 & abs2 & R2 & S2 & N2 & C2).
  change (set_heap h2 (set_heap h1 w)) with (set_heap h2 w) in R2.
  change (gc (set_heap h1 w)) with (gc w) in S2, C2.
  change (heap (set_heap h1 w)) with h1 in S2.
  rewrite R2, bind_Ok.
  assert (S12 : preclean_step env (gc w) (heap w) p abs h2 p2 abs2)
    by (eapply preclean_step_trans; eauto).
  destruct stop2.
  { exists p2, h2, y2, abs2. split; [reflexivity|]. split; [exact S12|].
    intros Hn. specialize (N2 Hn). discriminate. }
  pose proof (pc_step _ _ _ _ _ _ _ _ S2) as [W2 Sh2 P2 Cn2 Nq2 M2 Dc2 Dr2].
  (* Final references *)
  destruct (Hphase REF_FINAL p2 (set_heap h2 w) y2 abs2 ltac:(discriminate) W2
              ltac:(lia) ltac:(lia))
    as (stop3 & p3 & h3 & y3 & abs3 & R3 & S3 & N3 & C3).
  change (set_heap h3 (set_heap h2 w)) with (set_heap h3 w) in R3.
  change (gc (set_heap h2 w)) with (gc w) in S3, C3.
  change (heap (set_heap h2 w)) with h2 in S3.
  rewrite R3, bind_Ok.
  assert (S13 : preclean_step env (gc w) (heap w) p abs h3 p3 abs3)
    by (eapply preclean_step_trans; eauto).
  destruct stop3.
  { exists p3, h3, y3, abs3. split; [reflexivity|]. split; [exact S13|].
    intros Hn. specialize (N3 Hn). discriminate. }
  pose proof (pc_step _ _ _ _ _ _ _ _ S3) as [W3 Sh3 P3 Cn3 Nq3 M3 Dc3 Dr3].
  (* Phantom references *)
  destruct (Hphase REF_PHANTOM p3 (set_heap h3 w) y3 abs3 ltac:(discriminate) W3
              ltac:(lia) ltac:(lia))
    as (stop4 & p4 & h4 & y4 & abs4 & R4 & S4 & N4 & C4).
  change (set_heap h4 (set_heap h3 w)) with (set_heap h4 w) in R4.
  change (gc (set_heap h3 w)) with (gc w) in S4, C4.
  change (heap (set_heap h3 w)) with h3 in S4.
  rewrite R4, bind_Ok.
  assert (S14 : preclean_step env (gc w) (heap w) p abs h4 p4 abs4)
    by (eapply preclean_step_trans; eauto).
  exists p4, h4, y4, abs4. split; [reflexivity|]. split; [exact S14|].
  intros Hn.
  apply (Hall h4 p4 abs4 (step_wf _ _ _ _ _ _ (pc_step _ _ _ _ _ _ _ _ S4))).
  intros rt Hrt j. destruct rt; try contradiction.
  - eapply precleaned_kept; [exact S4|]. eapply precleaned_kept; [exact S3|].
    eapply precleaned_kept; [exact S2|]. apply C1. reflexivity.
  - eapply precleaned_kept; [exact S4|]. eapply precleaned_kept; [exact S3|].
    apply C2. apply N2. exact Hn.
  - eapply precleaned_kept; [exact S4|]. apply C3. apply N3. exact Hn.
  - apply C4. apply N4. exact Hn.
Qed.

End PrecleanCategories.

(** ** Opening discovery *)

Lemma guarantee_empty_cases (ls : list DiscoveredList.t) : forall k (i : nat),
  (i + k <= length ls)%nat ->
  (guarantee_empty ls k (Z.of_nat i) = Ok tt /\
   forall (j : nat) d, (i <= j < i + k)%nat -> ls !! j = Some d ->
     DiscoveredList.head d = null) \/
  guarantee_empty ls k (Z.of_nat i) = Fatal "Found non-empty discovered list".
Proof.
  induction k as [|k IH]; intros i Hik.
  - left. split; [reflexivity|]. intros j d Hj. lia.
  - assert (Hil : (i < length ls)%nat) by lia.
    destruct (lookup_lt_is_Some_2 _ _ Hil) as [d Hd].
    cbn [guarantee_empty]. rewrite (list_at_Some _ _ _ Hd), bind_Ok.
    unfold DiscoveredList.is_empty.
    destruct (decide (DiscoveredList.head d = null)) as [Hnull|Hnn].
    + rewrite bool_decide_eq_true_2 by exact Hnull. unfold guarantee. rewrite bind_Ok.
      replace (Z.of_nat i + 1) with (Z.of_nat (S i)) by lia.
      destruct (IH (S i) ltac:(lia)) as [[Hok Hall]|Hfail]; [left|right; exact Hfail].
      split; [exact Hok|]. intros j d0 Hj Hd0.
      destruct (decide (j = i)) as [->|Hne].
      * rewrite Hd in Hd0. injection Hd0 as <-. exact Hnull.
      * apply (Hall j d0); [lia|exact Hd0].
    + rewrite bool_decide_eq_false_2 by exact Hnn. right. reflexivity.
Qed.

(** The verification of a build that has it, on a processor that is
    not discovering: it passes when no queue has an entry and stops
    the VM otherwise. *)
Lemma verify_no_references_recorded_cases build (h : gmap N Reference) p abs :
  well_formed h p abs -> PRODUCT build = false -> _discovering_refs p = false ->
  (verify_no_references_recorded build p = Ok tt /\ forall rt x, ~ on_lists (abs rt) x) \/
  (verify_no_references_recorded build p = Fatal "Found non-empty discovered list" /\
   exists rt x, on_lists (abs rt) x).
Proof.
  intros Hwf Hprod Hdisc.
  pose proof (wf_max _ _ _ Hwf) as Hmax.
  assert (Hwin : forall rt, rt <> REF_NONE ->
    (guarantee_empty (lists_of rt p) (Z.to_nat (_max_num_queues p)) 0 = Ok tt /\
     forall x, ~ on_lists (abs rt) x) \/
    (guarantee_empty (lists_of rt p) (Z.to_nat (_max_num_queues p)) 0
     = Fatal "Found non-empty discovered list" /\ exists x, on_lists (abs rt) x)).
  { intros rt Hrt. pose proof (wf_length _ _ _ Hwf rt Hrt) as Hlen.
    destruct (wf_lists _ _ _ Hwf rt) as [HF _].
    destruct (on_lists_dec (abs rt) (hd null (concat (abs rt)))) as [Hon|Hoff].
    - right. split; [|eauto].
      destruct (guarantee_empty_cases (lists_of rt p) (Z.to_nat (_max_num_queues p)) 0
                  ltac:(lia)) as [[_ Hall]|Hfail]; [exfalso|exact Hfail].
      destruct Hon as (j & l & Hl & Hx).
      destruct (Forall2_lookup_r _ _ _ _ _ HF Hl) as (d & Hd & His).
      assert (Hjl : (j < length (lists_of rt p))%nat) by (eapply lookup_lt_Some; eauto).
      rewrite (is_list_null_head _ _ _ His (Hall j d ltac:(lia) Hd)) in Hx.
      apply elem_of_nil in Hx. exact Hx.
    - assert (Hnone : forall x, ~ on_lists (abs rt) x).
      { intros x (j & l & Hl & Hx). apply Hoff.
        assert (Hc : x ∈ concat (abs rt)).
        { apply list_elem_of_In. apply in_concat. exists l. split.
          - apply list_elem_of_In. eapply list_elem_of_lookup_2; eauto.
          - apply list_elem_of_In. exact Hx. }
        destruct (concat (abs rt)) as [|z c] eqn:Ec;
          [apply elem_of_nil in Hc; contradiction|].
        simpl. assert (Hz : z ∈ concat (abs rt)) by (rewrite Ec; apply elem_of_cons; auto).
        apply list_elem_of_In, in_concat in Hz as (lz & Hlz & Hzl).
        apply list_elem_of_In, list_elem_of_lookup_1 in Hlz as (jz & Hjz).
        exists jz, lz. split; [exact Hjz|]. apply list_elem_of_In. exact Hzl. }
      left. split; [|exact Hnone].
      change 0 with (Z.of_nat 0). apply guarantee_empty_spec; [|lia].
      intros j d Hd. rewrite (no_entries_lists h p abs rt Hwf Hnone j d Hd). reflexivity. }
  unfold verify_no_references_recorded. rewrite Hprod, Hdisc. simpl negb.
  unfold guarantee at 1. rewrite bind_Ok.
  change (_discoveredSoftRefs p) with (lists_of REF_SOFT p).
  change (_discoveredWeakRefs p) with (lists_of REF_WEAK p).
  change (_discoveredFinalRefs p) with (lists_of REF_FINAL p).
  change (_discoveredPhantomRefs p) with (lists_of REF_PHANTOM p).
  destruct (Hwin REF_SOFT ltac:(discriminate)) as [[R1 N1]|[R1 E1]]; rewrite R1;
    [rewrite bind_Ok|right; split; [reflexivity|]; destruct E1; eauto].
  destruct (Hwin REF_WEAK ltac:(discriminate)) as [[R2 N2]|[R2 E2]]; rewrite R2;
    [rewrite bind_Ok|right; split; [reflexivity|]; destruct E2; eauto].
  destruct (Hwin REF_FINAL ltac:(discriminate)) as [[R3 N3]|[R3 E3]]; rewrite R3;
    [rewrite bind_Ok|right; split; [reflexivity|]; destruct E3; eauto].
  destruct (Hwin REF_PHANTOM ltac:(discriminate)) as [[R4 N4]|[R4 E4]]; rewrite R4;
    [|right; split; [reflexivity|]; destruct E4; eauto].
  left. split; [reflexivity|]. intros rt x Hx. destruct rt.
  - exact (no_category_no_entries _ _ _ _ Hwf Hx).
  - exact (N1 x Hx).
  - exact (N2 x Hx).
  - exact (N3 x Hx).
  - exact (N4 x Hx).
Qed.

(** ** What discovery writes *)

Lemma set_discovered_link_inv build p (h : gmap N Reference) o v added h' :
  set_discovered_link build p h o v = Ok (added, h') ->
  exists r, java_lang_ref_Reference.load h o = Some r /\
    (h' = <[o := mkReference (referent r) v (next r)]> h \/
     (h' = h /\ discovered r <> null)).
Proof.
  unfold set_discovered_link, set_discovered_link_mt, set_discovered_link_st,
    oop_atomic_cmpxchg_null, java_lang_ref_Reference.get_discovered,
    java_lang_ref_Reference.set_discovered_raw.
  intros H. destruct (_discovery_is_mt p).
  - apply bind_Ok_inv in H as (u & _ & H).
    destruct (java_lang_ref_Reference.load h o) as [r|] eqn:Hr; [|discriminate].
    exists r. split; [reflexivity|]. simpl in H.
    destruct (decide (discovered r = null)); simpl in H; injection H as _ <-; auto.
  - apply bind_Ok_inv in H as (u & _ & H).
    destruct (java_lang_ref_Reference.load h o) as [r|] eqn:Hr; [|discriminate].
    exists r. split; [reflexivity|]. simpl in H. injection H as _ <-. auto.
Qed.

Lemma add_to_discovered_list_inv build rt id o p (h : gmap N Reference) p' h' :
  add_to_discovered_list build rt id o p h = Ok (p', h') ->
  (forall y, y <> o -> h' !! y = h !! y) /\
  referent_of h' o = referent_of h o /\ next_of h' o = next_of h o /\
  discovered_of h' o <> null.
Proof.
  unfold add_to_discovered_list. intros H.
  apply bind_Ok_inv in H as (ls & _ & H).
  apply bind_Ok_inv in H as (d & _ & H).
  apply bind_Ok_inv in H as ([added h1] & Hlink & H).
  apply set_discovered_link_inv in Hlink as (r & Hr & Hcase).
  pose proof (load_not_null _ _ _ Hr) as Hon.
  assert (Hh : h' = h1).
  { destruct added; [|injection H as _ <-; reflexivity].
    apply bind_Ok_inv in H as (ls' & _ & H). injection H as _ <-. reflexivity. }
  subst h1. destruct Hcase as [->|[-> Hd]].
  - split; [intros y Hy; apply lookup_insert_ne; congruence|].
    unfold referent_of, next_of, discovered_of.
    rewrite load_insert_eq by exact Hon. rewrite Hr. simpl.
    split; [reflexivity|]. split; [reflexivity|].
    destruct (decide (DiscoveredList.head d <> null)); assumption.
  - split; [auto|]. split; [reflexivity|]. split; [reflexivity|].
    unfold discovered_of. rewrite Hr. exact Hd.
Qed.

(** Every path of [discover_reference]: what the call can have
    changed, by its answer. *)
Lemma discover_reference_inv {G : Type} build flags (env : Collaborators G)
    worker_id o rt (s : State G) b s' :
  discover_reference build flags env worker_id o rt s = Ok (b, s') ->
  (forall y, y <> o -> heap (world s') !! y = heap (world s) !! y) /\
  referent_of (heap (world s')) o = referent_of (heap (world s)) o /\
  next_of (heap (world s')) o = next_of (heap (world s)) o /\
  pending_list (world s') = pending_list (world s) /\
  gc (world s') = gc (world s) /\
  kept_alive (world s') = kept_alive (world s) /\
  _soft_ref_timestamp_clock s' = _soft_ref_timestamp_clock s /\
  SoftReference_clock s' = SoftReference_clock s /\
  (b = false -> rp s' = rp s /\ world s' = world s) /\
  (b = true -> discovered_of (heap (world s')) o <> null).
Proof.
  assert (Hsame : forall t : State G,
            rp t = rp s -> world t = world s ->
            _soft_ref_timestamp_clock t = _soft_ref_timestamp_clock s ->
            SoftReference_clock t = SoftReference_clock s ->
            (forall y, y <> o -> heap (world t) !! y = heap (world s) !! y) /\
            referent_of (heap (world t)) o = referent_of (heap (world s)) o /\
            next_of (heap (world t)) o = next_of (heap (world s)) o /\
            pending_list (world t) = pending_list (world s) /\
            gc (world t) = gc (world s) /\
            kept_alive (world t) = kept_alive (world s) /\
            _soft_ref_timestamp_clock t = _soft_ref_timestamp_clock s /\
            SoftReference_clock t = SoftReference_clock s /\
            (false = false -> rp t = rp s /\ world t = world s) /\
            (false = true -> discovered_of (heap (world t)) o <> null)).
  { intros t E1 E2 E3 E4. rewrite E2. repeat split; auto; discriminate. }
  unfold discover_reference. intros H.
  destruct (_discovering_refs (rp s)) eqn:Hd; simpl in H;
    [|injection H as <- <-; apply Hsame; reflexivity].
  destruct (RegisterReferences flags); simpl in H;
    [|injection H as <- <-; apply Hsame; reflexivity].
  apply bind_Ok_inv in H as (final_next & _ & H).
  destruct (bool_decide (rt = REF_FINAL) && negb (bool_decide (final_next = null)));
    [injection H as <- <-; apply Hsame; reflexivity|].
  destruct (negb (is_subject_to_discovery env (gc (world s)) o));
    [injection H as <- <-; apply Hsame; reflexivity|].
  apply bind_Ok_inv in H as (reachable & _ & H).
  destruct reachable; [injection H as <- <-; apply Hsame; reflexivity|].
  set (s1 := if decide (rt = REF_SOFT)
             then log_event (EvShouldClear o (_soft_ref_timestamp_clock s)) s else s) in *.
  assert (Hs1 : rp s1 = rp s /\ world s1 = world s /\
                _soft_ref_timestamp_clock s1 = _soft_ref_timestamp_clock s /\
                SoftReference_clock s1 = SoftReference_clock s).
  { subst s1. destruct (decide (rt = REF_SOFT)); repeat split; reflexivity. }
  destruct Hs1 as (E1 & E2 & E3 & E4).
  destruct (bool_decide (rt = REF_SOFT) &&
            negb (should_clear_reference env o (_soft_ref_timestamp_clock s)));
    [injection H as <- <-; apply Hsame; assumption|].
  apply bind_Ok_inv in H as (discovered & Hdisc & H).
  destruct (bool_decide (discovered = null)) eqn:Hnull; simpl negb in H; cbv iota in H.
  - apply bind_Ok_inv in H as ([id p1] & _ & H).
    apply bind_Ok_inv in H as ([p2 h2] & Hadd & H).
    apply bind_Ok_inv in H as (u1 & _ & H). apply bind_Ok_inv in H as (u2 & _ & H).
    injection H as <- <-. simpl.
    rewrite E2 in Hadd.
    destruct (add_to_discovered_list_inv _ _ _ _ _ _ _ _ Hadd) as (F & R & Nx & D).
    rewrite E2, E3, E4. repeat split; auto; try discriminate.
  - apply bind_Ok_inv in H as (u1 & _ & H). apply bind_Ok_inv in H as (u2 & _ & H).
    injection H as <- <-. rewrite E2, E3, E4. repeat split; auto; try discriminate.
    intros _. apply bool_decide_eq_false in Hnull.
    unfold java_lang_ref_Reference.get_discovered in Hdisc. rewrite E2 in Hdisc.
    unfold discovered_of.
    destruct (java_lang_ref_Reference.load (heap (world s)) o) as [r|]; [|discriminate].
    simpl in Hdisc. injection Hdisc as <-. exact Hnull.
Qed.

(** ** Counting *)

Lemma total_length_entries (h : gmap N Reference) ls abs :
  Forall2 (is_list h) ls abs -> total_length ls = Z.of_nat (length (concat abs)).
Proof.
  induction 1 as [|d l ls abs His _ IH]; [reflexivity|].
  simpl concat. rewrite length_app.
  change (total_length (d :: ls)) with (DiscoveredList.length d + total_length ls).
  rewrite IH, (is_list_length _ _ _ His). lia.
Qed.

(** ** The clocks *)

Lemma update_clock_agree {G : Type} javaTimeNanos (s : State G) :
  SoftReference_clock s = _soft_ref_timestamp_clock s ->
  SoftReference_clock (update_soft_ref_master_clock javaTimeNanos s)
  = _soft_ref_timestamp_clock (update_soft_ref_master_clock javaTimeNanos s).
Proof.
  intros E. unfold update_soft_ref_master_clock. simpl.
  destruct (Z.ltb_spec (_soft_ref_timestamp_clock s)
              (jlong_div javaTimeNanos NANOSECS_PER_MILLISEC)); simpl; auto.
Qed.

(** ** Balancing before a phase *)

Lemma any_non_empty_false (ls : list DiscoveredList.t) : forall k (i : nat),
  (i + k <= length ls)%nat ->
  (forall (j : nat) d, (i <= j < i + k)%nat -> ls !! j = Some d ->
     DiscoveredList.head d = null) ->
  any_non_empty ls k (Z.of_nat i) = Ok false.
Proof.
  induction k as [|k IH]; intros i Hik Hall; [reflexivity|].
  assert (Hil : (i < length ls)%nat) by lia.
  destruct (lookup_lt_is_Some_2 _ _ Hil) as [d Hd].
  cbn [any_non_empty]. rewrite (list_at_Some _ _ _ Hd), bind_Ok.
  unfold DiscoveredList.is_empty.
  rewrite bool_decide_eq_true_2 by (apply (Hall i d); [lia|exact Hd]).
  simpl negb. cbv iota.
  replace (Z.of_nat i + 1) with (Z.of_nat (S i)) by lia.
  apply IH; [lia|]. intros j d0 Hj. apply Hall. lia.
Qed.

Lemma none_at_head (h : gmap N Reference) p abs rt (j : nat) d :
  well_formed h p abs -> none_at abs rt j -> lists_of rt p !! j = Some d ->
  DiscoveredList.head d = null.
Proof.
  intros Hwf Hnone Hd. destruct (wf_lists _ _ _ Hwf rt) as [HF _].
  destruct (Forall2_lookup_l _ _ _ _ _ HF Hd) as (l & Hl & His).
  destruct l as [|x l].
  - rewrite (is_list_nil _ _ His). reflexivity.
  - destruct (Hnone (x :: l) x Hl). apply elem_of_cons. auto.
Qed.

(** [maybe_balance_queues] before a phase of parallel processing. *)
Lemma maybe_balance_queues_keeps {G : Type} build flags fuel rt p pt (w : World G) abs :
  well_formed (heap w) p abs -> rt <> REF_NONE ->
  processing_is_mt flags p = true ->
  entry_count p + 1 < size_t_range ->
  (Z.to_nat (entry_count p + _max_num_queues p) < fuel)%nat ->
  exists p' h' abs',
    maybe_balance_queues build flags fuel rt (p, pt, w) = Ok (p', pt, set_heap h' w) /\
    well_formed h' p' abs' /\
    (forall r x, on_lists (abs' r) x <-> on_lists (abs r) x) /\
    (forall r, r <> rt -> lists_of r p' = lists_of r p) /\
    total_length (lists_of rt p') = total_length (lists_of rt p) /\
    (forall j : nat, _num_queues p <= Z.of_nat j -> none_at abs' rt j) /\
    keeps_payload (heap w) h' /\
    (forall y, (forall r, ~ on_lists (abs r) y) -> h' !! y = heap w !! y) /\
    (ParallelRefProcBalancingEnabled flags = false ->
     (forall j : nat, _num_queues p <= Z.of_nat j -> none_at abs rt j) ->
     p' = p /\ h' = heap w).
Proof.
  intros Hwf Hrt Hmt Hrange Hfuel.
  pose proof Hwf as [Hmax Hnum Hls Hlen Hap].
  pose proof (entry_count_ge _ _ _ rt Hwf) as Hec.
  pose proof (well_formed_nonneg _ _ _ rt Hwf) as Hnn.
  pose proof (Hlen rt Hrt) as Hlen_rt.
  destruct (any_non_empty_spec (lists_of rt p)
              (Z.to_nat (_max_num_queues p - _num_queues p))
              (Z.to_nat (_num_queues p)) ltac:(lia))
    as (b & Hb & Hall).
  rewrite Z2Nat.id in Hb by lia.
  assert (Hidle : (forall j : nat, _num_queues p <= Z.of_nat j -> none_at abs rt j) ->
                  b = false).
  { intros Hnone.
    pose proof (any_non_empty_false (lists_of rt p)
                  (Z.to_nat (_max_num_queues p - _num_queues p))
                  (Z.to_nat (_num_queues p)) ltac:(lia)) as Hf.
    rewrite Z2Nat.id in Hf by lia. rewrite Hf in Hb; [congruence|].
    intros j d Hj Hd. apply (none_at_head _ _ _ _ _ _ Hwf (Hnone j ltac:(lia)) Hd). }
  assert (Hbal : (ParallelRefProcBalancingEnabled flags = true \/ b = true) ->
    exists p' h' abs',
    ('(ls', h') ← balance_queues build (_num_queues p) (_max_num_queues p) fuel
                    (lists_of rt p) (heap w);
     Ok (set_discovered_lists rt ls' p, pt, set_heap h' w)) = Ok (p', pt, set_heap h' w) /\
    well_formed h' p' abs' /\
    (forall r x, on_lists (abs' r) x <-> on_lists (abs r) x) /\
    (forall r, r <> rt -> lists_of r p' = lists_of r p) /\
    total_length (lists_of rt p') = total_length (lists_of rt p) /\
    (forall j : nat, _num_queues p <= Z.of_nat j -> none_at abs' rt j) /\
    keeps_payload (heap w) h' /\
    (forall y, (forall r, ~ on_lists (abs r) y) -> h' !! y = heap w !! y) /\
    (ParallelRefProcBalancingEnabled flags = false ->
     (forall j : nat, _num_queues p <= Z.of_nat j -> none_at abs rt j) ->
     p' = p /\ h' = heap w)).
  { intros Hwhy.
    destruct (balance_queues_spec build (_num_queues p) (_max_num_queues p) fuel
                (lists_of rt p) (heap w) (abs rt))
      as (ls' & h' & v & Hrun & Hwf' & Hlen' & Htot' & Hfair & Hon & Hpay & Hfr);
      try assumption; try lia.
    { apply Hls. }
    exists (set_discovered_lists rt ls' p), h', (with_entries rt v abs).
    split; [rewrite Hrun, bind_Ok; reflexivity|].
    split.
    { apply (well_formed_update (heap w)); auto. intros x. apply Hon. }
    split.
    { intros r x. unfold with_entries. destruct (decide (r = rt)) as [->|_]; [|tauto].
      apply Hon. }
    split.
    { intros r Hne. rewrite lists_of_set by exact Hrt.
      destruct (decide (r = rt)); [contradiction|reflexivity]. }
    split.
    { rewrite lists_of_set by exact Hrt.
      destruct (decide (rt = rt)); [exact Htot'|contradiction]. }
    split.
    { intros j Hj l x Hl Hx. unfold with_entries in Hl.
      destruct (decide (rt = rt)); [|contradiction].
      destruct Hwf' as [HF' _].
      destruct (Forall2_lookup_r _ _ _ _ _ HF' Hl) as (d & Hd & His).
      pose proof (Hfair j d Hd) as Hz.
      destruct (Z.ltb_spec (Z.of_nat j) (_num_queues p)); [lia|].
      rewrite (is_list_zero _ _ _ His Hz) in Hx. apply elem_of_nil in Hx. exact Hx. }
    split; [exact Hpay|].
    split; [intros y Hy; apply Hfr; apply Hy|].
    intros Hoff Hnone. destruct Hwhy as [Hon'|Hb']; [congruence|].
    rewrite (Hidle Hnone) in Hb'. discriminate. }
  unfold maybe_balance_queues.
  rewrite assert_ok by (intros _; exact Hmt). rewrite bind_Ok.
  rewrite (discovered_lists_of _ _ Hrt), bind_Ok.
  unfold need_balance_queues.
  rewrite assert_ok by (intros _; exact Hmt). rewrite bind_Ok.
  destruct (ParallelRefProcBalancingEnabled flags) eqn:Hflag.
  { rewrite bind_Ok. apply Hbal. auto. }
  rewrite Hb, bind_Ok.
  destruct b; [apply Hbal; auto|].
  exists p, (heap w), abs. split; [destruct w; reflexivity|].
  split; [exact Hwf|]. split; [tauto|]. split; [reflexivity|]. split; [reflexivity|].
  split.
  { intros j Hj l x Hl Hx.
    destruct (Hls rt) as [HF _].
    destruct (Forall2_lookup_r _ _ _ _ _ HF Hl) as (d & Hd & His).
    assert (Hjl : (j < length (lists_of rt p))%nat) by (eapply lookup_lt_Some; eauto).
    rewrite (is_list_null_head _ _ _ His) in Hx.
    - apply elem_of_nil in Hx. exact Hx.
    - apply (Hall eq_refl j d); [lia|exact Hd]. }
  split; [apply keeps_payload_refl|]. auto.
Qed.

(** ** The constructor *)

Lemma clear_all_spec : forall (rest pre : list DiscoveredList.t),
  clear_all (length rest) (Z.of_nat (length pre)) (pre ++ rest)
  = Ok (pre ++ replicate (length rest) (DiscoveredList.mk null 0)).
Proof.
  induction rest as [|d rest IH]; intros pre.
  - reflexivity.
  - cbn [clear_all length].
    assert (Hd : (pre ++ d :: rest) !! length pre = Some d).
    { rewrite lookup_app_r by lia. rewrite Nat.sub_diag. reflexivity. }
    unfold list_update. rewrite (list_at_Some _ _ _ Hd), !bind_Ok. rewrite Nat2Z.id.
    replace (<[length pre := DiscoveredList.clear d]> (pre ++ d :: rest))
      with ((pre ++ [DiscoveredList.mk null 0]) ++ rest).
    2:{ rewrite insert_app_r_alt by lia. rewrite Nat.sub_diag. simpl.
        rewrite <- app_assoc. reflexivity. }
    replace (Z.of_nat (length pre) + 1)
      with (Z.of_nat (length (pre ++ [DiscoveredList.mk null 0])))
      by (rewrite length_app; simpl; lia).
    rewrite IH. rewrite <- app_assoc. reflexivity.
Qed.

(** A processor whose queues are all empty is well formed on every
    heap. *)
Lemma well_formed_empty (h : gmap N Reference) p :
  0 < _max_num_queues p < uint_range ->
  0 < _num_queues p <= _max_num_queues p ->
  (forall rt, rt <> REF_NONE ->
     lists_of rt p = replicate (Z.to_nat (_max_num_queues p)) (DiscoveredList.mk null 0)) ->
  well_formed h p (fun rt => replicate (length (lists_of rt p)) []).
Proof.
  intros Hmax Hnum Hls. constructor.
  - exact Hmax.
  - exact Hnum.
  - intros rt. destruct (decide (rt = REF_NONE)) as [->|Hrt].
    + simpl. split; [constructor|]. split; intros; discriminate.
    + rewrite (Hls rt Hrt), length_replicate. apply are_lists_replicate.
  - intros rt Hrt. rewrite (Hls rt Hrt), length_replicate. lia.
  - intros rt1 rt2 x H1 _. destruct (no_entries_replicate _ _ H1).
Qed.

(** ** The names of the lists *)

Lemma array_window (h : gmap N Reference) p abs (i : Z) :
  well_formed h p abs -> 0 <= i < 4 * _max_num_queues p ->
  _discovered_refs p !! Z.to_nat i
  = lists_of (window_of p i) p !! Z.to_nat (i mod _max_num_queues p).
Proof.
  intros Hwf Hi. pose proof (wf_max _ _ _ Hwf) as Hmax.
  pose proof (wf_length _ _ _ Hwf REF_SOFT ltac:(discriminate)) as L1.
  pose proof (wf_length _ _ _ Hwf REF_WEAK ltac:(discriminate)) as L2.
  pose proof (wf_length _ _ _ Hwf REF_FINAL ltac:(discriminate)) as L3.
  pose proof (wf_length _ _ _ Hwf REF_PHANTOM ltac:(discriminate)) as L4.
  simpl in L1, L2, L3, L4.
  set (m := _max_num_queues p) in *.
  assert (Hmod : forall k, 0 <= k -> k * m <= i < (k + 1) * m -> i mod m = i - k * m).
  { intros k Hk Hr. symmetry. apply (Z.mod_unique_pos i m k (i - k * m)); lia. }
  unfold window_of, _discovered_refs. fold m.
  destruct (Z.ltb_spec i m).
  { rewrite (Hmod 0) by lia. rewrite lookup_app_l by lia. simpl. f_equal. lia. }
  rewrite lookup_app_r by lia.
  destruct (Z.ltb_spec i (2 * m)).
  { rewrite (Hmod 1) by lia. rewrite lookup_app_l by lia. simpl. f_equal. lia. }
  rewrite lookup_app_r by lia.
  destruct (Z.ltb_spec i (3 * m)).
  { rewrite (Hmod 2) by lia. rewrite lookup_app_l by lia. simpl. f_equal. lia. }
  rewrite lookup_app_r by lia.
  destruct (Z.ltb_spec i (4 * m)); [|lia].
  rewrite (Hmod 3) by lia. simpl. f_equal. lia.
Qed.

(** * What the operations beside the cycle guarantee *)

(** ** Abandoning a discovery *)

(** On a well-formed processor [abandon_partial_discovery] returns.
    Afterwards every discovered list of every category is empty, and
    every reference that was on a list has a null [discovered] field,
    so that it can be discovered again, and the referent and the [next]
    it had.  No other object is written, and the discovery window and
    the processing degree are left as they were. *)
Theorem abandon_forgets_every_reference fuel p (h : gmap N Reference) abs :
  well_formed h p abs ->
  4 * _max_num_queues p < uint_range ->
  (Z.to_nat (entry_count p) < fuel)%nat ->
  exists p' h',
    abandon_partial_discovery fuel p h = Ok (p', h') /\
    (forall rt, lists_of rt p'
                = replicate (length (lists_of rt p)) (DiscoveredList.mk null 0)) /\
    (forall rt x, on_lists (abs rt) x ->
       discovered_of h' x = null /\
       referent_of h' x = referent_of h x /\ next_of h' x = next_of h x) /\
    (forall y, (forall rt, ~ on_lists (abs rt) y) -> h' !! y = h !! y) /\
    _discovering_refs p' = _discovering_refs p /\
    _num_queues p' = _num_queues p /\
    _max_num_queues p' = _max_num_queues p.
Proof.
  intros Hwf H4 Hfuel.
  destruct (abandon_partial_discovery_spec fuel p h abs Hwf H4 Hfuel)
    as (h' & Hrun & Hin & Hout).
  eexists _, h'. split; [exact Hrun|]. split; [|split; [|split; [exact Hout|]]].
  - intros rt. destruct (decide (rt = REF_NONE)) as [->|Hrt]; [reflexivity|].
    rewrite (lists_of_set_discovered_refs (Z.to_nat (_max_num_queues p)))
      by auto.
    f_equal. pose proof (wf_length _ _ _ Hwf rt Hrt). lia.
  - intros rt x Hx. destruct (Hin rt x Hx) as (r & Hr & Hr').
    unfold discovered_of, referent_of, next_of. rewrite Hr, Hr'. auto.
  - auto.
Qed.

Lemma abandon_forgets_every_reference_witness :
  exists p' h',
    abandon_partial_discovery 10 skewed_rp skewed_heap = Ok (p', h') /\
    (forall rt, lists_of rt p'
                = replicate (length (lists_of rt skewed_rp)) (DiscoveredList.mk null 0)) /\
    (forall rt x, on_lists (one_category REF_SOFT skewed_entries 3 rt) x ->
       discovered_of h' x = null /\
       referent_of h' x = referent_of skewed_heap x /\
       next_of h' x = next_of skewed_heap x) /\
    (forall y, (forall rt, ~ on_lists (one_category REF_SOFT skewed_entries 3 rt) y) ->
       h' !! y = skewed_heap !! y) /\
    _discovering_refs p' = _discovering_refs skewed_rp /\
    _num_queues p' = _num_queues skewed_rp /\
    _max_num_queues p' = _max_num_queues skewed_rp.
Proof.
  apply (abandon_forgets_every_reference 10 skewed_rp skewed_heap
           (one_category REF_SOFT skewed_entries 3)).
  - exact skewed_well_formed.
  - vm_compute. reflexivity.
  - vm_compute. lia.
Defined.

(** ** Opening discovery *)

(** [enable_discovery] on a well-formed processor that is not
    discovering.  A build without assertions opens the window
    whatever is on the queues.  A debug build opens it when no queue
    has an entry, and stops with "Found non-empty discovered list"
    when some queue has one. *)
Theorem enable_discovery_verifies_empty_queues {G : Type} build (s : State G) abs :
  well_formed (heap (world s)) (rp s) abs ->
  _discovering_refs (rp s) = false ->
  (ASSERT build = false ->
   enable_discovery build s
   = Ok (log_event EvEnableDiscovery (set_rp (set_discovering_refs true (rp s)) s))) /\
  (ASSERT build = true -> PRODUCT build = false ->
   ((forall rt x, ~ on_lists (abs rt) x) ->
    enable_discovery build s
    = Ok (log_event EvEnableDiscovery (set_rp (set_discovering_refs true (rp s)) s))) /\
   (forall rt x, on_lists (abs rt) x ->
      enable_discovery build s = Fatal "Found non-empty discovered list")).
Proof.
  intros Hwf Hdisc. unfold enable_discovery. split.
  - intros Ha. rewrite Ha. reflexivity.
  - intros Ha Hprod. rewrite Ha.
    rewrite (assert_ok build) by (intros _; rewrite Hdisc; reflexivity).
    rewrite bind_Ok.
    destruct (verify_no_references_recorded_cases build _ _ _ Hwf Hprod Hdisc)
      as [[Hok Hnone]|[Hfail (rt0 & x0 & Hx0)]].
    + rewrite Hok. split; [reflexivity|]. intros rt x Hx. destruct (Hnone rt x Hx).
    + rewrite Hfail. split; [|reflexivity]. intros Hnone. destruct (Hnone rt0 x0 Hx0).
Qed.

Lemma closed_skewed_well_formed :
  well_formed (heap (world closed_skewed_state)) (rp closed_skewed_state)
    (one_category REF_SOFT skewed_entries 3).
Proof.
  apply (well_formed_one_category skewed_heap (rp closed_skewed_state) REF_SOFT
           skewed_entries).
  - discriminate.
  - vm_compute. split; reflexivity.
  - vm_compute. split; [reflexivity|discriminate].
  - exact skewed_are_lists.
  - reflexivity.
  - intros rt H1 H2. destruct rt; try contradiction; reflexivity.
Qed.

Lemma idle_state_well_formed :
  well_formed (heap (world idle_state)) (rp idle_state) (one_category REF_SOFT [[]] 1).
Proof.
  apply (well_formed_one_category _ (rp idle_state) REF_SOFT [[]]).
  - discriminate.
  - vm_compute. split; reflexivity.
  - vm_compute. split; [reflexivity|discriminate].
  - apply (are_lists_replicate _ 1).
  - reflexivity.
  - intros rt H1 H2. destruct rt; try contradiction; reflexivity.
Qed.

Lemma no_entries_one_empty rt x : ~ on_lists (one_category REF_SOFT [[]] 1 rt) x.
Proof.
  unfold one_category. destruct (decide (rt = REF_SOFT)).
  - apply (no_entries_replicate 1).
  - destruct (decide (rt = REF_NONE)).
    + intros (i & l & Hl & _). discriminate.
    + apply no_entries_replicate.
Qed.

Lemma enable_discovery_verifies_empty_queues_witness :
  enable_discovery debug_build closed_skewed_state
  = Fatal "Found non-empty discovered list" /\
  enable_discovery debug_build idle_state
  = Ok (log_event EvEnableDiscovery
          (set_rp (set_discovering_refs true (rp idle_state)) idle_state)).
Proof.
  split.
  - apply (proj2 (proj2 (enable_discovery_verifies_empty_queues debug_build
                           closed_skewed_state (one_category REF_SOFT skewed_entries 3)
                           closed_skewed_well_formed eq_refl) eq_refl eq_refl)
             REF_SOFT 1%N).
    exists 0%nat, [1%N; 2%N; 3%N; 4%N; 5%N]. split; [reflexivity|].
    apply elem_of_cons. auto.
  - apply (proj1 (proj2 (enable_discovery_verifies_empty_queues debug_build
                           idle_state (one_category REF_SOFT [[]] 1)
                           idle_state_well_formed eq_refl) eq_refl eq_refl)).
    exact no_entries_one_empty.
Defined.

(** A processing cycle leaves the processor as the next discovery
    window needs it: after [process_discovered_references] on a
    well-formed processor, [enable_discovery] passes its verification
    in every build and opens the window. *)
Theorem discovery_reopens_after_processing {G : Type} build flags (env : Collaborators G)
    fuel javaTimeNanos workers pt (s : State G) abs :
  well_formed (heap (world s)) (rp s) abs ->
  entries_valid build (heap (world s)) (rp s) abs ->
  entry_count (rp s) + 1 < size_t_range ->
  (Z.to_nat (entry_count (rp s) + _max_num_queues (rp s)) < fuel)%nat ->
  workers_fit workers (rp s) ->
  flags_in_range flags ->
  exists counts pt' s' s'',
    process_discovered_references build flags env fuel javaTimeNanos workers pt s
    = Ok (counts, pt', s') /\
    enable_discovery build s' = Ok s'' /\
    _discovering_refs (rp s'') = true /\
    world s'' = world s' /\
    forall rt, lists_of rt (rp s'')
               = replicate (length (lists_of rt (rp s))) (DiscoveredList.mk null 0).
Proof.
  intros Hwf Hval Hrange Hfuel Hfit Hflags.
  destruct (process_discovered_references_spec build flags env fuel javaTimeNanos workers
              pt s abs Hwf Hval Hrange Hfuel Hfit Hflags)
    as (pt' & p' & w' & Hrun & Hempty & Hlen & Hdisc & Hnum & Hmax).
  set (s' := set_world w' (set_rp p'
               (update_soft_ref_master_clock javaTimeNanos (disable_discovery s)))) in *.
  assert (Hlists : forall rt, lists_of rt p'
            = replicate (length (lists_of rt (rp s))) (DiscoveredList.mk null 0)).
  { intros rt. apply list_eq_same_length with (length (lists_of rt (rp s))).
    - apply length_replicate.
    - apply Hlen.
    - intros i d d' Hi Hd Hd'. apply lookup_replicate in Hd' as [-> _].
      eapply Hempty; eauto. }
  pose proof (wf_max _ _ _ Hwf) as Hm.
  assert (Hverify : verify_no_references_recorded build p' = Ok tt).
  { unfold verify_no_references_recorded. destruct (PRODUCT build); [reflexivity|].
    rewrite Hdisc. simpl negb. unfold guarantee at 1. rewrite bind_Ok.
    assert (Hwin : forall rt, rt <> REF_NONE ->
              guarantee_empty (lists_of rt p') (Z.to_nat (_max_num_queues p')) 0 = Ok tt).
    { intros rt Hrt. change 0 with (Z.of_nat 0). apply guarantee_empty_spec.
      - intros j d Hd. rewrite (Hempty rt j d Hd). reflexivity.
      - rewrite Hlen, Hmax. pose proof (wf_length _ _ _ Hwf rt Hrt). lia. }
    change (_discoveredSoftRefs p') with (lists_of REF_SOFT p').
    change (_discoveredWeakRefs p') with (lists_of REF_WEAK p').
    change (_discoveredFinalRefs p') with (lists_of REF_FINAL p').
    change (_discoveredPhantomRefs p') with (lists_of REF_PHANTOM p').
    rewrite !Hwin by discriminate. reflexivity. }
  eexists _, pt', s', _. split; [exact Hrun|].
  split.
  { unfold enable_discovery. change (rp s') with p'.
    rewrite (assert_ok build) by (intros _; rewrite Hdisc; reflexivity).
    rewrite Hverify. destruct (ASSERT build); reflexivity. }
  split; [reflexivity|]. split; [reflexivity|].
  intros rt. simpl rp. rewrite <- Hlists. destruct rt; reflexivity.
Qed.

Lemma discovery_reopens_after_processing_witness :
  exists counts pt' s' s'',
    process_discovered_references debug_build parallel_flags marking_env 20 7000000
      (Some 2) no_times skewed_state
    = Ok (counts, pt', s') /\
    enable_discovery debug_build s' = Ok s'' /\
    _discovering_refs (rp s'') = true /\
    world s'' = world s' /\
    forall rt, lists_of rt (rp s'')
               = replicate (length (lists_of rt (rp skewed_state)))
                   (DiscoveredList.mk null 0).
Proof.
  apply (discovery_reopens_after_processing debug_build parallel_flags marking_env 20
           7000000 (Some 2) no_times skewed_state (one_category REF_SOFT skewed_entries 3)).
  - exact skewed_well_formed.
  - apply skewed_entries_valid.
  - vm_compute. reflexivity.
  - vm_compute. lia.
  - vm_compute. split; [reflexivity|discriminate].
  - split; vm_compute; [discriminate|split; reflexivity].
Defined.

(** ** Precleaning *)

(** Precleaning can be interrupted anywhere: whatever the yield
    closure answers, [preclean_discovered_references] returns on a
    well-formed processor and leaves it well formed.  Every queue
    holds entries it held before, in the heap only [discovered] fields
    are written and none outside the queues, and the pending list and
    the state of the tracer are untouched.  A reference is dropped
    only if its referent is null or alive, and a dropped reference has
    a null [discovered] field, so that it can be discovered again. *)
Theorem precleaning_drops_only_cleared_or_reachable {G Y : Type} build
    (env : Collaborators G) (yield : YieldClosure Y) fuel p (w : World G) y abs :
  well_formed (heap w) p abs ->
  entry_count p < size_t_range ->
  (Z.to_nat (entry_count p) < fuel)%nat ->
  exists p' h' y' abs',
    preclean_discovered_references build env yield fuel p w y
    = Ok (p', set_heap h' w, y') /\
    well_formed h' p' abs' /\
    shrinks_each abs abs' /\
    (forall rt x, on_lists (abs rt) x -> ~ on_lists (abs' rt) x ->
       preclean_drops env (heap w) (gc w) x /\ discovered_of h' x = null) /\
    keeps_payload (heap w) h' /\
    (forall z, (forall rt, ~ on_lists (abs rt) z) -> h' !! z = heap w !! z) /\
    _discovering_refs p' = _discovering_refs p /\
    _num_queues p' = _num_queues p.
Proof.
  intros Hwf Hrange Hfuel.
  destruct (preclean_discovered_references_spec build env yield fuel p w y abs
              Hwf Hrange Hfuel)
    as (p' & h' & y' & abs' & Hrun & [S E P F D] & _).
  exists p', h', y', abs'. split; [exact Hrun|].
  split; [exact (step_wf _ _ _ _ _ _ S)|]. split; [exact E|].
  split; [intros rt x Hon Hoff; destruct (D rt x Hon Hoff); auto|].
  split; [exact P|]. split; [exact F|].
  split; [exact (step_disc _ _ _ _ _ _ S)|exact (step_num _ _ _ _ _ _ S)].
Qed.

Lemma precleaning_drops_only_cleared_or_reachable_witness :
  exists p' h' y' abs',
    preclean_discovered_references debug_build marking_env countdown_yield 10
      skewed_rp (world skewed_state) 3%nat
    = Ok (p', set_heap h' (world skewed_state), y') /\
    well_formed h' p' abs' /\
    shrinks_each (one_category REF_SOFT skewed_entries 3) abs' /\
    (forall rt x, on_lists (one_category REF_SOFT skewed_entries 3 rt) x ->
       ~ on_lists (abs' rt) x ->
       preclean_drops marking_env (heap (world skewed_state)) (gc (world skewed_state)) x /\
       discovered_of h' x = null) /\
    keeps_payload (heap (world skewed_state)) h' /\
    (forall z, (forall rt, ~ on_lists (one_category REF_SOFT skewed_entries 3 rt) z) ->
       h' !! z = heap (world skewed_state) !! z) /\
    _discovering_refs p' = _discovering_refs skewed_rp /\
    _num_queues p' = _num_queues skewed_rp.
Proof.
  apply (precleaning_drops_only_cleared_or_reachable debug_build marking_env
           countdown_yield 10 skewed_rp (world skewed_state) 3%nat
           (one_category REF_SOFT skewed_entries 3)).
  - exact skewed_well_formed.
  - vm_compute. reflexivity.
  - vm_compute. lia.
Defined.

(** Precleaning that is never asked to yield goes through every queue
    of every category: afterwards the entries of a category are
    exactly its former entries whose referent is neither null nor
    alive, each still on the queue it was on. *)
Theorem precleaning_to_the_end_keeps_the_dead {G Y : Type} build
    (env : Collaborators G) (yield : YieldClosure Y) fuel p (w : World G) y abs :
  well_formed (heap w) p abs ->
  entry_count p < size_t_range ->
  (Z.to_nat (entry_count p) < fuel)%nat ->
  never_yields yield ->
  exists p' h' y' abs',
    preclean_discovered_references build env yield fuel p w y
    = Ok (p', set_heap h' w, y') /\
    well_formed h' p' abs' /\
    shrinks_each abs abs' /\
    (forall rt x, on_lists (abs' rt) x <->
       on_lists (abs rt) x /\ ~ preclean_drops env (heap w) (gc w) x) /\
    (forall rt x, on_lists (abs' rt) x ->
       referent_of h' x <> null /\ is_alive env (gc w) (referent_of h' x) = false).
Proof.
  intros Hwf Hrange Hfuel Hnever.
  destruct (preclean_discovered_references_spec build env yield fuel p w y abs
              Hwf Hrange Hfuel)
    as (p' & h' & y' & abs' & Hrun & [S E P F D] & Hclean).
  specialize (Hclean Hnever).
  exists p', h', y', abs'. split; [exact Hrun|].
  split; [exact (step_wf _ _ _ _ _ _ S)|]. split; [exact E|].
  assert (Hkept : forall rt x, on_lists (abs' rt) x ->
            ~ preclean_drops env (heap w) (gc w) x).
  { intros rt x Hx Hdr. apply (Hclean rt x Hx). unfold preclean_drops in *.
    rewrite (proj1 (step_payload _ _ _ _ _ _ S rt x Hx)). exact Hdr. }
  split.
  - intros rt x. split.
    + intros Hx. split; [exact (step_shrinks _ _ _ _ _ _ S rt x Hx)|eauto].
    + intros [Hon Hnd]. destruct (on_lists_dec (abs' rt) x) as [Hx|Hoff]; [exact Hx|].
      destruct (D rt x Hon Hoff) as [_ Hdr]. contradiction.
  - intros rt x Hx. pose proof (Hclean rt x Hx) as Hnd. unfold preclean_drops in Hnd.
    split; [intros E0; apply Hnd; auto|].
    destruct (is_alive env (gc w) (referent_of h' x)); [exfalso; apply Hnd; auto|reflexivity].
Qed.

Lemma patient_yield_never_yields : never_yields patient_yield.
Proof. intros y. split; reflexivity. Qed.

Lemma precleaning_to_the_end_keeps_the_dead_witness :
  exists p' h' y' abs',
    preclean_discovered_references debug_build marking_env patient_yield 10
      skewed_rp (world skewed_state) tt
    = Ok (p', set_heap h' (world skewed_state), y') /\
    well_formed h' p' abs' /\
    shrinks_each (one_category REF_SOFT skewed_entries 3) abs' /\
    (forall rt x, on_lists (abs' rt) x <->
       on_lists (one_category REF_SOFT skewed_entries 3 rt) x /\
       ~ preclean_drops marking_env (heap (world skewed_state))
           (gc (world skewed_state)) x) /\
    (forall rt x, on_lists (abs' rt) x ->
       referent_of h' x <> null /\
       is_alive marking_env (gc (world skewed_state)) (referent_of h' x) = false).
Proof.
  apply (precleaning_to_the_end_keeps_the_dead debug_build marking_env patient_yield 10
           skewed_rp (world skewed_state) tt (one_category REF_SOFT skewed_entries 3)).
  - exact skewed_well_formed.
  - vm_compute. reflexivity.
  - vm_compute. lia.
  - exact patient_yield_never_yields.
Defined.

(** ** What one discovery can change *)

(** Whatever [discover_reference] answers for the object [o], it
    writes at most the [discovered] field of [o]: every other object,
    the referent and the [next] of [o], the pending list, the state of
    the tracer and both clocks are as before.  When the answer is
    "not discovered" the processor and the world are unchanged; when
    it is "discovered" the [discovered] field of [o] is not null. *)
Theorem discover_reference_writes_one_field {G : Type} build flags (env : Collaborators G)
    worker_id o rt (s : State G) b s' :
  discover_reference build flags env worker_id o rt s = Ok (b, s') ->
  (forall y, y <> o -> heap (world s') !! y = heap (world s) !! y) /\
  referent_of (heap (world s')) o = referent_of (heap (world s)) o /\
  next_of (heap (world s')) o = next_of (heap (world s)) o /\
  pending_list (world s') = pending_list (world s) /\
  gc (world s') = gc (world s) /\
  _soft_ref_timestamp_clock s' = _soft_ref_timestamp_clock s /\
  SoftReference_clock s' = SoftReference_clock s /\
  (b = false -> rp s' = rp s /\ world s' = world s) /\
  (b = true -> discovered_of (heap (world s')) o <> null).
Proof.
  intros H.
  destruct (discover_reference_inv build flags env worker_id o rt s b s' H)
    as (H1 & H2 & H3 & H4 & H5 & _ & H7 & H8 & H9 & H10).
  repeat split; auto; apply H9; assumption.
Qed.

Lemma discover_reference_writes_one_field_witness :
  (forall y, y <> 1%N ->
     heap (world discovered_soft_state) !! y = heap (world open_state) !! y) /\
  referent_of (heap (world discovered_soft_state)) 1
  = referent_of (heap (world open_state)) 1 /\
  next_of (heap (world discovered_soft_state)) 1 = next_of (heap (world open_state)) 1 /\
  pending_list (world discovered_soft_state) = pending_list (world open_state) /\
  gc (world discovered_soft_state) = gc (world open_state) /\
  _soft_ref_timestamp_clock discovered_soft_state = _soft_ref_timestamp_clock open_state /\
  SoftReference_clock discovered_soft_state = SoftReference_clock open_state /\
  (true = false ->
   rp discovered_soft_state = rp open_state /\
   world discovered_soft_state = world open_state) /\
  (true = true -> discovered_of (heap (world discovered_soft_state)) 1 <> null).
Proof.
  apply (discover_reference_writes_one_field debug_build serial_flags marking_env 0 1%N
           REF_SOFT open_state true discovered_soft_state).
  vm_compute. reflexivity.
Defined.

(** ** Counting the references of a category *)

(** On a well-formed processor [total_reference_count] returns the
    number of references linked on the queues of the category, the
    queues beyond the active degree included; for [REF_NONE] it stops
    at [ShouldNotReachHere]. *)
Theorem total_reference_count_counts_entries (h : gmap N Reference) p abs rt :
  well_formed h p abs ->
  entry_count p < size_t_range ->
  total_reference_count p rt
  = if decide (rt = REF_NONE) then Fatal "ShouldNotReachHere"
    else Ok (Z.of_nat (length (concat (abs rt)))).
Proof.
  intros Hwf Hrange. unfold total_reference_count.
  destruct (decide (rt = REF_NONE)) as [->|Hrt]; [reflexivity|].
  rewrite (discovered_lists_of _ _ Hrt), bind_Ok.
  rewrite (total_count_spec h p abs rt Hwf Hrt Hrange).
  rewrite (total_length_entries h _ _ (proj1 (wf_lists _ _ _ Hwf rt))). reflexivity.
Qed.

Lemma total_reference_count_counts_entries_witness :
  total_reference_count skewed_rp REF_SOFT
  = if decide (REF_SOFT = REF_NONE) then Fatal "ShouldNotReachHere"
    else Ok (Z.of_nat (length (concat (one_category REF_SOFT skewed_entries 3 REF_SOFT)))).
Proof.
  apply (total_reference_count_counts_entries skewed_heap skewed_rp
           (one_category REF_SOFT skewed_entries 3) REF_SOFT).
  - exact skewed_well_formed.
  - vm_compute. reflexivity.
Defined.

(** ** The two clocks *)

(** [init_statics] sets both soft-reference clocks to the time read,
    whatever they held, and touches nothing else; from then on every
    [update_soft_ref_master_clock] keeps the two clocks equal, at the
    latest time seen so far. *)
Theorem clocks_agree_from_init {G : Type} (t0 : Z) (c2 : bool) (ts : list Z) (s : State G) :
  let ms := fun t => jlong_div t NANOSECS_PER_MILLISEC in
  let s' := fold_left (fun st t => update_soft_ref_master_clock t st) ts
              (fst (init_statics t0 c2 s)) in
  SoftReference_clock s' = _soft_ref_timestamp_clock s' /\
  _soft_ref_timestamp_clock s' = fold_left Z.max (map ms ts) (ms t0) /\
  rp s' = rp s /\ world s' = world s.
Proof.
  intros ms.
  assert (Hgen : forall ts (s0 : State G),
            SoftReference_clock s0 = _soft_ref_timestamp_clock s0 ->
            let s' := fold_left (fun st t => update_soft_ref_master_clock t st) ts s0 in
            SoftReference_clock s' = _soft_ref_timestamp_clock s' /\
            _soft_ref_timestamp_clock s'
            = fold_left Z.max (map ms ts) (_soft_ref_timestamp_clock s0) /\
            rp s' = rp s0 /\ world s' = world s0).
  { clear ts. induction ts as [|t ts IH]; intros s0 E; simpl.
    - auto.
    - destruct (IH (update_soft_ref_master_clock t s0) (update_clock_agree t s0 E))
        as (A & B & C & D).
      destruct (update_clock_rp t s0) as (R & W & _ & K).
      split; [exact A|]. split; [rewrite B, K; reflexivity|].
      split; congruence. }
  apply (Hgen ts (fst (init_statics t0 c2 s))). reflexivity.
Qed.

(** ** Balancing before a phase *)

(** [maybe_balance_queues] before a phase of parallel processing, on a
    well-formed processor: the call returns, and afterwards no queue
    beyond the active degree holds a reference, whether
    [ParallelRefProcBalancingEnabled] is set or not.  No reference is
    lost or gained, the other categories are untouched, and every
    object keeps its referent and its [next].  When balancing is
    switched off and the queues beyond the active degree are empty
    already, nothing is changed at all. *)
Theorem balancing_strands_no_reference {G : Type} build flags fuel rt p pt
    (w : World G) abs :
  well_formed (heap w) p abs -> rt <> REF_NONE ->
  processing_is_mt flags p = true ->
  entry_count p + 1 < size_t_range ->
  (Z.to_nat (entry_count p + _max_num_queues p) < fuel)%nat ->
  exists p' h' abs',
    maybe_balance_queues build flags fuel rt (p, pt, w) = Ok (p', pt, set_heap h' w) /\
    well_formed h' p' abs' /\
    (forall j : nat, _num_queues p <= Z.of_nat j -> none_at abs' rt j) /\
    (forall r x, on_lists (abs' r) x <-> on_lists (abs r) x) /\
    total_length (lists_of rt p') = total_length (lists_of rt p) /\
    (forall r, r <> rt -> lists_of r p' = lists_of r p) /\
    keeps_payload (heap w) h' /\
    (ParallelRefProcBalancingEnabled flags = false ->
     (forall j : nat, _num_queues p <= Z.of_nat j -> none_at abs rt j) ->
     p' = p /\ h' = heap w).
Proof.
  intros Hwf Hrt Hmt Hrange Hfuel.
  destruct (maybe_balance_queues_keeps build flags fuel rt p pt w abs
              Hwf Hrt Hmt Hrange Hfuel)
    as (p' & h' & abs' & Hrun & W & On & Oth & Tot & Idle & Pay & _ & Noop).
  exists p', h', abs'. repeat (split; [assumption|]). exact Noop.
Qed.

Lemma balancing_strands_no_reference_witness :
  exists p' h' abs',
    maybe_balance_queues debug_build parallel_flags 20 REF_SOFT
      (skewed_rp, no_times, world skewed_state)
    = Ok (p', no_times, set_heap h' (world skewed_state)) /\
    well_formed h' p' abs' /\
    (forall j : nat, _num_queues skewed_rp <= Z.of_nat j -> none_at abs' REF_SOFT j) /\
    (forall r x, on_lists (abs' r) x
                 <-> on_lists (one_category REF_SOFT skewed_entries 3 r) x) /\
    total_length (lists_of REF_SOFT p') = total_length (lists_of REF_SOFT skewed_rp) /\
    (forall r, r <> REF_SOFT -> lists_of r p' = lists_of r skewed_rp) /\
    keeps_payload (heap (world skewed_state)) h' /\
    (ParallelRefProcBalancingEnabled parallel_flags = false ->
     (forall j : nat, _num_queues skewed_rp <= Z.of_nat j ->
        none_at (one_category REF_SOFT skewed_entries 3) REF_SOFT j) ->
     p' = skewed_rp /\ h' = heap (world skewed_state)).
Proof.
  apply (balancing_strands_no_reference debug_build parallel_flags 20 REF_SOFT skewed_rp
           no_times (world skewed_state) (one_category REF_SOFT skewed_entries 3)).
  - exact skewed_well_formed.
  - discriminate.
  - reflexivity.
  - vm_compute. reflexivity.
  - vm_compute. lia.
Defined.

(** ** Discovery undone *)

(** A reference that is discovered and then abandoned is as if it had
    never been discovered.  On a well-formed processor with empty
    queues, [discover_reference] for an object that passes the checks
    followed by [abandon_partial_discovery] gives back the heap from
    before the discovery, and the queues are empty again. *)
Theorem discovery_then_abandon_restores_heap {G : Type} build flags
    (env : Collaborators G) fuel worker_id o rt (s : State G) abs r :
  well_formed (heap (world s)) (rp s) abs ->
  (forall rt' x, ~ on_lists (abs rt') x) ->
  java_lang_ref_Reference.load (heap (world s)) o = Some r ->
  discovered r = null ->
  rt <> REF_NONE ->
  discovery_gates_open flags env o rt s = true ->
  0 <= discovery_queue flags worker_id (rp s) < _max_num_queues (rp s) ->
  (_discovery_is_mt (rp s) = false -> processing_is_mt flags (rp s) = true ->
   0 <= _next_id (rp s) < _num_queues (rp s)) ->
  (ASSERT build = true -> _discovery_is_concurrent (rp s) = false -> referent r <> null) ->
  4 * _max_num_queues (rp s) < uint_range ->
  (1 < fuel)%nat ->
  exists s1 p2,
    discover_reference build flags env worker_id o rt s = Ok (true, s1) /\
    abandon_partial_discovery fuel (rp s1) (heap (world s1))
    = Ok (p2, heap (world s)) /\
    forall rt', lists_of rt' p2 = lists_of rt' (rp s).
Proof.
  intros Hwf Hno Hr Hnull Hrt Hgates Hq Hnext Hvalid H4 Hfuel.
  assert (Hval : entries_valid build (heap (world s)) (rp s) abs).
  { intros _. split.
    - intros _ rt' x Hx. destruct (Hno rt' x Hx).
    - intros x Hx. destruct (Hno _ x Hx). }
  assert (Hzero : forall rt', total_length (lists_of rt' (rp s)) = 0).
  { intros rt'. apply total_length_zero. intros i d Hd.
    rewrite (no_entries_lists _ _ _ rt' Hwf (Hno rt') i d Hd). reflexivity. }
  assert (Hcount0 : entry_count (rp s) = 0).
  { unfold entry_count.
    pose proof (Hzero REF_SOFT). pose proof (Hzero REF_WEAK).
    pose proof (Hzero REF_FINAL). pose proof (Hzero REF_PHANTOM). simpl in *. lia. }
  destruct (discover_reference_spec build flags env worker_id o rt s abs r
              Hwf Hval Hr Hnull Hrt Hgates Hq Hnext Hvalid
              ltac:(rewrite Hcount0; reflexivity))
    as (s1 & d & l & Hrun & Hd & Hl & Hls1 & Hoth & Hh1 & Hwf1 & _ & Hcount1).
  set (i := Z.to_nat (discovery_queue flags worker_id (rp s))) in *.
  set (abs1 := with_entries rt (<[i := o :: l]> (abs rt)) abs) in *.
  pose proof (load_not_null _ _ _ Hr) as Hon.
  assert (Hlnil : l = []).
  { destruct l as [|x l]; [reflexivity|]. exfalso. apply (Hno rt x).
    exists i, (x :: l). split; [exact Hl|]. apply elem_of_cons. auto. }
  subst l.
  assert (Hlens : forall rt', length (lists_of rt' (rp s1)) = length (lists_of rt' (rp s))).
  { intros rt'. destruct (decide (rt' = rt)) as [->|Hne].
    - rewrite Hls1. apply length_insert.
    - rewrite (Hoth rt' Hne). reflexivity. }
  assert (Hmax1 : _max_num_queues (rp s1) = _max_num_queues (rp s)).
  { pose proof (wf_length _ _ _ Hwf1 rt Hrt) as L1.
    pose proof (wf_length _ _ _ Hwf rt Hrt) as L0. rewrite Hlens in L1. lia. }
  destruct (abandon_partial_discovery_spec fuel (rp s1) (heap (world s1)) abs1 Hwf1
              ltac:(rewrite Hmax1; exact H4) ltac:(rewrite Hcount1, Hcount0; simpl; lia))
    as (h2 & Hrun2 & Hin & Hout).
  assert (Hon1 : forall rt' y, on_lists (abs1 rt') y -> y = o).
  { intros rt' y Hy. subst abs1. unfold with_entries in Hy.
    destruct (decide (rt' = rt)) as [->|Hne]; [|destruct (Hno rt' y Hy)].
    apply on_lists_insert in Hy as [Hy|Hy]; [|destruct (Hno rt y Hy)].
    apply list_elem_of_singleton in Hy. exact Hy. }
  assert (Hh2 : h2 = heap (world s)).
  { apply map_eq. intros y. destruct (decide (y = o)) as [->|Hy].
    - destruct (Hin rt o) as (r1 & Hr1 & Hr2).
      { exists i, [o]. split; [|apply list_elem_of_singleton; reflexivity].
        subst abs1. unfold with_entries. destruct (decide (rt = rt)); [|contradiction].
        apply list_lookup_insert_eq. eapply lookup_lt_Some; eauto. }
      rewrite Hh1, load_insert_eq in Hr1 by exact Hon. injection Hr1 as <-.
      simpl in Hr2. unfold java_lang_ref_Reference.load in Hr, Hr2.
      destruct (decide (o = null)); [contradiction|].
      rewrite Hr, Hr2. f_equal. destruct r; simpl in *; congruence.
    - rewrite Hout.
      + rewrite Hh1. apply lookup_insert_ne. congruence.
      + intros rt' Hy'. apply Hy. eapply Hon1; eauto. }
  exists s1, (set_discovered_refs
                (replicate (4 * Z.to_nat (_max_num_queues (rp s1))) (DiscoveredList.mk null 0))
                (rp s1)).
  split; [exact Hrun|]. split; [rewrite Hrun2, Hh2; reflexivity|].
  intros rt'. destruct (decide (rt' = REF_NONE)) as [->|Hrt']; [reflexivity|].
  rewrite (lists_of_set_discovered_refs (Z.to_nat (_max_num_queues (rp s1)))) by auto.
  symmetry. apply list_eq_same_length with (Z.to_nat (_max_num_queues (rp s1))).
  - apply length_replicate.
  - pose proof (wf_length _ _ _ Hwf rt' Hrt'). lia.
  - intros j c c' Hj Hc Hc'. apply lookup_replicate in Hc' as [-> _].
    exact (no_entries_lists _ _ _ rt' Hwf (Hno rt') j c Hc).
Qed.

Lemma discovery_then_abandon_restores_heap_witness :
  exists s1 p2,
    discover_reference debug_build serial_flags marking_env 0 1%N REF_SOFT open_state
    = Ok (true, s1) /\
    abandon_partial_discovery 5 (rp s1) (heap (world s1))
    = Ok (p2, heap (world open_state)) /\
    forall rt', lists_of rt' p2 = lists_of rt' (rp open_state).
Proof.
  apply (discovery_then_abandon_restores_heap debug_build serial_flags marking_env 5 0 1%N
           REF_SOFT open_state (one_category REF_SOFT [[]] 1) (mkReference 10 0 0)).
  - exact open_state_well_formed.
  - exact no_entries_one_empty.
  - reflexivity.
  - reflexivity.
  - discriminate.
  - reflexivity.
  - vm_compute. split; [discriminate|reflexivity].
  - intros _ H. discriminate H.
  - intros _ _. discriminate.
  - vm_compute. reflexivity.
  - lia.
Defined.

(** ** Where the discovered references end *)

(** No discovered reference is lost by a processing cycle.  After
    [process_discovered_references] on a well-formed processor every
    reference that was on a discovered list is on the pending list or
    has a null [discovered] field.  The references put on the pending
    list are linked, each once, in front of what the pending list
    held; the Soft, Weak and Phantom references among them have a null
    referent and the Final references have their [next] pointing to
    themselves.  No object that was not on a discovered list is
    written. *)
Theorem no_discovered_reference_is_lost {G : Type} build flags (env : Collaborators G)
    fuel javaTimeNanos workers pt (s : State G) abs :
  well_formed (heap (world s)) (rp s) abs ->
  entries_valid build (heap (world s)) (rp s) abs ->
  entry_count (rp s) + 1 < size_t_range ->
  (Z.to_nat (entry_count (rp s) + _max_num_queues (rp s)) < fuel)%nat ->
  workers_fit workers (rp s) ->
  flags_in_range flags ->
  exists counts pt' s' enq,
    process_discovered_references build flags env fuel javaTimeNanos workers pt s
    = Ok (counts, pt', s') /\
    lseg (heap (world s')) (pending_list (world s')) enq (pending_list (world s)) /\
    NoDup enq /\
    (forall x, x ∈ enq -> exists rt, on_lists (abs rt) x) /\
    (forall rt x, on_lists (abs rt) x ->
       x ∈ enq \/ discovered_of (heap (world s')) x = null) /\
    (forall rt x, x ∈ enq -> on_lists (abs rt) x -> rt <> REF_FINAL ->
       referent_of (heap (world s')) x = null) /\
    (forall x, x ∈ enq -> on_lists (abs REF_FINAL) x ->
       next_of (heap (world s')) x = x) /\
    (forall y, (forall rt, ~ on_lists (abs rt) y) ->
       heap (world s') !! y = heap (world s) !! y).
Proof.
  intros Hwf Hval Hrange Hfuel Hfit Hflags.
  destruct (process_discovered_references_full build flags env fuel javaTimeNanos workers
              pt s abs Hwf Hval Hrange Hfuel Hfit Hflags)
    as (pt' & p' & w' & abs' & enq & Hrun & _ & _ & _ & _ & _ & Hnone &
        [C N W O Gn L F R]).
  eexists _, pt', _, enq. split; [exact Hrun|]. simpl world.
  split; [exact C|]. split; [exact N|]. split; [exact W|].
  split; [intros rt x Hx; exact (Gn rt x Hx (Hnone rt x))|].
  split; [exact L|]. split; [exact F|exact R].
Qed.

Lemma no_discovered_reference_is_lost_witness :
  exists counts pt' s' enq,
    process_discovered_references debug_build parallel_flags marking_env 20 7000000
      (Some 2) no_times skewed_state
    = Ok (counts, pt', s') /\
    lseg (heap (world s')) (pending_list (world s')) enq
      (pending_list (world skewed_state)) /\
    NoDup enq /\
    (forall x, x ∈ enq -> exists rt, on_lists (one_category REF_SOFT skewed_entries 3 rt) x) /\
    (forall rt x, on_lists (one_category REF_SOFT skewed_entries 3 rt) x ->
       x ∈ enq \/ discovered_of (heap (world s')) x = null) /\
    (forall rt x, x ∈ enq -> on_lists (one_category REF_SOFT skewed_entries 3 rt) x ->
       rt <> REF_FINAL -> referent_of (heap (world s')) x = null) /\
    (forall x, x ∈ enq -> on_lists (one_category REF_SOFT skewed_entries 3 REF_FINAL) x ->
       next_of (heap (world s')) x = x) /\
    (forall y, (forall rt, ~ on_lists (one_category REF_SOFT skewed_entries 3 rt) y) ->
       heap (world s') !! y = heap (world skewed_state) !! y).
Proof.
  apply (no_discovered_reference_is_lost debug_build parallel_flags marking_env 20 7000000
           (Some 2) no_times skewed_state (one_category REF_SOFT skewed_entries 3)).
  - exact skewed_well_formed.
  - apply skewed_entries_valid.
  - vm_compute. reflexivity.
  - vm_compute. lia.
  - vm_compute. split; [reflexivity|discriminate].
  - split; vm_compute; [discriminate|split; reflexivity].
Defined.

(** ** The constructor *)

(** The constructor establishes what the other operations rely on.
    For degrees whose queues fit the array index ([4 * _max_num_queues]
    below 2^32) it returns a processor with at least one active queue,
    no more active queues than queues, all the queues of all
    categories empty whatever the allocated memory held, and discovery
    closed.  The processor is well formed on every heap, and
    [enable_discovery] then succeeds in every build. *)
Theorem constructor_establishes_the_invariant (fresh : list DiscoveredList.t)
    (mt_processing_degree mt_discovery_degree : Z) (concurrent_discovery : bool) :
  0 <= mt_processing_degree -> 0 <= mt_discovery_degree ->
  4 * Z.max (Z.max 1 mt_processing_degree) mt_discovery_degree < uint_range ->
  length fresh
  = Z.to_nat (4 * Z.max (Z.max 1 mt_processing_degree) mt_discovery_degree) ->
  exists p,
    new_ReferenceProcessor fresh mt_processing_degree mt_discovery_degree
      concurrent_discovery = Ok p /\
    (forall h : gmap N Reference,
       well_formed h p (fun rt => replicate (length (lists_of rt p)) [])) /\
    (forall rt, rt <> REF_NONE ->
       lists_of rt p
       = replicate (Z.to_nat (_max_num_queues p)) (DiscoveredList.mk null 0)) /\
    _discovering_refs p = false /\
    _next_id p = 0 /\
    _num_queues p = Z.max 1 mt_processing_degree /\
    _max_num_queues p = Z.max (Z.max 1 mt_processing_degree) mt_discovery_degree /\
    (_discovery_is_mt p = true <-> 1 < mt_discovery_degree) /\
    (forall (G : Type) build (s : State G), rp s = p ->
       enable_discovery build s
       = Ok (log_event EvEnableDiscovery (set_rp (set_discovering_refs true p) s))).
Proof.
  intros Hp Hd H4 Hlen.
  set (n := Z.max 1 mt_processing_degree) in *.
  set (m := Z.max n mt_discovery_degree) in *.
  set (c := DiscoveredList.mk null 0).
  set (p0 := mkRP false concurrent_discovery (1 <? mt_discovery_degree) 0 n m [] [] [] []).
  assert (Hm : 0 < m) by lia.
  assert (Hrun : new_ReferenceProcessor fresh mt_processing_degree mt_discovery_degree
                   concurrent_discovery
                 = Ok (set_discovered_refs (replicate (4 * Z.to_nat m) c) p0)).
  { unfold new_ReferenceProcessor, number_of_subclasses_of_ref. fold n m.
    replace (Z.to_nat (wrap_uint (m * 4))) with (length fresh).
    2:{ rewrite Hlen. unfold wrap_uint. rewrite Z.mod_small by (fold uint_range; lia). lia. }
    pose proof (clear_all_spec fresh []) as Hc. simpl in Hc.
    change (Z.of_nat 0) with 0 in Hc. rewrite Hc, bind_Ok. rewrite Hlen.
    replace (Z.to_nat (4 * m)) with (4 * Z.to_nat m)%nat by lia. reflexivity. }
  set (p := set_discovered_refs (replicate (4 * Z.to_nat m) c) p0) in *.
  assert (Hls : forall rt, rt <> REF_NONE ->
            lists_of rt p = replicate (Z.to_nat (_max_num_queues p)) c).
  { intros rt Hrt. subst p. apply lists_of_set_discovered_refs; [reflexivity|exact Hrt]. }
  assert (Hwf : forall h : gmap N Reference,
            well_formed h p (fun rt => replicate (length (lists_of rt p)) [])).
  { intros h. apply well_formed_empty; [| |exact Hls].
    - change (_max_num_queues p) with m. unfold uint_range in *. lia.
    - change (_max_num_queues p) with m. change (_num_queues p) with n. lia. }
  exists p. split; [exact Hrun|]. split; [exact Hwf|]. split; [exact Hls|].
  split; [reflexivity|]. split; [reflexivity|]. split; [reflexivity|].
  split; [reflexivity|]. split; [apply Z.ltb_lt|].
  intros G build s Hs. unfold enable_discovery. rewrite Hs.
  rewrite (assert_ok build) by reflexivity.
  rewrite (verify_no_references_recorded_spec build ∅ p _ (Hwf ∅) eq_refl)
    by (intros rt x; apply no_entries_replicate).
  destruct (ASSERT build); reflexivity.
Qed.

Lemma constructor_establishes_the_invariant_witness :
  exists p,
    new_ReferenceProcessor stale_memory 2 3 false = Ok p /\
    (forall h : gmap N Reference,
       well_formed h p (fun rt => replicate (length (lists_of rt p)) [])) /\
    (forall rt, rt <> REF_NONE ->
       lists_of rt p
       = replicate (Z.to_nat (_max_num_queues p)) (DiscoveredList.mk null 0)) /\
    _discovering_refs p = false /\
    _next_id p = 0 /\
    _num_queues p = Z.max 1 2 /\
    _max_num_queues p = Z.max (Z.max 1 2) 3 /\
    (_discovery_is_mt p = true <-> 1 < 3) /\
    (forall (G : Type) build (s : State G), rp s = p ->
       enable_discovery build s
       = Ok (log_event EvEnableDiscovery (set_rp (set_discovering_refs true p) s))).
Proof.
  apply (constructor_establishes_the_invariant stale_memory 2 3 false).
  - lia.
  - lia.
  - vm_compute. reflexivity.
  - reflexivity.
Defined.

(** ** The names of the lists *)

(** [list_name] names the window of the array in which list [i] lies:
    for an index below [4 * _max_num_queues] it returns the name of
    the category whose window holds that list.  Its assertion admits
    the index [4 * _max_num_queues] itself, one past the last list,
    for which the call stops at [ShouldNotReachHere], as it does for
    every larger index in a build without assertions. *)
Theorem list_name_names_the_window build (h : gmap N Reference) p abs (i : Z) :
  well_formed h p abs ->
  4 * _max_num_queues p < uint_range ->
  0 <= i ->
  (i < 4 * _max_num_queues p ->
   list_name build p i = Ok (category_name (window_of p i)) /\
   window_of p i <> REF_NONE /\
   _discovered_refs p !! Z.to_nat i
   = lists_of (window_of p i) p !! Z.to_nat (i mod _max_num_queues p)) /\
  (i = 4 * _max_num_queues p -> list_name build p i = Fatal "ShouldNotReachHere") /\
  (4 * _max_num_queues p < i ->
   list_name build p i
   = if ASSERT build then Fatal "Out of bounds index" else Fatal "ShouldNotReachHere").
Proof.
  intros Hwf H4 Hi. pose proof (wf_max _ _ _ Hwf) as Hmax.
  set (m := _max_num_queues p) in *.
  assert (Hbound : wrap_uint (m * number_of_subclasses_of_ref) = 4 * m).
  { unfold wrap_uint, number_of_subclasses_of_ref.
    rewrite Z.mod_small by (fold uint_range; lia). lia. }
  assert (Hj : m * (i / m) <= i < m * (i / m + 1)).
  { pose proof (Z.div_mod i m ltac:(lia)). pose proof (Z.mod_pos_bound i m ltac:(lia)).
    lia. }
  assert (Hj0 : 0 <= i / m) by (apply Z.div_pos; lia).
  unfold list_name. fold m. rewrite Hbound.
  split; [|split].
  - intros Hlt. split; [|split; [|apply (array_window h p abs i Hwf); fold m; lia]].
    + rewrite (assert_ok build) by (intros _; apply Z.leb_le; lia). rewrite bind_Ok.
      unfold window_of. fold m.
      destruct (Z.ltb_spec i m).
      { destruct (Z.eqb_spec (i / m) 0); [reflexivity|nia]. }
      destruct (Z.eqb_spec (i / m) 0); [nia|].
      destruct (Z.ltb_spec i (2 * m)).
      { destruct (Z.eqb_spec (i / m) 1); [reflexivity|nia]. }
      destruct (Z.eqb_spec (i / m) 1); [nia|].
      destruct (Z.ltb_spec i (3 * m)).
      { destruct (Z.eqb_spec (i / m) 2); [reflexivity|nia]. }
      destruct (Z.eqb_spec (i / m) 2); [nia|].
      destruct (Z.ltb_spec i (4 * m)); [|lia].
      destruct (Z.eqb_spec (i / m) 3); [reflexivity|nia].
    + unfold window_of. fold m.
      destruct (Z.ltb_spec i m); [discriminate|].
      destruct (Z.ltb_spec i (2 * m)); [discriminate|].
      destruct (Z.ltb_spec i (3 * m)); [discriminate|].
      destruct (Z.ltb_spec i (4 * m)); [discriminate|lia].
  - intros E. rewrite (assert_ok build) by (intros _; apply Z.leb_le; lia).
    rewrite bind_Ok.
    destruct (Z.eqb_spec (i / m) 0); [nia|]. destruct (Z.eqb_spec (i / m) 1); [nia|].
    destruct (Z.eqb_spec (i / m) 2); [nia|]. destruct (Z.eqb_spec (i / m) 3); [nia|].
    reflexivity.
  - intros Hgt. unfold assert_.
    destruct (Z.leb_spec i (4 * m)); [lia|].
    destruct (ASSERT build); [reflexivity|]. rewrite bind_Ok.
    destruct (Z.eqb_spec (i / m) 0); [nia|]. destruct (Z.eqb_spec (i / m) 1); [nia|].
    destruct (Z.eqb_spec (i / m) 2); [nia|]. destruct (Z.eqb_spec (i / m) 3); [nia|].
    reflexivity.
Qed.

Lemma list_name_names_the_window_witness :
  list_name debug_build skewed_rp 7 = Ok (category_name (window_of skewed_rp 7)) /\
  list_name debug_build skewed_rp 12 = Fatal "ShouldNotReachHere".
Proof.
  split.
  - apply (proj1 (list_name_names_the_window debug_build skewed_heap skewed_rp
                    (one_category REF_SOFT skewed_entries 3) 7 skewed_well_formed
                    ltac:(vm_compute; reflexivity) ltac:(lia))).
    vm_compute. reflexivity.
  - apply (proj1 (proj2 (list_name_names_the_window debug_build skewed_heap skewed_rp
                    (one_category REF_SOFT skewed_entries 3) 12 skewed_well_formed
                    ltac:(vm_compute; reflexivity) ltac:(lia)))).
    reflexivity.
Defined.
